(* ===== verification/_CoqProject ===== *)
-Q . S2P
Prelude.v
GoStd.v
GoTime.v
K8s.v
V1beta1.v
Constant.v
Metadata.v
Result.v
Status.v
Merge.v
Kube.v
Controllerutil.v
Builder.v
Plugins.v
Services.v
Secrets.v
Rbac.v
ServerConf.v
Overrides.v
Sts.v
Builders.v
Trace.v
Scaling.v
ControllerUtils.v
Configurations.v
Resources.v
Timestamps.v
Hoare.v
Store.v
Behaviour.v
Tame.v
Names.v
Converge.v
Overridden.v
Steps.v
Deletion.v
Cli.v
Reconcile.v
Recorded.v
Authority.v
Quiet.v
Rollout.v
Credentials.v
Cleanup.v
Restarts.v
Volumes.v
Queue.v
Conditions.v
Clock.v
Effects.v
Replicas.v
Progress.v
Unreported.v
Settled.v
Eventually.v
Main.v
Setup.v
Hidden.v
Memory.v
Copying.v
Deepcopy.v
Aliasing.v
PodExecutor.v
Sim.v
SimStore.v
Selecting.v
Rested.v
Rolling.v
Rolled.v
Lagging.v
Witnesses.v
Converged.v
Copied.v
