(* ===== verification/Prelude.v ===== *)
(** * The RabbitMQ cluster operator: a verification library

    The operator watches RabbitmqCluster objects of a Kubernetes API server and
    brings the objects a cluster consists of (services, secrets, ConfigMaps,
    access control, and here one StatefulSet for each replica) to the state
    the cluster asks for.  One call of [Reconcile] reads the cluster, runs a
    fixed sequence of steps until one of them ends the call, and answers
    whether and when it wants to be called again.  This library translates the
    operator's own Go code, function by function, and proves what the functions
    do.

    ** How the code is represented

    - A Go function without shared state is a function into [outcome]: a value,
      or a panic (nil dereference, index out of range, write to a nil map,
      failed type assertion).  [fallible] adds Go's error as a value.
    - A step of the reconciler is a computation [Run W A] (file Kube) over the
      cluster object that all steps share through one pointer and a world [W].
      A panic keeps the state, which is what the deferred status update sees.
    - The world is only known through the class [Kube]: the cached client, the
      uncached reader, the clientset, events, the clock, randomness and the
      commands in pods.  Every answer is possible, in particular conflicts and
      objects that are not found; [GetLaw], and [CsGetLaw] for the clientset,
      is the one law that theorems about reads use: an object that is read has
      the key it was asked for.  The third-party codecs (ini files, JSON and
      strategic merge patch, semantic equality, title case) are the class
      [Library].
    - [run m s Q] (file Trace) says what a computation answers, in which state
      it ends, and which changing calls it makes, in order.  The theorems about
      steps have this form and hold for every world.
    - A nil map is told from an empty one ([gomap]), a nil slice from an empty
      one where the code does ([slice]); a pointer is an [option].  Numbers are
      [Z]; where a width matters (durations, the memory limit) it is written
      out or is a hypothesis.  A quantity is its value in nano units.

    ** Files, and the code they translate

    Data: Prelude, GoStd (strings, errors, bounded retries), GoTime (RFC 3339
    times), K8s (the fields of the Kubernetes types the operator uses),
    V1beta1 (api/v1beta1: the RabbitmqCluster type and the predicates on it),
    Constant (internal/constant: names and the port manager), Metadata
    (internal/metadata), Result (controllers/result).

    Status (internal/status): the four conditions.

    Generated objects (internal/resource): Merge (the six merges and the two
    sorts of utils.go), Overrides (applyStsOverride, applyPodSpecOverride),
    Builder (what all builders share), Services, Secrets, Plugins, ServerConf,
    Rbac, Sts (statefulset.go) and Builders (the sequence of builders, with
    Build and Update chosen by the builder).  Controllerutil holds the helpers
    of the vendored controllerutil package that the operator calls.

    Steps of a reconciliation (controllers): ControllerUtils (utils.go and the
    owner index), Configurations (marker annotations), Scaling
    (internal/scaling), Resources (reconcile_resources.go and
    reconcile_persistence.go), Steps (status, pause, scale down, TLS, operator
    defaults), Deletion (reconcile_finalizer.go), Cli (reconcile_cli.go),
    Reconcile (the sequence and the deferred status update), Main (what
    main.go reads from the environment) and Setup (the rest of main.go,
    pkg/profiling, and SetupWithManager: what the cache shows and what is
    watched).  PodExecutor (pod_executor.go) is one way to provide the commands
    in pods, with the network as a parameter.

    Memory is a memory of Go, with locations, in which values share storage.
    Over it, Copying has the statements that the generator of deep copies
    writes, Deepcopy the generated functions (zz_generated.deepcopy.go), and
    Aliasing the code that writes to a map or a slice it was given.  They say
    why the other files may treat an object as a value.

    The other files translate no code.  Trace is the logic of calls.  Store is
    an API server that only the operator writes, as an interface: reads answer
    what is stored, a write stores what is sent up to the fields the server
    assigns, and [wp] is the logic of what a computation leaves there.  On it,
    Behaviour and Tame give every builder's update one shape and say for which
    clusters no update fails ([Tidy]: defaults set, no override), Names tells
    the children apart, and Converge puts the rounds together.  Timestamps
    orders the strings of GoTime.  Overridden is about the override of the
    claim templates.  Recorded adds to any world a record of what its gets and
    lists have answered; Authority lists, by that record, the calls a
    reconciliation may make; Cleanup is about a cluster that is being deleted;
    Restarts puts the restarts together; Queue refines the rounds on the
    children to an abstract machine; Unreported is about rounds that follow one
    another before a status is written; Volumes is about growing the claims of
    a replica; Settled says what a cluster looks like with which the operator
    is done.  Hoare has triples with a postcondition for panics, and Quiet the
    rules for an invariant about the objects of one kind, which all calls keep
    that write no such object.  Rollout uses them for the StatefulSets of a
    server that may refuse any call, and follows a cluster over many
    reconciliations; Credentials uses them for the Secrets of a server that
    others write at the same time and that the operator reads through a cache
    that may be out of date.  Hidden is about the labels that Setup gives the
    cache: the other interfaces speak of the objects that the cache shows, and
    Hidden says which ones it does.

    Eventually is about all reconciliations of a cluster together.  It is
    prepared by Conditions (which changes of the children the conditions do not
    see), Clock (no step turns the clock back), Effects (a logic like [wp] for
    steps that write the status of the cluster), Replicas (what an update
    leaves of a StatefulSet) and Progress (what is relied on about the
    children, and the potential: the children to be written, weighted by the
    number of replicas and two, the StatefulSets to be restarted, and one each
    for the conditions, the other fields of the status and the endpoints).

    Sim is a small concrete world.  SimStore shows that it satisfies the laws
    of the interfaces; Lagging adds versions and a stale cache to it, Selecting
    a cache that holds only the objects with a label.  SimStore, Selecting,
    Rested, Rolling, Rolled, Lagging, Witnesses, Converged and Copied give for
    each theorem with hypotheses a case in which they hold, and a run in which
    a new cluster reaches an answer that asks for nothing more.

    ** What the theorems show

    - Authority: whatever the server answers and however a reconciliation ends,
      it calls nothing outside a closed list of forms, on the names of the
      cluster that was read and on objects that were read, with the one change
      that the form names (Authority); no two builders share an object (Names).
    - Rolling out: over any number of reconciliations, with a server that
      refuses or fails as it likes, at most one StatefulSet is disturbed at a
      time (Rollout), provided that it reports so before the next
      reconciliation; without the report as many can be as have to be written
      (Unreported).
    - Credentials: whatever happens in a reconciliation, a stored Secret keeps
      its cookie, user name and password (Credentials); in a server with a
      stale cache the creations and updates that would change them are refused
      (Lagging).
    - Refinement: the rounds on the children are those of an abstract queue,
      while the controllers of Kubernetes write the status of the StatefulSets
      (Queue).
    - Liveness: on an API server that stores what it is sent, the
      reconciliations of a cluster without an override that is not paused,
      deleted or scaled down come to an end.  Each one of a cluster whose
      StatefulSets are ready, and whose pods carry out what they are asked,
      lowers the potential or is the last one, after which nothing is called;
      one that finds a StatefulSet not ready raises it by at most one
      (Eventually).  A new cluster of one replica needs fifteen (Rested).
    - Termination: every round on the children settles one child with at most
      three calls, the number of unsettled children bounds the rounds, and then
      nothing more is called (Converge).  After a change of the configuration
      every StatefulSet is restarted once (Restarts).  A cluster that is being
      deleted is cleaned up in one reconciliation (Cleanup), and the claims of
      a replica have the desired size after one run of the scaler (Volumes).
    - One reconciliation creates or updates at most one child, one of the
      children of the cluster, after growing its volumes if it is a
      StatefulSet, and touches none while a replica is not ready (Resources);
      the sequence of steps ends with an answer that is never final before the
      last step (Reconcile); a cluster that is as it should be stays so, and
      nothing is called (Settled); a paused cluster is not touched (Reconcile,
      Steps).
    - CreateOrUpdate sends at most one request, only for a reason, and reports
      which (Resources); a restart sends back the StatefulSet that was read
      with one annotation changed and stops after five attempts (Resources),
      and comparing the stamps as strings is comparing times (Timestamps); the
      commands run in the order of a script, not before the plugins have had
      time to arrive, and stop at the first failure (Cli); the defaults of the
      operator are filled in where the cluster names none (Steps).
    - Deletion labels every pod of a StatefulSet before it deletes it, only one
      the cluster controls and only by its uid, each listed one in turn, and
      then takes the finalizer off (Deletion); volumes never shrink, and claims
      are written only after the StatefulSet is gone (Scaling).
    - Every object the operator generates carries the labels by which it is
      found, unless an override replaces them (Hidden).
    - Every builder's update keeps the name, sets labels, annotations and the
      controller, computes its part of the object, keeps the rest, and is a
      fixed point after one application (Services, Secrets, Plugins, Rbac, Sts;
      the common part is in Builder).  The merges refine a reference definition
      (Merge); every mounted volume exists (Sts); the headroom does not
      overflow (ServerConf).
    - What DeepCopy returns shares nothing with what it was called on, for
      every type of the API (Deepcopy); the merges of labels and annotations
      write the map they are given and no other (Aliasing); a command's whole
      output is collected, in whatever order its two streams are read
      (PodExecutor).
    - Several theorems state behaviour that the comments of the code or the API
      do not promise: a scale down by two or more panics before it is refused
      (Reconcile), an override of the claim templates that differs from the
      storage of the spec ends every round with an error (Overridden), an
      override of the label part-of of the client service hides the Service
      from the operator, and no later child is reached (Hidden),
      ClusterAvailable is never True, AllReplicasReady depends on the last
      StatefulSet only and transition times never move (Status), one position
      of a user's variable defeats the sorting of the environment (Merge), a
      duration of the environment can wrap around (Main).

    ** Bounds

    The only counted recursion is that of the code: five attempts of the retry
    helpers, ten polls after a deletion.  No other fuel is used.  The theorem
    of Eventually leaves out reconciliations of two kinds: those within a
    second of a change of the configuration or two of one of the plugins, when
    the operator restarts or waits again, and those that find a StatefulSet of
    a cluster of several replicas being updated while queues are to be
    rebalanced after it, which mark the cluster object itself.

    ** Not modelled

    Logging, including the diff that PrintChange logs; sleeping; the flags of
    the command line; the manager itself, which is a parameter of main; the
    connection behind the pod executor; the helpers of the system tests, which
    talk to a live cluster.  Outside the files on memory values are immutable:
    a place where the code aliases a shared object, as the service builder does
    with the cluster, threads it as state.  Fields of Kubernetes types the
    operator neither reads nor writes are left out. *)

From Stdlib Require Export Lia ZArith ssreflect.
From stdpp Require Export base tactics gmap list strings pretty.

#[export] Set Default Goal Selector "!".
#[export] Set Warnings "-clear-no-such-hyp".
#[global] Open Scope general_if_scope.

(** ** Scope and tactics of the development *)

Declare Scope op_scope.
Delimit Scope op_scope with op.

Create HintDb op discriminated.
Create Rewrite HintDb op.

(** Case analysis on every boolean or [option] test that blocks the goal. *)
Ltac split_tests :=
  repeat (case_match; simplify_eq/=; try done).

(** Turn a boolean equation in the context into the proposition it decides. *)
Ltac to_prop :=
  repeat match goal with
  | H : bool_decide _ = true |- _ => apply bool_decide_eq_true_1 in H
  | H : bool_decide _ = false |- _ => apply bool_decide_eq_false_1 in H
  | H : (_ =? _)%string = true |- _ => apply String.eqb_eq in H
  | H : (_ =? _)%string = false |- _ => apply String.eqb_neq in H
  | H : (_ && _) = true |- _ => apply andb_true_iff in H as [? ?]
  | H : (_ || _) = false |- _ => apply orb_false_iff in H as [? ?]
  | H : negb _ = true |- _ => apply negb_true_iff in H
  | H : negb _ = false |- _ => apply negb_false_iff in H
  end.

(** Close a goal that follows from the tests of the definitions in it. *)
Ltac by_tests := repeat (case_match; simplify_eq/=); to_prop; simplify_eq/=; try done; try lia.

(** ** Computations that can panic

    A Go function that neither fails nor touches a shared state returns a
    value or panics (nil dereference, index out of range, assignment to an
    entry of a nil map, failed type assertion).  *)

Inductive outcome (A : Type) : Type :=
  | Returns (a : A)
  | Panics (msg : string).
Arguments Returns {A} _.
Arguments Panics {A} _.

#[export] Instance outcome_ret : MRet outcome := @Returns.
#[export] Instance outcome_bind : MBind outcome := λ A B f m,
  match m with Returns a => f a | Panics e => Panics e end.

(** ** Stateful computations

    [M S A] threads a state [S]; a panic keeps the state reached so far,
    which is what the deferred functions of a panicking Go function see. *)

Definition M (S A : Type) : Type := S → outcome A * S.

#[export] Instance M_ret S : MRet (M S) := λ A a s, (Returns a, s).
#[export] Instance M_bind S : MBind (M S) := λ A B f m s,
  match m s with
  | (Returns a, s') => f a s'
  | (Panics e, s') => (Panics e, s')
  end.

Definition get {S} : M S S := λ s, (Returns s, s).
Definition put {S} (s' : S) : M S unit := λ _, (Returns tt, s').
Definition gets {S A} (f : S → A) : M S A := λ s, (Returns (f s), s).
Definition modify {S} (f : S → S) : M S unit := λ s, (Returns tt, f s).
Definition panic {S A} (msg : string) : M S A := λ s, (Panics msg, s).
Definition lift {S A} (o : outcome A) : M S A := λ s, (o, s).

Lemma M_bind_ret {S A B} (f : A → M S B) (a : A) s :
  (mret a ≫= f : M S B) s = f a s.
Proof. done. Qed.

Lemma M_bind_eq {S A B} (f : A → M S B) (m : M S A) s a s' :
  m s = (Returns a, s') → (m ≫= f) s = f a s'.
Proof. intros E. by rw /mbind /M_bind E. Qed.

Lemma M_bind_panic {S A B} (f : A → M S B) (m : M S A) s e s' :
  m s = (Panics e, s') → (m ≫= f) s = (Panics e, s').
Proof. intros E. by rw /mbind /M_bind E. Qed.

Lemma M_bind_inv {S A B} (f : A → M S B) (m : M S A) s b s' :
  (m ≫= f) s = (Returns b, s') →
  ∃ a s1, m s = (Returns a, s1) ∧ f a s1 = (Returns b, s').
Proof.
  rw /mbind /M_bind. destruct (m s) as [[a|e] s1] eqn:E; [|done]. eauto.
Qed.

Lemma M_bind_assoc {S A B C} (m : M S A) (f : A → M S B) (g : B → M S C) s :
  ((m ≫= f) ≫= g) s = (m ≫= (λ a, f a ≫= g)) s.
Proof. rw /mbind /M_bind. by destruct (m s) as [[]]. Qed.

(** Peel one [bind] off a computation that is known to return. *)
Ltac m_inv H :=
  let a := fresh "a" in let s := fresh "s" in let E := fresh "E" in
  apply M_bind_inv in H as (a & s & E & H).

#[export] Hint Rewrite @M_bind_ret : op.

(** ** Go maps and slices

    A Go map or slice is nil or it is allocated.  Reading a nil map finds
    nothing; writing to it panics; ranging over it does nothing. *)

Abbreviation gomap V := (option (gmap string V)).
Abbreviation slice A := (option (list A)).

Definition gm {V} (m : gomap V) : gmap string V := default ∅ m.
Definition sl {A} (l : slice A) : list A := default [] l.

Definition gm_lookup {V} (m : gomap V) (k : string) : option V := gm m !! k.

(** [m[k]] on a map of strings: the zero value when the key is absent. *)
Definition gm_get (m : gomap string) (k : string) : string :=
  default "" (gm_lookup m k).

(** [m[k] = v]. *)
Definition gm_insert {V} (k : string) (v : V) (m : gomap V) : outcome (gomap V) :=
  match m with
  | Some m => Returns (Some (<[k := v]> m))
  | None => Panics "assignment to entry in nil map"
  end.

(** [delete(m, k)] is a no-op on a nil map. *)
Definition gm_delete {V} (k : string) (m : gomap V) : gomap V := delete k <$> m.

(** [if m == nil { m = make(map[string]V) }]. *)
Definition gm_make {V} (m : gomap V) : gomap V := Some (gm m).

Lemma gm_lookup_insert {V} k (v : V) m m' k' :
  gm_insert k v m = Returns m' →
  gm_lookup m' k' = if decide (k = k') then Some v else gm_lookup m k'.
Proof.
  rw /gm_insert /gm_lookup. destruct m as [m|]; [|done]. intros [= <-]. simpl.
  apply lookup_insert.
Qed.

Lemma gm_lookup_delete {V} k (m : gomap V) k' :
  gm_lookup (gm_delete k m) k' = if decide (k = k') then None else gm_lookup m k'.
Proof.
  rw /gm_lookup /gm_delete. destruct m as [m|]; simpl.
  - apply lookup_delete.
  - rw lookup_empty. by case_decide.
Qed.

(** ** Lists updated by index *)

(** [l[i], l[j] = l[j], l[i]] on a slice; an index out of range panics. *)
Definition swap {A} (i j : nat) (l : list A) : outcome (list A) :=
  match l !! i, l !! j with
  | Some x, Some y => Returns (<[i := y]> (<[j := x]> l))
  | _, _ => Panics "index out of range"
  end.

Lemma swap_Permutation {A} i j (l l' : list A) : swap i j l = Returns l' → l' ≡ₚ l.
Proof.
  rw /swap. destruct (l !! i) as [x|] eqn:Ei; [|done].
  destruct (l !! j) as [y|] eqn:Ej; [|done]. intros [= <-].
  by apply Permutation_insert_swap.
Qed.

Lemma swap_length {A} i j (l l' : list A) : swap i j l = Returns l' → length l' = length l.
Proof. intros E. by rw (swap_Permutation _ _ _ _ E). Qed.

Lemma swap_lookup {A} i j (l l' : list A) k :
  swap i j l = Returns l' →
  l' !! k = if decide (k = i) then l !! j else if decide (k = j) then l !! i else l !! k.
Proof.
  rw /swap. destruct (l !! i) as [x|] eqn:Ei; [|done].
  destruct (l !! j) as [y|] eqn:Ej; [|done]. intros [= <-].
  pose proof (lookup_lt_Some _ _ _ Ei). pose proof (lookup_lt_Some _ _ _ Ej).
  destruct (decide (k = i)) as [->|Hki]; [by rw list_lookup_insert_eq ?length_insert|].
  rw list_lookup_insert_ne; [by apply not_eq_sym|].
  destruct (decide (k = j)) as [->|Hkj]; [by rw list_lookup_insert_eq|].
  rw list_lookup_insert_ne; [by apply not_eq_sym|done].
Qed.
