(* ===== verification/GoStd.v ===== *)
(** The parts of Go's standard library and of the Kubernetes error type the
    operator is written with: package strings, strconv.Itoa, the error values
    and their wrapping, durations, base64, and the bounded retry loops. *)

From S2P Require Import Prelude.
From Stdlib Require Import Ascii.

(** ** Package strings *)

Definition HasPrefix (s p : string) : bool := String.prefix p s.

Definition HasSuffix (s p : string) : bool :=
  (String.length p <=? String.length s) &&
  (String.substring (String.length s - String.length p) (String.length p) s =? p)%string.

(** [strings.TrimSuffix]: drops the suffix once, if it is there. *)
Definition TrimSuffix (s p : string) : string :=
  if HasSuffix s p then String.substring 0 (String.length s - String.length p) s else s.

Definition TrimPrefix (s p : string) : string :=
  if HasPrefix s p
  then String.substring (String.length p) (String.length s - String.length p) s else s.

(** [strings.Join(elems, sep)]. *)
Fixpoint Join (elems : list string) (sep : string) : string :=
  match elems with
  | [] => ""
  | [s] => s
  | s :: elems => s +:+ sep +:+ Join elems sep
  end.

(** [strings.Contains]: [sub] occurs at some offset of [s]. *)
Fixpoint Contains (s sub : string) : bool :=
  String.prefix sub s ||
  match s with EmptyString => false | String _ s => Contains s sub end.

(** [strings.Split(s, sep)] for a separator of one byte. *)
Fixpoint Split (s : string) (sep : ascii) : list string :=
  match s with
  | EmptyString => [""]
  | String c s =>
      if Ascii.eqb c sep then "" :: Split s sep
      else match Split s sep with
           | [] => [String c ""]
           | w :: ws => String c w :: ws
           end
  end.

(** ASCII white space, the bytes [strings.TrimSpace] cuts. *)
Definition isSpace (c : ascii) : bool :=
  let n := nat_of_ascii c in (n =? 32) || ((9 <=? n) && (n <=? 13)).

Fixpoint TrimLeftSpace (s : string) : string :=
  match s with
  | String c s' => if isSpace c then TrimLeftSpace s' else s
  | EmptyString => ""
  end.

Definition TrimSpace (s : string) : string :=
  String.rev (TrimLeftSpace (String.rev (TrimLeftSpace s))).

(** [strconv.Itoa] and the verb %d. *)
Definition Itoa (n : Z) : string := pretty n.

Definition newline : string := String (ascii_of_nat 10) "".
Definition dquote : string := String (ascii_of_nat 34) "".

(** ** Errors

    A Kubernetes API error carries a machine-readable reason; [fmt.Errorf]
    with %w keeps the chain that [errors.As] walks, with %v it does not. *)

Inductive StatusReason :=
  | StatusReasonNotFound | StatusReasonConflict | StatusReasonAlreadyExists
  | StatusReasonBadRequest | StatusReasonInvalid | StatusReasonUnknown.

Inductive error :=
  | StatusError (reason : StatusReason) (msg : string)
  | New (msg : string)
  | WrapError (prefix : string) (err : error).

#[export] Instance StatusReason_eq_dec : EqDecision StatusReason.
Proof. solve_decision. Defined.

#[export] Instance error_eq_dec : EqDecision error.
Proof. solve_decision. Defined.

Fixpoint Error (e : error) : string :=
  match e with
  | StatusError _ msg => msg
  | New msg => msg
  | WrapError p e => p +:+ Error e
  end.

(** [fmt.Errorf] with the verb %v: the text only. *)
Definition Errorf_v (p : string) (e : error) : error := New (p +:+ Error e).

Fixpoint ReasonForError (e : error) : StatusReason :=
  match e with
  | StatusError r _ => r
  | New _ => StatusReasonUnknown
  | WrapError _ e => ReasonForError e
  end.

Definition errIsNotFound (e : error) : bool :=
  bool_decide (ReasonForError e = StatusReasonNotFound).
Definition errIsConflict (e : error) : bool :=
  bool_decide (ReasonForError e = StatusReasonConflict).

(** The Go type [error]: nil or an error value. *)
Abbreviation goerror := (option error).

Definition IsNotFound (e : goerror) : bool :=
  match e with Some e => errIsNotFound e | None => false end.
Definition IsConflict (e : goerror) : bool :=
  match e with Some e => errIsConflict e | None => false end.

(** [client.IgnoreNotFound]. *)
Definition IgnoreNotFound (e : goerror) : goerror := if IsNotFound e then None else e.

(** A pair of results [(T, error)] of which one is meaningful. *)
Abbreviation result A := (error + A)%type.

(** ** Durations, in nanoseconds *)

Definition Millisecond : Z := 1000000.
Definition Second : Z := 1000000000.

(** ** client-go's bounded retry

    [retry.OnError(DefaultRetry, retriable, fn)]: [fn] runs at most
    [Steps] times; an error that is not retriable ends the loop, and so does
    success.  The sleeps between the attempts do not show in the model. *)

Definition DefaultRetrySteps : nat := 5.

Fixpoint OnErrorSteps {S} (steps : nat) (retriable : error → bool)
    (fn : M S goerror) (lastErr : goerror) : M S goerror :=
  match steps with
  | O => mret lastErr
  | Datatypes.S steps =>
      err ← fn;
      match err with
      | None => mret None
      | Some e => if retriable e then OnErrorSteps steps retriable fn (Some e)
                  else mret (Some e)
      end
  end.

Definition OnError {S} (retriable : error → bool) (fn : M S goerror) : M S goerror :=
  OnErrorSteps DefaultRetrySteps retriable fn None.

Definition RetryOnConflict {S} (fn : M S goerror) : M S goerror :=
  OnError errIsConflict fn.

(** The state after [n] runs of [fn], as long as each one returns. *)
Fixpoint run_n {S} (n : nat) (fn : M S goerror) : M S unit :=
  match n with O => mret tt | Datatypes.S n => _ ← fn; run_n n fn end.

Lemma OnErrorSteps_ok {S} n r (fn : M S goerror) last s s' :
  fn s = (Returns None, s') → OnErrorSteps (Datatypes.S n) r fn last s = (Returns None, s').
Proof. intros E. simpl. by rw (M_bind_eq _ _ _ _ _ E). Qed.

Lemma OnErrorSteps_fatal {S} n r (fn : M S goerror) last s e s' :
  fn s = (Returns (Some e), s') → r e = false →
  OnErrorSteps (Datatypes.S n) r fn last s = (Returns (Some e), s').
Proof. intros E Hr. simpl. by rw (M_bind_eq _ _ _ _ _ E) Hr. Qed.

Lemma OnErrorSteps_retry {S} n r (fn : M S goerror) last s e s' :
  fn s = (Returns (Some e), s') → r e = true →
  OnErrorSteps (Datatypes.S n) r fn last s = OnErrorSteps n r fn (Some e) s'.
Proof. intros E Hr. simpl. by rw (M_bind_eq _ _ _ _ _ E) Hr. Qed.

(** An attempt that always fails with a retriable error and leaves the state
    as it was is the same as one failure, whatever the number of steps. *)
Lemma OnErrorSteps_stuck {S} n r (fn : M S goerror) last s e :
  fn s = (Returns (Some e), s) → r e = true →
  OnErrorSteps (Datatypes.S n) r fn last s = (Returns (Some e), s).
Proof.
  intros E Hr. revert last. induction n as [|n IH]; intros last.
  - by rw (OnErrorSteps_retry _ _ _ _ _ _ _ E Hr).
  - rw (OnErrorSteps_retry _ _ _ _ _ _ _ E Hr). apply IH.
Qed.

(** An invariant of every attempt is an invariant of the loop. *)
Lemma OnErrorSteps_inv {S} (P : S → Prop) n r (fn : M S goerror) last s o s' :
  (∀ s1 o1 s2, P s1 → fn s1 = (o1, s2) → P s2) →
  P s → OnErrorSteps n r fn last s = (o, s') → P s'.
Proof.
  intros Hfn. revert last s. induction n as [|n IH]; intros last s HP; simpl.
  - by intros [= <- <-].
  - rw /mbind /M_bind. destruct (fn s) as [[err|p] s1] eqn:E.
    + destruct err as [e|]; [case_match|]; intros Hr.
      * eapply IH; [|exact Hr]. by eapply Hfn.
      * injection Hr as _ <-. by eapply Hfn.
      * injection Hr as _ <-. by eapply Hfn.
    + intros [= _ <-]. by eapply Hfn.
Qed.

(** ** Lemmas on the string functions *)

Lemma string_app_cons c s t : String c s +:+ t = String c (s +:+ t).
Proof. done. Qed.

Lemma string_app_nil_l (t : string) : "" +:+ t = t.
Proof. done. Qed.

Lemma string_app_assoc (a b c : string) : (a +:+ b) +:+ c = a +:+ (b +:+ c).
Proof. induction a as [|x a IH]; [done|]. by rw !string_app_cons IH. Qed.

Lemma string_app_nil_r (a : string) : a +:+ "" = a.
Proof. induction a as [|x a IH]; [done|]. by rw string_app_cons IH. Qed.

Lemma string_length_app (a b : string) :
  String.length (a +:+ b) = (String.length a + String.length b)%nat.
Proof. induction a as [|x a IH]; [done|]. rw string_app_cons /=. by f_equal. Qed.

Lemma prefix_cons c s t : String.prefix (String c s) (String c t) = String.prefix s t.
Proof. simpl. destruct (ascii_dec c c); [done|congruence]. Qed.

Lemma prefix_nil t : String.prefix "" t = true.
Proof. by destruct t. Qed.

Lemma prefix_app s t : String.prefix s (s +:+ t) = true.
Proof. induction s as [|c s IH]; [apply prefix_nil|]. by rw string_app_cons prefix_cons. Qed.

Lemma prefix_spec p s : String.prefix p s = true ↔ ∃ t, s = p +:+ t.
Proof.
  split; [|intros [t ->]; apply prefix_app].
  revert s. induction p as [|c p IH]; intros s; [by exists s|].
  destruct s as [|d s]; [done|]. simpl.
  destruct (ascii_dec c d) as [->|]; [|done].
  intros [t ->]%IH. by exists t.
Qed.

Lemma HasPrefix_spec s p : HasPrefix s p = true ↔ ∃ t, s = p +:+ t.
Proof. apply prefix_spec. Qed.

Lemma Contains_spec s sub : Contains s sub = true ↔ ∃ a b, s = a +:+ (sub +:+ b).
Proof.
  induction s as [|c s IH]; cbn [Contains].
  - rw orb_false_r prefix_spec. split.
    + intros [t Ht]. exists "", t. done.
    + intros ([|] & b & ?); [|done]. by exists b.
  - rw orb_true_iff prefix_spec IH. split.
    + intros [[t E]|(a & b & ->)]; [by exists "", t|by exists (String c a), b].
    + intros (a & b & E). destruct a as [|d a]; [left; by exists b|].
      rw string_app_cons in E. injection E as -> ->. right. eauto.
Qed.

Lemma substring_prefix (a b : string) : String.substring 0 (String.length a) (a +:+ b) = a.
Proof. induction a as [|c a IH]; [by destruct b|]. rw string_app_cons /=. by f_equal. Qed.

Lemma substring_full (a : string) : String.substring 0 (String.length a) a = a.
Proof. induction a as [|c a IH]; simpl; [done|]. by f_equal. Qed.

Lemma substring_suffix (a b : string) n :
  n = String.length b → String.substring (String.length a) n (a +:+ b) = b.
Proof. intros ->. induction a as [|c a IH]; [apply substring_full|done]. Qed.

Lemma HasSuffix_app a b : HasSuffix (a +:+ b) b = true.
Proof.
  rw /HasSuffix string_length_app. apply andb_true_iff. split.
  - apply Nat.leb_le. lia.
  - apply String.eqb_eq.
    replace (String.length a + String.length b - String.length b)%nat
      with (String.length a) by lia.
    by apply substring_suffix.
Qed.

Lemma TrimSuffix_app a b : TrimSuffix (a +:+ b) b = a.
Proof.
  rw /TrimSuffix HasSuffix_app string_length_app.
  replace (String.length a + String.length b - String.length b)%nat
    with (String.length a) by lia.
  apply substring_prefix.
Qed.

Lemma string_app_inj_l (a b c : string) : a +:+ b = a +:+ c → b = c.
Proof.
  induction a as [|x a IH]; [done|]. rw !string_app_cons. by intros [= ?%IH].
Qed.

Lemma string_app_inj_r (a b c : string) : a +:+ c = b +:+ c → a = b.
Proof.
  revert b. induction a as [|x a IH]; intros b E; destruct b as [|y b]; [done| | |].
  1,2: apply (f_equal String.length) in E; rw string_app_cons !string_length_app /= in E;
    rw ?string_length_app in E; lia.
  rw !string_app_cons in E. injection E as -> ?. f_equal. by apply IH.
Qed.

Lemma Itoa_inj n m : Itoa n = Itoa m → n = m.
Proof. apply (inj pretty). Qed.

#[export] Hint Rewrite string_app_assoc string_app_nil_r TrimSuffix_app : op.
