(* ===== verification/GoTime.v ===== *)
(** Package time, as far as the operator uses it: an instant is a number of
    nanoseconds since 1970 and the local zone is UTC, as in the operator's
    image.  [Format] and [Parse] are time.Format and time.Parse with the layout
    time.RFC3339, for the years 0 to 9999; [Parse] accepts the strict form of
    the layout and no other. *)

From S2P Require Import Prelude GoStd.
From Stdlib Require Import Ascii.

#[local] Open Scope Z_scope.

(** ** The proleptic Gregorian calendar *)

Record Date := mkDate { year : Z; month : Z; day : Z }.

Definition isLeap (y : Z) : bool := (y mod 4 =? 0) && (negb (y mod 100 =? 0) || (y mod 400 =? 0)).

Definition daysIn (m y : Z) : Z :=
  if m =? 2 then (if isLeap y then 29 else 28)
  else if (m =? 4) || (m =? 6) || (m =? 9) || (m =? 11) then 30 else 31.

(** The days of the year before the first of a month. *)
Definition daysBefore (leap : bool) (m : Z) : Z :=
  let table := [0; 31; 59; 90; 120; 151; 181; 212; 243; 273; 304; 334; 365] in
  default 0 (table !! Z.to_nat (m - 1)) + (if leap && (2 <? m) then 1 else 0).

(** From 0001-01-01 to 1970-01-01. *)
Definition unixToAbsolute : Z := 719162.

(** Years and day of the year, counted from the first of January of year 1:
    cycles of 400, 100, 4 and 1 years, each cutting off its long last year. *)
Definition absDate (d : Z) : Z * Z :=
  let n400 := d / 146097 in let d := d - 146097 * n400 in
  let n := d / 36524 in let n100 := n - n / 4 in let d := d - 36524 * n100 in
  let n4 := d / 1461 in let d := d - 1461 * n4 in
  let n := d / 365 in let n1 := n - n / 4 in let d := d - 365 * n1 in
  (1 + 400 * n400 + 100 * n100 + 4 * n4 + n1, d).

(** The month of a day of the year: a guess, then one step. *)
Definition monthOf (leap : bool) (yday : Z) : Z :=
  let m := yday / 31 + 1 in
  if daysBefore leap (m + 1) <=? yday then m + 1 else m.

Definition civil (days : Z) : Date :=
  let '(y, yday) := absDate (days + unixToAbsolute) in
  let m := monthOf (isLeap y) yday in
  mkDate y m (yday - daysBefore (isLeap y) m + 1).

Definition daysOfCivil (date : Date) : Z :=
  let y := year date - 1 in
  365 * y + y / 4 - y / 100 + y / 400 + daysBefore (isLeap (year date)) (month date)
  + day date - 1 - unixToAbsolute.

(** ** Two and four digits *)

Definition digitChar (n : Z) : ascii := ascii_of_nat (Z.to_nat (48 + n)).
Definition digits2 (n : Z) : list ascii := [digitChar (n / 10); digitChar (n mod 10)].
Definition digits4 (n : Z) : list ascii :=
  [digitChar (n / 1000); digitChar (n / 100 mod 10); digitChar (n / 10 mod 10); digitChar (n mod 10)].

Definition digitVal (c : ascii) : option Z :=
  let n := Z.of_nat (nat_of_ascii c) - 48 in
  if (0 <=? n) && (n <=? 9) then Some n else None.

Fixpoint number (cs : list ascii) (acc : Z) : option Z :=
  match cs with
  | [] => Some acc
  | c :: cs => d ← digitVal c; number cs (10 * acc + d)
  end.

(** ** Format and Parse *)

Definition FormatChars (t : Z) : list ascii :=
  let secs := t / Second in
  let date := civil (secs / 86400) in
  let tod := secs mod 86400 in
  digits4 (year date) ++ ["-"%char] ++ digits2 (month date) ++ ["-"%char] ++ digits2 (day date) ++
  ["T"%char] ++ digits2 (tod / 3600) ++ [":"%char] ++ digits2 (tod / 60 mod 60) ++ [":"%char] ++
  digits2 (tod mod 60) ++ ["Z"%char].

Definition Format (t : Z) : string := String.string_of_list_ascii (FormatChars t).

(** The zone: Z, or a sign and hours and minutes; in seconds. *)
Definition parseZone (cs : list ascii) : option Z :=
  match cs with
  | ["Z"%char] => Some 0
  | [sign; h1; h2; colon; m1; m2] =>
      hh ← number [h1; h2] 0; mm ← number [m1; m2] 0;
      if bool_decide (colon = ":"%char) && (hh <=? 24) && (mm <=? 60) then
        if bool_decide (sign = "+"%char) then Some (hh * 3600 + mm * 60)
        else if bool_decide (sign = "-"%char) then Some (- (hh * 3600 + mm * 60)) else None
      else None
  | _ => None
  end.

Definition ParseChars (cs : list ascii) : option Z :=
  match cs with
  | y1 :: y2 :: y3 :: y4 :: c1 :: m1 :: m2 :: c2 :: d1 :: d2 :: c3 :: h1 :: h2 :: c4 :: n1 :: n2 ::
    c5 :: s1 :: s2 :: zone =>
      y ← number [y1; y2; y3; y4] 0; m ← number [m1; m2] 0; d ← number [d1; d2] 0;
      h ← number [h1; h2] 0; n ← number [n1; n2] 0; s ← number [s1; s2] 0;
      off ← parseZone zone;
      if bool_decide ([c1; c2; c3; c4; c5] = ["-"; "-"; "T"; ":"; ":"]%char) &&
         (1 <=? m) && (m <=? 12) && (1 <=? d) && (d <=? daysIn m y) &&
         (h <=? 23) && (n <=? 59) && (s <=? 59)
      then Some ((daysOfCivil (mkDate y m d) * 86400 + h * 3600 + n * 60 + s - off) * Second)
      else None
  | _ => None
  end.

Definition Parse (s : string) : option Z := ParseChars (String.list_ascii_of_string s).

(** ** Lemmas *)

(** Turn boolean comparisons of the context into propositions. *)
Ltac zbool :=
  repeat match goal with
  | H : (_ && _) = true |- _ => apply andb_true_iff in H as [? ?]
  | H : (_ <=? _) = true |- _ => apply Z.leb_le in H
  | H : (_ <? _) = true |- _ => apply Z.ltb_lt in H
  | H : (_ =? _) = true |- _ => apply Z.eqb_eq in H
  end.

(** Divisions by constants in [lia]. *)
#[local] Ltac Zify.zify_post_hook ::= Z.to_euclidean_division_equations.

Lemma absDate_spec d :
  let '(y, yday) := absDate d in
  365 * (y - 1) + (y - 1) / 4 - (y - 1) / 100 + (y - 1) / 400 + yday = d ∧
  0 <= yday <= (if isLeap y then 365 else 364).
Proof.
  unfold absDate.
  set (n400 := d / 146097). set (d1 := d - 146097 * n400).
  set (n100 := d1 / 36524 - d1 / 36524 / 4). set (d2 := d1 - 36524 * n100).
  set (n4 := d2 / 1461). set (d3 := d2 - 1461 * n4).
  set (n1 := d3 / 365 - d3 / 365 / 4). set (d4 := d3 - 365 * n1).
  assert (H1 : 0 <= d1 < 146097) by (subst d1 n400; lia).
  assert (H2 : 0 <= n100 <= 3 ∧ 0 <= d2 ∧ (d2 < 36524 ∨ n100 = 3 ∧ d2 <= 36524)) by (subst d2 n100; lia).
  assert (H3 : 0 <= n4 <= 24 ∧ 0 <= d3 ∧ (d3 < 1461) ∧ (n4 = 24 → n100 = 3 ∨ d3 < 1460))
    by (subst d3 n4; lia).
  assert (H4 : 0 <= n1 <= 3 ∧ 0 <= d4 ∧ (d4 < 365 ∨ n1 = 3 ∧ d4 <= 365)) by (subst d4 n1; lia).
  set (y := 1 + 400 * n400 + 100 * n100 + 4 * n4 + n1).
  assert (E4 : (y - 1) / 4 = 100 * n400 + 25 * n100 + n4) by (subst y; lia).
  assert (E100 : (y - 1) / 100 = 4 * n400 + n100) by (subst y; lia).
  assert (E400 : (y - 1) / 400 = n400) by (subst y; lia).
  split.
  - rw E4 E100 E400. subst y d4 d3 d2 d1. lia.
  - split; [lia|]. destruct (isLeap y) eqn:El; [lia|].
    destruct (decide (d4 = 365)) as [Hd|]; [|lia]. exfalso.
    assert (n1 = 3) by lia. assert (n4 = 24 → n100 = 3) by (subst d4; lia).
    assert (y mod 4 = 0) by (subst y; lia).
    rw /isLeap in El. apply andb_false_iff in El as [El|[El1 El2]%orb_false_iff].
    + apply Z.eqb_neq in El. lia.
    + apply negb_false_iff in El1. apply Z.eqb_eq in El1. apply Z.eqb_neq in El2.
      subst y. lia.
Qed.

(** Every day of a common and of a leap year, checked. *)
Definition checkDay (leap : bool) (yday : Z) : bool :=
  let m := monthOf leap yday in
  let d := yday - daysBefore leap m + 1 in
  (1 <=? m) && (m <=? 12) && (1 <=? d) &&
  (d <=? daysIn m (if leap then 4 else 1)).

Lemma checkDay_all (leap : bool) yday :
  0 <= yday <= (if leap then 365 else 364) → checkDay leap yday = true.
Proof.
  intros Hd. assert (Hin : yday ∈ seqZ 0 (if leap then 366 else 365)).
  { apply elem_of_seqZ. destruct leap; lia. }
  clear Hd. revert yday Hin.
  enough (forallb (checkDay leap) (seqZ 0 (if leap then 366 else 365)) = true) as Hall.
  { intros yday Hin. by eapply forallb_forall in Hall; [|apply list_elem_of_In]. }
  by destruct leap; vm_compute.
Qed.

Lemma daysIn_leap m y y' : isLeap y = isLeap y' → daysIn m y = daysIn m y'.
Proof. rw /daysIn. by intros ->. Qed.

Lemma civil_spec days :
  let d := civil days in
  daysOfCivil d = days ∧ 1 <= month d <= 12 ∧ 1 <= day d <= daysIn (month d) (year d).
Proof.
  cbv zeta. rw /civil. pose proof (absDate_spec (days + unixToAbsolute)) as Hs.
  destruct (absDate (days + unixToAbsolute)) as [y yday]. destruct Hs as [Hs Hb].
  pose proof (checkDay_all _ _ Hb) as Hc. unfold checkDay in Hc. cbv zeta in Hc. zbool.
  rw /daysOfCivil. cbn [year month day]. split_and!; [|lia|lia|lia|].
  - set (x := daysBefore _ _) in *. lia.
  - rw (daysIn_leap _ y (if isLeap y then 4 else 1)); [by destruct (isLeap y)|done].
Qed.

(** Instants from 1970 to the end of year 9999. *)
Definition inRange (t : Z) : Prop := 0 <= t < 253402300800 * Second.

Lemma civil_year t : inRange t → 0 <= year (civil (t / Second / 86400)) <= 9999.
Proof.
  rw /inRange /Second /civil => Ht.
  pose proof (absDate_spec (t / 1000000000 / 86400 + unixToAbsolute)) as Hs.
  destruct (absDate _) as [y yday]. destruct Hs as [Hs Hb]. cbn [year].
  assert (0 <= yday <= 365) by (destruct (isLeap y); lia).
  assert (0 <= t / 1000000000 / 86400 < 2932897) by lia.
  rw /unixToAbsolute in Hs. lia.
Qed.

Lemma digitVal_digitChar d : 0 <= d <= 9 → digitVal (digitChar d) = Some d.
Proof.
  intros Hd. assert (Hin : d ∈ seqZ 0 10) by (apply elem_of_seqZ; lia). clear Hd. revert d Hin.
  apply Forall_forall. by apply (bool_decide_unpack _).
Qed.

Lemma number_digits2 n : 0 <= n <= 99 → number (digits2 n) 0 = Some n.
Proof.
  intros Hn. rw /digits2. cbn [number]. rw digitVal_digitChar; [lia|].
  cbn. rw digitVal_digitChar; [lia|]. cbn. f_equal. lia.
Qed.

Lemma number_digits4 n : 0 <= n <= 9999 → number (digits4 n) 0 = Some n.
Proof.
  intros Hn. rw /digits4. cbn [number].
  do 4 (rw digitVal_digitChar; [lia|]; cbn [mbind option_bind]). cbn. f_equal. lia.
Qed.

Lemma list_ascii_of_string_of_list cs :
  String.list_ascii_of_string (String.string_of_list_ascii cs) = cs.
Proof. induction cs as [|c cs IH]; simpl; [done|]. by f_equal. Qed.

(** The fields of an instant in range are in the ranges of their digits. *)
Lemma daysIn_bound m y : daysIn m y <= 31.
Proof. rw /daysIn. by repeat case_match. Qed.

(** ** Properties *)

(** An instant that is formatted and parsed again comes back, cut to the
    second: the annotations with which the operator marks an update are read
    as the time at which they were written. *)
Theorem Parse_Format t : inRange t → Parse (Format t) = Some (t / Second * Second).
Proof.
  intros Ht. pose proof (civil_year t Ht) as Hy.
  pose proof (civil_spec (t / Second / 86400)) as (Hc & Hm & Hd).
  pose proof (daysIn_bound (month (civil (t / Second / 86400))) (year (civil (t / Second / 86400)))) as Hb.
  rw /Parse /Format list_ascii_of_string_of_list /FormatChars.
  set (secs := t / Second) in *. set (date := civil (secs / 86400)) in *.
  set (tod := secs mod 86400).
  assert (0 <= tod < 86400) by (subst tod; lia).
  unfold digits4, digits2. cbn [app ParseChars].
  change [digitChar (year date / 1000); digitChar (year date / 100 mod 10);
     digitChar (year date / 10 mod 10); digitChar (year date mod 10)] with (digits4 (year date)).
  change [digitChar (month date / 10); digitChar (month date mod 10)] with (digits2 (month date)).
  change [digitChar (day date / 10); digitChar (day date mod 10)] with (digits2 (day date)).
  change [digitChar (tod / 3600 / 10); digitChar (tod / 3600 mod 10)] with (digits2 (tod / 3600)).
  change [digitChar (tod / 60 mod 60 / 10); digitChar ((tod / 60 mod 60) mod 10)]
    with (digits2 (tod / 60 mod 60)).
  change [digitChar (tod mod 60 / 10); digitChar ((tod mod 60) mod 10)] with (digits2 (tod mod 60)).
  rw number_digits4; [lia|]. rw !number_digits2; [lia..|].
  cbn [mbind option_bind parseZone]. rw bool_decide_eq_true_2 //.
  assert (∀ b, b = true → ∀ x : Z, (if b then Some x else None) = Some x) as Hif by (by intros ? ->).
  rw Hif.
  - repeat (apply andb_true_iff; split); try done; apply Z.leb_le; lia.
  - f_equal. destruct date as [y m d] eqn:E. cbn [year month day].
    rw Hc. assert (secs / 86400 * 86400 + tod = secs) as Hs by (subst tod; clearbody secs; lia).
    clearbody secs tod. clear - Hs H.
    assert (tod / 3600 = tod / 60 / 60) as -> by (by rw Z.div_div). lia.
Qed.
