(* ===== verification/K8s.v ===== *)
(** The Kubernetes API objects the operator reads and writes.

    Every record keeps the fields the operator looks at or sets, under the
    names of k8s.io/api; a value it only copies (affinity rules, security
    contexts, the remaining fields of a pod spec) is kept as its JSON text.
    Integers of 32 and 64 bits are [Z]; a pointer is an [option]; a quantity
    is its exact value in nano units, the resolution resource.Quantity has. *)

From S2P Require Import Prelude GoStd.

(** A JSON value the operator copies without looking inside. *)
Abbreviation RawJSON := string.

(** ** Quantities *)

Abbreviation Quantity := Z.

Definition nano : Z := 1.
Definition milli (n : Z) : Quantity := n * 1000000.
Definition unit_q (n : Z) : Quantity := n * 1000000000.
Definition KiB (n : Z) : Quantity := unit_q (n * 1024).
Definition MiB (n : Z) : Quantity := unit_q (n * 1048576).
Definition GiB (n : Z) : Quantity := unit_q (n * 1073741824).

(** [q.Cmp(y)]: -1, 0 or 1. *)
Definition Cmp (q y : Quantity) : Z :=
  match (q ?= y)%Z with Lt => -1 | Eq => 0 | Gt => 1 end.

(** [q.IsZero()]. *)
Definition IsZero (q : Quantity) : bool := (q =? 0)%Z.

(** [q.Value()]: the integer value, rounded away from zero. *)
Definition Value (q : Quantity) : Z :=
  if (0 <=? q)%Z then ((q + 999999999) / 1000000000)%Z
  else (- ((- q + 999999999) / 1000000000))%Z.

Abbreviation ResourceList := (gomap Quantity).

Definition ResourceStorage : string := "storage".
Definition ResourceCPU : string := "cpu".
Definition ResourceMemory : string := "memory".

(** ** Metadata *)

Record OwnerReference := mkOwnerReference {
  or_APIVersion : string;
  or_Kind : string;
  or_Name : string;
  or_UID : string;
  or_Controller : option bool;
  or_BlockOwnerDeletion : option bool
}.

Definition set_or_BlockOwnerDeletion (v : option bool) (r : OwnerReference) : OwnerReference :=
  mkOwnerReference (or_APIVersion r) (or_Kind r) (or_Name r) (or_UID r) (or_Controller r)
    v.

#[export] Instance OwnerReference_eq_dec : EqDecision OwnerReference.
Proof. solve_decision. Defined.

Record ObjectMeta := mkObjectMeta {
  om_Name : string;
  om_Namespace : string;
  om_UID : string;
  om_ResourceVersion : string;
  om_Generation : Z;
  om_DeletionTimestamp : option Z;
  om_Labels : gomap string;
  om_Annotations : gomap string;
  om_Finalizers : list string;
  om_OwnerReferences : list OwnerReference
}.

Definition set_om_Name (v : string) (r : ObjectMeta) : ObjectMeta :=
  mkObjectMeta v (om_Namespace r) (om_UID r) (om_ResourceVersion r) (om_Generation r)
    (om_DeletionTimestamp r) (om_Labels r) (om_Annotations r) (om_Finalizers r)
    (om_OwnerReferences r).

Definition set_om_Namespace (v : string) (r : ObjectMeta) : ObjectMeta :=
  mkObjectMeta (om_Name r) v (om_UID r) (om_ResourceVersion r) (om_Generation r)
    (om_DeletionTimestamp r) (om_Labels r) (om_Annotations r) (om_Finalizers r)
    (om_OwnerReferences r).

Definition set_om_Labels (v : gomap string) (r : ObjectMeta) : ObjectMeta :=
  mkObjectMeta (om_Name r) (om_Namespace r) (om_UID r) (om_ResourceVersion r)
    (om_Generation r) (om_DeletionTimestamp r) v (om_Annotations r) (om_Finalizers r)
    (om_OwnerReferences r).

Definition set_om_Annotations (v : gomap string) (r : ObjectMeta) : ObjectMeta :=
  mkObjectMeta (om_Name r) (om_Namespace r) (om_UID r) (om_ResourceVersion r)
    (om_Generation r) (om_DeletionTimestamp r) (om_Labels r) v (om_Finalizers r)
    (om_OwnerReferences r).

Definition set_om_Finalizers (v : list string) (r : ObjectMeta) : ObjectMeta :=
  mkObjectMeta (om_Name r) (om_Namespace r) (om_UID r) (om_ResourceVersion r)
    (om_Generation r) (om_DeletionTimestamp r) (om_Labels r) (om_Annotations r) v
    (om_OwnerReferences r).

Definition set_om_OwnerReferences (v : list OwnerReference) (r : ObjectMeta) : ObjectMeta :=
  mkObjectMeta (om_Name r) (om_Namespace r) (om_UID r) (om_ResourceVersion r)
    (om_Generation r) (om_DeletionTimestamp r) (om_Labels r) (om_Annotations r)
    (om_Finalizers r) v.

#[export] Instance ObjectMeta_eq_dec : EqDecision ObjectMeta.
Proof. solve_decision. Defined.

(** The metadata of an object literal that sets no other field. *)
Definition newObjectMeta (name namespace : string) (labels annotations : gomap string) : ObjectMeta :=
  mkObjectMeta name namespace "" "" 0 None labels annotations [] [].

Record NamespacedName := mkNamespacedName {
  nn_Namespace : string;
  nn_Name : string
}.

#[export] Instance NamespacedName_eq_dec : EqDecision NamespacedName.
Proof. solve_decision. Defined.

Record LabelSelector := mkLabelSelector {
  ls_MatchLabels : gomap string;
  ls_MatchExpressions : RawJSON
}.

#[export] Instance LabelSelector_eq_dec : EqDecision LabelSelector.
Proof. solve_decision. Defined.

Record LocalObjectReference := mkLocalObjectReference {
  lor_Name : string
}.

#[export] Instance LocalObjectReference_eq_dec : EqDecision LocalObjectReference.
Proof. solve_decision. Defined.

(** ** Pods *)

Record ObjectFieldSelector := mkObjectFieldSelector {
  ofs_APIVersion : string;
  ofs_FieldPath : string
}.

#[export] Instance ObjectFieldSelector_eq_dec : EqDecision ObjectFieldSelector.
Proof. solve_decision. Defined.

Record EnvVar := mkEnvVar {
  ev_Name : string;
  ev_Value : string;
  ev_ValueFrom : option ObjectFieldSelector (* the FieldRef of its EnvVarSource *)
}.

#[export] Instance EnvVar_eq_dec : EqDecision EnvVar.
Proof. solve_decision. Defined.

Record VolumeMount := mkVolumeMount {
  vm_Name : string;
  vm_MountPath : string;
  vm_SubPath : string;
  vm_ReadOnly : bool
}.

#[export] Instance VolumeMount_eq_dec : EqDecision VolumeMount.
Proof. solve_decision. Defined.

Record KeyToPath := mkKeyToPath {
  ktp_Key : string;
  ktp_Path : string
}.

#[export] Instance KeyToPath_eq_dec : EqDecision KeyToPath.
Proof. solve_decision. Defined.

(** One source of a projected volume. *)
Inductive VolumeProjection :=
  | ProjSecret (name : string) (items : list KeyToPath) (optional : option bool)
  | ProjConfigMap (name : string) (items : list KeyToPath)
  | ProjOther (raw : RawJSON).

#[export] Instance VolumeProjection_eq_dec : EqDecision VolumeProjection.
Proof. solve_decision. Defined.

(** The one non-nil member of a VolumeSource. *)
Inductive VolumeSource :=
  | VSEmptyDir
  | VSConfigMap (name : string) (defaultMode : option Z)
  | VSSecret (name : string) (defaultMode : option Z)
  | VSProjected (sources : list VolumeProjection) (defaultMode : option Z)
  | VSDownwardAPI (items : list (string * ObjectFieldSelector)) (defaultMode : option Z)
  | VSOther (raw : RawJSON).

#[export] Instance VolumeSource_eq_dec : EqDecision VolumeSource.
Proof. solve_decision. Defined.

Record Volume := mkVolume {
  vol_Name : string;
  vol_VolumeSource : VolumeSource
}.

Definition set_vol_VolumeSource (v : VolumeSource) (r : Volume) : Volume :=
  mkVolume (vol_Name r) v.

#[export] Instance Volume_eq_dec : EqDecision Volume.
Proof. solve_decision. Defined.

Record ContainerPort := mkContainerPort {
  cp_Name : string;
  cp_ContainerPort : Z;
  cp_Protocol : string
}.

#[export] Instance ContainerPort_eq_dec : EqDecision ContainerPort.
Proof. solve_decision. Defined.

Record ResourceRequirements := mkResourceRequirements {
  rr_Limits : ResourceList;
  rr_Requests : ResourceList
}.

Definition set_rr_Requests (v : ResourceList) (r : ResourceRequirements) : ResourceRequirements :=
  mkResourceRequirements (rr_Limits r) v.

#[export] Instance ResourceRequirements_eq_dec : EqDecision ResourceRequirements.
Proof. solve_decision. Defined.

Record Probe := mkProbe {
  pr_TCPSocketPort : string;
  pr_TimeoutSeconds : Z;
  pr_PeriodSeconds : Z;
  pr_SuccessThreshold : Z;
  pr_FailureThreshold : Z;
  pr_InitialDelaySeconds : Z
}.

#[export] Instance Probe_eq_dec : EqDecision Probe.
Proof. solve_decision. Defined.

Record Container := mkContainer {
  ctr_Name : string;
  ctr_Image : string;
  ctr_Command : list string;
  ctr_Args : list string;
  ctr_Env : slice EnvVar;
  ctr_VolumeMounts : slice VolumeMount;
  ctr_Ports : list ContainerPort;
  ctr_Resources : ResourceRequirements;
  ctr_ImagePullPolicy : string;
  ctr_TerminationMessagePath : string;
  ctr_TerminationMessagePolicy : string;
  ctr_ReadinessProbe : option Probe;
  ctr_PreStopCommand : slice string; (* Lifecycle.PreStop.Exec.Command *)
  ctr_SecurityContext : option RawJSON
}.

Definition set_ctr_Env (v : slice EnvVar) (r : Container) : Container :=
  mkContainer (ctr_Name r) (ctr_Image r) (ctr_Command r) (ctr_Args r) v
    (ctr_VolumeMounts r) (ctr_Ports r) (ctr_Resources r) (ctr_ImagePullPolicy r)
    (ctr_TerminationMessagePath r) (ctr_TerminationMessagePolicy r) (ctr_ReadinessProbe r)
    (ctr_PreStopCommand r) (ctr_SecurityContext r).

Definition set_ctr_VolumeMounts (v : slice VolumeMount) (r : Container) : Container :=
  mkContainer (ctr_Name r) (ctr_Image r) (ctr_Command r) (ctr_Args r) (ctr_Env r) v
    (ctr_Ports r) (ctr_Resources r) (ctr_ImagePullPolicy r) (ctr_TerminationMessagePath r)
    (ctr_TerminationMessagePolicy r) (ctr_ReadinessProbe r) (ctr_PreStopCommand r)
    (ctr_SecurityContext r).

Definition set_ctr_SecurityContext (v : option RawJSON) (r : Container) : Container :=
  mkContainer (ctr_Name r) (ctr_Image r) (ctr_Command r) (ctr_Args r) (ctr_Env r)
    (ctr_VolumeMounts r) (ctr_Ports r) (ctr_Resources r) (ctr_ImagePullPolicy r)
    (ctr_TerminationMessagePath r) (ctr_TerminationMessagePolicy r) (ctr_ReadinessProbe r)
    (ctr_PreStopCommand r) v.

#[export] Instance Container_eq_dec : EqDecision Container.
Proof. solve_decision. Defined.

(** [corev1.Container{}]. *)
Definition emptyContainer : Container :=
  mkContainer "" "" [] [] None None [] (mkResourceRequirements None None) "" "" "" None None None.

Record TopologySpreadConstraint := mkTopologySpreadConstraint {
  tsc_MaxSkew : Z;
  tsc_TopologyKey : string;
  tsc_WhenUnsatisfiable : string;
  tsc_LabelSelector : option LabelSelector
}.

#[export] Instance TopologySpreadConstraint_eq_dec : EqDecision TopologySpreadConstraint.
Proof. solve_decision. Defined.

Record PodSecurityContext := mkPodSecurityContext {
  psc_FSGroup : option Z;
  psc_RunAsUser : option Z;
  psc_Rest : RawJSON
}.

#[export] Instance PodSecurityContext_eq_dec : EqDecision PodSecurityContext.
Proof. solve_decision. Defined.

(** [corev1.PodSecurityContext{}]. *)
Definition emptyPodSecurityContext : PodSecurityContext := mkPodSecurityContext None None "".

Record PodSpec := mkPodSpec {
  ps_Volumes : list Volume;
  ps_Containers : list Container;
  ps_InitContainers : list Container;
  ps_Affinity : option RawJSON;
  ps_Tolerations : list RawJSON;
  ps_TopologySpreadConstraints : list TopologySpreadConstraint;
  ps_ImagePullSecrets : slice LocalObjectReference;
  ps_ServiceAccountName : string;
  ps_AutomountServiceAccountToken : option bool;
  ps_TerminationGracePeriodSeconds : option Z;
  ps_SecurityContext : option PodSecurityContext;
  ps_Rest : RawJSON
}.

Definition set_ps_Volumes (v : list Volume) (r : PodSpec) : PodSpec :=
  mkPodSpec v (ps_Containers r) (ps_InitContainers r) (ps_Affinity r) (ps_Tolerations r)
    (ps_TopologySpreadConstraints r) (ps_ImagePullSecrets r) (ps_ServiceAccountName r)
    (ps_AutomountServiceAccountToken r) (ps_TerminationGracePeriodSeconds r)
    (ps_SecurityContext r) (ps_Rest r).

Definition set_ps_Containers (v : list Container) (r : PodSpec) : PodSpec :=
  mkPodSpec (ps_Volumes r) v (ps_InitContainers r) (ps_Affinity r) (ps_Tolerations r)
    (ps_TopologySpreadConstraints r) (ps_ImagePullSecrets r) (ps_ServiceAccountName r)
    (ps_AutomountServiceAccountToken r) (ps_TerminationGracePeriodSeconds r)
    (ps_SecurityContext r) (ps_Rest r).

Definition set_ps_InitContainers (v : list Container) (r : PodSpec) : PodSpec :=
  mkPodSpec (ps_Volumes r) (ps_Containers r) v (ps_Affinity r) (ps_Tolerations r)
    (ps_TopologySpreadConstraints r) (ps_ImagePullSecrets r) (ps_ServiceAccountName r)
    (ps_AutomountServiceAccountToken r) (ps_TerminationGracePeriodSeconds r)
    (ps_SecurityContext r) (ps_Rest r).

Definition set_ps_Affinity (v : option RawJSON) (r : PodSpec) : PodSpec :=
  mkPodSpec (ps_Volumes r) (ps_Containers r) (ps_InitContainers r) v (ps_Tolerations r)
    (ps_TopologySpreadConstraints r) (ps_ImagePullSecrets r) (ps_ServiceAccountName r)
    (ps_AutomountServiceAccountToken r) (ps_TerminationGracePeriodSeconds r)
    (ps_SecurityContext r) (ps_Rest r).

Definition set_ps_Tolerations (v : list RawJSON) (r : PodSpec) : PodSpec :=
  mkPodSpec (ps_Volumes r) (ps_Containers r) (ps_InitContainers r) (ps_Affinity r) v
    (ps_TopologySpreadConstraints r) (ps_ImagePullSecrets r) (ps_ServiceAccountName r)
    (ps_AutomountServiceAccountToken r) (ps_TerminationGracePeriodSeconds r)
    (ps_SecurityContext r) (ps_Rest r).

Definition set_ps_TopologySpreadConstraints (v : list TopologySpreadConstraint) (r : PodSpec) : PodSpec :=
  mkPodSpec (ps_Volumes r) (ps_Containers r) (ps_InitContainers r) (ps_Affinity r)
    (ps_Tolerations r) v (ps_ImagePullSecrets r) (ps_ServiceAccountName r)
    (ps_AutomountServiceAccountToken r) (ps_TerminationGracePeriodSeconds r)
    (ps_SecurityContext r) (ps_Rest r).

Definition set_ps_ImagePullSecrets (v : slice LocalObjectReference) (r : PodSpec) : PodSpec :=
  mkPodSpec (ps_Volumes r) (ps_Containers r) (ps_InitContainers r) (ps_Affinity r)
    (ps_Tolerations r) (ps_TopologySpreadConstraints r) v (ps_ServiceAccountName r)
    (ps_AutomountServiceAccountToken r) (ps_TerminationGracePeriodSeconds r)
    (ps_SecurityContext r) (ps_Rest r).

Definition set_ps_ServiceAccountName (v : string) (r : PodSpec) : PodSpec :=
  mkPodSpec (ps_Volumes r) (ps_Containers r) (ps_InitContainers r) (ps_Affinity r)
    (ps_Tolerations r) (ps_TopologySpreadConstraints r) (ps_ImagePullSecrets r) v
    (ps_AutomountServiceAccountToken r) (ps_TerminationGracePeriodSeconds r)
    (ps_SecurityContext r) (ps_Rest r).

Definition set_ps_AutomountServiceAccountToken (v : option bool) (r : PodSpec) : PodSpec :=
  mkPodSpec (ps_Volumes r) (ps_Containers r) (ps_InitContainers r) (ps_Affinity r)
    (ps_Tolerations r) (ps_TopologySpreadConstraints r) (ps_ImagePullSecrets r)
    (ps_ServiceAccountName r) v (ps_TerminationGracePeriodSeconds r)
    (ps_SecurityContext r) (ps_Rest r).

Definition set_ps_TerminationGracePeriodSeconds (v : option Z) (r : PodSpec) : PodSpec :=
  mkPodSpec (ps_Volumes r) (ps_Containers r) (ps_InitContainers r) (ps_Affinity r)
    (ps_Tolerations r) (ps_TopologySpreadConstraints r) (ps_ImagePullSecrets r)
    (ps_ServiceAccountName r) (ps_AutomountServiceAccountToken r) v (ps_SecurityContext r)
    (ps_Rest r).

Definition set_ps_SecurityContext (v : option PodSecurityContext) (r : PodSpec) : PodSpec :=
  mkPodSpec (ps_Volumes r) (ps_Containers r) (ps_InitContainers r) (ps_Affinity r)
    (ps_Tolerations r) (ps_TopologySpreadConstraints r) (ps_ImagePullSecrets r)
    (ps_ServiceAccountName r) (ps_AutomountServiceAccountToken r)
    (ps_TerminationGracePeriodSeconds r) v (ps_Rest r).

#[export] Instance PodSpec_eq_dec : EqDecision PodSpec.
Proof. solve_decision. Defined.

Record PodTemplateSpec := mkPodTemplateSpec {
  pts_ObjectMeta : ObjectMeta;
  pts_Spec : PodSpec
}.

Definition set_pts_ObjectMeta (v : ObjectMeta) (r : PodTemplateSpec) : PodTemplateSpec :=
  mkPodTemplateSpec v (pts_Spec r).

Definition set_pts_Spec (v : PodSpec) (r : PodTemplateSpec) : PodTemplateSpec :=
  mkPodTemplateSpec (pts_ObjectMeta r) v.

#[export] Instance PodTemplateSpec_eq_dec : EqDecision PodTemplateSpec.
Proof. solve_decision. Defined.

Record Pod := mkPod {
  pod_ObjectMeta : ObjectMeta
}.

Definition set_pod_ObjectMeta (v : ObjectMeta) (r : Pod) : Pod :=
  mkPod v.

#[export] Instance Pod_eq_dec : EqDecision Pod.
Proof. solve_decision. Defined.

(** ** Storage *)

Record PersistentVolumeClaimSpec := mkPersistentVolumeClaimSpec {
  pvcs_Requests : ResourceList;
  pvcs_StorageClassName : option string;
  pvcs_AccessModes : list string;
  pvcs_Rest : RawJSON
}.

Definition set_pvcs_Requests (v : ResourceList) (r : PersistentVolumeClaimSpec) : PersistentVolumeClaimSpec :=
  mkPersistentVolumeClaimSpec v (pvcs_StorageClassName r) (pvcs_AccessModes r)
    (pvcs_Rest r).

#[export] Instance PersistentVolumeClaimSpec_eq_dec : EqDecision PersistentVolumeClaimSpec.
Proof. solve_decision. Defined.

Record PersistentVolumeClaim := mkPersistentVolumeClaim {
  pvc_ObjectMeta : ObjectMeta;
  pvc_Spec : PersistentVolumeClaimSpec
}.

Definition set_pvc_ObjectMeta (v : ObjectMeta) (r : PersistentVolumeClaim) : PersistentVolumeClaim :=
  mkPersistentVolumeClaim v (pvc_Spec r).

Definition set_pvc_Spec (v : PersistentVolumeClaimSpec) (r : PersistentVolumeClaim) : PersistentVolumeClaim :=
  mkPersistentVolumeClaim (pvc_ObjectMeta r) v.

#[export] Instance PersistentVolumeClaim_eq_dec : EqDecision PersistentVolumeClaim.
Proof. solve_decision. Defined.

(** ** StatefulSets *)

Record StatefulSetUpdateStrategy := mkStatefulSetUpdateStrategy {
  sus_Type : string;
  sus_Partition : option Z
}.

#[export] Instance StatefulSetUpdateStrategy_eq_dec : EqDecision StatefulSetUpdateStrategy.
Proof. solve_decision. Defined.

Record StatefulSetSpec := mkStatefulSetSpec {
  stss_Replicas : option Z;
  stss_Selector : option LabelSelector;
  stss_Template : PodTemplateSpec;
  stss_VolumeClaimTemplates : list PersistentVolumeClaim;
  stss_ServiceName : string;
  stss_PodManagementPolicy : string;
  stss_UpdateStrategy : StatefulSetUpdateStrategy;
  stss_MinReadySeconds : Z
}.

Definition set_stss_Replicas (v : option Z) (r : StatefulSetSpec) : StatefulSetSpec :=
  mkStatefulSetSpec v (stss_Selector r) (stss_Template r) (stss_VolumeClaimTemplates r)
    (stss_ServiceName r) (stss_PodManagementPolicy r) (stss_UpdateStrategy r)
    (stss_MinReadySeconds r).

Definition set_stss_Selector (v : option LabelSelector) (r : StatefulSetSpec) : StatefulSetSpec :=
  mkStatefulSetSpec (stss_Replicas r) v (stss_Template r) (stss_VolumeClaimTemplates r)
    (stss_ServiceName r) (stss_PodManagementPolicy r) (stss_UpdateStrategy r)
    (stss_MinReadySeconds r).

Definition set_stss_Template (v : PodTemplateSpec) (r : StatefulSetSpec) : StatefulSetSpec :=
  mkStatefulSetSpec (stss_Replicas r) (stss_Selector r) v (stss_VolumeClaimTemplates r)
    (stss_ServiceName r) (stss_PodManagementPolicy r) (stss_UpdateStrategy r)
    (stss_MinReadySeconds r).

Definition set_stss_VolumeClaimTemplates (v : list PersistentVolumeClaim) (r : StatefulSetSpec) : StatefulSetSpec :=
  mkStatefulSetSpec (stss_Replicas r) (stss_Selector r) (stss_Template r) v
    (stss_ServiceName r) (stss_PodManagementPolicy r) (stss_UpdateStrategy r)
    (stss_MinReadySeconds r).

Definition set_stss_ServiceName (v : string) (r : StatefulSetSpec) : StatefulSetSpec :=
  mkStatefulSetSpec (stss_Replicas r) (stss_Selector r) (stss_Template r)
    (stss_VolumeClaimTemplates r) v (stss_PodManagementPolicy r) (stss_UpdateStrategy r)
    (stss_MinReadySeconds r).

Definition set_stss_PodManagementPolicy (v : string) (r : StatefulSetSpec) : StatefulSetSpec :=
  mkStatefulSetSpec (stss_Replicas r) (stss_Selector r) (stss_Template r)
    (stss_VolumeClaimTemplates r) (stss_ServiceName r) v (stss_UpdateStrategy r)
    (stss_MinReadySeconds r).

Definition set_stss_UpdateStrategy (v : StatefulSetUpdateStrategy) (r : StatefulSetSpec) : StatefulSetSpec :=
  mkStatefulSetSpec (stss_Replicas r) (stss_Selector r) (stss_Template r)
    (stss_VolumeClaimTemplates r) (stss_ServiceName r) (stss_PodManagementPolicy r) v
    (stss_MinReadySeconds r).

Definition set_stss_MinReadySeconds (v : Z) (r : StatefulSetSpec) : StatefulSetSpec :=
  mkStatefulSetSpec (stss_Replicas r) (stss_Selector r) (stss_Template r)
    (stss_VolumeClaimTemplates r) (stss_ServiceName r) (stss_PodManagementPolicy r)
    (stss_UpdateStrategy r) v.

#[export] Instance StatefulSetSpec_eq_dec : EqDecision StatefulSetSpec.
Proof. solve_decision. Defined.

Record StatefulSetStatus := mkStatefulSetStatus {
  stst_ReadyReplicas : Z;
  stst_CurrentRevision : string;
  stst_UpdateRevision : string
}.

#[export] Instance StatefulSetStatus_eq_dec : EqDecision StatefulSetStatus.
Proof. solve_decision. Defined.

Record StatefulSet := mkStatefulSet {
  sts_ObjectMeta : ObjectMeta;
  sts_Spec : StatefulSetSpec;
  sts_Status : StatefulSetStatus
}.

Definition set_sts_ObjectMeta (v : ObjectMeta) (r : StatefulSet) : StatefulSet :=
  mkStatefulSet v (sts_Spec r) (sts_Status r).

Definition set_sts_Spec (v : StatefulSetSpec) (r : StatefulSet) : StatefulSet :=
  mkStatefulSet (sts_ObjectMeta r) v (sts_Status r).

#[export] Instance StatefulSet_eq_dec : EqDecision StatefulSet.
Proof. solve_decision. Defined.

(** ** Services and endpoints *)

Inductive IntOrString := IntPort (n : Z) | StrPort (s : string).

#[export] Instance IntOrString_eq_dec : EqDecision IntOrString.
Proof. solve_decision. Defined.

Record ServicePort := mkServicePort {
  sp_Name : string;
  sp_Protocol : string;
  sp_AppProtocol : option string;
  sp_Port : Z;
  sp_TargetPort : IntOrString;
  sp_NodePort : Z
}.

Definition set_sp_Port (v : Z) (r : ServicePort) : ServicePort :=
  mkServicePort (sp_Name r) (sp_Protocol r) (sp_AppProtocol r) v (sp_TargetPort r)
    (sp_NodePort r).

Definition set_sp_TargetPort (v : IntOrString) (r : ServicePort) : ServicePort :=
  mkServicePort (sp_Name r) (sp_Protocol r) (sp_AppProtocol r) (sp_Port r) v
    (sp_NodePort r).

Definition set_sp_Protocol (v : string) (r : ServicePort) : ServicePort :=
  mkServicePort (sp_Name r) v (sp_AppProtocol r) (sp_Port r) (sp_TargetPort r)
    (sp_NodePort r).

Definition set_sp_NodePort (v : Z) (r : ServicePort) : ServicePort :=
  mkServicePort (sp_Name r) (sp_Protocol r) (sp_AppProtocol r) (sp_Port r)
    (sp_TargetPort r) v.

#[export] Instance ServicePort_eq_dec : EqDecision ServicePort.
Proof. solve_decision. Defined.

Record ServiceSpec := mkServiceSpec {
  svcs_Ports : list ServicePort;
  svcs_Selector : gomap string;
  svcs_Type : string;
  svcs_ClusterIP : string;
  svcs_SessionAffinity : string;
  svcs_PublishNotReadyAddresses : bool;
  svcs_Rest : RawJSON
}.

Definition set_svcs_Ports (v : list ServicePort) (r : ServiceSpec) : ServiceSpec :=
  mkServiceSpec v (svcs_Selector r) (svcs_Type r) (svcs_ClusterIP r)
    (svcs_SessionAffinity r) (svcs_PublishNotReadyAddresses r) (svcs_Rest r).

Definition set_svcs_Selector (v : gomap string) (r : ServiceSpec) : ServiceSpec :=
  mkServiceSpec (svcs_Ports r) v (svcs_Type r) (svcs_ClusterIP r) (svcs_SessionAffinity r)
    (svcs_PublishNotReadyAddresses r) (svcs_Rest r).

Definition set_svcs_Type (v : string) (r : ServiceSpec) : ServiceSpec :=
  mkServiceSpec (svcs_Ports r) (svcs_Selector r) v (svcs_ClusterIP r)
    (svcs_SessionAffinity r) (svcs_PublishNotReadyAddresses r) (svcs_Rest r).

Definition set_svcs_ClusterIP (v : string) (r : ServiceSpec) : ServiceSpec :=
  mkServiceSpec (svcs_Ports r) (svcs_Selector r) (svcs_Type r) v (svcs_SessionAffinity r)
    (svcs_PublishNotReadyAddresses r) (svcs_Rest r).

Definition set_svcs_SessionAffinity (v : string) (r : ServiceSpec) : ServiceSpec :=
  mkServiceSpec (svcs_Ports r) (svcs_Selector r) (svcs_Type r) (svcs_ClusterIP r) v
    (svcs_PublishNotReadyAddresses r) (svcs_Rest r).

Definition set_svcs_PublishNotReadyAddresses (v : bool) (r : ServiceSpec) : ServiceSpec :=
  mkServiceSpec (svcs_Ports r) (svcs_Selector r) (svcs_Type r) (svcs_ClusterIP r)
    (svcs_SessionAffinity r) v (svcs_Rest r).

#[export] Instance ServiceSpec_eq_dec : EqDecision ServiceSpec.
Proof. solve_decision. Defined.

Record Service := mkService {
  svc_ObjectMeta : ObjectMeta;
  svc_Spec : ServiceSpec
}.

Definition set_svc_ObjectMeta (v : ObjectMeta) (r : Service) : Service :=
  mkService v (svc_Spec r).

Definition set_svc_Spec (v : ServiceSpec) (r : Service) : Service :=
  mkService (svc_ObjectMeta r) v.

#[export] Instance Service_eq_dec : EqDecision Service.
Proof. solve_decision. Defined.

Record EndpointSubset := mkEndpointSubset {
  eps_Addresses : list string
}.

#[export] Instance EndpointSubset_eq_dec : EqDecision EndpointSubset.
Proof. solve_decision. Defined.

Record Endpoints := mkEndpoints {
  ep_ObjectMeta : ObjectMeta;
  ep_Subsets : list EndpointSubset
}.

#[export] Instance Endpoints_eq_dec : EqDecision Endpoints.
Proof. solve_decision. Defined.

(** ** Configuration, secrets and access control *)

Record ConfigMap := mkConfigMap {
  cm_ObjectMeta : ObjectMeta;
  cm_Data : gomap string
}.

Definition set_cm_ObjectMeta (v : ObjectMeta) (r : ConfigMap) : ConfigMap :=
  mkConfigMap v (cm_Data r).

Definition set_cm_Data (v : gomap string) (r : ConfigMap) : ConfigMap :=
  mkConfigMap (cm_ObjectMeta r) v.

#[export] Instance ConfigMap_eq_dec : EqDecision ConfigMap.
Proof. solve_decision. Defined.

Record Secret := mkSecret {
  sec_ObjectMeta : ObjectMeta;
  sec_Type : string;
  sec_Data : gomap string
}.

Definition set_sec_ObjectMeta (v : ObjectMeta) (r : Secret) : Secret :=
  mkSecret v (sec_Type r) (sec_Data r).

Definition set_sec_Data (v : gomap string) (r : Secret) : Secret :=
  mkSecret (sec_ObjectMeta r) (sec_Type r) v.

#[export] Instance Secret_eq_dec : EqDecision Secret.
Proof. solve_decision. Defined.

Record ServiceAccount := mkServiceAccount {
  sa_ObjectMeta : ObjectMeta
}.

Definition set_sa_ObjectMeta (v : ObjectMeta) (r : ServiceAccount) : ServiceAccount :=
  mkServiceAccount v.

#[export] Instance ServiceAccount_eq_dec : EqDecision ServiceAccount.
Proof. solve_decision. Defined.

Record PolicyRule := mkPolicyRule {
  prl_APIGroups : list string;
  prl_Resources : list string;
  prl_Verbs : list string
}.

#[export] Instance PolicyRule_eq_dec : EqDecision PolicyRule.
Proof. solve_decision. Defined.

Record Role := mkRole {
  role_ObjectMeta : ObjectMeta;
  role_Rules : list PolicyRule
}.

Definition set_role_ObjectMeta (v : ObjectMeta) (r : Role) : Role :=
  mkRole v (role_Rules r).

Definition set_role_Rules (v : list PolicyRule) (r : Role) : Role :=
  mkRole (role_ObjectMeta r) v.

#[export] Instance Role_eq_dec : EqDecision Role.
Proof. solve_decision. Defined.

Record RoleRef := mkRoleRef {
  rref_APIGroup : string;
  rref_Kind : string;
  rref_Name : string
}.

#[export] Instance RoleRef_eq_dec : EqDecision RoleRef.
Proof. solve_decision. Defined.

Record Subject := mkSubject {
  subj_Kind : string;
  subj_Name : string
}.

#[export] Instance Subject_eq_dec : EqDecision Subject.
Proof. solve_decision. Defined.

Record RoleBinding := mkRoleBinding {
  rb_ObjectMeta : ObjectMeta;
  rb_RoleRef : RoleRef;
  rb_Subjects : list Subject
}.

Definition set_rb_ObjectMeta (v : ObjectMeta) (r : RoleBinding) : RoleBinding :=
  mkRoleBinding v (rb_RoleRef r) (rb_Subjects r).

Definition set_rb_RoleRef (v : RoleRef) (r : RoleBinding) : RoleBinding :=
  mkRoleBinding (rb_ObjectMeta r) v (rb_Subjects r).

Definition set_rb_Subjects (v : list Subject) (r : RoleBinding) : RoleBinding :=
  mkRoleBinding (rb_ObjectMeta r) (rb_RoleRef r) v.

#[export] Instance RoleBinding_eq_dec : EqDecision RoleBinding.
Proof. solve_decision. Defined.
