(* ===== verification/V1beta1.v ===== *)
(** api/v1beta1: the RabbitmqCluster resource, its status conditions, the
    predicates on its spec and the names of its child resources. *)

From S2P Require Import Prelude GoStd K8s.

(** ** The spec *)

(** [Plugin] is a string type. *)
Abbreviation Plugin := string.

Record RabbitmqClusterServiceSpec := mkRabbitmqClusterServiceSpec {
  rss_Type : string;
  rss_Annotations : gomap string
}.

Definition set_rss_Type (v : string) (r : RabbitmqClusterServiceSpec) : RabbitmqClusterServiceSpec :=
  mkRabbitmqClusterServiceSpec v (rss_Annotations r).

#[export] Instance RabbitmqClusterServiceSpec_eq_dec : EqDecision RabbitmqClusterServiceSpec.
Proof. solve_decision. Defined.

Record RabbitmqClusterPersistenceSpec := mkRabbitmqClusterPersistenceSpec {
  rps_Storage : option Quantity;
  rps_StorageClassName : option string
}.

#[export] Instance RabbitmqClusterPersistenceSpec_eq_dec : EqDecision RabbitmqClusterPersistenceSpec.
Proof. solve_decision. Defined.

Record TLSSpec := mkTLSSpec {
  tls_SecretName : string;
  tls_CaSecretName : string;
  tls_DisableNonTLSListeners : bool
}.

#[export] Instance TLSSpec_eq_dec : EqDecision TLSSpec.
Proof. solve_decision. Defined.

Record RabbitmqClusterConfigurationSpec := mkRabbitmqClusterConfigurationSpec {
  rcs_AdvancedConfig : string;
  rcs_EnvConfig : string;
  rcs_AdditionalConfig : string;
  rcs_ErlangInetConfig : string;
  rcs_AdditionalPlugins : list Plugin
}.

#[export] Instance RabbitmqClusterConfigurationSpec_eq_dec : EqDecision RabbitmqClusterConfigurationSpec.
Proof. solve_decision. Defined.

Record EmbeddedLabelsAnnotations := mkEmbeddedLabelsAnnotations {
  ela_Labels : gomap string;
  ela_Annotations : gomap string
}.

#[export] Instance EmbeddedLabelsAnnotations_eq_dec : EqDecision EmbeddedLabelsAnnotations.
Proof. solve_decision. Defined.

Record EmbeddedObjectMeta := mkEmbeddedObjectMeta {
  eom_Name : string;
  eom_Namespace : string;
  eom_Labels : gomap string;
  eom_Annotations : gomap string
}.

#[export] Instance EmbeddedObjectMeta_eq_dec : EqDecision EmbeddedObjectMeta.
Proof. solve_decision. Defined.

Record ServiceOverride := mkServiceOverride {
  svo_Spec : option ServiceSpec;
  svo_EmbeddedLabelsAnnotations : option EmbeddedLabelsAnnotations
}.

#[export] Instance ServiceOverride_eq_dec : EqDecision ServiceOverride.
Proof. solve_decision. Defined.

Record PodTemplateSpecOverride := mkPodTemplateSpecOverride {
  pto_EmbeddedObjectMeta : option EmbeddedObjectMeta;
  pto_Spec : option PodSpec
}.

#[export] Instance PodTemplateSpecOverride_eq_dec : EqDecision PodTemplateSpecOverride.
Proof. solve_decision. Defined.

Record PersistentVolumeClaimOverride := mkPersistentVolumeClaimOverride {
  pvo_EmbeddedObjectMeta : EmbeddedObjectMeta;
  pvo_Spec : PersistentVolumeClaimSpec
}.

#[export] Instance PersistentVolumeClaimOverride_eq_dec : EqDecision PersistentVolumeClaimOverride.
Proof. solve_decision. Defined.

Record StatefulSetSpecOverride := mkStatefulSetSpecOverride {
  sso_Replicas : option Z;
  sso_Selector : option LabelSelector;
  sso_Template : option PodTemplateSpecOverride;
  sso_VolumeClaimTemplates : list PersistentVolumeClaimOverride;
  sso_ServiceName : string;
  sso_PodManagementPolicy : string;
  sso_UpdateStrategy : option StatefulSetUpdateStrategy;
  sso_MinReadySeconds : Z
}.

#[export] Instance StatefulSetSpecOverride_eq_dec : EqDecision StatefulSetSpecOverride.
Proof. solve_decision. Defined.

Record StatefulSetOverride := mkStatefulSetOverride {
  sto_Spec : option StatefulSetSpecOverride;
  sto_EmbeddedLabelsAnnotations : option EmbeddedLabelsAnnotations
}.

#[export] Instance StatefulSetOverride_eq_dec : EqDecision StatefulSetOverride.
Proof. solve_decision. Defined.

Record RabbitmqClusterOverrideSpec := mkRabbitmqClusterOverrideSpec {
  ros_Service : option ServiceOverride;
  ros_StatefulSet : option StatefulSetOverride
}.

#[export] Instance RabbitmqClusterOverrideSpec_eq_dec : EqDecision RabbitmqClusterOverrideSpec.
Proof. solve_decision. Defined.

Record VaultTLSSpec := mkVaultTLSSpec {
  vts_PKIIssuerPath : string;
  vts_CommonName : string;
  vts_AltNames : string;
  vts_IpSans : string;
  vts_PKIRootPath : string
}.

#[export] Instance VaultTLSSpec_eq_dec : EqDecision VaultTLSSpec.
Proof. solve_decision. Defined.

Record VaultSpec := mkVaultSpec {
  vlt_Role : string;
  vlt_Annotations : gomap string;
  vlt_DefaultUserPath : string;
  vlt_DefaultUserUpdaterImage : option string;
  vlt_TLS : VaultTLSSpec
}.

Definition set_vlt_DefaultUserUpdaterImage (v : option string) (r : VaultSpec) : VaultSpec :=
  mkVaultSpec (vlt_Role r) (vlt_Annotations r) (vlt_DefaultUserPath r) v (vlt_TLS r).

#[export] Instance VaultSpec_eq_dec : EqDecision VaultSpec.
Proof. solve_decision. Defined.

Record SecretBackend := mkSecretBackend {
  sb_Vault : option VaultSpec;
  sb_ExternalSecret : LocalObjectReference
}.

Definition set_sb_Vault (v : option VaultSpec) (r : SecretBackend) : SecretBackend :=
  mkSecretBackend v (sb_ExternalSecret r).

#[export] Instance SecretBackend_eq_dec : EqDecision SecretBackend.
Proof. solve_decision. Defined.

Record RabbitmqClusterSpec := mkRabbitmqClusterSpec {
  rs_Disable : bool;
  rs_Replicas : option Z;
  rs_TLS : TLSSpec;
  rs_Rabbitmq : RabbitmqClusterConfigurationSpec;
  rs_Image : string;
  rs_ImagePullSecrets : slice LocalObjectReference;
  rs_Affinity : option RawJSON;
  rs_Tolerations : list RawJSON;
  rs_Resources : option ResourceRequirements;
  rs_Service : RabbitmqClusterServiceSpec;
  rs_Persistence : RabbitmqClusterPersistenceSpec;
  rs_SecretBackend : SecretBackend;
  rs_Override : RabbitmqClusterOverrideSpec;
  rs_DelayStartSeconds : option Z;
  rs_SkipPostDeploySteps : bool;
  rs_TerminationGracePeriodSeconds : option Z
}.

Definition set_rs_Image (v : string) (r : RabbitmqClusterSpec) : RabbitmqClusterSpec :=
  mkRabbitmqClusterSpec (rs_Disable r) (rs_Replicas r) (rs_TLS r) (rs_Rabbitmq r) v
    (rs_ImagePullSecrets r) (rs_Affinity r) (rs_Tolerations r) (rs_Resources r)
    (rs_Service r) (rs_Persistence r) (rs_SecretBackend r) (rs_Override r)
    (rs_DelayStartSeconds r) (rs_SkipPostDeploySteps r)
    (rs_TerminationGracePeriodSeconds r).

Definition set_rs_ImagePullSecrets (v : slice LocalObjectReference) (r : RabbitmqClusterSpec) : RabbitmqClusterSpec :=
  mkRabbitmqClusterSpec (rs_Disable r) (rs_Replicas r) (rs_TLS r) (rs_Rabbitmq r)
    (rs_Image r) v (rs_Affinity r) (rs_Tolerations r) (rs_Resources r) (rs_Service r)
    (rs_Persistence r) (rs_SecretBackend r) (rs_Override r) (rs_DelayStartSeconds r)
    (rs_SkipPostDeploySteps r) (rs_TerminationGracePeriodSeconds r).

Definition set_rs_Service (v : RabbitmqClusterServiceSpec) (r : RabbitmqClusterSpec) : RabbitmqClusterSpec :=
  mkRabbitmqClusterSpec (rs_Disable r) (rs_Replicas r) (rs_TLS r) (rs_Rabbitmq r)
    (rs_Image r) (rs_ImagePullSecrets r) (rs_Affinity r) (rs_Tolerations r)
    (rs_Resources r) v (rs_Persistence r) (rs_SecretBackend r) (rs_Override r)
    (rs_DelayStartSeconds r) (rs_SkipPostDeploySteps r)
    (rs_TerminationGracePeriodSeconds r).

Definition set_rs_SecretBackend (v : SecretBackend) (r : RabbitmqClusterSpec) : RabbitmqClusterSpec :=
  mkRabbitmqClusterSpec (rs_Disable r) (rs_Replicas r) (rs_TLS r) (rs_Rabbitmq r)
    (rs_Image r) (rs_ImagePullSecrets r) (rs_Affinity r) (rs_Tolerations r)
    (rs_Resources r) (rs_Service r) (rs_Persistence r) v (rs_Override r)
    (rs_DelayStartSeconds r) (rs_SkipPostDeploySteps r)
    (rs_TerminationGracePeriodSeconds r).

#[export] Instance RabbitmqClusterSpec_eq_dec : EqDecision RabbitmqClusterSpec.
Proof. solve_decision. Defined.

(** ** The status *)

(** [metav1.Time]: [None] is the zero time, [Some t] nanoseconds since 1970. *)
Abbreviation Time := (option Z).

Definition ConditionTrue : string := "True".
Definition ConditionFalse : string := "False".
Definition ConditionUnknown : string := "Unknown".

(** [RabbitmqClusterConditionType] is a string type. *)
Definition AllReplicasReady : string := "AllReplicasReady".
Definition ClusterAvailable : string := "ClusterAvailable".
Definition NoWarnings : string := "NoWarnings".
Definition ReconcileSuccess : string := "ReconcileSuccess".

Record RabbitmqClusterCondition := mkRabbitmqClusterCondition {
  cond_Type : string;
  cond_Status : string;
  cond_LastTransitionTime : Time;
  cond_Reason : string;
  cond_Message : string
}.

Definition set_cond_Status (v : string) (r : RabbitmqClusterCondition) : RabbitmqClusterCondition :=
  mkRabbitmqClusterCondition (cond_Type r) v (cond_LastTransitionTime r) (cond_Reason r)
    (cond_Message r).

Definition set_cond_LastTransitionTime (v : Time) (r : RabbitmqClusterCondition) : RabbitmqClusterCondition :=
  mkRabbitmqClusterCondition (cond_Type r) (cond_Status r) v (cond_Reason r)
    (cond_Message r).

Definition set_cond_Reason (v : string) (r : RabbitmqClusterCondition) : RabbitmqClusterCondition :=
  mkRabbitmqClusterCondition (cond_Type r) (cond_Status r) (cond_LastTransitionTime r) v
    (cond_Message r).

Definition set_cond_Message (v : string) (r : RabbitmqClusterCondition) : RabbitmqClusterCondition :=
  mkRabbitmqClusterCondition (cond_Type r) (cond_Status r) (cond_LastTransitionTime r)
    (cond_Reason r) v.

#[export] Instance RabbitmqClusterCondition_eq_dec : EqDecision RabbitmqClusterCondition.
Proof. solve_decision. Defined.

Record RabbitmqClusterSecretReference := mkRabbitmqClusterSecretReference {
  rsr_Name : string;
  rsr_Namespace : string;
  rsr_Keys : gomap string
}.

#[export] Instance RabbitmqClusterSecretReference_eq_dec : EqDecision RabbitmqClusterSecretReference.
Proof. solve_decision. Defined.

Record RabbitmqClusterServiceReference := mkRabbitmqClusterServiceReference {
  rsvr_Name : string;
  rsvr_Namespace : string
}.

#[export] Instance RabbitmqClusterServiceReference_eq_dec : EqDecision RabbitmqClusterServiceReference.
Proof. solve_decision. Defined.

Record RabbitmqClusterDefaultUser := mkRabbitmqClusterDefaultUser {
  rdu_SecretReference : option RabbitmqClusterSecretReference;
  rdu_ServiceReference : option RabbitmqClusterServiceReference
}.

Definition set_rdu_SecretReference (v : option RabbitmqClusterSecretReference) (r : RabbitmqClusterDefaultUser) : RabbitmqClusterDefaultUser :=
  mkRabbitmqClusterDefaultUser v (rdu_ServiceReference r).

#[export] Instance RabbitmqClusterDefaultUser_eq_dec : EqDecision RabbitmqClusterDefaultUser.
Proof. solve_decision. Defined.

Record RabbitmqClusterStatus := mkRabbitmqClusterStatus {
  rst_Replicas : Z;
  rst_Conditions : slice RabbitmqClusterCondition;
  rst_DefaultUser : option RabbitmqClusterDefaultUser;
  rst_Binding : option LocalObjectReference;
  rst_ObservedGeneration : Z
}.

Definition set_rst_Replicas (v : Z) (r : RabbitmqClusterStatus) : RabbitmqClusterStatus :=
  mkRabbitmqClusterStatus v (rst_Conditions r) (rst_DefaultUser r) (rst_Binding r)
    (rst_ObservedGeneration r).

Definition set_rst_Conditions (v : slice RabbitmqClusterCondition) (r : RabbitmqClusterStatus) : RabbitmqClusterStatus :=
  mkRabbitmqClusterStatus (rst_Replicas r) v (rst_DefaultUser r) (rst_Binding r)
    (rst_ObservedGeneration r).

Definition set_rst_DefaultUser (v : option RabbitmqClusterDefaultUser) (r : RabbitmqClusterStatus) : RabbitmqClusterStatus :=
  mkRabbitmqClusterStatus (rst_Replicas r) (rst_Conditions r) v (rst_Binding r)
    (rst_ObservedGeneration r).

Definition set_rst_Binding (v : option LocalObjectReference) (r : RabbitmqClusterStatus) : RabbitmqClusterStatus :=
  mkRabbitmqClusterStatus (rst_Replicas r) (rst_Conditions r) (rst_DefaultUser r) v
    (rst_ObservedGeneration r).

Definition set_rst_ObservedGeneration (v : Z) (r : RabbitmqClusterStatus) : RabbitmqClusterStatus :=
  mkRabbitmqClusterStatus (rst_Replicas r) (rst_Conditions r) (rst_DefaultUser r)
    (rst_Binding r) v.

#[export] Instance RabbitmqClusterStatus_eq_dec : EqDecision RabbitmqClusterStatus.
Proof. solve_decision. Defined.

(** [condition.UpdateState(status)], called at time [now]. *)
Definition UpdateState (now : Z) (status : string) (condition : RabbitmqClusterCondition)
    : RabbitmqClusterCondition :=
  let condition :=
    if bool_decide (cond_Status condition ≠ status)
    then set_cond_LastTransitionTime (Some now) condition else condition in
  set_cond_Status status condition.

(** [condition.UpdateReason(reason, messages...)]. *)
Definition UpdateReason (reason : string) (messages : list string)
    (condition : RabbitmqClusterCondition) : RabbitmqClusterCondition :=
  set_cond_Message (Join messages ". ") (set_cond_Reason reason condition).

(** ** The resource *)

Record RabbitmqCluster := mkRabbitmqCluster {
  rmq_ObjectMeta : ObjectMeta;
  rmq_Spec : RabbitmqClusterSpec;
  rmq_Status : RabbitmqClusterStatus
}.

Definition set_rmq_ObjectMeta (v : ObjectMeta) (r : RabbitmqCluster) : RabbitmqCluster :=
  mkRabbitmqCluster v (rmq_Spec r) (rmq_Status r).

Definition set_rmq_Spec (v : RabbitmqClusterSpec) (r : RabbitmqCluster) : RabbitmqCluster :=
  mkRabbitmqCluster (rmq_ObjectMeta r) v (rmq_Status r).

Definition set_rmq_Status (v : RabbitmqClusterStatus) (r : RabbitmqCluster) : RabbitmqCluster :=
  mkRabbitmqCluster (rmq_ObjectMeta r) (rmq_Spec r) v.

#[export] Instance RabbitmqCluster_eq_dec : EqDecision RabbitmqCluster.
Proof. solve_decision. Defined.

Definition GroupVersion : string := "rabbitmq.com/v1beta1".

(** The fields of [metav1.ObjectMeta], promoted by embedding. *)
Definition rmq_Name (cluster : RabbitmqCluster) : string := om_Name (rmq_ObjectMeta cluster).
Definition rmq_Namespace (cluster : RabbitmqCluster) : string := om_Namespace (rmq_ObjectMeta cluster).
Definition rmq_Labels (cluster : RabbitmqCluster) : gomap string := om_Labels (rmq_ObjectMeta cluster).
Definition rmq_Annotations (cluster : RabbitmqCluster) : gomap string := om_Annotations (rmq_ObjectMeta cluster).

(** *** Names of the child resources *)

Definition ServiceSubDomain (cluster : RabbitmqCluster) : string :=
  rmq_Name cluster +:+ "." +:+ rmq_Namespace cluster +:+ ".svc".

Definition ChildResourceName (cluster : RabbitmqCluster) (name : string) : string :=
  TrimSuffix (Join [rmq_Name cluster; name] "-") "-".

Definition StatefulsetName (cluster : RabbitmqCluster) (name : string) (replica : Z) : string :=
  TrimSuffix (Join [ChildResourceName cluster name; Itoa replica] "-") "-".

Definition PodName (cluster : RabbitmqCluster) (name : string) (replica : Z) : string :=
  TrimSuffix (Join [StatefulsetName cluster name replica; "0"] "-") "-".

Definition PVCName (cluster : RabbitmqCluster) (name : string) (replica : Z) (pvc : string) : string :=
  Join [pvc; PodName cluster name replica] "-".

(** *** Predicates on the spec *)

Definition vault_TLSEnabled (spec : VaultSpec) : bool :=
  negb (vts_PKIIssuerPath (vlt_TLS spec) =? "")%string.
Definition vault_RootCAEnabled (spec : VaultSpec) : bool :=
  negb (vts_PKIRootPath (vlt_TLS spec) =? "")%string.
Definition vault_DefaultUserSecretEnabled (spec : VaultSpec) : bool :=
  negb (vlt_DefaultUserPath spec =? "")%string.

(** [Limits.Memory()]: the zero quantity when the list has no memory entry. *)
Definition Memory (l : ResourceList) : Quantity := default 0%Z (gm_lookup l ResourceMemory).

Definition MemoryLimited (cluster : RabbitmqCluster) : bool :=
  match rs_Resources (rmq_Spec cluster) with
  | Some r => match rr_Limits r with
              | Some l => negb (IsZero (Memory (Some l)))
              | None => false
              end
  | None => false
  end.

Definition AdditionalPluginEnabled (cluster : RabbitmqCluster) (plugin : Plugin) : bool :=
  existsb (λ p, p =? plugin)%string (rcs_AdditionalPlugins (rs_Rabbitmq (rmq_Spec cluster))).

Definition StreamNeeded (cluster : RabbitmqCluster) : bool :=
  AdditionalPluginEnabled cluster "rabbitmq_stream" ||
  AdditionalPluginEnabled cluster "rabbitmq_stream_management" ||
  AdditionalPluginEnabled cluster "rabbitmq_multi_dc_replication".

Definition DisableDefaultTopologySpreadAnnotation : string :=
  "rabbitmq.com/disable-default-topology-spread-constraints".

Definition DisableDefaultTopologySpreadConstraints (cluster : RabbitmqCluster) : bool :=
  match gm_lookup (rmq_Annotations cluster) DisableDefaultTopologySpreadAnnotation with
  | Some value => (TrimSpace value =? "true")%string
  | None => false
  end.

Definition VaultEnabled (cluster : RabbitmqCluster) : bool :=
  bool_decide (is_Some (sb_Vault (rs_SecretBackend (rmq_Spec cluster)))).

Definition ExternalSecretEnabled (cluster : RabbitmqCluster) : bool :=
  negb (lor_Name (sb_ExternalSecret (rs_SecretBackend (rmq_Spec cluster))) =? "")%string.

Definition VaultTLSEnabled (cluster : RabbitmqCluster) : bool :=
  match sb_Vault (rs_SecretBackend (rmq_Spec cluster)) with
  | Some vault => vault_TLSEnabled vault
  | None => false
  end.

Definition VaultDefaultUserSecretEnabled (cluster : RabbitmqCluster) : bool :=
  match sb_Vault (rs_SecretBackend (rmq_Spec cluster)) with
  | Some vault => vault_DefaultUserSecretEnabled vault
  | None => false
  end.

Definition SecretTLSEnabled (cluster : RabbitmqCluster) : bool :=
  negb (tls_SecretName (rs_TLS (rmq_Spec cluster)) =? "")%string.

Definition TLSEnabled (cluster : RabbitmqCluster) : bool :=
  SecretTLSEnabled cluster || VaultTLSEnabled cluster.

Definition DisableNonTLSListeners (cluster : RabbitmqCluster) : bool :=
  tls_DisableNonTLSListeners (rs_TLS (rmq_Spec cluster)).

Definition MutualTLSEnabled (cluster : RabbitmqCluster) : bool :=
  (SecretTLSEnabled cluster && negb (tls_CaSecretName (rs_TLS (rmq_Spec cluster)) =? "")%string)
  || VaultTLSEnabled cluster.

Definition SingleTLSSecret (cluster : RabbitmqCluster) : bool :=
  MutualTLSEnabled cluster &&
  (tls_CaSecretName (rs_TLS (rmq_Spec cluster)) =? tls_SecretName (rs_TLS (rmq_Spec cluster)))%string.
