(* ===== verification/Constant.v ===== *)
(** internal/constant: the names of the operator's resources and plugins, and
    the port manager that lists the ports of a cluster's services and pods. *)

From S2P Require Import Prelude GoStd K8s V1beta1.

(** ** names.go *)

Definition c_PVCName : string := "persistence".
Definition VolumeNamePersistence : string := "persistence".
Definition VolumeNamePodInfo : string := "pod-info".
Definition VolumeNameRabbitmqLog : string := "rabbitmq-log".
Definition VolumeNameRabbitmqTls : string := "rabbitmq-tls".
Definition VolumeNameRabbitmqConfd : string := "rabbitmq-confd".
Definition VolumeNameRabbitmqServerConf : string := "server-conf".
Definition VolumeNameRabbitmqPlugins : string := "rabbitmq-plugins".
Definition VolumeNameRabbitmqErlangCookie : string := "rabbitmq-erlang-cookie".
Definition VolumeNamePluginsConf : string := "plugins-conf".
Definition VolumeNameErlangCookieSecret : string := "erlang-cookie-secret".

Definition ContainerNameSetup : string := "setup-container".
Definition ContainerNameRabbitMQ : string := "rabbitmq".
Definition ContainerNameUserCredentialUpdater : string := "default-user-credential-updater".

Definition ResourceStatefulsetSuffix : string := "server".
Definition ResourceClientServiceSuffix : string := "".
Definition ResourceHeadlessServiceSuffix : string := "nodes".
Definition ResourceRoleBindingSuffix : string := "server".
Definition ResourceServiceAccountSuffix : string := "server".
Definition ResourceRoleSuffix : string := "peer-discovery".
Definition ResourceDefaultUserSuffix : string := "default-user".
Definition ResourceErlangCookieSuffix : string := "erlang-cookie".
Definition ResourceServerConfigMapSuffix : string := "server-conf".
Definition ResourcePluginConfigMapSuffix : string := "plugins-conf".

Definition PluginNameMqtt : string := "rabbitmq_mqtt".
Definition PluginNameWebMqtt : string := "rabbitmq_web_mqtt".
Definition PluginNameStomp : string := "rabbitmq_stomp".
Definition PluginNameWebStomp : string := "rabbitmq_web_stomp".
Definition PluginNamePrometheus : string := "rabbitmq_prometheus".
Definition PluginNameManagement : string := "rabbitmq_management".
Definition PluginNameKubernetes : string := "rabbitmq_peer_discovery_k8s".
Definition PluginNameStream : string := "rabbitmq_stream".
Definition PluginNameStreamManagement : string := "rabbitmq_stream_management".
Definition PluginNameStreamMultiDCReplication : string := "rabbitmq_multi_dc_replication".

(** ** ports.go: names and numbers *)

Definition PortNameEpmd : string := "epmd".
Definition DefaultPortEpmd : Z := 4369.
Definition PortNameRPC : string := "cluster-rpc".
Definition DefaultPortRPC : Z := 25672.
Definition PortNameAmqp : string := "amqp".
Definition DefaultPortAmqp : Z := 5672.
Definition PortNameAmqps : string := "amqps".
Definition DefaultPortAmqps : Z := 5671.
Definition PortNameStream : string := "stream".
Definition DefaultPortStream : Z := 5552.
Definition PortNameStreams : string := "streams".
Definition DefaultPortStreams : Z := 5551.
Definition PortNameManagement : string := "management".
Definition DefaultPortManagement : Z := 15672.
Definition PortNameManagementTls : string := "management-tls".
Definition DefaultPortManagementTls : Z := 15671.
Definition PortNameMqtt : string := "mqtt".
Definition DefaultPortMqtt : Z := 1883.
Definition PortNameMqtts : string := "mqtts".
Definition DefaultPortMqtts : Z := 8883.
Definition PortNameWebMqtt : string := "web-mqtt".
Definition DefaultPortWebMqtt : Z := 15675.
Definition PortNameWebMqttTls : string := "web-mqtt-tls".
Definition DefaultPortWebMqttTls : Z := 15676.
Definition PortNameStomp : string := "stomp".
Definition DefaultPortStomp : Z := 61613.
Definition PortNameStomps : string := "stomps".
Definition DefaultPortStomps : Z := 61614.
Definition PortNameWebStomp : string := "web-stomp".
Definition DefaultPortWebStomp : Z := 15674.
Definition PortNameWebStompTls : string := "web-stomp-tls".
Definition DefaultPortWebStompTls : Z := 15673.
Definition PortNamePrometheus : string := "prometheus".
Definition DefaultPortPrometheus : Z := 15692.
Definition PortNamePrometheusTls : string := "prometheus-tls".
Definition DefaultPortPrometheusTls : Z := 15691.

Definition ProtocolTCP : string := "TCP".

(** ** ports.go: the port manager *)

Record PortManager := mkPortManager {
  pm_EnableTls : bool;
  pm_DisableNonTls : bool;
  pm_EnableMutualTls : bool;
  pm_Plugins : list string
}.

Definition NewPortManager (rmq : RabbitmqCluster) : PortManager := {|
  pm_Plugins := rcs_AdditionalPlugins (rs_Rabbitmq (rmq_Spec rmq));
  pm_EnableTls := TLSEnabled rmq;
  pm_DisableNonTls := DisableNonTLSListeners rmq;
  pm_EnableMutualTls := MutualTLSEnabled rmq
|}.

Definition pluginEnabled (m : PortManager) (plugin : string) : bool :=
  existsb (λ p, p =? plugin)%string (pm_Plugins m).

(** A TCP service port whose target port is its own number. *)
Definition tcpPort (name : string) (port : Z) (appProtocol : option string) : ServicePort :=
  mkServicePort name ProtocolTCP appProtocol port (IntPort port) 0.

Definition MergePorts (ports : list (list ServicePort)) : list ServicePort :=
  foldl (λ result port, result ++ port) [] ports.

Definition HeadlessServicePorts (m : PortManager) : list ServicePort :=
  [tcpPort PortNameEpmd DefaultPortEpmd None; tcpPort PortNameRPC DefaultPortRPC None].

Definition clientAmqpPorts (m : PortManager) : list ServicePort :=
  (if negb (pm_DisableNonTls m)
   then [tcpPort PortNameAmqp DefaultPortAmqp (Some "amqp")] else []) ++
  (if pm_EnableTls m
   then [tcpPort PortNameAmqps DefaultPortAmqps (Some "amqps")] else []).

Definition clientHttpPorts (m : PortManager) : list ServicePort :=
  (if negb (pm_DisableNonTls m)
   then [tcpPort PortNameManagement DefaultPortManagement (Some "http")] else []) ++
  (if pm_EnableTls m
   then [tcpPort PortNameManagementTls DefaultPortManagementTls (Some "https")] else []).

Definition clientMqttPorts (m : PortManager) : list ServicePort :=
  if negb (pluginEnabled m PluginNameMqtt) then [] else
  (if negb (pm_DisableNonTls m)
   then [tcpPort PortNameMqtt DefaultPortMqtt (Some "mqtt")] else []) ++
  (if pm_EnableTls m
   then [tcpPort PortNameMqtts DefaultPortMqtts (Some "mqtts")] else []).

Definition clientWebMqttPorts (m : PortManager) : list ServicePort :=
  if negb (pluginEnabled m PluginNameWebMqtt) then [] else
  (if negb (pm_DisableNonTls m)
   then [tcpPort PortNameWebMqtt DefaultPortWebMqtt (Some "http")] else []) ++
  (if pm_EnableMutualTls m
   then [tcpPort PortNameWebMqttTls DefaultPortWebMqttTls (Some "https")] else []).

Definition clientStompPorts (m : PortManager) : list ServicePort :=
  if negb (pluginEnabled m PluginNameStomp) then [] else
  (if negb (pm_DisableNonTls m)
   then [tcpPort PortNameStomp DefaultPortStomp (Some "stomp.github.io/stomp")] else []) ++
  (if pm_EnableTls m
   then [tcpPort PortNameStomps DefaultPortStomps (Some "stomp.github.io/stomp-tls")] else []).

Definition clientWebStompPorts (m : PortManager) : list ServicePort :=
  if negb (pluginEnabled m PluginNameWebStomp) then [] else
  (if negb (pm_DisableNonTls m)
   then [tcpPort PortNameWebStomp DefaultPortWebStomp (Some "http")] else []) ++
  (if pm_EnableMutualTls m
   then [tcpPort PortNameWebStompTls DefaultPortWebStompTls (Some "https")] else []).

Definition clientStreamPorts (m : PortManager) : list ServicePort :=
  let streamNeeded := pluginEnabled m PluginNameStream ||
    pluginEnabled m PluginNameStreamManagement ||
    pluginEnabled m PluginNameStreamMultiDCReplication in
  if negb streamNeeded then [] else
  (if negb (pm_DisableNonTls m)
   then [tcpPort PortNameStream DefaultPortStream (Some "rabbitmq.com/stream")] else []) ++
  (if pm_EnableTls m
   then [tcpPort PortNameStreams DefaultPortStreams (Some "rabbitmq.com/stream-tls")] else []).

Definition clientPrometheusPorts (m : PortManager) : list ServicePort :=
  if negb (pm_EnableTls m)
  then [tcpPort PortNamePrometheus DefaultPortPrometheus (Some "prometheus.io/metrics")]
  else [tcpPort PortNamePrometheusTls DefaultPortPrometheusTls (Some "prometheus.io/metric-tls")].

Definition ClientServicePorts (m : PortManager) : list ServicePort :=
  MergePorts [clientAmqpPorts m; clientHttpPorts m; clientMqttPorts m; clientWebMqttPorts m;
              clientStompPorts m; clientWebStompPorts m; clientStreamPorts m;
              clientPrometheusPorts m].

Definition LBServicePorts (m : PortManager) : list ServicePort :=
  MergePorts [clientAmqpPorts m; clientHttpPorts m; clientMqttPorts m; clientWebMqttPorts m;
              clientStompPorts m; clientWebStompPorts m; clientStreamPorts m].

Definition RabbitMQPorts (m : PortManager) : list ServicePort :=
  MergePorts [ClientServicePorts m; HeadlessServicePorts m].

(** ** Lemmas *)

(** Every port the client service can have, in the order of the groups. *)
Definition plainClientPorts : list ServicePort :=
  [tcpPort PortNameAmqp DefaultPortAmqp (Some "amqp");
   tcpPort PortNameManagement DefaultPortManagement (Some "http");
   tcpPort PortNameMqtt DefaultPortMqtt (Some "mqtt");
   tcpPort PortNameWebMqtt DefaultPortWebMqtt (Some "http");
   tcpPort PortNameStomp DefaultPortStomp (Some "stomp.github.io/stomp");
   tcpPort PortNameWebStomp DefaultPortWebStomp (Some "http");
   tcpPort PortNameStream DefaultPortStream (Some "rabbitmq.com/stream");
   tcpPort PortNamePrometheus DefaultPortPrometheus (Some "prometheus.io/metrics")].

Definition tlsClientPorts : list ServicePort :=
  [tcpPort PortNameAmqps DefaultPortAmqps (Some "amqps");
   tcpPort PortNameManagementTls DefaultPortManagementTls (Some "https");
   tcpPort PortNameMqtts DefaultPortMqtts (Some "mqtts");
   tcpPort PortNameWebMqttTls DefaultPortWebMqttTls (Some "https");
   tcpPort PortNameStomps DefaultPortStomps (Some "stomp.github.io/stomp-tls");
   tcpPort PortNameWebStompTls DefaultPortWebStompTls (Some "https");
   tcpPort PortNameStreams DefaultPortStreams (Some "rabbitmq.com/stream-tls");
   tcpPort PortNamePrometheusTls DefaultPortPrometheusTls (Some "prometheus.io/metric-tls")].

(** The two lists interleaved, then the ports of the headless service. *)
Definition allPorts : list ServicePort :=
  concat (zip_with (λ p q, [p; q]) plainClientPorts tlsClientPorts) ++
  [tcpPort PortNameEpmd DefaultPortEpmd None; tcpPort PortNameRPC DefaultPortRPC None].

Lemma MergePorts_concat ports : MergePorts ports = concat ports.
Proof.
  rw /MergePorts. rw -(app_nil_l (concat ports)). generalize (@nil ServicePort) as l.
  induction ports as [|p ports IH]; intros l; simpl; [by rw app_nil_r|]. by rw IH app_assoc.
Qed.

Lemma sublist_guarded {A} (b c : bool) (p q : A) :
  (if b then [p] else []) ++ (if c then [q] else []) `sublist_of` [p; q].
Proof. destruct b, c; simpl; repeat (apply sublist_skip || apply sublist_cons || constructor). Qed.

Lemma sublist_guard2 {A} (g b c : bool) (p q : A) :
  (if negb g then [] else (if b then [p] else []) ++ (if c then [q] else [])) `sublist_of` [p; q].
Proof. destruct g; [apply sublist_guarded|apply sublist_nil_l]. Qed.

Lemma sublist_either {A} (b : bool) (p q : A) : (if b then [p] else [q]) `sublist_of` [p; q].
Proof. destruct b; repeat (apply sublist_skip || apply sublist_cons || constructor). Qed.

Lemma sublist_pair_app {A} (p q : A) l k k' :
  l `sublist_of` [p; q] → k `sublist_of` k' → l ++ k `sublist_of` p :: q :: k'.
Proof. intros H1 H2. change (p :: q :: k') with ([p; q] ++ k'). by apply sublist_app. Qed.

Lemma ClientServicePorts_sublist m :
  ClientServicePorts m `sublist_of`
  concat (zip_with (λ p q, [p; q]) plainClientPorts tlsClientPorts).
Proof.
  rw /ClientServicePorts MergePorts_concat /=.
  repeat (apply sublist_pair_app; [first [apply sublist_guarded|apply sublist_guard2]|]).
  rw app_nil_r. apply sublist_either.
Qed.

Lemma RabbitMQPorts_sublist m : RabbitMQPorts m `sublist_of` allPorts.
Proof.
  rw /RabbitMQPorts MergePorts_concat /=.
  apply sublist_app; [apply ClientServicePorts_sublist|done].
Qed.

Lemma sublist_NoDup_fmap {A B} (f : A → B) (l k : list A) :
  l `sublist_of` k → NoDup (f <$> k) → NoDup (f <$> l).
Proof. intros Hs Hk. eapply sublist_NoDup; [exact Hk|]. by apply fmap_sublist. Qed.

Lemma allPorts_names : NoDup (sp_Name <$> allPorts).
Proof. by apply (bool_decide_unpack _). Qed.

Lemma ClientServicePorts_names m : NoDup (sp_Name <$> ClientServicePorts m).
Proof.
  eapply sublist_NoDup_fmap; [|exact allPorts_names]. etrans; [|apply (RabbitMQPorts_sublist m)].
  rw /RabbitMQPorts MergePorts_concat /=. apply sublist_inserts_r. done.
Qed.

Lemma MutualTLS_TLS rmq : MutualTLSEnabled rmq = true → TLSEnabled rmq = true.
Proof.
  rw /MutualTLSEnabled /TLSEnabled. destruct (SecretTLSEnabled rmq); [done|]. simpl. by intros ->.
Qed.

(** ** Properties *)

(** Whatever plugins and TLS settings a cluster has, the ports of its pods
    have distinct names and distinct numbers, are valid TCP ports that target
    themselves, and ask for no node port; so no merge by name and no container
    ever confuses two of them. *)
Theorem RabbitMQPorts_distinct m :
  NoDup (sp_Name <$> RabbitMQPorts m) ∧ NoDup (sp_Port <$> RabbitMQPorts m) ∧
  (∀ p, p ∈ RabbitMQPorts m →
     (1 ≤ sp_Port p ≤ 65535)%Z ∧ sp_TargetPort p = IntPort (sp_Port p) ∧
     sp_Protocol p = ProtocolTCP ∧ sp_NodePort p = 0%Z).
Proof.
  pose proof (RabbitMQPorts_sublist m) as Hs. split_and!.
  - eapply sublist_NoDup_fmap; [exact Hs|apply allPorts_names].
  - eapply sublist_NoDup_fmap; [exact Hs|]. by apply (bool_decide_unpack _).
  - intros p Hp. pose proof (elem_of_sublist _ _ _ Hp Hs) as Hin. clear Hs Hp. revert p Hin.
    apply Forall_forall. by apply (bool_decide_unpack _).
Qed.

(** Without TLS the client service of a cluster has no TLS port; with TLS
    and the other listeners disabled it has TLS ports only; AMQP is served
    unless the non-TLS listeners are disabled, AMQPS exactly with TLS, and
    metrics always, over TLS exactly when TLS is enabled. *)
Theorem ClientServicePorts_tls rmq :
  let ports := ClientServicePorts (NewPortManager rmq) in
  (TLSEnabled rmq = false → ports ⊆ plainClientPorts) ∧
  (TLSEnabled rmq = true → DisableNonTLSListeners rmq = true → ports ⊆ tlsClientPorts) ∧
  (PortNameAmqp ∈ sp_Name <$> ports ↔ DisableNonTLSListeners rmq = false) ∧
  (PortNameAmqps ∈ sp_Name <$> ports ↔ TLSEnabled rmq = true) ∧
  (PortNamePrometheusTls ∈ sp_Name <$> ports ↔ TLSEnabled rmq = true) ∧
  (PortNamePrometheus ∈ sp_Name <$> ports ↔ TLSEnabled rmq = false).
Proof.
  pose proof (MutualTLS_TLS rmq) as Hm. simpl.
  rw /ClientServicePorts MergePorts_concat /= /clientAmqpPorts /clientHttpPorts /clientMqttPorts
    /clientWebMqttPorts /clientStompPorts /clientWebStompPorts /clientStreamPorts
    /clientPrometheusPorts.
  generalize (pluginEnabled (NewPortManager rmq)) as pl. intros pl. simpl.
  destruct (pl PluginNameMqtt), (pl PluginNameWebMqtt), (pl PluginNameStomp),
    (pl PluginNameWebStomp), (_ || _ || _);
  destruct (TLSEnabled rmq), (DisableNonTLSListeners rmq), (MutualTLSEnabled rmq);
  first [by specialize (Hm eq_refl)|apply (bool_decide_unpack _); vm_compute; exact I].
Qed.
