(* ===== verification/Metadata.v ===== *)
(** internal/metadata: the labels and annotations the operator puts on every
    object it manages, and how they are merged with the ones already there. *)

From S2P Require Import Prelude GoStd.

(** ** Definitions *)

Definition isKubernetesAnnotation (k : string) : bool :=
  Contains k "kubernetes.io" || Contains k "k8s.io".

Definition isNotKubernetesAnnotation (k : string) : bool := negb (isKubernetesAnnotation k).

(** [for k, v := range m { if filterFn(k) { result[k] = v } }]; the order in
    which a Go map is ranged over does not matter, the keys being distinct. *)
Definition copyFiltered (filterFn : string → bool) (m result : gmap string string)
    : gmap string string :=
  map_fold (λ k v result, if filterFn k then <[k := v]> result else result) result m.

(** The map that is returned is [base] itself, updated in place, unless it is
    nil; every caller assigns it to the field [base] was read from. *)
Definition mergeWithFilter (filterFn : string → bool) (base : gomap string)
    (maps : list (gomap string)) : gomap string :=
  let result := gm base in
  Some (foldl (λ result m, copyFiltered filterFn (gm m) result) result maps).

Definition ReconcileAnnotations (existing : gomap string) (defaults : list (gomap string)) : gomap string :=
  mergeWithFilter (λ _, true) existing defaults.

Definition ReconcileAndFilterAnnotations (existing : gomap string) (defaults : list (gomap string)) : gomap string :=
  mergeWithFilter isNotKubernetesAnnotation existing defaults.

Definition ReconcileLabels (existing : gomap string) (defaults : list (gomap string)) : gomap string :=
  mergeWithFilter (λ _, true) existing defaults.

Definition ReconcileAndFilterLabels (existing : gomap string) (defaults : list (gomap string)) : gomap string :=
  mergeWithFilter isNotKubernetesAnnotation existing defaults.

Definition LabelName : string := "app.kubernetes.io/name".
Definition LabelComponent : string := "app.kubernetes.io/component".
Definition LabelPartOf : string := "app.kubernetes.io/part-of".

Definition Label (instanceName : string) : gmap string string :=
  {[ LabelName := instanceName; LabelComponent := "rabbitmq"; LabelPartOf := "rabbitmq" ]}.

Definition GetLabels (instanceName : string) (instanceLabels : gomap string) : gmap string string :=
  map_fold (λ label value allLabels,
      if negb (HasPrefix label "app.kubernetes.io") then <[label := value]> allLabels
      else allLabels)
    (Label instanceName) (gm instanceLabels).

Definition LabelSelector (instanceName : string) : gmap string string :=
  {[ LabelName := instanceName ]}.

(** ** Lookups *)

Lemma copyFiltered_lookup f (m result : gmap string string) k :
  copyFiltered f m result !! k =
  match m !! k with
  | Some v => if f k then Some v else result !! k
  | None => result !! k
  end.
Proof.
  rw /copyFiltered. revert k.
  apply (map_fold_weak_ind (λ r m, ∀ k, r !! k =
    match m !! k with Some v => if f k then Some v else result !! k | None => result !! k end)).
  - intros k. by rw lookup_empty.
  - intros i x m' r Hi IH k. destruct (decide (i = k)) as [->|Hne].
    + rw lookup_insert_eq. destruct (f k); [by rw lookup_insert_eq|]. by rw IH Hi.
    + rw (lookup_insert_ne m') //. rw -IH. by destruct (f i); rw ?lookup_insert_ne.
Qed.

(** The value the last of [maps] that has [k] gives it. *)
Definition lookup_last (maps : list (gomap string)) (k : string) : option string :=
  foldl (λ o m, match gm_lookup m k with Some v => Some v | None => o end) None maps.

Lemma foldl_lookup_last maps k o :
  foldl (λ o (m : gomap string), match gm_lookup m k with Some v => Some v | None => o end) o maps =
  match lookup_last maps k with Some v => Some v | None => o end.
Proof.
  rw /lookup_last. revert o. induction maps as [|m maps IH]; intros o; [done|].
  simpl. rw IH [in RHS]IH. by destruct (foldl _ None maps), (gm_lookup m k).
Qed.

Lemma lookup_last_cons m maps k :
  lookup_last (m :: maps) k =
  match lookup_last maps k with Some v => Some v | None => gm_lookup m k end.
Proof.
  rw {1}/lookup_last /= foldl_lookup_last. by destruct (lookup_last maps k), (gm_lookup m k).
Qed.

Lemma mergeWithFilter_get f base maps k :
  gm_lookup (mergeWithFilter f base maps) k =
  if f k then match lookup_last maps k with Some v => Some v | None => gm_lookup base k end
  else gm_lookup base k.
Proof.
  rw /mergeWithFilter /gm_lookup /=. generalize (gm base) as r. clear base.
  induction maps as [|m maps IH]; intros r; [by destruct (f k)|].
  rw /= IH lookup_last_cons copyFiltered_lookup /gm_lookup.
  by destruct (f k), (lookup_last maps k), (gm m !! k).
Qed.

Lemma GetLabels_lookup n l k :
  GetLabels n l !! k =
  match gm_lookup l k with
  | Some v => if HasPrefix k "app.kubernetes.io" then Label n !! k else Some v
  | None => Label n !! k
  end.
Proof.
  change (GetLabels n l)
    with (copyFiltered (λ k, negb (HasPrefix k "app.kubernetes.io")) (gm l) (Label n)).
  rw copyFiltered_lookup /gm_lookup. destruct (gm l !! k); [|done].
  by destruct (HasPrefix k _).
Qed.

Lemma mergeWithFilter_twice f base maps :
  mergeWithFilter f (mergeWithFilter f base maps) maps = mergeWithFilter f base maps.
Proof.
  rw {1 3}/mergeWithFilter. f_equal. apply map_eq. intros k.
  pose proof (mergeWithFilter_get f (mergeWithFilter f base maps) maps k) as H1.
  pose proof (mergeWithFilter_get f base maps k) as H2.
  rw {1}/gm_lookup {1}/mergeWithFilter /= in H1. rw H1 H2.
  rw {1}/gm_lookup {1}/mergeWithFilter /= in H2. rw H2.
  by destruct (f k), (lookup_last maps k).
Qed.

(** ** Properties *)

(** Merging annotations or labels gives every key that passes the filter
    the value of the last default map that has it, and leaves every other key
    at its existing value; with the Kubernetes filter no default can set or
    change a key that contains kubernetes.io or k8s.io. *)
Theorem mergeWithFilter_lookup f base maps k :
  gm_lookup (mergeWithFilter f base maps) k =
    (if f k then lookup_last maps k else None) ∪ gm_lookup base k ∧
  (isKubernetesAnnotation k = true →
   gm_lookup (ReconcileAndFilterAnnotations base maps) k = gm_lookup base k).
Proof.
  split.
  - rw mergeWithFilter_get. destruct (f k); [by destruct (lookup_last maps k), (gm_lookup base k)|].
    by destruct (gm_lookup base k).
  - intros Hk. by rw mergeWithFilter_get /isNotKubernetesAnnotation Hk.
Qed.

(** Merging the same defaults a second time changes nothing, so an object
    whose labels and annotations were reconciled once is not written again
    because of them. *)
Theorem mergeWithFilter_idempotent f base maps :
  mergeWithFilter f (mergeWithFilter f base maps) maps = mergeWithFilter f base maps.
Proof. apply mergeWithFilter_twice. Qed.

(** The labels of a managed object match the label selector the operator
    lists its children with, its three app.kubernetes.io labels cannot be
    overridden by labels of the RabbitmqCluster, no other app.kubernetes.io
    label is inherited, and every remaining label is inherited as it is. *)
Theorem GetLabels_spec n l :
  LabelSelector n ⊆ GetLabels n l ∧
  Label n ⊆ GetLabels n l ∧
  (∀ k, HasPrefix k "app.kubernetes.io" = true → GetLabels n l !! k = Label n !! k) ∧
  (∀ k, HasPrefix k "app.kubernetes.io" = false → GetLabels n l !! k = gm_lookup l k).
Proof.
  assert (Hl : ∀ k, HasPrefix k "app.kubernetes.io" = false → Label n !! k = None).
  { intros k Hk. rw /Label !lookup_insert_ne ?lookup_singleton_ne //; intros <-; done. }
  assert (Hin : Label n ⊆ GetLabels n l).
  { apply map_subseteq_spec. intros k v Hk. rw GetLabels_lookup.
    destruct (HasPrefix k "app.kubernetes.io") eqn:Hp; [by destruct (gm_lookup l k)|].
    by rw Hl in Hk. }
  split_and!; [|done| |].
  - etrans; [|exact Hin]. apply map_singleton_subseteq_l. apply lookup_insert_eq.
  - intros k Hk. rw GetLabels_lookup Hk. by destruct (gm_lookup l k).
  - intros k Hk. rw GetLabels_lookup Hk Hl //. by destruct (gm_lookup l k).
Qed.
