(* ===== verification/Result.v ===== *)
(** controllers/result: the value a reconcile step ends with, and what the
    controller runtime is told. *)

From S2P Require Import Prelude GoStd.

(** [ctrl.Result]. *)
Record CtrlResult := mkCtrlResult {
  res_Requeue : bool;
  res_RequeueAfter : Z
}.

(** The implementations of the interface [ReconcileResult]. *)
Inductive ReconcileResult :=
  | continueReconcile
  | done_
  | callBackSoon (after : Z)
  | errorOut (err : error)
  | callBackSoonError (err : error) (after : Z).

Definition Continue : ReconcileResult := continueReconcile.
Definition Done : ReconcileResult := done_.
Definition RequeueSoon (after : Z) : ReconcileResult := callBackSoon after.
Definition ErrorResult (e : error) : ReconcileResult := errorOut e.
Definition RequeueSoonError (after : Z) (e : error) : ReconcileResult := callBackSoonError e after.

Definition Completed (r : ReconcileResult) : bool :=
  match r with continueReconcile => false | _ => true end.

Definition Output (r : ReconcileResult) : outcome (CtrlResult * goerror) :=
  match r with
  | continueReconcile => Panics "there was no Result to return"
  | done_ => Returns (mkCtrlResult true (30 * Second), None)
  | callBackSoon after => Returns (mkCtrlResult true after, None)
  | errorOut err => Returns (mkCtrlResult false 0, Some err)
  | callBackSoonError err after => Returns (mkCtrlResult true after, Some err)
  end.

Definition IsDone (r : ReconcileResult) : bool :=
  match r with done_ => true | _ => false end.

Definition IsError (r : ReconcileResult) : bool :=
  match r with errorOut _ | callBackSoonError _ _ => true | _ => false end.

Definition IsRequeue (r : ReconcileResult) : bool :=
  match r with callBackSoon _ | callBackSoonError _ _ => true | _ => false end.

Definition GetError (r : ReconcileResult) : goerror :=
  match r with errorOut e | callBackSoonError e _ => Some e | _ => None end.

(** A completed step always has an output for the controller runtime and a
    step that continues never has one; the error it outputs is the error it
    holds; and a completed step without an error asks to be called again. *)
Theorem Output_spec r :
  (Completed r = true ↔ ∃ o, Output r = Returns o) ∧
  (∀ res err, Output r = Returns (res, err) →
     err = GetError r ∧ (IsError r = false → res_Requeue res = true)) ∧
  (IsError r = true ↔ is_Some (GetError r)) ∧
  (Completed r = false → IsDone r = false ∧ IsError r = false ∧ IsRequeue r = false).
Proof.
  split_and!.
  - destruct r; simpl; naive_solver.
  - intros res err. destruct r; simpl; intros Ho; simplify_eq; done.
  - destruct r; simpl; split; intros H; try done; by destruct H.
  - by destruct r.
Qed.
