(* ===== verification/Status.v ===== *)
(** internal/status: the four status conditions of a cluster, computed from
    the StatefulSets and the Endpoints the operator has read. *)

From S2P Require Import Prelude GoStd K8s V1beta1.

(** ** Definitions *)

(** A [runtime.Object] holding a possibly nil pointer. *)
Inductive Resource :=
  | RStatefulSet (sts : option StatefulSet)
  | REndpoints (ep : option Endpoints)
  | ROther.

Definition newRabbitmqClusterCondition (conditionType : string) : RabbitmqClusterCondition :=
  mkRabbitmqClusterCondition conditionType ConditionUnknown None "" "".

(** The condition a computation starts from: it inherits the transition time. *)
Definition startCondition (conditionType : string) (old : option RabbitmqClusterCondition)
    : RabbitmqClusterCondition :=
  let condition := newRabbitmqClusterCondition conditionType in
  match old with
  | Some o => set_cond_LastTransitionTime (cond_LastTransitionTime o) condition
  | None => condition
  end.

(** The function the three computations defer: it stamps the local variable. *)
Definition deferredTransition (now : Z) (old : option RabbitmqClusterCondition)
    (condition : RabbitmqClusterCondition) : RabbitmqClusterCondition :=
  match old with
  | Some o =>
      if bool_decide (cond_Status o ≠ cond_Status condition
                      ∨ cond_Reason o ≠ cond_Reason condition
                      ∨ cond_Message o ≠ cond_Message condition)
      then set_cond_LastTransitionTime (Some now) condition
      else condition
  | None => condition
  end.

(** [return condition] in a function whose result is unnamed: the result is
    copied out of the local variable first, the deferred function runs on the
    local variable afterwards, and the caller gets the copy. *)
Definition returnThenDefer (now : Z) (old : option RabbitmqClusterCondition)
    (condition : RabbitmqClusterCondition) : RabbitmqClusterCondition :=
  let returned := condition in
  let local := deferredTransition now old condition in
  fst (returned, local).

Definition setSR (status reason : string) (c : RabbitmqClusterCondition) : RabbitmqClusterCondition :=
  set_cond_Reason reason (set_cond_Status status c).

Definition missingStatefulSet (c : RabbitmqClusterCondition) : RabbitmqClusterCondition :=
  set_cond_Message "Could not find StatefulSet" (setSR ConditionUnknown "MissingStatefulSet" c).

(** *** no_warnings.go *)

(** [Limits["memory"]] and [Requests["memory"]] of the first container. *)
Definition memoryDiffers (sts : StatefulSet) : outcome bool :=
  match ps_Containers (pts_Spec (stss_Template (sts_Spec sts))) with
  | [] => Panics "index out of range"
  | c :: _ => Returns (negb (Cmp (Memory (rr_Limits (ctr_Resources c)))
                                 (Memory (rr_Requests (ctr_Resources c))) =? 0)%Z)
  end.

Definition NoWarningsStep (condition : RabbitmqClusterCondition) (res : Resource)
    : outcome RabbitmqClusterCondition :=
  match res with
  | RStatefulSet None => Returns (missingStatefulSet condition)
  | RStatefulSet (Some sts) =>
      differs ← memoryDiffers sts;
      if (differs : bool)
      then Returns (set_cond_Message "RabbitMQ container memory resource request and limit must be equal"
                      (setSR ConditionFalse "MemoryRequestAndLimitDifferent" condition))
      else Returns (setSR ConditionTrue "NoWarnings" condition)
  | _ => Returns condition
  end.

Fixpoint foldO {A B} (f : A → B → outcome A) (a : A) (l : list B) : outcome A :=
  match l with
  | [] => Returns a
  | b :: l => a ← f a b; foldO f a l
  end.

Definition NoWarningsCondition (now : Z) (resources : list Resource)
    (old : option RabbitmqClusterCondition) : outcome RabbitmqClusterCondition :=
  condition ← foldO NoWarningsStep (startCondition NoWarnings old) resources;
  Returns (returnThenDefer now old condition).

(** *** all_replicas_ready.go *)

Definition desiredReplicas (sts : StatefulSet) : Z := default 1%Z (stss_Replicas (sts_Spec sts)).

Definition AllReplicasReadyStep (condition : RabbitmqClusterCondition) (res : Resource)
    : RabbitmqClusterCondition :=
  match res with
  | RStatefulSet None => missingStatefulSet condition
  | RStatefulSet (Some sts) =>
      let ready := stst_ReadyReplicas (sts_Status sts) in
      if (desiredReplicas sts =? ready)%Z
      then setSR ConditionTrue "AllPodsAreReady" condition
      else set_cond_Message (Itoa ready +:+ "/" +:+ Itoa (desiredReplicas sts) +:+ " Pods ready")
             (setSR ConditionFalse "NotAllPodsReady" condition)
  | _ => condition
  end.

Definition AllReplicasReadyCondition (now : Z) (resources : list Resource)
    (old : option RabbitmqClusterCondition) : RabbitmqClusterCondition :=
  returnThenDefer now old
    (foldl AllReplicasReadyStep (startCondition AllReplicasReady old) resources).

(** *** cluster_available.go *)

(** The inner loop: its [continue] moves on to the next subset. *)
Definition scanSubsets (condition : RabbitmqClusterCondition) (subsets : list EndpointSubset)
    : RabbitmqClusterCondition :=
  foldl (λ c subset,
      if (0 <? length (eps_Addresses subset))%nat
      then setSR ConditionTrue "AtLeastOneEndpointAvailable" c else c)
    condition subsets.

Definition ClusterAvailableStep (condition : RabbitmqClusterCondition) (res : Resource)
    : RabbitmqClusterCondition :=
  match res with
  | REndpoints None =>
      set_cond_Message "Could not verify available service endpoints"
        (setSR ConditionUnknown "CouldNotRetrieveEndpoints" condition)
  | REndpoints (Some ep) =>
      let condition := scanSubsets condition (ep_Subsets ep) in
      set_cond_Message "The service has no endpoints available"
        (setSR ConditionFalse "NoEndpointsAvailable" condition)
  | _ => condition
  end.

Definition ClusterAvailableCondition (now : Z) (resources : list Resource)
    (old : option RabbitmqClusterCondition) : RabbitmqClusterCondition :=
  returnThenDefer now old
    (foldl ClusterAvailableStep (startCondition ClusterAvailable old) resources).

(** *** reconcile_success.go and status.go *)

Definition ReconcileSuccessCondition (now : Z) (status reason message : string)
    : RabbitmqClusterCondition :=
  mkRabbitmqClusterCondition ReconcileSuccess status (Some now) reason message.

(** The loop of [SetCondition]: the first condition of the type, then [break]. *)
Fixpoint updateFirst (now : Z) (condType condStatus reason : string) (messages : list string)
    (conditions : list RabbitmqClusterCondition) : list RabbitmqClusterCondition :=
  match conditions with
  | [] => []
  | c :: cs =>
      if bool_decide (cond_Type c = condType)
      then UpdateReason reason messages (UpdateState now condStatus c) :: cs
      else c :: updateFirst now condType condStatus reason messages cs
  end.

Definition SetCondition (now : Z) (condType condStatus reason : string) (messages : list string)
    (clusterStatus : RabbitmqClusterStatus) : RabbitmqClusterStatus :=
  set_rst_Conditions (updateFirst now condType condStatus reason messages <$> rst_Conditions clusterStatus)
    clusterStatus.

(** The condition of a type that the loop of [SetConditions] keeps: the last. *)
Definition oldCondition (condType : string) (conditions : list RabbitmqClusterCondition)
    : option RabbitmqClusterCondition :=
  foldl (λ o c, if bool_decide (cond_Type c = condType) then Some c else o) None conditions.

Definition SetConditions (now : Z) (resources : list Resource)
    (clusterStatus : RabbitmqClusterStatus) : outcome RabbitmqClusterStatus :=
  let conditions := sl (rst_Conditions clusterStatus) in
  noWarningsCond ← NoWarningsCondition now resources (oldCondition NoWarnings conditions);
  let allReplicasReadyCond :=
    AllReplicasReadyCondition now resources (oldCondition AllReplicasReady conditions) in
  let clusterAvailableCond :=
    ClusterAvailableCondition now resources (oldCondition ClusterAvailable conditions) in
  let reconciledCondition :=
    match oldCondition ReconcileSuccess conditions with
    | Some c => c
    | None => ReconcileSuccessCondition now ConditionUnknown "Initialising" ""
    end in
  Returns (set_rst_Conditions
    (Some [allReplicasReadyCond; clusterAvailableCond; noWarningsCond; reconciledCondition])
    clusterStatus).

(** ** Lemmas *)

(** The StatefulSet slots among the resources, in order. *)
Definition stsSlots (resources : list Resource) : list (option StatefulSet) :=
  omap (λ r, match r with RStatefulSet s => Some s | _ => None end) resources.

(** The Endpoints slots among the resources, in order. *)
Definition epSlots (resources : list Resource) : list (option Endpoints) :=
  omap (λ r, match r with REndpoints e => Some e | _ => None end) resources.

Definition stsReady (s : option StatefulSet) : Prop :=
  ∃ sts, s = Some sts ∧ desiredReplicas sts = stst_ReadyReplicas (sts_Status sts).

Lemma last_omap_snoc {A B} (f : A → option B) l a :
  last (omap f (l ++ [a])) = match f a with Some b => Some b | None => last (omap f l) end.
Proof.
  rw omap_app /=. destruct (f a); [by rw last_snoc|]. by rw app_nil_r.
Qed.

Lemma AllReplicasReady_fold c rs :
  let r := foldl AllReplicasReadyStep c rs in
  cond_Type r = cond_Type c ∧ cond_LastTransitionTime r = cond_LastTransitionTime c.
Proof.
  simpl. induction rs as [|x rs IH] using rev_ind; [done|].
  rw foldl_app /=. by destruct x as [[s|]| |]; simpl; [case_match| | |].
Qed.

Lemma ClusterAvailable_scan c subsets :
  cond_Type (scanSubsets c subsets) = cond_Type c ∧
  cond_LastTransitionTime (scanSubsets c subsets) = cond_LastTransitionTime c.
Proof.
  rw /scanSubsets. induction subsets as [|s ss IH] using rev_ind; [done|].
  rw foldl_app /=. by case_match.
Qed.

Lemma ClusterAvailable_fold c rs :
  let r := foldl ClusterAvailableStep c rs in
  cond_Type r = cond_Type c ∧ cond_LastTransitionTime r = cond_LastTransitionTime c.
Proof.
  simpl. induction rs as [|x rs IH] using rev_ind; [done|].
  rw foldl_app /=. destruct x as [|[e|]|]; simpl; rw ?(proj1 (ClusterAvailable_scan _ _))
    ?(proj2 (ClusterAvailable_scan _ _)); done.
Qed.

Lemma NoWarnings_fold c rs r :
  foldO NoWarningsStep c rs = Returns r →
  cond_Type r = cond_Type c ∧ cond_LastTransitionTime r = cond_LastTransitionTime c.
Proof.
  revert c. induction rs as [|x rs IH]; intros c; [by intros [= <-]|].
  simpl. rw /mbind /outcome_bind.
  destruct (NoWarningsStep c x) as [c'|] eqn:E; [|done]. intros [-> ->]%IH.
  destruct x as [[s|]| |]; simpl in E; try by injection E as <-.
  rw /mbind /outcome_bind in E. destruct (memoryDiffers s) as [[]|]; by simplify_eq/=.
Qed.

Lemma startCondition_spec ty old :
  cond_Type (startCondition ty old) = ty ∧
  cond_LastTransitionTime (startCondition ty old) = old ≫= cond_LastTransitionTime.
Proof. by destruct old. Qed.

Lemma AllReplicasReady_status c rs :
  cond_Status c = ConditionUnknown →
  cond_Status (foldl AllReplicasReadyStep c rs) =
  match last (stsSlots rs) with
  | Some (Some sts) => if (desiredReplicas sts =? stst_ReadyReplicas (sts_Status sts))%Z
                       then ConditionTrue else ConditionFalse
  | _ => ConditionUnknown
  end.
Proof.
  intros Hc. induction rs as [|x rs IH] using rev_ind; [done|].
  rw foldl_app /= /stsSlots last_omap_snoc. destruct x as [[s|]| |]; simpl; try done.
  by destruct (_ =? _)%Z.
Qed.

Lemma ClusterAvailable_status c rs :
  cond_Status c = ConditionUnknown →
  cond_Status (foldl ClusterAvailableStep c rs) =
  match last (epSlots rs) with
  | Some (Some ep) => ConditionFalse
  | _ => ConditionUnknown
  end.
Proof.
  intros Hc. induction rs as [|x rs IH] using rev_ind; [done|].
  rw foldl_app /= /epSlots last_omap_snoc. by destruct x as [|[e|]|].
Qed.

Lemma startCondition_status ty old : cond_Status (startCondition ty old) = ConditionUnknown.
Proof. by destruct old. Qed.

Lemma returnThenDefer_id now old c : returnThenDefer now old c = c.
Proof. done. Qed.

(** The conditions [SetConditions] installs, with what it keeps of the old ones. *)
Lemma SetConditions_inv now rs st st' :
  SetConditions now rs st = Returns st' →
  ∃ nw, NoWarningsCondition now rs (oldCondition NoWarnings (sl (rst_Conditions st))) = Returns nw ∧
  rst_Conditions st' = Some
    [AllReplicasReadyCondition now rs (oldCondition AllReplicasReady (sl (rst_Conditions st)));
     ClusterAvailableCondition now rs (oldCondition ClusterAvailable (sl (rst_Conditions st)));
     nw;
     default (ReconcileSuccessCondition now ConditionUnknown "Initialising" "")
       (oldCondition ReconcileSuccess (sl (rst_Conditions st)))] ∧
  rst_Replicas st' = rst_Replicas st ∧ rst_DefaultUser st' = rst_DefaultUser st ∧
  rst_Binding st' = rst_Binding st ∧ rst_ObservedGeneration st' = rst_ObservedGeneration st.
Proof.
  rw /SetConditions /mbind /outcome_bind.
  destruct (NoWarningsCondition _ _ _) as [nw|]; [|done]. intros [= <-].
  exists nw. split_and!; done.
Qed.

Lemma oldCondition_type ty cs c : oldCondition ty cs = Some c → cond_Type c = ty ∧ c ∈ cs.
Proof.
  rw /oldCondition. induction cs as [|d cs IH] using rev_ind; [done|].
  rw foldl_app /=. case_bool_decide.
  - intros [= <-]. split; [done|]. apply elem_of_app. right. by apply list_elem_of_singleton.
  - intros [??]%IH. split; [done|]. apply elem_of_app. by left.
Qed.

Lemma AllReplicasReadyCondition_meta now rs old :
  cond_Type (AllReplicasReadyCondition now rs old) = AllReplicasReady ∧
  cond_LastTransitionTime (AllReplicasReadyCondition now rs old) = old ≫= cond_LastTransitionTime.
Proof.
  rw /AllReplicasReadyCondition returnThenDefer_id.
  destruct (AllReplicasReady_fold (startCondition AllReplicasReady old) rs) as [-> ->].
  apply startCondition_spec.
Qed.

Lemma ClusterAvailableCondition_meta now rs old :
  cond_Type (ClusterAvailableCondition now rs old) = ClusterAvailable ∧
  cond_LastTransitionTime (ClusterAvailableCondition now rs old) = old ≫= cond_LastTransitionTime.
Proof.
  rw /ClusterAvailableCondition returnThenDefer_id.
  destruct (ClusterAvailable_fold (startCondition ClusterAvailable old) rs) as [-> ->].
  apply startCondition_spec.
Qed.

Lemma NoWarningsCondition_inv now rs old nw :
  NoWarningsCondition now rs old = Returns nw →
  foldO NoWarningsStep (startCondition NoWarnings old) rs = Returns nw ∧
  cond_Type nw = NoWarnings ∧ cond_LastTransitionTime nw = old ≫= cond_LastTransitionTime.
Proof.
  rw /NoWarningsCondition /mbind /outcome_bind. destruct (foldO _ _ _) as [c|] eqn:E; [|done].
  intros [= <-]. rw returnThenDefer_id. split; [done|].
  destruct (NoWarnings_fold _ _ _ E) as [-> ->]. apply startCondition_spec.
Qed.

(** A computation started from conditions with the same transition time. *)
Lemma startCondition_eq ty o o' :
  o ≫= cond_LastTransitionTime = o' ≫= cond_LastTransitionTime →
  startCondition ty o = startCondition ty o'.
Proof.
  assert (∀ o, startCondition ty o = set_cond_LastTransitionTime (o ≫= cond_LastTransitionTime)
    (newRabbitmqClusterCondition ty)) as Hs by (by intros []).
  by rw !Hs => ->.
Qed.

(** AllReplicasReady is True exactly when the last StatefulSet among the
    resources has all its replicas ready, Unknown exactly when that one is
    missing or there is none; the readiness of the other StatefulSets has no
    influence, and a True condition can carry the message of an unready one. *)
Lemma AllReplicasReady_values now rs old :
  let c := AllReplicasReadyCondition now rs old in
  (cond_Status c = ConditionTrue ↔ ∃ s, last (stsSlots rs) = Some s ∧ stsReady s) ∧
  (cond_Status c = ConditionUnknown ↔ default None (last (stsSlots rs)) = None) ∧
  (∀ s1 s2, ¬ stsReady (Some s1) → stsReady (Some s2) →
     let c := AllReplicasReadyCondition now [RStatefulSet (Some s1); RStatefulSet (Some s2)] old in
     cond_Status c = ConditionTrue ∧
     cond_Message c = Itoa (stst_ReadyReplicas (sts_Status s1)) +:+ "/" +:+
                      Itoa (desiredReplicas s1) +:+ " Pods ready").
Proof.
  simpl. split_and!; [rw /AllReplicasReadyCondition !returnThenDefer_id
    AllReplicasReady_status; [apply startCondition_status|]..|].
  - destruct (last (stsSlots rs)) as [[s|]|]; simpl.
    + destruct (Z.eqb_spec (desiredReplicas s) (stst_ReadyReplicas (sts_Status s))) as [E|E].
      * split; [|done]. intros _. exists (Some s). split; [done|]. by exists s.
      * split; [done|]. intros (? & [= <-] & ? & [= <-] & ?). done.
    + split; [done|]. by intros (? & [= <-] & ? & ? & ?).
    + split; [done|]. by intros (? & ? & ?).
  - destruct (last (stsSlots rs)) as [[s|]|]; simpl; [|done..]. by case_match.
  - intros s1 s2 Hn (s & [= <-] & Hs). rw /AllReplicasReadyCondition returnThenDefer_id /=.
    rw Hs Z.eqb_refl.
    destruct (Z.eqb_spec (desiredReplicas s1) (stst_ReadyReplicas (sts_Status s1))) as [E|E]; [|done].
    destruct Hn. by exists s1.
Qed.

(** ClusterAvailable is never True: whatever addresses the endpoints of the
    client service have, the condition is False, with the reason that there
    are none, as soon as the endpoints object exists. *)
Lemma ClusterAvailable_values now rs old :
  cond_Status (ClusterAvailableCondition now rs old) ≠ ConditionTrue ∧
  (∀ ep, last (epSlots rs) = Some (Some ep) →
     cond_Status (ClusterAvailableCondition now rs old) = ConditionFalse) ∧
  (∀ ep, let c := ClusterAvailableCondition now [REndpoints (Some ep)] old in
     cond_Reason c = "NoEndpointsAvailable" ∧
     cond_Message c = "The service has no endpoints available").
Proof.
  rw /ClusterAvailableCondition !returnThenDefer_id.
  rw ClusterAvailable_status; [apply startCondition_status|]. split_and!.
  - by destruct (last (epSlots rs)) as [[]|].
  - by intros ep ->.
  - done.
Qed.

(** ** Properties *)

(** C37: what two of the conditions say.  AllReplicasReady is True exactly when
    the last StatefulSet among the resources has all its replicas ready, Unknown
    exactly when that one is missing or there is none; the readiness of the
    other StatefulSets has no influence, and a True condition can carry the
    message of an unready one.  ClusterAvailable is never True: whatever
    addresses the endpoints of the client service have, the condition is False,
    with the reason that there are none, as soon as the endpoints object exists. *)
Theorem conditions_values now rs old :
  (let c := AllReplicasReadyCondition now rs old in
   (cond_Status c = ConditionTrue ↔ ∃ s, last (stsSlots rs) = Some s ∧ stsReady s) ∧
   (cond_Status c = ConditionUnknown ↔ default None (last (stsSlots rs)) = None) ∧
   (∀ s1 s2, ¬ stsReady (Some s1) → stsReady (Some s2) →
      let c := AllReplicasReadyCondition now [RStatefulSet (Some s1); RStatefulSet (Some s2)] old in
      cond_Status c = ConditionTrue ∧
      cond_Message c = Itoa (stst_ReadyReplicas (sts_Status s1)) +:+ "/" +:+
                       Itoa (desiredReplicas s1) +:+ " Pods ready")) ∧
  cond_Status (ClusterAvailableCondition now rs old) ≠ ConditionTrue ∧
  (∀ ep, last (epSlots rs) = Some (Some ep) →
     cond_Status (ClusterAvailableCondition now rs old) = ConditionFalse) ∧
  (∀ ep, let c := ClusterAvailableCondition now [REndpoints (Some ep)] old in
     cond_Reason c = "NoEndpointsAvailable" ∧
     cond_Message c = "The service has no endpoints available").
Proof. split; [apply AllReplicasReady_values|apply ClusterAvailable_values]. Qed.

(** C38: recomputing the conditions never moves a transition time: the three
    computed conditions keep the time of the old condition of their type (the
    zero time when there was none) even when status, reason or message change,
    and an existing ReconcileSuccess condition is kept as it is. *)
Theorem SetConditions_transition_time now rs st st' :
  SetConditions now rs st = Returns st' →
  cond_Type <$> sl (rst_Conditions st') =
    [AllReplicasReady; ClusterAvailable; NoWarnings; ReconcileSuccess] ∧
  (∀ c, c ∈ sl (rst_Conditions st') → cond_Type c ≠ ReconcileSuccess →
     cond_LastTransitionTime c =
       oldCondition (cond_Type c) (sl (rst_Conditions st)) ≫= cond_LastTransitionTime) ∧
  (∀ c, oldCondition ReconcileSuccess (sl (rst_Conditions st)) = Some c →
     c ∈ sl (rst_Conditions st')).
Proof.
  intros (nw & Hnw & -> & _)%SetConditions_inv. simpl.
  apply NoWarningsCondition_inv in Hnw as (_ & Tnw & Lnw).
  destruct (AllReplicasReadyCondition_meta now rs
    (oldCondition AllReplicasReady (sl (rst_Conditions st)))) as [Ta La].
  destruct (ClusterAvailableCondition_meta now rs
    (oldCondition ClusterAvailable (sl (rst_Conditions st)))) as [Tc Lc].
  assert (cond_Type (default (ReconcileSuccessCondition now ConditionUnknown "Initialising" "")
    (oldCondition ReconcileSuccess (sl (rst_Conditions st)))) = ReconcileSuccess) as Tr.
  { destruct (oldCondition ReconcileSuccess _) eqn:E; [|done]. by apply oldCondition_type in E as [E _]. }
  split_and!.
  - by rw Ta Tc Tnw Tr.
  - intros c Hc Hr. rw !elem_of_cons elem_of_nil in Hc.
    destruct Hc as [->|[->|[->|[->|[]]]]]; [by rw La Ta|by rw Lc Tc|by rw Lnw Tnw|done].
  - intros c Hc. rw Hc /=. do 3 apply list_elem_of_further. apply list_elem_of_here.
Qed.

(** Recomputing the conditions from the same resources is a fixed point: the
    second computation, at any later time, returns the status unchanged, so the
    status of a cluster whose children do not change is written at most once. *)
Theorem SetConditions_idempotent now now' rs st st' :
  SetConditions now rs st = Returns st' → SetConditions now' rs st' = Returns st'.
Proof.
  intros (nw & Hnw & Hcs & _)%SetConditions_inv.
  apply NoWarningsCondition_inv in Hnw as (Fnw & Tnw & Lnw).
  set (oa := oldCondition AllReplicasReady (sl (rst_Conditions st))) in *.
  set (oc := oldCondition ClusterAvailable (sl (rst_Conditions st))) in *.
  set (ow := oldCondition NoWarnings (sl (rst_Conditions st))) in *.
  set (rc := default _ _) in Hcs.
  assert (cond_Type rc = ReconcileSuccess) as Tr.
  { subst rc. destruct (oldCondition ReconcileSuccess _) eqn:E; [|done].
    by apply oldCondition_type in E as [E _]. }
  destruct (AllReplicasReadyCondition_meta now rs oa) as [Ta La].
  destruct (ClusterAvailableCondition_meta now rs oc) as [Tc Lc].
  destruct st' as [n cs du bd og]. simpl in Hcs. subst cs.
  rw /SetConditions /= /oldCondition /= Ta Tc Tnw Tr /=.
  rw /NoWarningsCondition (startCondition_eq _ (Some nw) ow) // Fnw /=.
  rw /set_rst_Conditions /= !returnThenDefer_id.
  rw /AllReplicasReadyCondition (startCondition_eq _ (Some _) oa) //.
  rw /ClusterAvailableCondition (startCondition_eq _ (Some _) oc) //.
Qed.

(** Setting one condition changes the first condition of its type only: it
    gets the status, the reason and the joined messages, and a new transition
    time exactly when its status changes; without a condition of that type
    nothing changes, and no other field of the status does. *)
Theorem SetCondition_spec now ty status reason messages st :
  let st' := SetCondition now ty status reason messages st in
  (rst_Replicas st', rst_DefaultUser st', rst_Binding st', rst_ObservedGeneration st') =
    (rst_Replicas st, rst_DefaultUser st, rst_Binding st, rst_ObservedGeneration st) ∧
  ((ty ∉ cond_Type <$> sl (rst_Conditions st)) → st' = st) ∧
  (∀ pre c post, rst_Conditions st = Some (pre ++ c :: post) →
     ty ∉ cond_Type <$> pre → cond_Type c = ty →
     rst_Conditions st' = Some (pre ++ mkRabbitmqClusterCondition ty status
       (if decide (cond_Status c = status) then cond_LastTransitionTime c else Some now)
       reason (Join messages ". ") :: post)).
Proof.
  simpl. split_and!; [done| |].
  - destruct st as [n [cs|] du bd og]; [|done]. simpl. intros Hni.
    rw /SetCondition /set_rst_Conditions /=. do 2 f_equal.
    induction cs as [|c cs IH]; [done|]. simpl. rw fmap_cons not_elem_of_cons in Hni.
    rw bool_decide_eq_false_2; [naive_solver|]. rw IH //; naive_solver.
  - intros pre c post -> Hni Hc. simpl. f_equal.
    induction pre as [|d pre IH]; simpl.
    + rw bool_decide_eq_true_2 //. rw /UpdateState.
      destruct c as [cty cst ct cr cm]. simpl in *. subst cty.
      destruct (decide (cst = status)) as [->|Hne].
      * by rw bool_decide_eq_false_2; [naive_solver|].
      * by rw bool_decide_eq_true_2.
    + rw fmap_cons not_elem_of_cons in Hni. rw bool_decide_eq_false_2; [naive_solver|].
      rw IH //. naive_solver.
Qed.
