(* ===== verification/Merge.v ===== *)
(** internal/resource/utils.go: merging the lists of a generated object with
    the lists of the object that is in the cluster, and the two routines that
    move entries to the front after an override. *)

From S2P Require Import Prelude GoStd K8s V1beta1 Constant.

(** ** Definitions *)

(** What the six merge functions have in common: the key by which entries are
    identified and what happens to the current entry when the next list has an
    entry of the same key. *)
Class Mergeable (A : Type) := {
  mkey : A → string;
  mupdate : A → A → outcome A    (* current, next *)
}.

(** [for index := range curr { currMap[curr[index].Name] = index }]. *)
Fixpoint indexFrom {A} `{Mergeable A} (index : nat) (curr : list A) (currMap : gmap string nat)
    : gmap string nat :=
  match curr with
  | [] => currMap
  | c :: curr => indexFrom (S index) curr (<[mkey c := index]> currMap)
  end.

(** The second loop, over the next entries. *)
Fixpoint mergeLoop {A} `{Mergeable A} (next : list A) (curr : list A) (currMap : gmap string nat)
    : outcome (list A) :=
  match next with
  | [] => Returns curr
  | n :: next =>
      match currMap !! mkey n with
      | Some currIndex =>
          match curr !! currIndex with
          | Some c => c' ← mupdate c n; mergeLoop next (<[currIndex := c']> curr) currMap
          | None => Panics "index out of range"
          end
      | None => mergeLoop next (curr ++ [n]) (<[mkey n := length curr]> currMap)
      end
  end.

Definition merge {A} `{Mergeable A} (curr next : list A) : outcome (list A) :=
  mergeLoop next curr (indexFrom 0 curr ∅).

#[export] Instance Volume_mergeable : Mergeable Volume := {
  mkey := vol_Name;
  mupdate c n := Returns (set_vol_VolumeSource (vol_VolumeSource n) c)
}.

Definition updatePort (c n : ServicePort) : ServicePort :=
  set_sp_Protocol (sp_Protocol n) (set_sp_TargetPort (sp_TargetPort n) (set_sp_Port (sp_Port n) c)).

#[export] Instance ServicePort_mergeable : Mergeable ServicePort := {
  mkey := sp_Name;
  mupdate c n := Returns (updatePort c n)
}.

#[export] Instance Container_mergeable : Mergeable Container := {
  mkey := ctr_Name;
  mupdate c n := Returns n
}.

#[export] Instance VolumeMount_mergeable : Mergeable VolumeMount := {
  mkey := vm_Name;
  mupdate c n := Returns n
}.

Definition pvcRequest (p : PersistentVolumeClaim) : Quantity :=
  default 0%Z (gm_lookup (pvcs_Requests (pvc_Spec p)) ResourceStorage).

(** [curr.Spec.Resources.Requests[storage] = next.Spec.Resources.Requests[storage]]. *)
Definition updatePVC (c n : PersistentVolumeClaim) : outcome PersistentVolumeClaim :=
  requests ← gm_insert ResourceStorage (pvcRequest n) (pvcs_Requests (pvc_Spec c));
  Returns (set_pvc_Spec (set_pvcs_Requests requests (pvc_Spec c)) c).

#[export] Instance PVC_mergeable : Mergeable PersistentVolumeClaim := {
  mkey p := om_Name (pvc_ObjectMeta p);
  mupdate := updatePVC
}.

#[export] Instance TSC_mergeable : Mergeable TopologySpreadConstraint := {
  mkey := tsc_TopologyKey;
  mupdate c n := Returns n
}.

Definition mergeVolumes (curr next : list Volume) : outcome (list Volume) := merge curr next.
Definition mergePorts (curr next : list ServicePort) : outcome (list ServicePort) := merge curr next.
Definition mergeContainers (curr next : list Container) : outcome (list Container) := merge curr next.
Definition mergeVolumeMounts (curr next : list VolumeMount) : outcome (list VolumeMount) := merge curr next.
Definition mergePVCs (curr next : list PersistentVolumeClaim) : outcome (list PersistentVolumeClaim) :=
  merge curr next.
Definition mergeTSCs (curr next : list TopologySpreadConstraint)
    : outcome (list TopologySpreadConstraint) := merge curr next.

(** [mergeMap]: the override wins, a nil base becomes an allocated map. *)
Definition mergeMap (base override : gomap string) : gomap string :=
  Some (map_fold (λ k v result, <[k := v]> result) (gm base) (gm override)).

Fixpoint containerRabbitmq (containers : list Container) : Container :=
  match containers with
  | [] => emptyContainer
  | c :: cs => if (ctr_Name c =? "rabbitmq")%string then c else containerRabbitmq cs
  end.

Definition copyObjectMeta (base : ObjectMeta) (override : EmbeddedObjectMeta) : ObjectMeta :=
  let base := if negb (eom_Name override =? "")%string
              then set_om_Name (eom_Name override) base else base in
  let base := match eom_Labels override with
              | Some l => set_om_Labels (mergeMap (om_Labels base) (Some l)) base
              | None => base end in
  match eom_Annotations override with
  | Some a => set_om_Annotations (mergeMap (om_Annotations base) (Some a)) base
  | None => base end.

Definition copyLabelsAnnotations (base : ObjectMeta) (override : EmbeddedLabelsAnnotations) : ObjectMeta :=
  let base := match ela_Labels override with
              | Some l => set_om_Labels (mergeMap (om_Labels base) (Some l)) base
              | None => base end in
  match ela_Annotations override with
  | Some a => set_om_Annotations (mergeMap (om_Annotations base) (Some a)) base
  | None => base end.

(** [disableBlockOwnerDeletion] writes through the slice of owner references. *)
Definition disableBlockOwnerDeletion (pvc : PersistentVolumeClaim) : PersistentVolumeClaim :=
  set_pvc_ObjectMeta
    (set_om_OwnerReferences
       (set_or_BlockOwnerDeletion (Some false) <$> om_OwnerReferences (pvc_ObjectMeta pvc))
       (pvc_ObjectMeta pvc)) pvc.

(** A loop [for i, e := range l { body }] whose body may swap entries of [l]:
    the bound is the initial length, the entry is read when it is reached. *)
Fixpoint rangeLoop {A} (body : nat → A → list A → outcome (list A)) (i n : nat) (l : list A)
    : outcome (list A) :=
  match n with
  | O => Returns l
  | S n =>
      match l !! i with
      | Some e => l' ← body i e l; rangeLoop body (S i) n l'
      | None => Panics "index out of range"
      end
  end.

Definition sortEnvVarBody (i : nat) (e : EnvVar) (envVar : list EnvVar) : outcome (list EnvVar) :=
  if (ev_Name e =? "MY_POD_NAME")%string then swap 0 i envVar
  else if (ev_Name e =? "MY_POD_NAMESPACE")%string then swap 1 i envVar
  else if (ev_Name e =? "K8S_SERVICE_NAME")%string then swap 2 i envVar
  else Returns envVar.

Definition sortEnvVar (envVar : list EnvVar) : outcome (list EnvVar) :=
  rangeLoop sortEnvVarBody 0 (length envVar) envVar.

Definition sortVolumeMountsBody (i : nat) (m : VolumeMount) (mounts : list VolumeMount)
    : outcome (list VolumeMount) :=
  if (vm_Name m =? "rabbitmq-erlang-cookie")%string then swap 0 i mounts
  else if (vm_Name m =? c_PVCName)%string then swap 1 i mounts
  else Returns mounts.

Definition sortVolumeMounts (mounts : list VolumeMount) : outcome (list VolumeMount) :=
  rangeLoop sortVolumeMountsBody 0 (length mounts) mounts.

(** ** The reference definition of a merge

    [upsert n curr] updates the first entry with the key of [n], or appends
    [n]; [mergeSpec] upserts the next entries one after the other. *)

Section merge.
Context {A : Type} `{!Mergeable A}.
Implicit Types (c n : A) (curr next r : list A) (k : string).

Fixpoint upsert n curr : outcome (list A) :=
  match curr with
  | [] => Returns [n]
  | c :: cs =>
      if decide (mkey c = mkey n)
      then c' ← mupdate c n; Returns (c' :: cs)
      else cs' ← upsert n cs; Returns (c :: cs')
  end.

Fixpoint mergeSpec curr next : outcome (list A) :=
  match next with
  | [] => Returns curr
  | n :: next => curr' ← upsert n curr; mergeSpec curr' next
  end.

Fixpoint findKey k (l : list A) : option A :=
  match l with
  | [] => None
  | c :: l => if decide (mkey c = k) then Some c else findKey k l
  end.

(** What [currMap] holds: the position of every key. *)
Definition indexes (m : gmap string nat) curr : Prop :=
  ∀ k i, m !! k = Some i ↔ mkey <$> curr !! i = Some k.

Lemma indexFrom_spec curr : ∀ j (m : gmap string nat) pre,
  j = length pre → NoDup (mkey <$> pre ++ curr) → indexes m pre →
  indexes (indexFrom j curr m) (pre ++ curr).
Proof.
  induction curr as [|c curr IH]; intros j m pre -> Hnd Hm; simpl.
  { by rw app_nil_r. }
  rw (cons_middle c pre curr) assoc. apply IH.
  - rw length_app /=. lia.
  - by rw -assoc.
  - intros k i. rw lookup_insert. case_decide as Hk.
    + subst k. split.
      * intros [= <-]. rw lookup_app_r // Nat.sub_diag //.
      * intros Hi. f_equal. symmetry.
        rw fmap_app /= in Hnd. apply NoDup_app in Hnd as (_ & Hnd & _).
        destruct (decide (i < length pre)%nat) as [Hlt|Hge].
        -- rw lookup_app_l // in Hi. exfalso. apply (Hnd (mkey c)); [|apply list_elem_of_here].
           apply fmap_Some in Hi as (x & Hx & ->). apply list_elem_of_fmap_2, list_elem_of_lookup. eauto.
        -- rw lookup_app_r in Hi; [lia|].
           destruct (i - length pre) as [|d] eqn:Hd; [lia|done].
    + rw Hm. destruct (decide (i < length pre)%nat) as [Hlt|Hge].
      * by rw lookup_app_l.
      * rw lookup_app_r; [lia|]. rw (lookup_ge_None_2 pre); [lia|]. simpl.
        destruct (i - length pre) as [|d]; simpl; [|done]. split; [done|congruence].
Qed.

Lemma upsert_fresh n curr : mkey n ∉ mkey <$> curr → upsert n curr = Returns (curr ++ [n]).
Proof.
  induction curr as [|c curr IH]; [done|]. rw fmap_cons not_elem_of_cons. intros [Hne Hni]. simpl.
  rw decide_False; [congruence|]. by rw IH.
Qed.

Lemma upsert_present n curr i c :
  NoDup (mkey <$> curr) → curr !! i = Some c → mkey c = mkey n →
  upsert n curr = (c' ← mupdate c n; Returns (<[i := c']> curr)).
Proof.
  revert i. induction curr as [|d curr IH]; intros i; [done|].
  rw fmap_cons. intros [Hni Hnd]%NoDup_cons. destruct i as [|i]; simpl.
  - intros [= ->] Hk. by rw decide_True.
  - intros Hi Hk. rw decide_False.
    { intros Hd. apply Hni. rw Hd -Hk. apply list_elem_of_fmap_2, list_elem_of_lookup. eauto. }
    rw (IH i) //. rw /mbind /outcome_bind. by destruct (mupdate c n).
Qed.
End merge.

(** The laws of an update: it keeps the key the two entries share, and doing it
    twice is doing it once. *)
Class MergeableLaws (A : Type) `{!Mergeable A} := {
  mupdate_key (c n c' : A) : mkey c = mkey n → mupdate c n = Returns c' → mkey c' = mkey n;
  mupdate_twice (c n c' : A) : mupdate c n = Returns c' → mupdate c' n = Returns c'
}.

#[export] Instance Volume_laws : MergeableLaws Volume.
Proof. split; intros c n c'; simpl; [intros <-|]; by intros [= <-]. Qed.
#[export] Instance ServicePort_laws : MergeableLaws ServicePort.
Proof. split; intros c n c'; simpl; [intros <-|]; by intros [= <-]. Qed.
#[export] Instance Container_laws : MergeableLaws Container.
Proof. split; intros c n c'; simpl; [intros _|]; by intros [= <-]. Qed.
#[export] Instance VolumeMount_laws : MergeableLaws VolumeMount.
Proof. split; intros c n c'; simpl; [intros _|]; by intros [= <-]. Qed.
#[export] Instance TSC_laws : MergeableLaws TopologySpreadConstraint.
Proof. split; intros c n c'; simpl; [intros _|]; by intros [= <-]. Qed.
#[export] Instance PVC_laws : MergeableLaws PersistentVolumeClaim.
Proof.
  split; intros c n c'; simpl; rw /updatePVC /mbind /outcome_bind;
    destruct (pvcs_Requests (pvc_Spec c)) as [rq|]; simpl; try done.
  - intros <-. by intros [= <-].
  - intros [= <-]. simpl. by rw insert_insert_eq.
Qed.

Section merge_laws.
Context {A : Type} `{!Mergeable A, !MergeableLaws A}.
Implicit Types (c n : A) (curr next r : list A) (k : string).

Lemma indexes_insert m curr i c c' :
  curr !! i = Some c → mkey c' = mkey c → indexes m curr → indexes m (<[i := c']> curr).
Proof.
  intros Hi Hc Hm k j. rw Hm. destruct (decide (i = j)) as [<-|Hne].
  - rw list_lookup_insert_eq; [by eapply lookup_lt_Some|]. by rw Hi /= Hc.
  - by rw list_lookup_insert_ne.
Qed.

Lemma indexes_snoc (m : gmap string nat) curr n :
  indexes m curr → m !! mkey n = None → indexes (<[mkey n := length curr]> m) (curr ++ [n]).
Proof.
  intros Hm Hn k i. rw lookup_insert. case_decide as Hk.
  - subst k. split; [intros [= <-]; by rw lookup_app_r // Nat.sub_diag|].
    intros Hi. f_equal. destruct (decide (i < length curr)%nat).
    + rw lookup_app_l // -Hm Hn // in Hi.
    + rw lookup_app_r in Hi; [lia|]. destruct (i - length curr) as [|d] eqn:Hd; [lia|done].
  - rw Hm. destruct (decide (i < length curr)%nat); [by rw lookup_app_l|].
    rw lookup_app_r; [lia|]. rw (lookup_ge_None_2 curr); [lia|].
    destruct (i - length curr) as [|d]; simpl; [|done]. split; [done|congruence].
Qed.

Lemma indexes_NoDup (m : gmap string nat) curr : indexes m curr → NoDup (mkey <$> curr).
Proof.
  intros Hm. apply NoDup_alt. intros i j k. rw !list_lookup_fmap -!Hm. congruence.
Qed.

Lemma mergeLoop_upsert next : ∀ curr (m : gmap string nat),
  indexes m curr → mergeLoop next curr m = mergeSpec curr next.
Proof.
  induction next as [|n next IH]; intros curr m Hm; [done|]. simpl.
  destruct (m !! mkey n) as [i|] eqn:Hi.
  - pose proof (proj1 (Hm _ _) Hi) as (c & Hc & Hk)%fmap_Some.
    rw Hc (upsert_present n curr i c) //; try by eapply indexes_NoDup.
    rw /mbind /outcome_bind. destruct (mupdate c n) as [c'|] eqn:Hu; [|done].
    apply IH. eapply indexes_insert; [done| |done]. by rw (mupdate_key c n).
  - rw upsert_fresh.
    { intros (c & Hk & (i & Hc)%list_elem_of_lookup)%list_elem_of_fmap.
      assert (m !! mkey n = Some i) by (apply Hm; by rw Hc Hk). congruence. }
    apply IH. by apply indexes_snoc.
Qed.

Lemma findKey_app k (l l' : list A) :
  findKey k (l ++ l') = match findKey k l with Some c => Some c | None => findKey k l' end.
Proof. induction l as [|c l IH]; simpl; [done|]. by case_decide. Qed.

Lemma findKey_elem k (l : list A) c : findKey k l = Some c → c ∈ l ∧ mkey c = k.
Proof.
  induction l as [|d l IH]; simpl; [done|]. case_decide.
  - intros [= <-]. split; [apply list_elem_of_here|done].
  - intros [??]%IH. split; [by apply list_elem_of_further|done].
Qed.

Lemma findKey_None k (l : list A) : findKey k l = None ↔ k ∉ mkey <$> l.
Proof.
  induction l as [|c l IH]; simpl; [split; [intros _; apply not_elem_of_nil|done]|].
  rw not_elem_of_cons -IH. case_decide; naive_solver.
Qed.

(** One upsert, seen through the keys and through the look-ups. *)
Lemma upsert_spec n curr r :
  upsert n curr = Returns r →
  mkey <$> r = (mkey <$> curr) ++ (if decide (mkey n ∈ mkey <$> curr) then [] else [mkey n]) ∧
  (∀ k, k ≠ mkey n → findKey k r = findKey k curr) ∧
  match findKey (mkey n) curr with
  | None => findKey (mkey n) r = Some n
  | Some c => ∃ c', mupdate c n = Returns c' ∧ findKey (mkey n) r = Some c'
  end.
Proof.
  revert r. induction curr as [|c curr IH]; intros r; simpl.
  { intros [= <-]. simpl. split_and!; [done| |by rw decide_True].
    intros k Hk. by rw decide_False. }
  destruct (decide (mkey c = mkey n)) as [Hk|Hk]; rw /mbind /outcome_bind.
  - destruct (mupdate c n) as [c'|] eqn:Hu; [|done]. intros [= <-].
    pose proof (mupdate_key _ _ _ Hk Hu) as Hk'. simpl. split_and!.
    + rw decide_True; [rw Hk; apply list_elem_of_here|]. rw app_nil_r. congruence.
    + intros k Hne. rw !decide_False //; congruence.
    + exists c'. by rw decide_True.
  - destruct (upsert n curr) as [cs|] eqn:Hu; [|done]. intros [= <-].
    destruct (IH _ eq_refl) as (H1 & H2 & H3). split_and!.
    + rw fmap_cons H1. f_equal. f_equal.
      destruct (decide (mkey n ∈ mkey <$> curr)) as [Hc|Hc].
      * rw decide_True //. by apply list_elem_of_further.
      * rw decide_False //. intros [?|?]%elem_of_cons; [congruence|by apply Hc].
    + intros k Hne. simpl. destruct (decide (mkey c = k)); [done|]. by apply H2.
    + simpl. rw decide_False //.
Qed.

Lemma upsert_NoDup n curr r :
  upsert n curr = Returns r → NoDup (mkey <$> curr) → NoDup (mkey <$> r).
Proof.
  intros (-> & _)%upsert_spec Hnd. case_decide; [by rw app_nil_r|].
  apply NoDup_app. split_and!; [done| |apply NoDup_singleton].
  intros k Hk ->%list_elem_of_singleton. done.
Qed.

Lemma mergeSpec_keys curr next r :
  mergeSpec curr next = Returns r →
  NoDup (mkey <$> curr) →
  NoDup (mkey <$> r) ∧ (mkey <$> curr) `prefix_of` (mkey <$> r) ∧
  (∀ k, k ∈ mkey <$> r ↔ k ∈ mkey <$> curr ∨ k ∈ mkey <$> next).
Proof.
  revert curr. induction next as [|n next IH]; intros curr; simpl.
  { intros [= <-] Hnd. split_and!; [done..|]. intros k. rw elem_of_nil. tauto. }
  rw /mbind /outcome_bind. destruct (upsert n curr) as [curr'|] eqn:Hu; [|done].
  intros Hr Hnd. destruct (IH _ Hr (upsert_NoDup _ _ _ Hu Hnd)) as (H1 & H2 & H3).
  pose proof (upsert_spec _ _ _ Hu) as (Hk & _). split_and!; [done| |].
  - etrans; [|exact H2]. rw Hk. by apply prefix_app_r.
  - intros k. rw H3 Hk elem_of_app elem_of_cons. case_decide.
    + rw elem_of_nil. naive_solver.
    + rw list_elem_of_singleton. tauto.
Qed.

Lemma mergeSpec_other curr next r k :
  mergeSpec curr next = Returns r → k ∉ mkey <$> next → findKey k r = findKey k curr.
Proof.
  revert curr. induction next as [|n next IH]; intros curr; simpl; [by intros [= <-]|].
  rw /mbind /outcome_bind. destruct (upsert n curr) as [curr'|] eqn:Hu; [|done].
  intros Hr [Hne Hni]%not_elem_of_cons. rw (IH _ Hr Hni).
  by apply (upsert_spec _ _ _ Hu).
Qed.
End merge_laws.

Section merge_more.
Context {A : Type} `{!Mergeable A, !MergeableLaws A}.
Implicit Types (c n : A) (curr next r : list A) (k : string).

Lemma mergeSpec_lookup curr next r k :
  mergeSpec curr next = Returns r → NoDup (mkey <$> next) →
  match findKey k next, findKey k curr with
  | None, o => findKey k r = o
  | Some n, None => findKey k r = Some n
  | Some n, Some c => ∃ c', mupdate c n = Returns c' ∧ findKey k r = Some c'
  end.
Proof.
  revert curr. induction next as [|n next IH]; intros curr; simpl; [by intros [= <-]|].
  rw /mbind /outcome_bind. destruct (upsert n curr) as [curr'|] eqn:Hu; [|done].
  intros Hr [Hni Hnd]%NoDup_cons. pose proof (upsert_spec _ _ _ Hu) as (_ & Ho & Hk).
  destruct (decide (mkey n = k)) as [<-|Hne].
  - rw (mergeSpec_other _ _ _ _ Hr Hni). by destruct (findKey (mkey n) curr).
  - specialize (IH _ Hr Hnd). by rw Ho in IH; [congruence|].
Qed.

Lemma upsert_id n r e :
  findKey (mkey n) r = Some e → mupdate e n = Returns e → upsert n r = Returns r.
Proof.
  intros Hf Hu. induction r as [|c r IH]; [done|]. simpl in *.
  destruct (decide (mkey c = mkey n)).
  - injection Hf as ->. by rw Hu.
  - by rw IH.
Qed.

Lemma mergeSpec_id next r :
  (∀ n, n ∈ next → ∃ e, findKey (mkey n) r = Some e ∧ mupdate e n = Returns e) →
  mergeSpec r next = Returns r.
Proof.
  induction next as [|n next IH]; intros H; simpl; [done|].
  destruct (H n (list_elem_of_here _ _)) as (e & Hf & Hu). rw (upsert_id _ _ _ Hf Hu).
  apply IH. intros n' Hn'. apply H. by apply list_elem_of_further.
Qed.

Lemma findKey_NoDup n (l : list A) : NoDup (mkey <$> l) → n ∈ l → findKey (mkey n) l = Some n.
Proof.
  induction l as [|c l IH]; [by intros _ ?%not_elem_of_nil|]. rw fmap_cons.
  intros [Hni Hnd]%NoDup_cons [->|Hn]%elem_of_cons; simpl; [by rw decide_True|].
  rw decide_False; [|by apply IH]. intros Hk. apply Hni. rw Hk. by apply list_elem_of_fmap_2.
Qed.

Lemma merge_mergeSpec curr next : NoDup (mkey <$> curr) → merge curr next = mergeSpec curr next.
Proof.
  intros Hnd. apply mergeLoop_upsert.
  apply (indexFrom_spec curr 0 ∅ []); [done|done|].
  intros k i. rw lookup_empty. by split.
Qed.

(** C33: on a list whose entries have distinct names, the merge of the code (a
    map from names to positions, updated while the list is appended to) does
    what the reference definition does: each next entry updates the current
    entry of its name in place or is appended. *)
Theorem merge_refines_upsert curr next :
  NoDup (mkey <$> curr) → merge curr next = mergeSpec curr next.
Proof. apply merge_mergeSpec. Qed.

Lemma mergeLoop_total next : ∀ curr (m : gmap string nat),
  (∀ c n, ∃ c', mupdate c n = Returns c') →
  (∀ k i, m !! k = Some i → (i < length curr)%nat) →
  ∃ r, mergeLoop next curr m = Returns r.
Proof.
  intros curr m Hu. revert curr m. induction next as [|n next IH]; intros curr m Hm; simpl; [by eexists|].
  destruct (m !! mkey n) as [i|] eqn:Hi.
  - destruct (lookup_lt_is_Some_2 curr i) as [c ->]; [by eapply Hm|].
    destruct (Hu c n) as [c' ->]. simpl. apply IH. intros k j Hj. rw length_insert. by eapply Hm.
  - apply IH. intros k j Hj. rw length_app /=. rw lookup_insert in Hj. case_decide; [simplify_eq; lia|].
    pose proof (Hm _ _ Hj). lia.
Qed.

Lemma indexFrom_bound curr : ∀ j (m : gmap string nat),
  (∀ k i, m !! k = Some i → (i < j)%nat) →
  ∀ k i, indexFrom j curr m !! k = Some i → (i < j + length curr)%nat.
Proof.
  induction curr as [|c curr IH]; intros j m Hm k i; simpl.
  - intros Hi. pose proof (Hm _ _ Hi). lia.
  - intros Hi. apply (IH (S j)) in Hi; [lia|]. intros k' i'.
    rw lookup_insert. case_decide; [intros [= <-]; lia|]. intros Hk. pose proof (Hm _ _ Hk). lia.
Qed.

(** A merge whose updates cannot panic does not panic. *)
Lemma merge_total curr next :
  (∀ c n, ∃ c', mupdate c n = Returns c') → ∃ r, merge curr next = Returns r.
Proof.
  intros Hu. apply mergeLoop_total; [done|]. intros k i Hi.
  apply (indexFrom_bound curr 0 ∅) in Hi; [lia|]. intros k' i' Hk. by rw lookup_empty in Hk.
Qed.

(** After a merge every generated entry is there, and updating it again keeps it. *)
Lemma merge_settles curr next r :
  NoDup (mkey <$> curr) → NoDup (mkey <$> next) →
  (∀ n, n ∈ next → mupdate n n = Returns n) →
  merge curr next = Returns r →
  NoDup (mkey <$> r) ∧ ∀ n, n ∈ next → ∃ e, findKey (mkey n) r = Some e ∧ mupdate e n = Returns e.
Proof.
  intros Hc Hn Hself Hr. rw merge_mergeSpec // in Hr.
  split; [by apply (mergeSpec_keys _ _ _ Hr Hc)|]. intros n Hin.
  pose proof (mergeSpec_lookup _ _ _ (mkey n) Hr Hn) as Hl. rw (findKey_NoDup _ _ Hn Hin) in Hl.
  destruct (findKey (mkey n) curr) as [c|]; [|by eauto].
  destruct Hl as (c' & Hu & ->). exists c'. split; [done|]. by eapply mupdate_twice.
Qed.

Lemma merge_twice curr next r :
  NoDup (mkey <$> curr) → NoDup (mkey <$> next) →
  (∀ n, n ∈ next → mupdate n n = Returns n) →
  merge curr next = Returns r → merge r next = Returns r.
Proof.
  intros Hc Hn Hself Hr. destruct (merge_settles _ _ _ Hc Hn Hself Hr) as [Hd Hs].
  rw merge_mergeSpec //. by apply mergeSpec_id.
Qed.

(** C34: merging generated entries into the entries of the cluster keeps the names
    distinct and the current entries in their positions, adds nothing but the
    generated entries, updates the current entry of a generated name, and
    leaves every entry of another name as it is. *)
Theorem merge_correct curr next r :
  NoDup (mkey <$> curr) → NoDup (mkey <$> next) → merge curr next = Returns r →
  NoDup (mkey <$> r) ∧ (mkey <$> curr) `prefix_of` (mkey <$> r) ∧
  (∀ k, k ∈ mkey <$> r ↔ k ∈ mkey <$> curr ∨ k ∈ mkey <$> next) ∧
  ∀ k, match findKey k next, findKey k curr with
       | None, o => findKey k r = o
       | Some n, None => findKey k r = Some n
       | Some n, Some c => ∃ c', mupdate c n = Returns c' ∧ findKey k r = Some c'
       end.
Proof.
  intros Hc Hn. rw merge_mergeSpec //. intros Hr.
  pose proof (mergeSpec_keys _ _ _ Hr Hc) as (H1 & H2 & H3). split_and!; [done..|].
  intros k. by apply mergeSpec_lookup.
Qed.

(** Merging the same generated entries again changes nothing, so a merged
    object is a fixed point of the operator's update. *)
Theorem merge_idempotent curr next r :
  NoDup (mkey <$> curr) → NoDup (mkey <$> next) →
  (∀ n, n ∈ next → mupdate n n = Returns n) →
  merge curr next = Returns r → merge r next = Returns r.
Proof. apply merge_twice. Qed.
End merge_more.

(** ** The two sorting loops *)

Lemma rangeLoop_inv {A} (P : nat → list A → Prop) body n : ∀ i l l',
  (∀ i e l l', P i l → l !! i = Some e → body i e l = Returns l' → P (S i) l') →
  P i l → rangeLoop body i n l = Returns l' → P (i + n)%nat l'.
Proof.
  induction n as [|n IH]; intros i l l' Hstep HP; simpl.
  - intros [= <-]. by rw Nat.add_0_r.
  - destruct (l !! i) as [e|] eqn:Hi; [|done]. rw /mbind /outcome_bind.
    destruct (body i e l) as [l1|] eqn:Hb; [|done]. intros Hr.
    rw -Nat.add_succ_comm. eapply IH; [done|by eapply Hstep|done].
Qed.

Lemma rangeLoop_total {A} body (m : nat) n : ∀ i (l : list A),
  (∀ i e l, length l = m → l !! i = Some e → ∃ l', body i e l = Returns l' ∧ l' ≡ₚ l) →
  length l = m → (i + n ≤ m)%nat → ∃ l', rangeLoop body i n l = Returns l' ∧ l' ≡ₚ l.
Proof.
  induction n as [|n IH]; intros i l Hb Hl Hin; simpl; [by exists l|].
  destruct (lookup_lt_is_Some_2 l i) as [e Hi]; [lia|]. rw Hi.
  destruct (Hb i e l Hl Hi) as (l1 & -> & Hp). simpl.
  destruct (IH (S i) l1 Hb) as (l' & Hr & Hp'); [by rw Hp|lia|].
  exists l'. split; [done|]. by rw Hp'.
Qed.

Lemma swap_total {A} i j (l : list A) :
  (i < length l)%nat → (j < length l)%nat → ∃ l', swap i j l = Returns l' ∧ l' ≡ₚ l.
Proof.
  intros [x Hx]%lookup_lt_is_Some_2 [y Hy]%lookup_lt_is_Some_2.
  assert (swap i j l = Returns (<[i:=y]> (<[j:=x]> l))) as E by (by rw /swap Hx Hy).
  eexists. split; [done|]. by eapply swap_Permutation.
Qed.

Lemma sortEnvVarBody_total i e (l : list EnvVar) :
  (3 ≤ length l)%nat → l !! i = Some e →
  ∃ l', sortEnvVarBody i e l = Returns l' ∧ l' ≡ₚ l.
Proof.
  intros Hl Hi%lookup_lt_Some. rw /sortEnvVarBody.
  repeat case_match; try (apply swap_total; lia). by exists l.
Qed.

(** The position of the only entry of [l] that satisfies [tst]. *)
Definition onlyAt {A} (tst : A → bool) (l : list A) (p : nat) (x : A) : Prop :=
  l !! p = Some x ∧ tst x = true ∧ ∀ i y, l !! i = Some y → tst y = true → i = p.

(** Where a swap moves a position. *)
Definition swapPos (i j p : nat) : nat := if decide (p = i) then j else if decide (p = j) then i else p.

Lemma onlyAt_swap {A} (tst : A → bool) (l l' : list A) i j p x :
  swap i j l = Returns l' → onlyAt tst l p x → onlyAt tst l' (swapPos i j p) x.
Proof.
  intros Hs (Hp & Hx & Hu). pose proof (λ k, swap_lookup i j l l' k Hs) as Hl.
  split_and!; [|done|].
  - rw Hl /swapPos. repeat case_decide; by subst.
  - intros k y. rw Hl /swapPos. intros Hk Hy.
    repeat case_decide; subst; pose proof (Hu _ _ Hk Hy); congruence.
Qed.

Lemma onlyAt_test {A} (tst : A → bool) (l : list A) p x i e :
  onlyAt tst l p x → l !! i = Some e → tst e = bool_decide (i = p).
Proof.
  intros (Hp & Hx & Hu) Hi. case_bool_decide as Hip.
  - subst. congruence.
  - destruct (tst e) eqn:He; [|done]. by destruct Hip; eapply Hu.
Qed.

Definition hasEnvName (s : string) (e : EnvVar) : bool := (ev_Name e =? s)%string.
Definition hasMountName (s : string) (m : VolumeMount) : bool := (vm_Name m =? s)%string.

Lemma onlyAt_swap_at {A} (tst : A → bool) (l l' : list A) i j p p' x :
  swap i j l = Returns l' → onlyAt tst l p x → p' = swapPos i j p → onlyAt tst l' p' x.
Proof. intros Hs Ho ->. by eapply onlyAt_swap. Qed.

(** Compute the positions after a swap. *)
Ltac solve_pos := rw /swapPos; repeat case_decide; lia.

Lemma rangeLoop_app {A} (body : nat → A → list A → outcome (list A)) a b : ∀ i l,
  rangeLoop body i (a + b) l = (l1 ← rangeLoop body i a l; rangeLoop body (i + a)%nat b l1).
Proof.
  induction a as [|a IH]; intros i l; simpl; [by rw Nat.add_0_r|].
  destruct (l !! i) as [e|]; [|done]. rw /mbind /outcome_bind.
  destruct (body i e l) as [l1|]; [|done]. by rw IH -Nat.add_succ_comm.
Qed.

(** A variable that is none of the three. *)
Definition plainEnv (e : EnvVar) : Prop :=
  ev_Name e ∉ ["MY_POD_NAME"; "MY_POD_NAMESPACE"; "K8S_SERVICE_NAME"].

Lemma sortEnvVarBody_plain i e l : plainEnv e → sortEnvVarBody i e l = Returns l.
Proof.
  intros He. rw /sortEnvVarBody. rw /plainEnv !not_elem_of_cons in He.
  destruct He as (H1 & H2 & H3 & _).
  by rw (proj2 (String.eqb_neq _ _) H1) (proj2 (String.eqb_neq _ _) H2)
    (proj2 (String.eqb_neq _ _) H3).
Qed.

Lemma rangeLoop_plain n : ∀ i l,
  (∀ j e, (i ≤ j)%nat → (j < i + n)%nat → l !! j = Some e → plainEnv e) →
  (i + n ≤ length l)%nat → rangeLoop sortEnvVarBody i n l = Returns l.
Proof.
  induction n as [|n IH]; intros i l Hp Hl; simpl; [done|].
  destruct (lookup_lt_is_Some_2 l i) as [e He]; [lia|]. rw He.
  rw sortEnvVarBody_plain; [eapply Hp; [| |exact He]; lia|]. simpl.
  apply IH; [|lia]. intros j e' Hj1 Hj2. apply Hp; lia.
Qed.

(** Swapping two entries of a list written as a concatenation. *)
Lemma swap_same {A} i (l : list A) : (i < length l)%nat → swap i i l = Returns l.
Proof.
  intros [x Hx]%lookup_lt_is_Some_2. rw /swap Hx. f_equal. rw list_insert_insert_eq.
  by apply list_insert_id.
Qed.

Lemma Forall_lookup_plain (pre suf : list EnvVar) i e :
  Forall plainEnv pre → (i < length pre)%nat → (pre ++ suf) !! i = Some e → plainEnv e.
Proof. intros Hf Hi. rw lookup_app_l //. by apply Forall_lookup_1. Qed.

(** Sorting the environment of the rabbitmq container never loses, adds or
    changes a variable, and it does not panic on a list of three or more. *)
Theorem sortEnvVar_Permutation l :
  (∀ l', sortEnvVar l = Returns l' → l' ≡ₚ l) ∧
  ((3 ≤ length l)%nat → ∃ l', sortEnvVar l = Returns l' ∧ l' ≡ₚ l).
Proof.
  split.
  - intros l'. rw /sortEnvVar.
    apply (rangeLoop_inv (λ _ l', l' ≡ₚ l)); [|done].
    intros i e l1 l2 Hp _. rw /sortEnvVarBody -Hp.
    repeat case_match; try apply swap_Permutation. by intros [= <-].
  - intros Hl. apply (rangeLoop_total _ (length l)); [|done|lia].
    intros i e l1 Hl1. apply sortEnvVarBody_total. by rw Hl1.
Qed.

(** The environment of a patched rabbitmq container: the operator's variables in
    the order it generates them, with user variables before and after. *)
Definition patchedEnv (pre : list EnvVar) (svc name ns : EnvVar) (rest : list EnvVar) : list EnvVar :=
  pre ++ [svc; name; ns] ++ rest.

Section operator_order.
Context (pre rest : list EnvVar) (svc name ns : EnvVar).
Context (Hpre : Forall plainEnv pre) (Hrest : Forall plainEnv rest).
Context (Hsvc : ev_Name svc = "K8S_SERVICE_NAME") (Hname : ev_Name name = "MY_POD_NAME")
  (Hns : ev_Name ns = "MY_POD_NAMESPACE").

Local Abbreviation l := (patchedEnv pre svc name ns rest).

Lemma body_svc i l0 : sortEnvVarBody i svc l0 = swap 2 i l0.
Proof. by rw /sortEnvVarBody Hsvc. Qed.
Lemma body_name i l0 : sortEnvVarBody i name l0 = swap 0 i l0.
Proof. by rw /sortEnvVarBody Hname. Qed.
Lemma body_ns i l0 : sortEnvVarBody i ns l0 = swap 1 i l0.
Proof. by rw /sortEnvVarBody Hns. Qed.

(** The variables after the three are not moved by the rest of the loop. *)
Lemma sortEnvVar_rest l0 :
  length l0 = length l → drop (length pre + 3) l0 = rest →
  rangeLoop sortEnvVarBody (length pre + 3) (length rest) l0 = Returns l0.
Proof.
  intros Hl Hd. apply rangeLoop_plain.
  - intros j e Hj1 Hj2 He. eapply Forall_lookup_1; [exact Hrest|].
    instantiate (1 := (j - (length pre + 3))%nat). rw -Hd lookup_drop.
    replace (length pre + 3 + (j - (length pre + 3)))%nat with j by lia. done.
  - rw Hl /l !length_app /=. lia.
Qed.

Lemma sortEnvVar_split :
  sortEnvVar l = (l1 ← rangeLoop sortEnvVarBody (length pre) 3 l;
                  rangeLoop sortEnvVarBody (length pre + 3) (length rest) l1).
Proof.
  rw /sortEnvVar. replace (length l) with (length pre + (3 + length rest))%nat
    by (rw /patchedEnv !length_app /=; lia).
  rw rangeLoop_app rangeLoop_plain.
  - intros j e _ Hj He. eapply Forall_lookup_plain; [exact Hpre|exact Hj|exact He].
  - rw /patchedEnv !length_app /=. lia.
  - rw /mbind /outcome_bind rangeLoop_app. done.
Qed.

(** With two or more user variables in front, the three swaps go through. *)
Lemma sortEnvVar_many :
  (2 ≤ length pre)%nat →
  ∃ l', rangeLoop sortEnvVarBody (length pre) 3 l = Returns l' ∧ length l' = length l ∧
        drop (length pre + 3) l' = rest ∧ take 3 l' = [name; ns; svc].
Proof.
  intros Hk. set (k := length pre) in *.
  assert (Hlen : length l = (k + 3 + length rest)%nat) by (rw /patchedEnv !length_app /=; lia).
  assert (L0 : l !! k = Some svc) by (by rw /patchedEnv lookup_app_r // Nat.sub_diag).
  assert (L1 : l !! (S k) = Some name).
  { rw /patchedEnv lookup_app_r; [lia|]. by replace (S k - length pre)%nat with 1 by lia. }
  assert (L2 : l !! (S (S k)) = Some ns).
  { rw /patchedEnv lookup_app_r; [lia|]. by replace (S (S k) - length pre)%nat with 2 by lia. }
  assert (L3 : drop (k + 3) l = rest).
  { rw /patchedEnv -drop_drop drop_app_length //. }
  destruct (swap_total 2 k l) as (l1 & S1 & _); [lia..|].
  pose proof (swap_length _ _ _ _ S1) as N1. pose proof (λ j, swap_lookup _ _ _ _ j S1) as Q1.
  destruct (swap_total 0 (S k) l1) as (l2 & S2 & _); [lia..|].
  pose proof (swap_length _ _ _ _ S2) as N2. pose proof (λ j, swap_lookup _ _ _ _ j S2) as Q2.
  destruct (swap_total 1 (S (S k)) l2) as (l3 & S3 & _); [lia..|].
  pose proof (swap_length _ _ _ _ S3) as N3. pose proof (λ j, swap_lookup _ _ _ _ j S3) as Q3.
  exists l3. cbn [rangeLoop].
  assert (E1 : l1 !! (S k) = Some name) by (rw Q1; repeat case_decide; first [lia|done]).
  assert (E2 : l2 !! (S (S k)) = Some ns).
  { rw !Q2 !Q1. repeat case_decide; first [lia|done]. }
  split_and!.
  - rw L0 body_svc S1 /mbind /outcome_bind E1 body_name S2 E2 body_ns S3 //.
  - lia.
  - rw -L3. apply list_eq. intros j. rw !lookup_drop !Q3 !Q2 !Q1.
    repeat case_decide; first [lia|done].
  - assert (T0 : l3 !! 0 = Some name) by (rw !Q3 !Q2 !Q1; repeat case_decide; first [lia|done]).
    assert (T1 : l3 !! 1 = Some ns) by (rw !Q3 !Q2 !Q1; repeat case_decide; first [lia|done]).
    assert (T2 : l3 !! 2 = Some svc).
    { rw !Q3 !Q2 !Q1. repeat case_decide; first [lia|done]. }
    clear Q1 Q2 Q3. destruct l3 as [|a [|b [|c l3]]]; [done..|].
    injection T0 as ->. injection T1 as ->. by injection T2 as ->.
Qed.

(** With the operator's own variables in the order it generates them
    (K8S_SERVICE_NAME, MY_POD_NAME, MY_POD_NAMESPACE), sorting puts these three
    first whatever variables an override places in front of them, except when
    it places exactly one there: then that variable stays first and MY_POD_NAME
    ends up fourth, so the variable cannot refer to it. *)
Theorem sortEnvVar_operator_order :
  ∃ l', sortEnvVar l = Returns l' ∧
    if decide (length pre = 1)
    then l' = pre ++ [ns; svc; name] ++ rest
    else take 3 l' = [name; ns; svc] ∧ drop (length pre + 3) l' = rest.
Proof.
  rw sortEnvVar_split.
  destruct (decide (2 ≤ length pre)%nat) as [Hk|Hk].
  - destruct (sortEnvVar_many Hk) as (l' & Hr & Hl & Hd & Ht). exists l'.
    rw Hr /mbind /outcome_bind sortEnvVar_rest //.
    destruct (decide (length pre = 1)); [lia|done].
  - assert (Hs := sortEnvVar_rest).
    destruct pre as [|x [|? ?]] eqn:Epre; [| |simpl in Hk; lia].
    + exists (name :: ns :: svc :: rest). split; [|done]. rw -(Hs (name :: ns :: svc :: rest)) //.
      rw /patchedEnv /= body_svc /swap /= body_name /= body_svc //.
    + exists (x :: ns :: svc :: name :: rest). split; [|done].
      rw -(Hs (x :: ns :: svc :: name :: rest)) //.
      rw /patchedEnv /= body_svc /swap /= body_svc /= body_ns //.
Qed.
End operator_order.

(** The state of [sortVolumeMounts] before entry [i]. *)
Definition mountsSorted (ma mb : VolumeMount) (i : nat) (l : list VolumeMount) : Prop :=
  ∃ pa pb, onlyAt (hasMountName "rabbitmq-erlang-cookie") l pa ma ∧
    onlyAt (hasMountName c_PVCName) l pb mb ∧
    (pa = 0 ∨ i ≤ pa)%nat ∧ (pb = 1 ∨ i ≤ pb)%nat ∧ (i ≠ 0 → pb ≠ 0)%nat.

Lemma onlyAt_cookie_pvc l pa pb ma mb :
  onlyAt (hasMountName "rabbitmq-erlang-cookie") l pa ma →
  onlyAt (hasMountName c_PVCName) l pb mb → pa ≠ pb.
Proof.
  intros (Ha & Na & _) (Hb & Nb & _) ->. simplify_eq. rw /hasMountName in Na Nb.
  to_prop. rw Na in Nb. done.
Qed.

Lemma mountsSorted_step ma mb i l e l' :
  mountsSorted ma mb i l → l !! i = Some e → sortVolumeMountsBody i e l = Returns l' →
  mountsSorted ma mb (S i) l'.
Proof.
  intros (pa & pb & Ha & Hb & Ia & Ib & I0) Hi Hs. rw /sortVolumeMountsBody in Hs.
  pose proof (onlyAt_cookie_pvc _ _ _ _ _ Ha Hb) as Hne.
  pose proof (onlyAt_test _ _ _ _ _ _ Ha Hi) as Ta. rw /hasMountName in Ta.
  pose proof (onlyAt_test _ _ _ _ _ _ Hb Hi) as Tb. rw /hasMountName in Tb.
  rw Ta Tb in Hs. clear Ta Tb.
  destruct (bool_decide (i = pa)) eqn:Ea; [|destruct (bool_decide (i = pb)) eqn:Eb]; to_prop; subst.
  - exists (swapPos 0 pa pa), (swapPos 0 pa pb).
    split_and!; [by eapply onlyAt_swap..| | |]; solve_pos.
  - exists (swapPos 1 pb pa), (swapPos 1 pb pb).
    split_and!; [by eapply onlyAt_swap..| | |]; solve_pos.
  - injection Hs as <-. exists pa, pb. split_and!; [done..|lia|lia|lia].
Qed.

(** If the Erlang cookie volume and the persistence volume are each mounted
    once, sorting the mounts of the rabbitmq container always ends with the
    cookie mount (/var/lib/rabbitmq/) first and the persistence mount
    (/var/lib/rabbitmq/mnesia/) second, whatever the order before. *)
Theorem sortVolumeMounts_first l pa pb ma mb :
  onlyAt (hasMountName "rabbitmq-erlang-cookie") l pa ma →
  onlyAt (hasMountName c_PVCName) l pb mb →
  ∃ l', sortVolumeMounts l = Returns l' ∧ l' ≡ₚ l ∧ l' !! 0 = Some ma ∧ l' !! 1 = Some mb.
Proof.
  intros Ha Hb. pose proof (onlyAt_cookie_pvc _ _ _ _ _ Ha Hb).
  pose proof (lookup_lt_Some _ _ _ (proj1 Ha)). pose proof (lookup_lt_Some _ _ _ (proj1 Hb)).
  destruct (rangeLoop_total sortVolumeMountsBody (length l) (length l) 0 l) as (l' & Hs & Hperm);
    [|done|lia|].
  { intros i e l1 Hl1 Hi%lookup_lt_Some. rw /sortVolumeMountsBody.
    repeat case_match; try (apply swap_total; lia). by exists l1. }
  exists l'. split; [done|]. split; [done|].
  assert (mountsSorted ma mb (0 + length l) l') as (qa & qb & Qa & Qb & Ia & Ib & _).
  { eapply (rangeLoop_inv (mountsSorted ma mb)); [| |exact Hs].
    - intros. by eapply mountsSorted_step.
    - exists pa, pb. split_and!; [done..|lia|lia|done]. }
  pose proof (lookup_lt_Some _ _ _ (proj1 Qa)) as La. pose proof (lookup_lt_Some _ _ _ (proj1 Qb)) as Lb.
  rw Hperm in La Lb. destruct Ia as [->|]; [|lia]. destruct Ib as [->|]; [|lia].
  split; [apply Qa|apply Qb].
Qed.
