(* ===== verification/Kube.v ===== *)
(** The services the operator runs against, as interfaces.

    The Kubernetes API as the operator sees it (the cached client of the
    controller runtime, its APIReader, the clientset), the event recorder, the
    clock, the random source and the exec endpoint of the pods are a type [W]
    of worlds and the operations of the class [Kube]; the third-party codecs
    (ini files, JSON with strategic merge patches, semantic equality, title
    case) are classes of their own.  None of them is defined here. *)

From S2P Require Import Prelude GoStd K8s V1beta1.

(** ** Objects by kind *)

Inductive Kind :=
  | KRabbitmqCluster | KStatefulSet | KService | KConfigMap | KSecret | KServiceAccount
  | KRole | KRoleBinding | KEndpoints | KPod | KPVC.

#[export] Instance Kind_eq_dec : EqDecision Kind.
Proof. solve_decision. Defined.

Definition Obj (k : Kind) : Type :=
  match k with
  | KRabbitmqCluster => RabbitmqCluster
  | KStatefulSet => StatefulSet
  | KService => Service
  | KConfigMap => ConfigMap
  | KSecret => Secret
  | KServiceAccount => ServiceAccount
  | KRole => Role
  | KRoleBinding => RoleBinding
  | KEndpoints => Endpoints
  | KPod => Pod
  | KPVC => PersistentVolumeClaim
  end.

#[export] Instance Obj_eq_dec k : EqDecision (Obj k).
Proof. destruct k; apply _. Defined.

(** [client.Object]: an interface value holding one of the kinds. *)
Definition Object : Type := { k : Kind & Obj k }.

Definition meta {k : Kind} : Obj k → ObjectMeta :=
  match k with
  | KRabbitmqCluster => rmq_ObjectMeta
  | KStatefulSet => sts_ObjectMeta
  | KService => svc_ObjectMeta
  | KConfigMap => cm_ObjectMeta
  | KSecret => sec_ObjectMeta
  | KServiceAccount => sa_ObjectMeta
  | KRole => role_ObjectMeta
  | KRoleBinding => rb_ObjectMeta
  | KEndpoints => ep_ObjectMeta
  | KPod => pod_ObjectMeta
  | KPVC => pvc_ObjectMeta
  end.

Definition set_meta {k : Kind} : ObjectMeta → Obj k → Obj k :=
  match k with
  | KRabbitmqCluster => set_rmq_ObjectMeta
  | KStatefulSet => set_sts_ObjectMeta
  | KService => set_svc_ObjectMeta
  | KConfigMap => set_cm_ObjectMeta
  | KSecret => set_sec_ObjectMeta
  | KServiceAccount => set_sa_ObjectMeta
  | KRole => set_role_ObjectMeta
  | KRoleBinding => set_rb_ObjectMeta
  | KEndpoints => λ v r, mkEndpoints v (ep_Subsets r)
  | KPod => set_pod_ObjectMeta
  | KPVC => set_pvc_ObjectMeta
  end.

Lemma meta_set_meta k v (o : Obj k) : meta (set_meta v o) = v.
Proof. by destruct k. Qed.

Lemma set_meta_meta k (o : Obj k) : set_meta (meta o) o = o.
Proof. by destruct k, o. Qed.

(** [client.ObjectKeyFromObject]. *)
Definition ObjectKeyFromObject {k} (o : Obj k) : NamespacedName :=
  mkNamespacedName (om_Namespace (meta o)) (om_Name (meta o)).

(** ** The world *)

(** An operation of a service: it answers and moves the world on. *)
Abbreviation Ext W A := (W → A * W).

Class Kube (W : Type) := {
  (* the cached client of the controller runtime *)
  kGet (k : Kind) : NamespacedName → Ext W (result (Obj k));
  kList (k : Kind) (namespace : option string) (labels : gmap string string)
    : Ext W (result (list (Obj k)));
  kCreate (k : Kind) : Obj k → Ext W (result (Obj k));
  kUpdate (k : Kind) : Obj k → Ext W (result (Obj k));
  kDelete (k : Kind) (uid : option string) : Obj k → Ext W goerror;
  kStatusUpdate : RabbitmqCluster → Ext W (result RabbitmqCluster);
  (* the uncached reader *)
  kReaderGet (k : Kind) : NamespacedName → Ext W (result (Obj k));
  (* the clientset *)
  csGet (k : Kind) : NamespacedName → Ext W (result (Obj k));
  csUpdate (k : Kind) (namespace : string) : Obj k → Ext W (result (Obj k));
  csDeleteOrphan (k : Kind) : NamespacedName → Ext W goerror;
  (* events, time in nanoseconds since 1970, randomness, pods/exec *)
  kEvent : RabbitmqCluster → string → string → string → Ext W unit;
  kNow : Ext W Z;
  kRandRead : nat → Ext W (result string);
  kExec (namespace pod container : string) (command : list string)
    : Ext W (string * string * goerror)
}.

(** What the client documents of [Get]: the object it fills in is the one with
    the key. *)
Class GetLaw (W : Type) `{!Kube W} : Prop :=
  get_key k key w o w' : kGet (W := W) k key w = (inr o, w') → ObjectKeyFromObject o = key.

(** The same of the clientset. *)
Class CsGetLaw (W : Type) `{!Kube W} : Prop :=
  csGet_key k key (w : W) o : (csGet k key w).1 = inr o → ObjectKeyFromObject o = key.

(** The in-memory state of one reconciliation: the cluster object all its
    steps share through a pointer, and the world outside. *)
Record Op (W : Type) := mkOp { op_rmq : RabbitmqCluster; op_world : W }.
Arguments mkOp {W} _ _.
Arguments op_rmq {W} _.
Arguments op_world {W} _.

Abbreviation Run W A := (M (Op W) A).

Section run.
Context {W : Type}.

(** A call of a service. *)
Definition ext {A} (f : Ext W A) : Run W A := λ s,
  let '(a, w) := f (op_world s) in (Returns a, mkOp (op_rmq s) w).

(** The cluster object behind the shared pointer. *)
Definition rmq : Run W RabbitmqCluster := gets op_rmq.
Definition set_rmq (r : RabbitmqCluster) : Run W unit := modify (λ s, mkOp r (op_world s)).
Definition mod_rmq (f : RabbitmqCluster → RabbitmqCluster) : Run W unit :=
  modify (λ s, mkOp (f (op_rmq s)) (op_world s)).

(** [*p] of a pointer that may be nil. *)
Definition deref {S A} (p : option A) : M S A :=
  match p with
  | Some a => mret a
  | None => panic "invalid memory address or nil pointer dereference"
  end.

(** A block with a local variable that a closure in it assigns. *)
Definition withLocal {S L A} (l : L) (m : M (S * L) A) : M S (A * L) := λ s,
  let '(o, (s', l')) := m (s, l) in
  (match o with Returns a => Returns (a, l') | Panics e => Panics e end, s').

Definition outer {S L A} (m : M S A) : M (S * L) A := λ sl,
  let '(o, s') := m (fst sl) in (o, (s', snd sl)).
Definition local {S L} : M (S * L) L := λ sl, (Returns (snd sl), sl).
Definition set_local {S L} (l : L) : M (S * L) unit := λ sl, (Returns tt, (fst sl, l)).

Lemma ext_eq {A} (f : Ext W A) s a w :
  f (op_world s) = (a, w) → ext f s = (Returns a, mkOp (op_rmq s) w).
Proof. rw /ext. by intros ->. Qed.
End run.

(** [*p] in a pure function. *)
Definition derefO {A} (p : option A) : outcome A :=
  match p with
  | Some a => Returns a
  | None => Panics "invalid memory address or nil pointer dereference"
  end.

(** ** Third-party codecs *)

(** gopkg.in/ini.v1, with PrettySection false and the default section only. *)
Class Ini := {
  IniFile : Type;
  iniLoad : string → result IniFile;
  iniEmpty : IniFile;
  iniAppend : string → IniFile → result IniFile;
  iniNewKey : string → string → IniFile → result IniFile;
  iniKeyStrings : IniFile → list string;
  iniDeleteKey : string → IniFile → IniFile;
  iniWriteTo : IniFile → result string
}.

(** encoding/json on a Kubernetes type with strategicpatch for that type. *)
Class Patchable (A : Type) := {
  Marshal : A → result RawJSON;
  StrategicMergePatch : RawJSON → RawJSON → result RawJSON;
  Unmarshal : RawJSON → result A
}.

(** [equality.Semantic.DeepEqual] and [cases.Title(language.English)]. *)
Class Library := {
  SemanticDeepEqual (k : Kind) : Obj k → Obj k → bool;
  Title : string → string;
  lib_ini :: Ini;
  lib_svc :: Patchable ServiceSpec;
  lib_pod :: Patchable PodSpec
}.
