(* ===== verification/Controllerutil.v ===== *)
(** controllerutil and meta/v1: owner references and finalizers. *)

From S2P Require Import Prelude GoStd K8s V1beta1 Kube.
From Stdlib Require Import Ascii.

(** ** Owner references *)

(** [schema.ParseGroupVersion]: the group and the version. *)
Definition ParseGroupVersion (gv : string) : option (string * string) :=
  if (gv =? "")%string || (gv =? "/")%string then Some ("", "") else
  match Split gv "/"%char with
  | [v] => Some ("", v)
  | [g; v] => Some (g, v)
  | _ => None
  end.

Definition referSameObject (a b : OwnerReference) : bool :=
  match ParseGroupVersion (or_APIVersion a), ParseGroupVersion (or_APIVersion b) with
  | Some (ga, _), Some (gb, _) =>
      (ga =? gb)%string && (or_Kind a =? or_Kind b)%string && (or_Name a =? or_Name b)%string
  | _, _ => false
  end.

(** [metav1.GetControllerOf]. *)
Definition GetControllerOf (controllee : ObjectMeta) : option OwnerReference :=
  List.find (λ r, match or_Controller r with Some b => b | None => false end)
    (om_OwnerReferences controllee).

(** The first reference to the same object, replaced; appended if there is none. *)
Fixpoint upsertOwnerRef (ref : OwnerReference) (owners : list OwnerReference) : list OwnerReference :=
  match owners with
  | [] => [ref]
  | r :: owners => if referSameObject r ref then ref :: owners else r :: upsertOwnerRef ref owners
  end.

Definition validateOwner (owner object : ObjectMeta) : goerror :=
  if (om_Namespace owner =? "")%string then None else
  if (om_Namespace object =? "")%string then
    Some (New ("cluster-scoped resource must not have a namespace-scoped owner, owner's namespace "
               +:+ om_Namespace owner))
  else if negb (om_Namespace owner =? om_Namespace object)%string then
    Some (New ("cross-namespace owner references are disallowed, owner's namespace "
               +:+ om_Namespace owner +:+ ", obj's namespace " +:+ om_Namespace object))
  else None.

(** The controller reference to a RabbitmqCluster. *)
Definition controllerRef (owner : ObjectMeta) : OwnerReference :=
  mkOwnerReference GroupVersion "RabbitmqCluster" (om_Name owner) (om_UID owner)
    (Some true) (Some true).

(** [controllerutil.SetControllerReference(owner, controlled, scheme)] for a
    RabbitmqCluster, whose kind the scheme knows. *)
Definition SetControllerReference (owner controlled : ObjectMeta) : result ObjectMeta :=
  match validateOwner owner controlled with
  | Some err => inl err
  | None =>
      let ref := controllerRef owner in
      let controlled' :=
        set_om_OwnerReferences (upsertOwnerRef ref (om_OwnerReferences controlled)) controlled in
      match GetControllerOf controlled with
      | Some existing =>
          if referSameObject existing ref then inr controlled'
          else inl (New ("Object " +:+ om_Namespace controlled +:+ "/" +:+ om_Name controlled
                         +:+ " is already owned by another " +:+ or_Kind existing
                         +:+ " controller " +:+ or_Name existing))
      | None => inr controlled'
      end
  end.

(** What every builder does with it. *)
Definition setController {k} (instance : RabbitmqCluster) (o : Obj k) : result (Obj k) :=
  match SetControllerReference (rmq_ObjectMeta instance) (meta o) with
  | inl err => inl (WrapError "failed setting controller reference: " err)
  | inr m => inr (set_meta m o)
  end.

(** ** Finalizers *)

Definition AddFinalizer (o : ObjectMeta) (finalizer : string) : bool * ObjectMeta :=
  if bool_decide (finalizer ∈ om_Finalizers o) then (false, o)
  else (true, set_om_Finalizers (om_Finalizers o ++ [finalizer]) o).

(** The entries that are not the finalizer are moved to the front, in order. *)
Definition RemoveFinalizer (o : ObjectMeta) (finalizer : string) : bool * ObjectMeta :=
  let f := om_Finalizers o in
  let f' := filter (λ e, e ≠ finalizer) f in
  (negb (length f =? length f')%nat, set_om_Finalizers f' o).

(** ** Lemmas *)

Lemma referSameObject_refl r :
  is_Some (ParseGroupVersion (or_APIVersion r)) → referSameObject r r = true.
Proof.
  intros [[g v] Hp]. rw /referSameObject Hp !String.eqb_refl //.
Qed.

Lemma controllerRef_same owner : referSameObject (controllerRef owner) (controllerRef owner) = true.
Proof. apply referSameObject_refl. by exists ("rabbitmq.com", "v1beta1"). Qed.

Lemma upsertOwnerRef_in ref owners : ref ∈ upsertOwnerRef ref owners.
Proof.
  induction owners as [|r owners IH]; simpl; [apply list_elem_of_here|].
  case_match; [apply list_elem_of_here|by apply list_elem_of_further].
Qed.

Lemma upsertOwnerRef_twice ref owners :
  referSameObject ref ref = true →
  upsertOwnerRef ref (upsertOwnerRef ref owners) = upsertOwnerRef ref owners.
Proof.
  intros Hr. induction owners as [|r owners IH]; simpl; [by rw Hr|].
  destruct (referSameObject r ref) eqn:E; simpl; [by rw Hr|]. by rw E IH.
Qed.

(** The first controller of the references is the one inserted, or one that
    does not refer to another object. *)
Lemma GetControllerOf_upsert m ref :
  or_Controller ref = Some true →
  (∀ e, GetControllerOf m = Some e → referSameObject e ref = true) →
  GetControllerOf (set_om_OwnerReferences (upsertOwnerRef ref (om_OwnerReferences m)) m) = Some ref.
Proof.
  intros Hc. rw /GetControllerOf /=. induction (om_OwnerReferences m) as [|r rs IH]; simpl.
  - intros _. by rw Hc.
  - intros He. destruct (referSameObject r ref) eqn:E; simpl; [by rw Hc|].
    destruct (or_Controller r) as [[]|]; [|by apply IH..].
    pose proof (He r eq_refl). congruence.
Qed.

Lemma set_om_OwnerReferences_eq m : set_om_OwnerReferences (om_OwnerReferences m) m = m.
Proof. by destruct m. Qed.

Lemma SetControllerReference_inv owner controlled m :
  SetControllerReference owner controlled = inr m →
  m = set_om_OwnerReferences
        (upsertOwnerRef (controllerRef owner) (om_OwnerReferences controlled)) controlled ∧
  validateOwner owner controlled = None ∧
  (∀ e, GetControllerOf controlled = Some e → referSameObject e (controllerRef owner) = true).
Proof.
  rw /SetControllerReference. destruct (validateOwner owner controlled); [done|].
  destruct (GetControllerOf controlled) as [e|].
  - destruct (referSameObject e (controllerRef owner)) eqn:E; [|done].
    intros [= <-]. split_and!; [done..|]. by intros e' [= <-].
  - intros [= <-]. done.
Qed.

Lemma validateOwner_None owner object :
  validateOwner owner object = None ↔
  om_Namespace owner = "" ∨ om_Namespace owner = om_Namespace object.
Proof.
  rw /validateOwner. destruct (String.eqb_spec (om_Namespace owner) ""); [tauto|].
  destruct (String.eqb_spec (om_Namespace object) "").
  { split; [done|]. intros [?|?]; [done|congruence]. }
  destruct (String.eqb_spec (om_Namespace owner) (om_Namespace object)); simpl; [tauto|].
  split; [done|]. by intros [?|?].
Qed.

Lemma setController_meta {k} instance (o o' : Obj k) :
  setController instance o = inr o' →
  o' = set_meta (set_om_OwnerReferences (upsertOwnerRef (controllerRef (rmq_ObjectMeta instance))
         (om_OwnerReferences (meta o))) (meta o)) o.
Proof.
  rw /setController. destruct (SetControllerReference _ _) as [?|m] eqn:E; [done|].
  intros [= <-]. by apply SetControllerReference_inv in E as [-> _].
Qed.

Lemma SetControllerReference_again owner controlled m :
  SetControllerReference owner controlled = inr m → SetControllerReference owner m = inr m.
Proof.
  intros (-> & Hv & He)%SetControllerReference_inv.
  pose proof (GetControllerOf_upsert controlled (controllerRef owner) eq_refl He) as Hg.
  rw /SetControllerReference Hg controllerRef_same /=.
  rw /validateOwner /= in Hv |- *. rw Hv upsertOwnerRef_twice ?controllerRef_same //.
Qed.

Lemma filter_absent (f : string) (l : list string) : f ∉ l → filter (λ e, e ≠ f) l = l.
Proof.
  induction l as [|a l IH]; [done|]. intros [Hne Hni]%not_elem_of_cons.
  rw filter_cons_True; [congruence|]. by rw IH.
Qed.

Lemma Finalizer_remove o f :
  (RemoveFinalizer o f).1 = bool_decide (f ∈ om_Finalizers o) ∧
  f ∉ om_Finalizers (RemoveFinalizer o f).2 ∧
  ((RemoveFinalizer o f).1 = false → (RemoveFinalizer o f).2 = o).
Proof.
  assert ((RemoveFinalizer o f).1 = bool_decide (f ∈ om_Finalizers o)) as Hr.
  { simpl. destruct (decide (f ∈ om_Finalizers o)) as [Hi|Hi].
    - rw bool_decide_eq_true_2 //. apply negb_true_iff, Nat.eqb_neq.
      pose proof (length_filter_lt (λ e, e ≠ f) (om_Finalizers o) f Hi (λ Hn, Hn eq_refl)). lia.
    - rw bool_decide_eq_false_2 // filter_absent // Nat.eqb_refl //. }
  split_and!; [done| |].
  - simpl. rw list_elem_of_filter. naive_solver.
  - rw Hr. case_bool_decide as Hi; [done|]. intros _. rw /RemoveFinalizer /= filter_absent //. by destruct o.
Qed.

(** ** Properties *)

(** SetControllerReference succeeds exactly when the owner is in the
    object's namespace (or has none) and no other object controls it; then the
    owner is its controller, everything but the owner references is as it was,
    and setting the reference again changes nothing. *)
Theorem SetControllerReference_spec owner controlled :
  ((∃ m, SetControllerReference owner controlled = inr m) ↔
    (om_Namespace owner = "" ∨ om_Namespace owner = om_Namespace controlled) ∧
    (∀ e, GetControllerOf controlled = Some e → referSameObject e (controllerRef owner) = true)) ∧
  (∀ m, SetControllerReference owner controlled = inr m →
    GetControllerOf m = Some (controllerRef owner) ∧
    set_om_OwnerReferences (om_OwnerReferences controlled) m = controlled ∧
    SetControllerReference owner m = inr m).
Proof.
  split.
  - rw -validateOwner_None. split.
    + by intros (m & (_ & ? & ?)%SetControllerReference_inv).
    + intros [Hv He]. rw /SetControllerReference Hv.
      destruct (GetControllerOf controlled) as [e|]; [|by eexists].
      rw He //. by eexists.
  - intros m Hm. pose proof (SetControllerReference_again _ _ _ Hm) as Ha.
    apply SetControllerReference_inv in Hm as (-> & Hv & He).
    split_and!; [by apply GetControllerOf_upsert|by destruct controlled|done].
Qed.

(** Adding the finalizer and removing it are inverse on an object without
    it; after a removal it is gone and the other finalizers keep their order,
    and each operation reports a change exactly when it makes one. *)
Theorem Finalizer_spec o f :
  (AddFinalizer o f).1 = bool_decide (f ∉ om_Finalizers o) ∧
  (RemoveFinalizer o f).1 = bool_decide (f ∈ om_Finalizers o) ∧
  f ∈ om_Finalizers (AddFinalizer o f).2 ∧
  om_Finalizers (RemoveFinalizer o f).2 = filter (λ e, e ≠ f) (om_Finalizers o) ∧
  ((RemoveFinalizer o f).1 = false → (RemoveFinalizer o f).2 = o) ∧
  ((AddFinalizer o f).1 = true → RemoveFinalizer (AddFinalizer o f).2 f = (true, o)).
Proof.
  pose proof filter_absent f as Hid. pose proof (Finalizer_remove o f) as (Hr & _ & Hr').
  split_and!.
  - rw /AddFinalizer. destruct (decide (f ∈ om_Finalizers o)).
    + rw bool_decide_eq_true_2 // bool_decide_eq_false_2 //. naive_solver.
    + by rw bool_decide_eq_false_2 // bool_decide_eq_true_2.
  - done.
  - rw /AddFinalizer. case_bool_decide; [done|]. simpl. apply elem_of_app. right.
    by apply list_elem_of_singleton.
  - done.
  - exact Hr'.
  - rw /AddFinalizer. case_bool_decide as Hi; [done|]. intros _. rw /RemoveFinalizer /=.
    rw filter_app Hid // filter_cons_False; [naive_solver|]. rw filter_nil app_nil_r length_app /=.
    rw (proj2 (Nat.eqb_neq _ _)); [lia|]. by destruct o.
Qed.
