(* ===== verification/Builder.v ===== *)
(** What the resource builders share: the metadata of the objects they build
    and the result of a function that can fail or panic. *)

From S2P Require Import Prelude GoStd K8s V1beta1 Metadata Kube Controllerutil.

(** [(T, error)] from a function that can panic. *)
Abbreviation fallible A := (outcome (result A)).

Definition fail {A} (e : error) : fallible A := Returns (inl e).
Definition ok {A} (a : A) : fallible A := Returns (inr a).

(** [x, err := m; if err != nil { return err }; k x]. *)
Definition tryf {A B} (m : fallible A) (k : A → fallible B) : fallible B :=
  match m with
  | Returns (inr a) => k a
  | Returns (inl e) => fail e
  | Panics msg => Panics msg
  end.

(** The same, with the error wrapped by [fmt.Errorf("prefix%w", err)]. *)
Definition wrapf {A} (prefix : string) (m : fallible A) : fallible A :=
  match m with
  | Returns (inl e) => fail (WrapError prefix e)
  | _ => m
  end.

Lemma tryf_inv {A B} (m : fallible A) (k : A → fallible B) b :
  tryf m k = ok b → ∃ a, m = ok a ∧ k a = ok b.
Proof. destruct m as [[e|a]|msg]; [done| |done]. simpl. by eauto. Qed.

Lemma tryf_ok {A B} (a : A) (k : A → fallible B) : tryf (ok a) k = k a.
Proof. done. Qed.

Lemma wrapf_inv {A} p (m : fallible A) a : wrapf p m = ok a → m = ok a.
Proof. by destruct m as [[]|]. Qed.

#[export] Hint Rewrite @tryf_ok : op.

Section builder.
Context (instance : RabbitmqCluster).

(** The metadata literal of every [Build]. *)
Definition buildMeta (name : string) : ObjectMeta :=
  newObjectMeta name (rmq_Namespace instance)
    (Some (GetLabels (rmq_Name instance) (rmq_Labels instance)))
    (ReconcileAndFilterAnnotations None [rmq_Annotations instance]).

(** The first two assignments of every [Update]: the labels are replaced, the
    annotations are merged. *)
Definition updateMeta {k} (o : Obj k) : Obj k :=
  let m := meta o in
  set_meta
    (set_om_Annotations (ReconcileAndFilterAnnotations (om_Annotations m) [rmq_Annotations instance])
      (set_om_Labels (Some (GetLabels (rmq_Name instance) (rmq_Labels instance))) m)) o.
End builder.

(** ** What every update does to the metadata

    [updatedMeta instance m m']: an object with metadata [m] that a builder has
    updated has metadata [m']. *)
Definition updatedMeta (instance : RabbitmqCluster) (m m' : ObjectMeta) : Prop :=
  om_Name m' = om_Name m ∧ om_Namespace m' = om_Namespace m ∧ om_UID m' = om_UID m ∧
  om_ResourceVersion m' = om_ResourceVersion m ∧
  om_Labels m' = Some (GetLabels (rmq_Name instance) (rmq_Labels instance)) ∧
  om_Annotations m' =
    ReconcileAndFilterAnnotations (om_Annotations m) [rmq_Annotations instance] ∧
  GetControllerOf m' = Some (controllerRef (rmq_ObjectMeta instance)).

Lemma setController_ok {k} instance (o o' : Obj k) m :
  setController instance o = inr o' →
  om_Labels (meta o) = Some (GetLabels (rmq_Name instance) (rmq_Labels instance)) →
  om_Annotations (meta o) =
    ReconcileAndFilterAnnotations (om_Annotations m) [rmq_Annotations instance] →
  om_Name (meta o) = om_Name m → om_Namespace (meta o) = om_Namespace m →
  om_UID (meta o) = om_UID m → om_ResourceVersion (meta o) = om_ResourceVersion m →
  updatedMeta instance m (meta o').
Proof.
  rw /setController. destruct (SetControllerReference _ _) as [?|m'] eqn:E; [done|].
  intros [= <-]. rw meta_set_meta. intros. 
  apply SetControllerReference_inv in E as (-> & _ & He).
  split_and!; simpl; [done..|].
  by apply GetControllerOf_upsert.
Qed.

(** ** Fixed points

    The shape of the updates: the metadata, then a change [F] of the rest of
    the object, then the controller reference. *)
Definition controlled {k} (instance : RabbitmqCluster) (F : Obj k → outcome (Obj k)) (o : Obj k)
    : fallible (Obj k) :=
  o ← F (updateMeta instance o); Returns (setController instance o).

(** [F] changes the rest of the object only, and doing it twice is doing it once. *)
Record restOnly {k} (F : Obj k → outcome (Obj k)) (ok_in : Obj k → Prop) : Prop := {
  rest_meta m o : F (set_meta m o) = (o' ← F o; Returns (set_meta m o'));
  rest_keeps o o' : F o = Returns o' → meta o' = meta o;
  rest_twice o o' : ok_in o → F o = Returns o' → F o' = Returns o';
  rest_ok_in m o : ok_in o → ok_in (set_meta m o)
}.

Lemma set_meta_twice k m m' (o : Obj k) : set_meta m (set_meta m' o) = set_meta m o.
Proof. by destruct k. Qed.

Lemma controlled_twice {k} instance (F : Obj k → outcome (Obj k)) ok_in o o' :
  restOnly F ok_in → ok_in o → controlled instance F o = ok o' → controlled instance F o' = ok o'.
Proof.
  intros HF Ho. rw /controlled /updateMeta. set (m := meta o).
  rw (rest_meta _ _ HF) /mbind /outcome_bind.
  destruct (F o) as [o1|] eqn:EF; [|done].
  rw /ok. intros [= E]. pose proof E as E1. rw /setController meta_set_meta in E1.
  destruct (SetControllerReference _ _) as [|m'] eqn:ES; [done|]. injection E1 as <-.
  rw set_meta_twice (rest_meta _ _ HF) (rest_meta _ _ HF) (rest_twice _ _ HF o o1) //.
  rw /mbind /outcome_bind !set_meta_twice meta_set_meta. do 2 f_equal.
  pose proof (SetControllerReference_again _ _ _ ES) as Ha.
  pose proof (SetControllerReference_inv _ _ _ ES) as [Hm' _].
  assert (set_om_Annotations
     (ReconcileAndFilterAnnotations (om_Annotations m') [rmq_Annotations instance])
     (set_om_Labels (Some (GetLabels (rmq_Name instance) (rmq_Labels instance))) m') = m') as ->.
  { rw Hm' /= /ReconcileAndFilterAnnotations mergeWithFilter_twice //. }
  rw /setController meta_set_meta Ha set_meta_twice //.
Qed.

(** Nothing but the metadata changes. *)
Lemma restOnly_Returns k : restOnly (k := k) Returns (λ _, True).
Proof. split; [done| | |done]; [by intros o o' [= <-]|done]. Qed.
