(* ===== verification/Plugins.v ===== *)
(** internal/resource/rabbitmq_plugins.go: the list of enabled plugins and the
    ConfigMap that holds it. *)

From S2P Require Import Prelude GoStd K8s V1beta1 Constant Metadata Kube Controllerutil Builder.

(** ** Definitions *)

Definition fileNameRabbitmqPlugins : string := "enabled_plugins".

Definition requiredPlugins : list string :=
  [PluginNameKubernetes; PluginNamePrometheus; PluginNameManagement].

Record RabbitmqPlugins := mkRabbitmqPlugins {
  rp_requiredPlugins : list string;
  rp_additionalPlugins : list string
}.

Definition NewRabbitmqPlugins (plugins : list Plugin) : RabbitmqPlugins :=
  mkRabbitmqPlugins requiredPlugins plugins.

(** The loop over all plugins: [check] is the set of those already seen. *)
Fixpoint dedup (check : gset string) (allPlugins : list string) : list string :=
  match allPlugins with
  | [] => []
  | p :: ps => if decide (p ∈ check) then dedup check ps else p :: dedup ({[p]} ∪ check) ps
  end.

Definition DesiredPlugins (r : RabbitmqPlugins) : list string :=
  dedup ∅ (rp_requiredPlugins r ++ rp_additionalPlugins r).

Definition AsString (r : RabbitmqPlugins) (sep : string) : string := Join (DesiredPlugins r) sep.

Definition desiredPluginsAsString (additionalPlugins : list Plugin) : string :=
  "[" +:+ AsString (NewRabbitmqPlugins additionalPlugins) "," +:+ "].".

Definition RabbitmqPluginsConfigMap_Build (instance : RabbitmqCluster) : ConfigMap :=
  mkConfigMap (buildMeta instance (ChildResourceName instance ResourcePluginConfigMapSuffix))
    (Some {[fileNameRabbitmqPlugins := desiredPluginsAsString []]}).

Definition RabbitmqPluginsConfigMap_Update (instance : RabbitmqCluster) (configMap : ConfigMap)
    : fallible ConfigMap :=
  let configMap := updateMeta (k := KConfigMap) instance configMap in
  let data := gm_make (cm_Data configMap) in
  data ← gm_insert fileNameRabbitmqPlugins
    (desiredPluginsAsString (rcs_AdditionalPlugins (rs_Rabbitmq (rmq_Spec instance)))) data;
  Returns (setController (k := KConfigMap) instance (set_cm_Data data configMap)).

(** ** Lemmas *)

Lemma dedup_elem check ps p : p ∈ dedup check ps ↔ p ∈ ps ∧ p ∉ check.
Proof.
  revert check. induction ps as [|q ps IH]; intros check; simpl.
  { rw elem_of_nil. tauto. }
  destruct (decide (q ∈ check)) as [Hq|Hq].
  - rw IH elem_of_cons. naive_solver.
  - rw !elem_of_cons IH. destruct (decide (p = q)) as [->|Hne]; set_solver.
Qed.

Lemma dedup_NoDup check ps : NoDup (dedup check ps).
Proof.
  revert check. induction ps as [|q ps IH]; intros check; simpl; [apply NoDup_nil_2|].
  destruct (decide (q ∈ check)); [done|]. apply NoDup_cons. split; [|done].
  rw dedup_elem. set_solver.
Qed.

Lemma dedup_fresh check ps qs :
  NoDup ps → (∀ p, p ∈ ps → p ∉ check) →
  dedup check (ps ++ qs) = ps ++ dedup (list_to_set ps ∪ check) qs.
Proof.
  revert check. induction ps as [|p ps IH]; intros check Hnd Hc; simpl.
  { f_equal. set_solver. }
  apply NoDup_cons in Hnd as [Hni Hnd].
  rw decide_False; [apply Hc, list_elem_of_here|]. f_equal. rw IH //.
  { intros q Hq. rw not_elem_of_union not_elem_of_singleton. split; [|apply Hc; by apply list_elem_of_further].
    by intros ->. }
  f_equal. f_equal. set_solver.
Qed.

Lemma dedup_sublist check ps : dedup check ps `sublist_of` ps.
Proof.
  revert check. induction ps as [|q ps IH]; intros check; simpl; [constructor|].
  destruct (decide (q ∈ check)); [by apply sublist_cons|by apply sublist_skip].
Qed.

(** ** Properties *)

(** The enabled plugins are the required ones first, followed by the user's
    further plugins in their order, each plugin once, and nothing else; a list
    that was computed once is not changed by computing it again. *)
Theorem DesiredPlugins_spec plugins :
  let l := DesiredPlugins (NewRabbitmqPlugins plugins) in
  NoDup l ∧ (∀ p, p ∈ l ↔ p ∈ requiredPlugins ∨ p ∈ plugins) ∧
  (∃ rest, l = requiredPlugins ++ rest ∧ rest `sublist_of` plugins ∧
     (∀ p, p ∈ rest ↔ p ∈ plugins ∧ p ∉ requiredPlugins)) ∧
  DesiredPlugins (NewRabbitmqPlugins l) = l.
Proof.
  assert (Hreq : NoDup requiredPlugins) by (by apply (bool_decide_unpack _)).
  assert (Heq : ∀ ps, DesiredPlugins (NewRabbitmqPlugins ps) =
    requiredPlugins ++ dedup (list_to_set requiredPlugins ∪ ∅) ps).
  { intros ps. rw /DesiredPlugins /=. apply (dedup_fresh ∅ requiredPlugins ps); [done|set_solver]. }
  simpl. split_and!.
  - apply dedup_NoDup.
  - intros p. rw /DesiredPlugins dedup_elem elem_of_app /=. set_solver.
  - exists (dedup (list_to_set requiredPlugins ∪ ∅) plugins). split_and!.
    + apply Heq.
    + apply dedup_sublist.
    + intros p. rw dedup_elem. set_solver.
  - rw !Heq. f_equal. set (c := list_to_set requiredPlugins ∪ ∅).
    assert (Hc : ∀ p, p ∈ requiredPlugins → p ∈ c) by set_solver.
    revert Hc. generalize requiredPlugins as req. induction req as [|q req IH]; intros Hc; simpl.
    + rw -{1}(app_nil_r (dedup c plugins)) dedup_fresh; [apply dedup_NoDup| |by rw app_nil_r].
      intros p Hp. by apply dedup_elem in Hp as [_ ?].
    + rw decide_True; [apply Hc, list_elem_of_here|]. apply IH. intros p Hp.
      apply Hc. by apply list_elem_of_further.
Qed.

(** Updating the plugins ConfigMap keeps its name and every other data key,
    puts the desired plugins into enabled_plugins as an Erlang list, allocates
    the data when there was none, and makes the cluster its controller. *)
Theorem RabbitmqPluginsConfigMap_Update_spec instance cm cm' :
  RabbitmqPluginsConfigMap_Update instance cm = ok cm' →
  updatedMeta instance (cm_ObjectMeta cm) (cm_ObjectMeta cm') ∧
  gm_lookup (cm_Data cm') fileNameRabbitmqPlugins =
    Some ("[" +:+ Join (DesiredPlugins (NewRabbitmqPlugins
      (rcs_AdditionalPlugins (rs_Rabbitmq (rmq_Spec instance))))) "," +:+ "].") ∧
  (∀ k, k ≠ fileNameRabbitmqPlugins → gm_lookup (cm_Data cm') k = gm_lookup (cm_Data cm) k).
Proof.
  rw /RabbitmqPluginsConfigMap_Update /= /mbind /outcome_bind. intros [= E].
  split_and!.
  - by eapply (setController_ok (k := KConfigMap)).
  - apply (setController_meta (k := KConfigMap)) in E as ->. simpl. by rw /gm_lookup /= lookup_insert_eq.
  - intros k Hk. apply (setController_meta (k := KConfigMap)) in E as ->. by rw /gm_lookup /= lookup_insert_ne.
Qed.
