(* ===== verification/Services.v ===== *)
(** internal/resource/headless_service.go and service.go: the two Services of a
    cluster, and applySvcOverride of utils.go. *)

From S2P Require Import Prelude GoStd K8s V1beta1 Constant Metadata Merge Kube Controllerutil.
From S2P Require Import Builder.

(** ** Definitions *)

Definition emptyServiceSpec : ServiceSpec := mkServiceSpec [] None "" "" "" false "".

Definition HeadlessService_Build (instance : RabbitmqCluster) : Service :=
  mkService (buildMeta instance (ChildResourceName instance ResourceHeadlessServiceSuffix))
    emptyServiceSpec.

Definition HeadlessService_Ports (instance : RabbitmqCluster) (currPorts : list ServicePort)
    : outcome (list ServicePort) :=
  mergePorts currPorts (HeadlessServicePorts (NewPortManager instance)).

Definition HeadlessService_Update (instance : RabbitmqCluster) (service : Service) : fallible Service :=
  let service := updateMeta (k := KService) instance service in
  let spec := svc_Spec service in
  let spec := set_svcs_Type "ClusterIP" spec in
  let spec := set_svcs_ClusterIP "None" spec in
  let spec := set_svcs_SessionAffinity "None" spec in
  let spec := set_svcs_Selector (Some (LabelSelector (rmq_Name instance))) spec in
  ports ← HeadlessService_Ports instance (svcs_Ports spec);
  let spec := set_svcs_Ports ports spec in
  let spec := set_svcs_PublishNotReadyAddresses true spec in
  Returns (setController (k := KService) instance (set_svc_Spec spec service)).

Definition Service_Build (instance : RabbitmqCluster) : Service :=
  mkService (buildMeta instance (ChildResourceName instance ResourceClientServiceSuffix))
    emptyServiceSpec.

Definition Service_Ports (instance : RabbitmqCluster) (currPorts : list ServicePort)
    : outcome (list ServicePort) :=
  mergePorts currPorts (ClientServicePorts (NewPortManager instance)).

Definition annotateService (instance : RabbitmqCluster) (service : Service) : Service :=
  match rss_Annotations (rs_Service (rmq_Spec instance)) with
  | Some a =>
      let m := svc_ObjectMeta service in
      set_svc_ObjectMeta (set_om_Annotations (ReconcileAnnotations (om_Annotations m) [Some a]) m) service
  | None => service
  end.

(** [builder.Instance.Spec.Service.Type = "ClusterIP"] if it is empty. *)
Definition defaultServiceType (instance : RabbitmqCluster) : RabbitmqCluster :=
  let spec := rmq_Spec instance in
  if (rss_Type (rs_Service spec) =? "")%string
  then set_rmq_Spec (set_rs_Service (set_rss_Type "ClusterIP" (rs_Service spec)) spec) instance
  else instance.

Definition clearNodePorts (ports : list ServicePort) : list ServicePort :=
  set_sp_NodePort 0 <$> ports.

Section service.
Context `{Patchable ServiceSpec}.

Definition applySvcOverride (svc : Service) (override : ServiceOverride) : result Service :=
  let svc := match svo_EmbeddedLabelsAnnotations override with
             | Some ela => set_svc_ObjectMeta (copyLabelsAnnotations (svc_ObjectMeta svc) ela) svc
             | None => svc
             end in
  match svo_Spec override with
  | None => inr svc
  | Some spec =>
      match Marshal (svc_Spec svc) with
      | inl err => inl (WrapError "error marshalling Service Spec: " err)
      | inr originalSvcSpec =>
          match Marshal spec with
          | inl err => inl (WrapError "error marshalling Service Spec override: " err)
          | inr patch =>
              match StrategicMergePatch originalSvcSpec patch with
              | inl err => inl (WrapError "error patching Service Spec: " err)
              | inr patchedJSON =>
                  match Unmarshal patchedJSON with
                  | inl err => inl (WrapError "error unmarshalling patched Service Spec: " err)
                  | inr patchedSvcSpec => inr (set_svc_Spec patchedSvcSpec svc)
                  end
              end
          end
      end
  end.

(** The update of the client service after the instance has its service type. *)
Definition Service_finish (instance : RabbitmqCluster) (service : Service) : result Service :=
  let ty := rss_Type (rs_Service (rmq_Spec instance)) in
  let spec := set_svcs_Type ty (svc_Spec service) in
  let spec := if (ty =? "ClusterIP")%string || (ty =? "")%string
              then set_svcs_Ports (clearNodePorts (svcs_Ports spec)) spec else spec in
  let service := set_svc_Spec spec service in
  let overridden :=
    match ros_Service (rs_Override (rmq_Spec instance)) with
    | Some override =>
        match applySvcOverride service override with
        | inl err => inl (WrapError "failed applying Service override: " err)
        | inr service => inr service
        end
    | None => inr service
    end in
  match overridden with
  | inl err => inl err
  | inr service => setController (k := KService) instance service
  end.

(** [Update] writes the default service type into the shared instance. *)
Definition Service_Update (service : Service) : M RabbitmqCluster (result Service) :=
  instance ← get;
  let service := annotateService instance (updateMeta (k := KService) instance service) in
  ports ← lift (Service_Ports instance (svcs_Ports (svc_Spec service)));
  let spec := set_svcs_Ports ports (svc_Spec service) in
  let spec := set_svcs_Selector (Some (LabelSelector (rmq_Name instance))) spec in
  let service := set_svc_Spec spec service in
  modify defaultServiceType;;
  instance ← get;
  mret (Service_finish instance service).

End service.

(** ** Lemmas *)

Lemma mergePorts_total curr next : ∃ r, mergePorts curr next = Returns r.
Proof. apply merge_total. intros c n. by eexists. Qed.

(** The change of the headless service apart from its metadata. *)
Definition headlessRest (instance : RabbitmqCluster) (service : Service) : outcome Service :=
  ports ← HeadlessService_Ports instance (svcs_Ports (svc_Spec service));
  Returns (set_svc_Spec (set_svcs_PublishNotReadyAddresses true (set_svcs_Ports ports
    (set_svcs_Selector (Some (LabelSelector (rmq_Name instance)))
      (set_svcs_SessionAffinity "None" (set_svcs_ClusterIP "None"
        (set_svcs_Type "ClusterIP" (svc_Spec service))))))) service).

Lemma HeadlessService_Update_eq instance service :
  HeadlessService_Update instance service =
    controlled (k := KService) instance (headlessRest instance) service.
Proof.
  rw /HeadlessService_Update /controlled /headlessRest /mbind /outcome_bind /=.
  by destruct (HeadlessService_Ports _ _).
Qed.

Definition portsDistinct (service : Service) : Prop :=
  NoDup (sp_Name <$> svcs_Ports (svc_Spec service)).

Lemma updatePort_self n : updatePort n n = n.
Proof. by destruct n. Qed.

Lemma headlessRest_restOnly instance :
  restOnly (k := KService) (headlessRest instance) portsDistinct.
Proof.
  split.
  - intros m o. rw /headlessRest /mbind /outcome_bind /=. by destruct (HeadlessService_Ports _ _).
  - intros o o'. rw /headlessRest /mbind /outcome_bind. destruct (HeadlessService_Ports _ _); [|done].
    by intros [= <-].
  - intros o o' Hd. rw /headlessRest /mbind /outcome_bind.
    destruct (HeadlessService_Ports instance (svcs_Ports (svc_Spec o))) as [r|] eqn:E; [|done].
    intros [= <-]. simpl. rw /HeadlessService_Ports /mergePorts in E |- *.
    rw (merge_twice (svcs_Ports (svc_Spec o))) //.
    + by apply (bool_decide_unpack _).
    + intros n _. by rw /= updatePort_self.
  - done.
Qed.

(** What merging the generated ports into the current ones gives. *)
Definition portsMerged (curr next r : list ServicePort) : Prop :=
  NoDup (sp_Name <$> r) ∧
  (∀ n, n ∈ next → ∃ p, p ∈ r ∧ sp_Name p = sp_Name n ∧ sp_Port p = sp_Port n ∧
                        sp_TargetPort p = sp_TargetPort n ∧ sp_Protocol p = sp_Protocol n) ∧
  (∀ c, c ∈ curr → sp_Name c ∉ sp_Name <$> next → c ∈ r) ∧
  (∀ k, k ∈ sp_Name <$> r ↔ k ∈ sp_Name <$> curr ∨ k ∈ sp_Name <$> next).

Lemma mergePorts_merged curr next r :
  NoDup (sp_Name <$> curr) → NoDup (sp_Name <$> next) → mergePorts curr next = Returns r →
  portsMerged curr next r.
Proof.
  intros Hc Hn. change (NoDup (mkey <$> curr)) in Hc. change (NoDup (mkey <$> next)) in Hn.
  rw /mergePorts merge_mergeSpec //. intros Hr.
  pose proof (mergeSpec_keys _ _ _ Hr Hc) as (H1 & H2 & H3). split_and!; [done| | |done].
  - intros n Hin. pose proof (mergeSpec_lookup _ _ _ (mkey n) Hr Hn) as Hl.
    rw (findKey_NoDup _ _ Hn Hin) in Hl. destruct (findKey (mkey n) curr) as [c|] eqn:Ec.
    + destruct Hl as (c' & [= <-] & [Hf Hk]%findKey_elem). by exists (updatePort c n).
    + apply findKey_elem in Hl as [??]. by exists n.
  - intros c Hin Hni. change (mkey c ∉ mkey <$> next) in Hni. pose proof (mergeSpec_lookup _ _ _ (mkey c) Hr Hn) as Hl.
    rw (proj2 (findKey_None _ _) Hni) (findKey_NoDup _ _ Hc Hin) in Hl.
    by apply findKey_elem in Hl as [? _].
Qed.

(** ** Properties *)

(** Updating the headless service makes it a headless ClusterIP service over
    all nodes of the cluster, ready or not, with the discovery ports merged
    into its ports, under the labels, annotations and controller of the
    cluster; and updating the result again changes nothing. *)
Theorem HeadlessService_Update_spec instance s s' :
  portsDistinct s → HeadlessService_Update instance s = ok s' →
  updatedMeta instance (svc_ObjectMeta s) (svc_ObjectMeta s') ∧
  svcs_Type (svc_Spec s') = "ClusterIP" ∧ svcs_ClusterIP (svc_Spec s') = "None" ∧
  svcs_PublishNotReadyAddresses (svc_Spec s') = true ∧
  svcs_Selector (svc_Spec s') = Some (LabelSelector (rmq_Name instance)) ∧
  portsMerged (svcs_Ports (svc_Spec s))
    (HeadlessServicePorts (NewPortManager instance)) (svcs_Ports (svc_Spec s')) ∧
  HeadlessService_Update instance s' = ok s'.
Proof.
  intros Hd Hu. assert (Ht : HeadlessService_Update instance s' = ok s').
  { rw HeadlessService_Update_eq in Hu. rw HeadlessService_Update_eq.
    by eapply (controlled_twice (k := KService)); [apply headlessRest_restOnly| |]. }
  rw /HeadlessService_Update /mbind /outcome_bind /= in Hu.
  destruct (HeadlessService_Ports instance (svcs_Ports (svc_Spec s))) as [r|] eqn:Er; [|done].
  rw /ok in Hu. injection Hu as E.
  pose proof (setController_meta (k := KService) _ _ _ E) as Hs.
  split_and!; [by eapply (setController_ok (k := KService))|by rw Hs..| |done].
  rw Hs. simpl. apply mergePorts_merged; [done| |done]. by apply (bool_decide_unpack _).
Qed.

Section service_properties.
Context `{Patchable ServiceSpec}.

Lemma clearNodePorts_spec ports :
  sp_Name <$> clearNodePorts ports = sp_Name <$> ports ∧
  (∀ p, p ∈ clearNodePorts ports → sp_NodePort p = 0%Z).
Proof.
  rw /clearNodePorts. split.
  - rw -list_fmap_compose. by apply list_fmap_ext.
  - by intros p (q & -> & _)%list_elem_of_fmap.
Qed.

Lemma defaultServiceType_spec instance :
  rss_Type (rs_Service (rmq_Spec (defaultServiceType instance))) =
    (if (rss_Type (rs_Service (rmq_Spec instance)) =? "")%string then "ClusterIP"
     else rss_Type (rs_Service (rmq_Spec instance))) ∧
  rmq_ObjectMeta (defaultServiceType instance) = rmq_ObjectMeta instance ∧
  rmq_Status (defaultServiceType instance) = rmq_Status instance ∧
  rs_Override (rmq_Spec (defaultServiceType instance)) = rs_Override (rmq_Spec instance).
Proof.
  rw /defaultServiceType. by destruct (String.eqb_spec (rss_Type (rs_Service (rmq_Spec instance))) "").
Qed.

(** Updating the client service never panics and gives the shared cluster
    object the default service type; without an override the service gets that
    type, the selector of the cluster, and all ports of the port manager merged
    into its own, of which none is removed; a ClusterIP service keeps no node
    port. *)
Theorem Service_Update_spec instance s :
  portsDistinct s →
  ∃ r, Service_Update s instance = (Returns r, defaultServiceType instance) ∧
  ∀ s', r = inr s' → ros_Service (rs_Override (rmq_Spec instance)) = None →
    let ty := rss_Type (rs_Service (rmq_Spec (defaultServiceType instance))) in
    ty ≠ "" ∧ svcs_Type (svc_Spec s') = ty ∧
    svcs_Selector (svc_Spec s') = Some (LabelSelector (rmq_Name instance)) ∧
    om_Name (svc_ObjectMeta s') = om_Name (svc_ObjectMeta s) ∧
    GetControllerOf (svc_ObjectMeta s') = Some (controllerRef (rmq_ObjectMeta instance)) ∧
    ∃ ports, portsMerged (svcs_Ports (svc_Spec s))
               (ClientServicePorts (NewPortManager instance)) ports ∧
      svcs_Ports (svc_Spec s') = (if (ty =? "ClusterIP")%string then clearNodePorts ports else ports) ∧
      (ty = "ClusterIP" → ∀ p, p ∈ svcs_Ports (svc_Spec s') → sp_NodePort p = 0%Z).
Proof.
  intros Hd. destruct (mergePorts_total (svcs_Ports (svc_Spec s))
    (ClientServicePorts (NewPortManager instance))) as [ports Hp].
  pose proof (mergePorts_merged _ _ _ Hd (ClientServicePorts_names _) Hp) as Hm.
  destruct (defaultServiceType_spec instance) as (Ht & Hmeta & _ & Ho).
  unfold Service_Update, mbind, M_bind, get, lift, modify. cbv beta iota zeta.
  assert (svc_Spec (annotateService instance (updateMeta (k := KService) instance s)) = svc_Spec s) as ->
    by (rw /annotateService; by destruct (rss_Annotations _)).
  rw /Service_Ports Hp. cbv beta iota zeta. eexists. split; [done|]. intros s' E Hno. simpl.
  rw /Service_finish Ho Hno in E.
  set (ty := rss_Type (rs_Service (rmq_Spec (defaultServiceType instance)))) in *.
  assert (ty ≠ "") as Hty.
  { rw Ht. destruct (String.eqb_spec (rss_Type (rs_Service (rmq_Spec instance))) ""); done. }
  rw (proj2 (String.eqb_neq _ _) Hty) orb_false_r in E.
  pose proof (setController_meta (k := KService) _ _ _ E) as Hs.
  assert (om_Name (svc_ObjectMeta s') = om_Name (svc_ObjectMeta s)) as Hname.
  { rw Hs. simpl. rw /annotateService. by destruct (rss_Annotations _). }
  assert (GetControllerOf (svc_ObjectMeta s') = Some (controllerRef (rmq_ObjectMeta instance))) as Hc.
  { rw /setController in E. destruct (SetControllerReference _ _) as [|m] eqn:ES; [done|].
    injection E as <-. rw /= -Hmeta. apply SetControllerReference_inv in ES as (-> & _ & He).
    by apply GetControllerOf_upsert. }
  assert (svcs_Ports (svc_Spec s') =
    if (ty =? "ClusterIP")%string then clearNodePorts ports else ports) as Hports.
  { rw Hs /=. by destruct (ty =? "ClusterIP")%string. }
  split_and!; [done|rw Hs /=; by destruct (ty =? "ClusterIP")%string..|done|done|].
  exists ports. split_and!; [done|done|]. rw Hports. intros ->. apply clearNodePorts_spec.
Qed.
End service_properties.
