(* ===== verification/Secrets.v ===== *)
(** internal/resource/erlang_cookie.go and default_user_secret.go: the two
    Secrets with random contents. *)

From S2P Require Import Prelude GoStd K8s V1beta1 Constant Metadata Kube Controllerutil Builder.
From Stdlib Require Import Ascii.

(** ** base64.URLEncoding, with padding *)

Definition base64Alphabet : string :=
  "ABCDEFGHIJKLMNOPQRSTUVWXYZabcdefghijklmnopqrstuvwxyz0123456789-_".

(** The digit for the six low bits of [n]. *)
Definition base64Digit (n : Z) : ascii :=
  default "="%char (String.get (Z.to_nat (Z.land n 63)) base64Alphabet).

Definition byteZ (c : ascii) : Z := Z.of_nat (nat_of_ascii c).

Fixpoint EncodeToString (src : string) : string :=
  match src with
  | String a (String b (String c src)) =>
      let val := Z.lor (Z.lor (Z.shiftl (byteZ a) 16) (Z.shiftl (byteZ b) 8)) (byteZ c) in
      String (base64Digit (Z.shiftr val 18)) (String (base64Digit (Z.shiftr val 12))
        (String (base64Digit (Z.shiftr val 6)) (String (base64Digit val) (EncodeToString src))))
  | String a (String b EmptyString) =>
      let val := Z.lor (Z.shiftl (byteZ a) 16) (Z.shiftl (byteZ b) 8) in
      String (base64Digit (Z.shiftr val 18)) (String (base64Digit (Z.shiftr val 12))
        (String (base64Digit (Z.shiftr val 6)) "="))
  | String a EmptyString =>
      let val := Z.shiftl (byteZ a) 16 in
      String (base64Digit (Z.shiftr val 18)) (String (base64Digit (Z.shiftr val 12)) "==")
  | EmptyString => ""
  end.

(** ** Definitions *)

Definition fileNameErlangCookie : string := ".erlang.cookie".
Definition fileNameRabbitmqConfdDefaultUser : string := "default_user.conf".
Definition SecretTypeOpaque : string := "Opaque".
Definition bindingProvider : string := "rabbitmq".
Definition bindingType : string := "rabbitmq".
Definition usernamePrefix : string := "default_user_".

Section random.
Context {W : Type} `{!Kube W}.

Definition randomEncodedString (dataLen : nat) : Run W (result string) :=
  randomBytes ← ext (kRandRead dataLen);
  match randomBytes with
  | inl err => mret (inl err)
  | inr randomBytes => mret (inr (EncodeToString randomBytes))
  end.

(** [s[0:n]] of a byte slice; a negative bound panics. *)
Definition slicePrefix (s : string) (n : Z) : outcome string :=
  if (0 <=? n)%Z && (n <=? Z.of_nat (String.length s))%Z
  then Returns (String.substring 0 (Z.to_nat n) s)
  else Panics "slice bounds out of range".

Definition usernameOf (encoded : string) : outcome string :=
  p ← slicePrefix encoded
    (Z.of_nat (String.length encoded) - Z.of_nat (String.length usernamePrefix));
  Returns (usernamePrefix +:+ p).

Definition generateUsername (l : nat) : Run W (result string) :=
  encoded ← randomEncodedString l;
  match encoded with
  | inl err => mret (inl err)
  | inr encoded => username ← lift (usernameOf encoded); mret (inr username)
  end.

Definition ErlangCookie_Build : Run W (result Secret) :=
  cookie ← randomEncodedString 24;
  instance ← rmq;
  match cookie with
  | inl err => mret (inl err)
  | inr cookie => mret (inr
      (mkSecret (buildMeta instance (ChildResourceName instance ResourceErlangCookieSuffix))
         SecretTypeOpaque (Some {[fileNameErlangCookie := cookie]})))
  end.
End random.

Definition ErlangCookie_Update (instance : RabbitmqCluster) (secret : Secret) : fallible Secret :=
  Returns (setController (k := KSecret) instance (updateMeta (k := KSecret) instance secret)).

(** [portNames]: plugins and the keys of their ports, with the plain and the
    TLS port. *)
Definition portNames : list (Plugin * string * Z * Z) :=
  [(PluginNameMqtt, "mqtt-port", DefaultPortMqtt, DefaultPortMqtts);
   (PluginNameStomp, "stomp-port", DefaultPortStomp, DefaultPortStomps);
   (PluginNameStream, "stream-port", DefaultPortStream, DefaultPortStreams);
   (PluginNameWebMqtt, "web-mqtt-port", DefaultPortWebMqtt, DefaultPortWebMqttTls);
   (PluginNameWebStomp, "web-stomp-port", DefaultPortWebStomp, DefaultPortWebStompTls)].

(** The body of the loop over [portNames], on a map that is not nil. *)
Definition updatePort (instance : RabbitmqCluster) (data : gmap string string)
    (e : Plugin * string * Z * Z) : gmap string string :=
  let '(plugin, portName, port, TLSPort) := e in
  if AdditionalPluginEnabled instance plugin
  then <[portName := Itoa (if SecretTLSEnabled instance then TLSPort else port)]> data
  else delete portName data.

Definition updatePorts (instance : RabbitmqCluster) (data : gomap string) : outcome (gomap string) :=
  data ← gm_insert "port"
    (Itoa (if SecretTLSEnabled instance then DefaultPortAmqps else DefaultPortAmqp)) data;
  Returns (Some (foldl (updatePort instance) (gm data) portNames)).

Definition connectionString (instance : RabbitmqCluster) (data : gomap string) : string :=
  (if SecretTLSEnabled instance then "amqps://" else "amqp://") +:+
  gm_get data "username" +:+ ":" +:+ gm_get data "password" +:+ "@" +:+
  gm_get data "host" +:+ ":" +:+ gm_get data "port" +:+ "/".

Definition updateConnectionString (instance : RabbitmqCluster) (data : gomap string)
    : outcome (gomap string) :=
  gm_insert "connection_string" (connectionString instance data) data.

Definition updateData (instance : RabbitmqCluster) (data : gomap string) : outcome (gomap string) :=
  data ← updatePorts instance data;
  updateConnectionString instance data.

Section default_user.
Context {W : Type} `{!Kube W, !Ini}.

Definition generateDefaultUserConf (username password : string) : result string :=
  match iniLoad "" with
  | inl err => inl err
  | inr cfg =>
      match iniNewKey "default_user" username cfg with
      | inl err => inl err
      | inr cfg =>
          match iniNewKey "default_pass" password cfg with
          | inl err => inl err
          | inr cfg => iniWriteTo cfg
          end
      end
  end.

Definition newUserSecret (instance : RabbitmqCluster) (username password defaultUserConf : string)
    : Secret :=
  mkSecret (buildMeta instance (ChildResourceName instance ResourceDefaultUserSuffix))
    SecretTypeOpaque
    (Some {["username" := username; "password" := password;
            fileNameRabbitmqConfdDefaultUser := defaultUserConf;
            "type" := bindingType; "provider" := bindingProvider;
            "host" := ServiceSubDomain instance]}).

Definition DefaultUserSecret_Build : Run W (result Secret) :=
  username ← generateUsername 24;
  match username with
  | inl err => mret (inl err)
  | inr username =>
      password ← randomEncodedString 24;
      match password with
      | inl err => mret (inl err)
      | inr password =>
          match generateDefaultUserConf username password with
          | inl err => mret (inl err)
          | inr defaultUserConf =>
              instance ← rmq;
              let secret := newUserSecret instance username password defaultUserConf in
              data ← lift (updateData instance (sec_Data secret));
              mret (inr (set_sec_Data data secret))
          end
      end
  end.
End default_user.

Definition DefaultUserSecret_Update (instance : RabbitmqCluster) (secret : Secret) : fallible Secret :=
  let secret := updateMeta (k := KSecret) instance secret in
  data ← updateData instance (sec_Data secret);
  Returns (setController (k := KSecret) instance (set_sec_Data data secret)).

(** ** Lemmas *)

Lemma EncodeToString_length_strong n : ∀ s,
  (String.length s ≤ n)%nat →
  String.length (EncodeToString s) = (4 * ((String.length s + 2) / 3))%nat.
Proof.
  induction n as [|n IH]; intros s Hs; [by destruct s; [|simpl in Hs; lia]|].
  destruct s as [|a [|b [|c s]]]; [done..|].
  cbn [EncodeToString String.length]. rw IH; [simpl in Hs; lia|].
  replace (S (S (S (String.length s))) + 2)%nat with (String.length s + 2 + 1 * 3)%nat by lia.
  rw Nat.div_add; lia.
Qed.

Lemma EncodeToString_length s :
  String.length (EncodeToString s) = (4 * ((String.length s + 2) / 3))%nat.
Proof. by apply (EncodeToString_length_strong (String.length s)). Qed.

Lemma substring_length n s : (n ≤ String.length s)%nat → String.length (String.substring 0 n s) = n.
Proof.
  revert n. induction s as [|c s IH]; intros [|n]; simpl; [lia..|done|]. intros ?. rw IH; lia.
Qed.

(** Deleting or inserting the key of one plugin. *)
Lemma updatePort_other instance data p nm po tp k :
  k ≠ nm → updatePort instance data (p, nm, po, tp) !! k = data !! k.
Proof. intros Hk. rw /updatePort. case_match; [by rw lookup_insert_ne|by rw lookup_delete_ne]. Qed.

Lemma updatePort_key instance data p nm po tp :
  updatePort instance data (p, nm, po, tp) !! nm =
    if AdditionalPluginEnabled instance p
    then Some (Itoa (if SecretTLSEnabled instance then tp else po)) else None.
Proof. rw /updatePort. case_match; [by rw lookup_insert_eq|by rw lookup_delete_eq]. Qed.

Lemma foldl_updatePort_other instance l data k :
  k ∉ (λ e : Plugin * string * Z * Z, e.1.1.2) <$> l →
  foldl (updatePort instance) data l !! k = data !! k.
Proof.
  revert data. induction l as [|[[[p nm] po] tp] l IH]; intros data; [done|].
  rw fmap_cons not_elem_of_cons /=. intros [Hk Hl]. rw IH //. by apply updatePort_other.
Qed.

Lemma foldl_updatePort_key instance l data p nm po tp :
  NoDup ((λ e : Plugin * string * Z * Z, e.1.1.2) <$> l) → (p, nm, po, tp) ∈ l →
  foldl (updatePort instance) data l !! nm =
    if AdditionalPluginEnabled instance p
    then Some (Itoa (if SecretTLSEnabled instance then tp else po)) else None.
Proof.
  revert data. induction l as [|e l IH]; intros data; [by intros _ ?%not_elem_of_nil|].
  rw fmap_cons. intros [Hni Hnd]%NoDup_cons [<-|Hin]%elem_of_cons; [|by apply IH].
  simpl. rw foldl_updatePort_other //. apply updatePort_key.
Qed.

(** What the data of the default user's secret is after an update. *)
Lemma updateData_inv instance data data' :
  updateData instance data = Returns data' →
  is_Some data ∧ is_Some data' ∧
  gm_lookup data' "port" =
    Some (Itoa (if SecretTLSEnabled instance then DefaultPortAmqps else DefaultPortAmqp)) ∧
  (∀ p nm po tp, (p, nm, po, tp) ∈ portNames → gm_lookup data' nm =
     if AdditionalPluginEnabled instance p
     then Some (Itoa (if SecretTLSEnabled instance then tp else po)) else None) ∧
  (∀ k, k ∉ "port" :: "connection_string" :: ((λ e : Plugin * string * Z * Z, e.1.1.2) <$> portNames) →
     gm_lookup data' k = gm_lookup data k) ∧
  gm_lookup data' "connection_string" = Some (connectionString instance data').
Proof.
  rw /updateData /updatePorts /mbind /outcome_bind.
  destruct data as [m|]; [|done]. cbn [gm_insert]. unfold updateConnectionString. cbn [gm_insert].
  set (d := foldl _ _ _). intros [= <-].
  assert (Hother : ∀ k, k ∉ (λ e, e.1.1.2) <$> portNames →
    d !! k = <["port" := Itoa (if SecretTLSEnabled instance then DefaultPortAmqps else DefaultPortAmqp)]> m !! k).
  { intros k Hk. by apply foldl_updatePort_other. }
  split_and!; [by eexists..| | | |].
  - rw /gm_lookup /= lookup_insert_ne // Hother; [by apply (bool_decide_unpack _)|].
    by rw lookup_insert_eq.
  - intros p nm po tp Hin. rw /gm_lookup /= lookup_insert_ne.
    { intros <-. apply (list_elem_of_fmap_2 (λ e, e.1.1.2)) in Hin. revert Hin.
      change ("connection_string" ∉ (λ e, e.1.1.2) <$> portNames). by apply (bool_decide_unpack _). }
    apply foldl_updatePort_key; [by apply (bool_decide_unpack _)|done].
  - intros k [Hp [Hc Hk]%not_elem_of_cons]%not_elem_of_cons.
    rw /gm_lookup /= lookup_insert_ne; [congruence|]. rw (Hother k Hk) lookup_insert_ne //.
  - rw /gm_lookup /= lookup_insert_eq /connectionString /gm_get /gm_lookup /=.
    by rw !lookup_insert_ne.
Qed.

(** The update of the default user's secret, apart from its metadata. *)
Definition userSecretRest (instance : RabbitmqCluster) (secret : Secret) : outcome Secret :=
  data ← updateData instance (sec_Data secret); Returns (set_sec_Data data secret).

Lemma DefaultUserSecret_Update_eq instance secret :
  DefaultUserSecret_Update instance secret =
    controlled (k := KSecret) instance (userSecretRest instance) secret.
Proof.
  rw /DefaultUserSecret_Update /controlled /userSecretRest /mbind /outcome_bind /=.
  by destruct (updateData _ _).
Qed.

(** Two maps with the data of an update and the same other keys are equal. *)
Lemma updateData_twice instance data data' :
  updateData instance data = Returns data' → updateData instance data' = Returns data'.
Proof.
  intros Hu. destruct (updateData_inv _ _ _ Hu) as (_ & [m' ->] & Hp & Hk & _ & Hc).
  destruct (updateData instance (Some m')) as [data''|] eqn:Hu'; [|done].
  destruct (updateData_inv _ _ _ Hu') as (_ & [m'' ->] & Hp' & Hk' & Ho' & Hc').
  assert (∀ k, k ≠ "connection_string" → m'' !! k = m' !! k) as Hm.
  { intros k Hne. rw /gm_lookup /= in Hp, Hk, Hp', Hk', Ho'.
    destruct (decide (k ∈ "port" :: ((λ e, e.1.1.2) <$> portNames))) as [[->|Hin]%elem_of_cons|Hni].
    - by rw Hp Hp'.
    - apply list_elem_of_fmap in Hin as ([[[p nm] po] tp] & -> & Hin). simpl.
      by rw (Hk _ _ _ _ Hin) (Hk' _ _ _ _ Hin).
    - apply not_elem_of_cons in Hni as [H1 H2]. apply Ho'. by do 2 (apply not_elem_of_cons; split; [done|]). }
  do 2 f_equal. apply map_eq. intros k. destruct (decide (k = "connection_string")) as [->|Hk1]; [|by apply Hm].
  rw /gm_lookup /= in Hc, Hc'. rw Hc Hc' /connectionString /gm_get /gm_lookup /=.
  by rw !Hm.
Qed.

Lemma userSecretRest_restOnly instance :
  restOnly (k := KSecret) (userSecretRest instance) (λ _, True).
Proof.
  split.
  - intros m o. rw /userSecretRest /mbind /outcome_bind /=. by destruct (updateData _ _).
  - intros o o'. rw /userSecretRest /mbind /outcome_bind. destruct (updateData _ _); [|done].
    by intros [= <-].
  - intros o o' _. rw /userSecretRest /mbind /outcome_bind.
    destruct (updateData instance (sec_Data o)) as [d|] eqn:E; [|done]. intros [= <-]. simpl.
    by rw (updateData_twice _ _ _ E).
  - done.
Qed.

(** ** Properties *)

Section random_properties.
Context {W : Type} `{!Kube W}.

(** From 24 random bytes (what the two builders ask for) the generated user
    name never makes the slice expression panic: it is the prefix followed by
    the first 19 of the 32 characters of the encoding, 32 characters in all;
    an error of the random source is returned as it is. *)
Theorem generateUsername_spec s :
  match (kRandRead 24 (op_world s)).1 with
  | inl err => (generateUsername 24 s).1 = Returns (inl err)
  | inr bytes =>
      String.length bytes = 24%nat →
      ∃ name, (generateUsername 24 s).1 = Returns (inr name) ∧
        String.length name = 32%nat ∧ HasPrefix name usernamePrefix = true ∧
        name = usernamePrefix +:+ String.substring 0 19 (EncodeToString bytes)
  end.
Proof.
  unfold generateUsername, randomEncodedString, mbind, M_bind, ext.
  destruct (kRandRead 24 (op_world s)) as [[err|bytes] w]; cbn [fst]; [done|].
  intros Hl. exists (usernamePrefix +:+ String.substring 0 19 (EncodeToString bytes)).
  pose proof (EncodeToString_length bytes) as He. rw Hl in He.
  change (4 * ((24 + 2) / 3))%nat with 32%nat in He.
  split_and!.
  - unfold mret, M_ret, lift, usernameOf, slicePrefix. by rw He.
  - rw string_length_app substring_length; [lia|done].
  - apply prefix_app.
  - done.
Qed.
End random_properties.

(** Updating the default user's secret never touches the credentials: of the
    data only the ports and the connection string change; each plugin port is
    there exactly when the user enables the plugin and is the TLS port exactly
    when TLS comes from a secret, the connection string is built from the
    resulting data, and updating again changes nothing.  A secret without data
    makes the operator panic. *)
Theorem DefaultUserSecret_Update_spec instance s :
  (sec_Data s = None → ∃ msg, DefaultUserSecret_Update instance s = Panics msg) ∧
  ∀ s', DefaultUserSecret_Update instance s = ok s' →
    updatedMeta instance (sec_ObjectMeta s) (sec_ObjectMeta s') ∧
    gm_lookup (sec_Data s') "port" =
      Some (Itoa (if SecretTLSEnabled instance then DefaultPortAmqps else DefaultPortAmqp)) ∧
    (∀ p nm po tp, (p, nm, po, tp) ∈ portNames → gm_lookup (sec_Data s') nm =
       if AdditionalPluginEnabled instance p
       then Some (Itoa (if SecretTLSEnabled instance then tp else po)) else None) ∧
    (∀ k, k ∈ ["username"; "password"; "host"; fileNameRabbitmqConfdDefaultUser] →
       gm_lookup (sec_Data s') k = gm_lookup (sec_Data s) k) ∧
    gm_lookup (sec_Data s') "connection_string" = Some (connectionString instance (sec_Data s')) ∧
    DefaultUserSecret_Update instance s' = ok s'.
Proof.
  split.
  { intros Hd. rw /DefaultUserSecret_Update /mbind /outcome_bind /= Hd. by eexists. }
  intros s' Hu. assert (Ht : DefaultUserSecret_Update instance s' = ok s').
  { rw DefaultUserSecret_Update_eq in Hu. rw DefaultUserSecret_Update_eq.
    by eapply (controlled_twice (k := KSecret)); [apply userSecretRest_restOnly| |]. }
  rw /DefaultUserSecret_Update /mbind /outcome_bind /= in Hu.
  destruct (updateData instance (sec_Data s)) as [d|] eqn:Ed; [|done].
  rw /ok in Hu. injection Hu as E.
  pose proof (setController_meta (k := KSecret) _ _ _ E) as Hs.
  destruct (updateData_inv _ _ _ Ed) as (_ & _ & Hp & Hk & Ho & Hc).
  split_and!; [by eapply (setController_ok (k := KSecret))|by rw Hs..| |by rw Hs|done].
  intros k Hin. rw Hs /= Ho //. revert k Hin. apply Forall_forall. by apply (bool_decide_unpack _).
Qed.

(** The Erlang cookie of a cluster is never changed by an update: the data of
    its secret stay as they are, and updating again changes nothing at all. *)
Theorem ErlangCookie_Update_spec instance s s' :
  ErlangCookie_Update instance s = ok s' →
  sec_Data s' = sec_Data s ∧ updatedMeta instance (sec_ObjectMeta s) (sec_ObjectMeta s') ∧
  ErlangCookie_Update instance s' = ok s'.
Proof.
  intros Hu. assert (E := Hu). rw /ErlangCookie_Update /ok in E. injection E as E. split_and!.
  - by rw (setController_meta (k := KSecret) _ _ _ E).
  - by eapply (setController_ok (k := KSecret)).
  - apply (controlled_twice (k := KSecret) instance Returns (λ _, True) s s');
      [apply restOnly_Returns|done|exact Hu].
Qed.
