(* ===== verification/Rbac.v ===== *)
(** internal/resource/service_account.go, role.go and role_binding.go: the
    service account of the pods and its right to discover peers. *)

From S2P Require Import Prelude GoStd K8s V1beta1 Constant Metadata Kube Controllerutil Builder.

(** ** Definitions *)

Section rbac.
Context (instance : RabbitmqCluster).

Definition ServiceAccount_Build : ServiceAccount :=
  mkServiceAccount (buildMeta instance (ChildResourceName instance ResourceServiceAccountSuffix)).

Definition ServiceAccount_Update (serviceAccount : ServiceAccount) : fallible ServiceAccount :=
  Returns (setController (k := KServiceAccount) instance
    (updateMeta (k := KServiceAccount) instance serviceAccount)).

Definition Role_Build : Role :=
  mkRole (buildMeta instance (ChildResourceName instance ResourceRoleSuffix)) [].

Definition peerDiscoveryRules : list PolicyRule :=
  [mkPolicyRule [""] ["endpoints"] ["get"]; mkPolicyRule [""] ["events"] ["create"]].

Definition Role_Update (role : Role) : fallible Role :=
  Returns (setController (k := KRole) instance
    (set_role_Rules peerDiscoveryRules (updateMeta (k := KRole) instance role))).

Definition RoleBinding_Build : RoleBinding :=
  mkRoleBinding (buildMeta instance (ChildResourceName instance ResourceRoleBindingSuffix))
    (mkRoleRef "" "" "") [].

Definition RoleBinding_Update (roleBinding : RoleBinding) : fallible RoleBinding :=
  let roleBinding := updateMeta (k := KRoleBinding) instance roleBinding in
  let roleBinding := set_rb_RoleRef (mkRoleRef "rbac.authorization.k8s.io" "Role"
    (ChildResourceName instance ResourceRoleSuffix)) roleBinding in
  let roleBinding := set_rb_Subjects [mkSubject "ServiceAccount"
    (ChildResourceName instance ResourceServiceAccountSuffix)] roleBinding in
  Returns (setController (k := KRoleBinding) instance roleBinding).

(** ** Lemmas *)

Lemma Role_restOnly :
  restOnly (k := KRole) (λ r, Returns (set_role_Rules peerDiscoveryRules r)) (λ _, True).
Proof. split; [done| | |done]; [by intros o o' [= <-]|by intros o o' _ [= <-]]. Qed.

Lemma RoleBinding_restOnly :
  restOnly (k := KRoleBinding)
    (λ r, Returns (set_rb_Subjects [mkSubject "ServiceAccount"
            (ChildResourceName instance ResourceServiceAccountSuffix)]
          (set_rb_RoleRef (mkRoleRef "rbac.authorization.k8s.io" "Role"
            (ChildResourceName instance ResourceRoleSuffix)) r))) (λ _, True).
Proof. split; [done| | |done]; [by intros o o' [= <-]|by intros o o' _ [= <-]]. Qed.

(** ** Properties *)

(** The updated role binding grants the updated role, by the name the role
    is built with, to the service account, by the name it is built with; the
    role can do no more than read endpoints and create events; and the three
    updates are fixed points after one application. *)
Theorem Rbac_grants r r' rb rb' sa sa' :
  Role_Update r = ok r' → RoleBinding_Update rb = ok rb' → ServiceAccount_Update sa = ok sa' →
  rref_Name (rb_RoleRef rb') = om_Name (role_ObjectMeta Role_Build) ∧
  rref_Kind (rb_RoleRef rb') = "Role" ∧
  rb_Subjects rb' = [mkSubject "ServiceAccount" (om_Name (sa_ObjectMeta ServiceAccount_Build))] ∧
  (∀ rule, rule ∈ role_Rules r' →
     (prl_Resources rule, prl_Verbs rule) ∈ [(["endpoints"], ["get"]); (["events"], ["create"])]) ∧
  Role_Update r' = ok r' ∧ RoleBinding_Update rb' = ok rb' ∧ ServiceAccount_Update sa' = ok sa'.
Proof.
  intros Hr Hrb Hsa.
  assert (E := Hr). rw /Role_Update /ok in E. injection E as E.
  assert (Eb := Hrb). rw /RoleBinding_Update /ok in Eb. injection Eb as Eb.
  pose proof (setController_meta (k := KRole) _ _ _ E) as Sr.
  pose proof (setController_meta (k := KRoleBinding) _ _ _ Eb) as Sb.
  split_and!; [by rw Sb..| | | |].
  - rw Sr. simpl. apply Forall_forall. by apply (bool_decide_unpack _).
  - apply (controlled_twice (k := KRole) instance _ _ r r' Role_restOnly I Hr).
  - apply (controlled_twice (k := KRoleBinding) instance _ _ rb rb' RoleBinding_restOnly I Hrb).
  - apply (controlled_twice (k := KServiceAccount) instance _ _ sa sa' (restOnly_Returns _) I Hsa).
Qed.
End rbac.
