(* ===== verification/ServerConf.v ===== *)
(** internal/resource/configmap.go: the server configuration of a cluster and
    the decision whether a change of it requires a restart of the nodes. *)

From S2P Require Import Prelude GoStd K8s V1beta1 Constant Metadata Kube Controllerutil Builder.

(** ** File names and defaults (statefulset.go and configmap.go) *)

Definition dirRabbitmqTls : string := "/etc/rabbitmq-tls/".
Definition fileNameCaCert : string := "ca.crt".
Definition filePathCaCert : string := dirRabbitmqTls +:+ fileNameCaCert.
Definition fileNameTlsCert : string := "tls.crt".
Definition filePathTlsCert : string := dirRabbitmqTls +:+ fileNameTlsCert.
Definition fileNameTlsKey : string := "tls.key".
Definition filePathTlsKey : string := dirRabbitmqTls +:+ fileNameTlsKey.

Definition fileNameRabbitmqConfdDefault : string := "operatorDefaults.conf".
Definition fileNameRabbitmqConfdUserDefined : string := "userDefinedConfiguration.conf".
Definition fileNameRabbitmqConfEnv : string := "rabbitmq-env.conf".
Definition fileNameRabbitmqConfAdvanced : string := "advanced.config".
Definition fileNameRabbitmqConfErlangInet : string := "erl_inetrc".

Definition disableNonTLSListeners : string := "none".

Definition defaultRabbitmqConf : string := "
log.file = /var/log/rabbitmq/rabbitmq.log
queue_master_locator = min-masters
disk_free_limit.absolute = 2GB
cluster_partition_handling = pause_minority
cluster_formation.peer_discovery_backend = rabbit_peer_discovery_k8s
cluster_formation.k8s.host = kubernetes.default
cluster_formation.k8s.address_type = hostname".

Definition defaultTLSConf : string := "
ssl_options.certfile = /etc/rabbitmq-tls/tls.crt
ssl_options.keyfile = /etc/rabbitmq-tls/tls.key
listeners.ssl.default = 5671

management.ssl.certfile   = /etc/rabbitmq-tls/tls.crt
management.ssl.keyfile    = /etc/rabbitmq-tls/tls.key
management.ssl.port       = 15671

prometheus.ssl.certfile  = /etc/rabbitmq-tls/tls.crt
prometheus.ssl.keyfile   = /etc/rabbitmq-tls/tls.key
prometheus.ssl.port      = 15691
".

(** ** Definitions *)

(** [x, err := m; if err != nil { return err }] without panics. *)
Definition tryr {A B} (m : result A) (k : A → result B) : result B :=
  match m with inl e => inl e | inr a => k a end.

Definition wrapr {A} (prefix : string) (m : result A) : result A :=
  match m with inl e => inl (WrapError prefix e) | inr a => inr a end.

(** [int64] division truncates towards zero. *)
Definition GiB64 : Z := 1073741824.

Definition removeHeadroom (memLimit : Z) : Z :=
  (if 2 * GiB64 <? Z.quot memLimit 5 then memLimit - 2 * GiB64
   else memLimit - Z.quot memLimit 5)%Z.

Definition updateProperty (key value : string) (configMapData : gmap string string) : gmap string string :=
  if (value =? "")%string then delete key configMapData else <[key := value]> configMapData.

(** Decide the equality of two file names. *)
Ltac decide_names :=
  repeat first [rewrite ->decide_True by done|rewrite ->decide_False by done].

Section server_conf.
Context `{!Library}.

(** A chain of [NewKey] calls, each followed by a return on error. *)
Fixpoint newKeys (kvs : list (string * string)) (f : IniFile) : result IniFile :=
  match kvs with
  | [] => inr f
  | (k, v) :: kvs => tryr (iniNewKey k v f) (newKeys kvs)
  end.

Definition areAuthMechanismsConfigued (additionalConfig : string) : result bool :=
  match iniLoad additionalConfig with
  | inl err => inl (WrapError "failed to load spec.rabbitmq.additionalConfig: " err)
  | inr iniFile => inr (existsb (λ key, HasPrefix key "auth_mechanisms") (iniKeyStrings iniFile))
  end.

(** The keys of the operator's own section, after the defaults. *)
Definition operatorKeys (instance : RabbitmqCluster) (replicas : Z) : list (string * string) :=
  [("cluster_formation.target_cluster_size_hint", Itoa replicas);
   ("cluster_name", rmq_Name instance)].

Definition authKeys (authMechsConfigured : bool) : list (string * string) :=
  if negb authMechsConfigured
  then [("auth_mechanisms.1", "PLAIN"); ("auth_mechanisms.2", "AMQPLAIN")] else [].

(** The keys a plugin's TLS listener needs. *)
Definition pluginTLSKeys (instance : RabbitmqCluster) (plugin tcpKey sslKey : string) (port : Z)
    : list (string * string) :=
  if AdditionalPluginEnabled instance plugin then
    (if DisableNonTLSListeners instance then [(tcpKey, disableNonTLSListeners)] else []) ++
    [(sslKey, Itoa port)]
  else [].

Definition tlsKeys (instance : RabbitmqCluster) : list (string * string) :=
  (if DisableNonTLSListeners instance
   then [("listeners.tcp", disableNonTLSListeners)]
   else [("management.tcp.port", Itoa DefaultPortManagement);
         ("prometheus.tcp.port", Itoa DefaultPortPrometheus)]) ++
  pluginTLSKeys instance PluginNameMqtt "mqtt.listeners.tcp" "mqtt.listeners.ssl.default" DefaultPortMqtts ++
  pluginTLSKeys instance PluginNameStomp "stomp.listeners.tcp" "stomp.listeners.ssl.1" DefaultPortStomps ++
  pluginTLSKeys instance PluginNameStream "stream.listeners.tcp" "stream.listeners.ssl.default" DefaultPortStreams.

Definition webTLSKeys (instance : RabbitmqCluster) (plugin pre : string) (port : Z)
    : list (string * string) :=
  if AdditionalPluginEnabled instance plugin then
    [(pre +:+ ".ssl.cacertfile", filePathCaCert); (pre +:+ ".ssl.certfile", filePathTlsCert);
     (pre +:+ ".ssl.keyfile", filePathTlsKey)] ++
    (if DisableNonTLSListeners instance then [(pre +:+ ".tcp.listener", "none")] else []) ++
    [(pre +:+ ".ssl.port", Itoa port)]
  else [].

Definition mutualTLSKeys (instance : RabbitmqCluster) : list (string * string) :=
  [("ssl_options.cacertfile", filePathCaCert); ("ssl_options.verify", "verify_peer");
   ("management.ssl.cacertfile", filePathCaCert); ("prometheus.ssl.cacertfile", filePathCaCert)] ++
  webTLSKeys instance PluginNameWebMqtt "web_mqtt" DefaultPortWebMqttTls ++
  webTLSKeys instance PluginNameWebStomp "web_stomp" DefaultPortWebStompTls.

(** [Limits.Memory().Value()] of a cluster whose memory is limited. *)
Definition memoryLimit (instance : RabbitmqCluster) : Z :=
  match rs_Resources (rmq_Spec instance) with
  | Some r => Value (Memory (rr_Limits r))
  | None => 0
  end.

Definition memoryKeys (instance : RabbitmqCluster) : list (string * string) :=
  if MemoryLimited instance
  then [("total_memory_available_override_value", Itoa (removeHeadroom (memoryLimit instance)))]
  else [].

(** The user's section before the additional configuration is appended. *)
Definition userConfiguration (instance : RabbitmqCluster) : result IniFile :=
  tryr (if TLSEnabled instance
        then tryr (iniAppend defaultTLSConf iniEmpty) (newKeys (tlsKeys instance))
        else inr iniEmpty) (λ f,
  tryr (if MutualTLSEnabled instance then newKeys (mutualTLSKeys instance) f else inr f) (λ f,
  newKeys (memoryKeys instance) f)).

Definition operatorConfiguration (instance : RabbitmqCluster) (replicas : Z) : result IniFile :=
  tryr (iniLoad defaultRabbitmqConf) (λ f,
  tryr (newKeys (operatorKeys instance replicas) f) (λ f,
  tryr (areAuthMechanismsConfigued (rcs_AdditionalConfig (rs_Rabbitmq (rmq_Spec instance)))) (λ auth,
  newKeys (authKeys auth) f))).

(** The two configuration files, in the order the code writes them. *)
Definition renderConf (instance : RabbitmqCluster) (replicas : Z) : result (string * string) :=
  tryr (operatorConfiguration instance replicas) (λ operatorConf,
  tryr (userConfiguration instance) (λ userConf,
  tryr (iniWriteTo operatorConf) (λ operatorText,
  tryr (wrapr "failed to append spec.rabbitmq.additionalConfig: "
          (iniAppend (rcs_AdditionalConfig (rs_Rabbitmq (rmq_Spec instance))) userConf)) (λ userConf,
  tryr (iniWriteTo userConf) (λ userText,
  inr (operatorText, userText)))))).

Definition confData (instance : RabbitmqCluster) (operatorText userText : string)
    (data : gmap string string) : gmap string string :=
  let rmqProperties := rs_Rabbitmq (rmq_Spec instance) in
  updateProperty fileNameRabbitmqConfErlangInet (rcs_ErlangInetConfig rmqProperties)
    (updateProperty fileNameRabbitmqConfEnv (rcs_EnvConfig rmqProperties)
      (updateProperty fileNameRabbitmqConfAdvanced (rcs_AdvancedConfig rmqProperties)
        (<[fileNameRabbitmqConfdUserDefined := userText]>
          (<[fileNameRabbitmqConfdDefault := operatorText]> data)))).

(** Runs on a deep copy: the operator's text without the size hints. *)
Definition removeConfigNotRequiringNodeRestart (configMap : ConfigMap) : result ConfigMap :=
  let operatorConf := gm_get (cm_Data configMap) fileNameRabbitmqConfdDefault in
  if (operatorConf =? "")%string then inr configMap else
  tryr (wrapr "failed to load operatorDefaults.conf when deciding whether to restart STS: "
          (iniLoad operatorConf)) (λ conf,
  let conf := foldl (λ conf key,
      if HasPrefix key "cluster_formation.target_cluster_size_hint"
      then iniDeleteKey key conf else conf) conf (iniKeyStrings conf) in
  tryr (wrapr "failed to write operatorDefaults.conf when deciding whether to restart STS: "
          (iniWriteTo conf)) (λ text,
  inr (set_cm_Data (Some (<[fileNameRabbitmqConfdDefault := text]> (gm (cm_Data configMap)))) configMap))).

(** Whether the builder's flag [UpdateRequiresStsRestart] stays set. *)
Definition restartRequired (previous updated : ConfigMap) (flag : bool) : result bool :=
  tryr (removeConfigNotRequiringNodeRestart previous) (λ previous,
  tryr (removeConfigNotRequiringNodeRestart updated) (λ updated,
  inr (if SemanticDeepEqual KConfigMap previous updated then false else flag))).

Definition ServerConfigMap_Build (instance : RabbitmqCluster) : ConfigMap :=
  mkConfigMap (buildMeta instance (ChildResourceName instance ResourceServerConfigMapSuffix)) None.

(** The object and the flag after [Update]; a nil replica count panics, after
    the defaults were loaded. *)
Definition ServerConfigMap_Update (instance : RabbitmqCluster) (flag : bool) (previousConfigMap : ConfigMap)
    : fallible (ConfigMap * bool) :=
  let configMap := updateMeta (k := KConfigMap) instance previousConfigMap in
  match iniLoad defaultRabbitmqConf with
  | inl err => fail err
  | inr _ =>
      replicas ← derefO (rs_Replicas (rmq_Spec instance));
      Returns (
        tryr (renderConf instance replicas) (λ '(operatorText, userText),
        let configMap := set_cm_Data
          (Some (confData instance operatorText userText (gm (cm_Data configMap)))) configMap in
        tryr (setController (k := KConfigMap) instance configMap) (λ configMap,
        tryr (restartRequired previousConfigMap configMap flag) (λ flag,
        inr (configMap, flag)))))
  end.

(** ** Lemmas *)

Lemma tryr_inv {A B} (m : result A) (k : A → result B) b :
  tryr m k = inr b → ∃ a, m = inr a ∧ k a = inr b.
Proof. destruct m; [done|]. eauto. Qed.

Lemma updateProperty_lookup key value (data : gmap string string) k :
  updateProperty key value data !! k =
    if decide (key = k) then (if (value =? "")%string then None else Some value) else data !! k.
Proof. rw /updateProperty. case_match; [apply lookup_delete|apply lookup_insert]. Qed.

Lemma ServerConfigMap_Update_inv instance flag cm cm' flag' :
  ServerConfigMap_Update instance flag cm = ok (cm', flag') →
  ∃ replicas opText userText,
    rs_Replicas (rmq_Spec instance) = Some replicas ∧
    renderConf instance replicas = inr (opText, userText) ∧
    cm_Data cm' = Some (confData instance opText userText (gm (cm_Data cm))) ∧
    updatedMeta instance (cm_ObjectMeta cm) (cm_ObjectMeta cm') ∧
    restartRequired cm cm' flag = inr flag'.
Proof.
  rw /ServerConfigMap_Update /mbind /outcome_bind. destruct (iniLoad _); [done|].
  destruct (rs_Replicas (rmq_Spec instance)) as [replicas|]; [|done]. cbn [derefO].
  rw /ok. intros [= Hu]. apply tryr_inv in Hu as ([opText userText] & Hr & Hu).
  apply tryr_inv in Hu as (cm1 & Hc & Hu). apply tryr_inv in Hu as (f & Hf & [= <- <-]).
  exists replicas, opText, userText. split_and!; [done|done| | |done].
  - by rw (setController_meta (k := KConfigMap) _ _ _ Hc).
  - by eapply (setController_ok (k := KConfigMap)).
Qed.

(** ** Properties *)

(** C39: the headroom kept from RabbitMQ is a fifth of the memory limit, but not
    more than 2 GiB: for every 64-bit limit that is not negative the result
    does not overflow, is at least four fifths of the limit, grows with it,
    and is the limit minus the smaller of the two. *)
Theorem removeHeadroom_spec m m' :
  (0 ≤ m < 2 ^ 63)%Z →
  removeHeadroom m = (m - Z.min (m / 5) (2 * GiB64))%Z ∧
  (0 ≤ removeHeadroom m ≤ m)%Z ∧ (4 * m ≤ 5 * removeHeadroom m)%Z ∧
  ((m ≤ m')%Z → (removeHeadroom m ≤ removeHeadroom m')%Z) ∧
  (0 < m → 0 < removeHeadroom m)%Z.
Proof.
  intros Hm. rw /removeHeadroom Z.quot_div_nonneg; [lia..|].
  pose proof (Z.div_mod m 5). pose proof (Z.mod_pos_bound m 5).
  rw /GiB64. destruct (Z.ltb_spec (2 * 1073741824) (m / 5)); split_and!; try lia.
  all: intros Hm'; rw Z.quot_div_nonneg; [lia..|];
    pose proof (Z.div_mod m' 5); pose proof (Z.mod_pos_bound m' 5);
    destruct (Z.ltb_spec (2 * 1073741824) (m' / 5)); lia.
Qed.

(** C35: a successful update of the server configuration writes the operator's
    file and the user's file, sets the advanced, environment and inet files
    exactly when the user gives them a text and removes them otherwise, keeps
    every other key, and keeps the name of the ConfigMap under the control of
    the cluster. *)
Theorem ServerConfigMap_Update_data instance flag cm cm' flag' :
  ServerConfigMap_Update instance flag cm = ok (cm', flag') →
  let p := rs_Rabbitmq (rmq_Spec instance) in
  updatedMeta instance (cm_ObjectMeta cm) (cm_ObjectMeta cm') ∧
  (∃ replicas opText userText, rs_Replicas (rmq_Spec instance) = Some replicas ∧
     renderConf instance replicas = inr (opText, userText) ∧
     gm_lookup (cm_Data cm') fileNameRabbitmqConfdDefault = Some opText ∧
     gm_lookup (cm_Data cm') fileNameRabbitmqConfdUserDefined = Some userText) ∧
  (∀ k v, (k, v) ∈ [(fileNameRabbitmqConfAdvanced, rcs_AdvancedConfig p);
                    (fileNameRabbitmqConfEnv, rcs_EnvConfig p);
                    (fileNameRabbitmqConfErlangInet, rcs_ErlangInetConfig p)] →
     gm_lookup (cm_Data cm') k = if (v =? "")%string then None else Some v) ∧
  (∀ k, k ∉ [fileNameRabbitmqConfdDefault; fileNameRabbitmqConfdUserDefined;
             fileNameRabbitmqConfAdvanced; fileNameRabbitmqConfEnv; fileNameRabbitmqConfErlangInet] →
     gm_lookup (cm_Data cm') k = gm_lookup (cm_Data cm) k) ∧
  (flag = false → flag' = false).
Proof.
  intros (replicas & opText & userText & Hrep & Hr & Hd & Hm & Hf)%ServerConfigMap_Update_inv.
  simpl. split_and!; [done| | | |].
  - exists replicas, opText, userText. split_and!; [done|done| |];
      rw Hd /gm_lookup /= /confData !updateProperty_lookup; rewrite ->!decide_False by done.
    + by rw lookup_insert_ne // lookup_insert_eq.
    + by rw lookup_insert_eq.
  - intros k v Hin. rw Hd /gm_lookup /= /confData.
    rw !elem_of_cons elem_of_nil in Hin.
    destruct Hin as [[= -> ->]|[[= -> ->]|[[= -> ->]|[]]]];
      rw !updateProperty_lookup; decide_names; done.
  - intros k Hk. rw !not_elem_of_cons in Hk. destruct Hk as (? & ? & ? & ? & ? & _).
    rw Hd /gm_lookup /= /confData !updateProperty_lookup. rewrite ->!decide_False by congruence.
    rw !lookup_insert_ne //; congruence.
  - intros ->. apply tryr_inv in Hf as (p & _ & Hf). apply tryr_inv in Hf as (u & _ & [= <-]).
    by destruct (SemanticDeepEqual _ _ _).
Qed.
End server_conf.
