(* ===== verification/Overrides.v ===== *)
(** internal/resource/utils.go: applyStsOverride and applyPodSpecOverride, what
    a user's override does to the generated StatefulSet. *)

From S2P Require Import Prelude GoStd K8s V1beta1 Constant Merge Kube Controllerutil Builder.

(** [builder.Instance.Spec.Persistence.Storage.Cmp(zero) == 0]; a nil storage
    is dereferenced. *)
Definition storageIsZero (instance : RabbitmqCluster) : outcome bool :=
  storage ← derefO (rps_Storage (rs_Persistence (rmq_Spec instance)));
  Returns (Cmp storage 0 =? 0)%Z.

(** [l[i].SecurityContext = nil]; an index out of range panics. *)
Definition clearSecurityContext (i : nat) (l : list Container) : outcome (list Container) :=
  match l !! i with
  | Some c => Returns (<[i := set_ctr_SecurityContext None c]> l)
  | None => Panics "index out of range"
  end.

(** The empty security context, [corev1.SecurityContext{}], as JSON. *)
Definition emptySecurityContext : RawJSON := "{}".

(** The loop over the init containers of the override. *)
Fixpoint clearSecurityContexts (i : nat) (overrides l : list Container) : outcome (list Container) :=
  match overrides with
  | [] => Returns l
  | c :: overrides =>
      l ← (if bool_decide (ctr_SecurityContext c = Some emptySecurityContext)
           then clearSecurityContext i l else Returns l);
      clearSecurityContexts (S i) overrides l
  end.

(** [f(patchedPodSpec.Containers[0].Env)], in place: no container panics. *)
Definition onFirstContainer (f : Container → outcome Container) (spec : PodSpec) : outcome PodSpec :=
  match ps_Containers spec with
  | [] => Panics "index out of range"
  | c :: cs => c ← f c; Returns (set_ps_Containers (c :: cs) spec)
  end.

Definition sortContainerEnv (c : Container) : outcome Container :=
  env ← sortEnvVar (sl (ctr_Env c));
  Returns (set_ctr_Env (const env <$> ctr_Env c) c).

Definition sortContainerMounts (c : Container) : outcome Container :=
  mounts ← sortVolumeMounts (sl (ctr_VolumeMounts c));
  Returns (set_ctr_VolumeMounts (const mounts <$> ctr_VolumeMounts c) c).

(** What applyPodSpecOverride does after the strategic merge. *)
Definition adjustPatched (podSpecOverride patchedPodSpec : PodSpec) : outcome PodSpec :=
  let rmqContainer := containerRabbitmq (ps_Containers podSpecOverride) in
  patched ← (match ctr_Env rmqContainer with
             | Some _ => onFirstContainer sortContainerEnv patchedPodSpec
             | None => Returns patchedPodSpec
             end);
  patched ← (match ctr_VolumeMounts rmqContainer with
             | Some _ => onFirstContainer sortContainerMounts patched
             | None => Returns patched
             end);
  let patched := if bool_decide (ps_SecurityContext podSpecOverride = Some emptyPodSecurityContext)
                 then set_ps_SecurityContext None patched else patched in
  inits ← clearSecurityContexts 0 (ps_InitContainers podSpecOverride) (ps_InitContainers patched);
  Returns (set_ps_InitContainers inits patched).

Section overrides.
Context `{Patchable PodSpec}.

Definition applyPodSpecOverride (podSpec podSpecOverride : PodSpec) : fallible PodSpec :=
  match Marshal podSpec with
  | inl err => fail (WrapError "error marshalling statefulSet podSpec: " err)
  | inr originalPodSpec =>
      match Marshal podSpecOverride with
      | inl err => fail (WrapError "error marshalling statefulSet podSpec override: " err)
      | inr patch =>
          match StrategicMergePatch originalPodSpec patch with
          | inl err => fail (WrapError "error patching podSpec: " err)
          | inr patchedJSON =>
              match Unmarshal patchedJSON with
              | inl err => fail (WrapError "error unmarshalling patched Stateful Set: " err)
              | inr patchedPodSpec =>
                  patched ← adjustPatched podSpecOverride patchedPodSpec; ok patched
              end
          end
      end
  end.

(** One claim template of the override, under the control of the cluster. *)
Definition overridePVC (instance : RabbitmqCluster) (namespace : string)
    (o : PersistentVolumeClaimOverride) : result PersistentVolumeClaim :=
  let m := copyObjectMeta (newObjectMeta "" "" None None) (pvo_EmbeddedObjectMeta o) in
  let m := set_om_Namespace namespace m in
  match setController (k := KPVC) instance (mkPersistentVolumeClaim m (pvo_Spec o)) with
  | inl err => inl err
  | inr pvc => inr (disableBlockOwnerDeletion pvc)
  end.

Fixpoint overridePVCs (instance : RabbitmqCluster) (namespace : string)
    (os : list PersistentVolumeClaimOverride) : result (list PersistentVolumeClaim) :=
  match os with
  | [] => inr []
  | o :: os =>
      match overridePVC instance namespace o with
      | inl err => inl err
      | inr pvc => match overridePVCs instance namespace os with
                   | inl err => inl err
                   | inr pvcs => inr (pvc :: pvcs)
                   end
      end
  end.

(** The fields of the spec that an override replaces when it sets them. *)
Definition overrideFields (o : StatefulSetSpecOverride) (spec : StatefulSetSpec) : StatefulSetSpec :=
  let spec := match sso_Replicas o with
              | Some n => set_stss_Replicas (Some n) spec | None => spec end in
  let spec := match sso_UpdateStrategy o with
              | Some u => set_stss_UpdateStrategy u spec | None => spec end in
  let spec := if negb (sso_PodManagementPolicy o =? "")%string
              then set_stss_PodManagementPolicy (sso_PodManagementPolicy o) spec else spec in
  if negb (sso_MinReadySeconds o =? 0)%Z
  then set_stss_MinReadySeconds (sso_MinReadySeconds o) spec else spec.

(** The claim templates: ignored when the storage is zero. *)
Definition overrideClaims (instance : RabbitmqCluster) (sts : StatefulSet)
    (os : list PersistentVolumeClaimOverride) : fallible StatefulSet :=
  match os with
  | [] => ok sts
  | _ =>
      zero ← storageIsZero instance;
      if (zero : bool) then ok sts else
      match overridePVCs instance (om_Namespace (sts_ObjectMeta sts)) os with
      | inl err => fail err
      | inr pvcs => ok (set_sts_Spec (set_stss_VolumeClaimTemplates pvcs (sts_Spec sts)) sts)
      end
  end.

Definition overrideTemplate (sts : StatefulSet) (o : PodTemplateSpecOverride) : fallible StatefulSet :=
  let template := stss_Template (sts_Spec sts) in
  let template := match pto_EmbeddedObjectMeta o with
                  | Some m => set_pts_ObjectMeta (copyObjectMeta (pts_ObjectMeta template) m) template
                  | None => template
                  end in
  let install t := set_sts_Spec (set_stss_Template t (sts_Spec sts)) sts in
  match pto_Spec o with
  | None => ok (install template)
  | Some podSpecOverride =>
      tryf (applyPodSpecOverride (pts_Spec template) podSpecOverride) (λ patchedPodSpec,
      ok (install (set_pts_Spec patchedPodSpec template)))
  end.

Definition applyStsOverride (instance : RabbitmqCluster) (sts : StatefulSet)
    (stsOverride : StatefulSetOverride) : fallible StatefulSet :=
  let sts := match sto_EmbeddedLabelsAnnotations stsOverride with
             | Some ela => set_sts_ObjectMeta (copyLabelsAnnotations (sts_ObjectMeta sts) ela) sts
             | None => sts
             end in
  match sto_Spec stsOverride with
  | None => ok sts
  | Some o =>
      let sts := set_sts_Spec (overrideFields o (sts_Spec sts)) sts in
      tryf (overrideClaims instance sts (sso_VolumeClaimTemplates o)) (λ sts,
      match sso_Template o with
      | None => ok sts
      | Some t => overrideTemplate sts t
      end)
  end.
End overrides.
