(* ===== verification/Sts.v ===== *)
(** internal/resource/statefulset.go: the StatefulSet of one replica. *)

From S2P Require Import Prelude GoStd K8s V1beta1 Constant Metadata Merge Kube Controllerutil.
From S2P Require Import Builder Plugins Secrets ServerConf Overrides.

(** ** Names and paths *)

Definition DeletionMarker : string := "skipPreStopChecks".

Definition dirTmp : string := "/tmp/".
Definition dirPodInfo : string := "/etc/pod-info/".
Definition dirRabbitmqLib : string := "/var/lib/rabbitmq/".
Definition dirRabbitmqData : string := dirRabbitmqLib +:+ "mnesia/".
Definition dirRabbitmqLog : string := "/var/log/rabbitmq/".

Definition dirErlangCookieTmp : string := dirTmp +:+ "erlang-cookie-secret/".
Definition filePathErlangCookie : string := dirRabbitmqLib +:+ fileNameErlangCookie.
Definition filePathErlangCookieTmp : string := dirErlangCookieTmp +:+ fileNameErlangCookie.

Definition dirRabbitmqPlugins : string := "/operator/".
Definition dirRabbitmqPluginsTmp : string := dirTmp +:+ "rabbitmq-plugins/".
Definition filePathRabbitmqPlugins : string := dirRabbitmqPlugins +:+ fileNameRabbitmqPlugins.
Definition filePathRabbitmqPluginsTmp : string := dirRabbitmqPluginsTmp +:+ fileNameRabbitmqPlugins.

Definition filePathRabbitmqAdminConf : string := dirRabbitmqLib +:+ ".rabbitmqadmin.conf".

Definition dirRabbitmqConf : string := "/etc/rabbitmq/".
Definition filePathRabbitmqConfEnv : string := dirRabbitmqConf +:+ fileNameRabbitmqConfEnv.
Definition filePathRabbitmqConfAdvanced : string := dirRabbitmqConf +:+ fileNameRabbitmqConfAdvanced.
Definition filePathRabbitmqConfErlangInet : string := dirRabbitmqConf +:+ fileNameRabbitmqConfErlangInet.

Definition dirRabbitmqConfd : string := "/etc/rabbitmq/conf.d/".
Definition filePathRabbitmqConfdDefault : string :=
  dirRabbitmqConfd +:+ "10-" +:+ fileNameRabbitmqConfdDefault.
Definition filePathRabbitmqConfdDefaultUserTmp : string := dirTmp +:+ fileNameRabbitmqConfdDefaultUser.
Definition filePathRabbitmqConfdDefaultUser : string :=
  dirRabbitmqConfd +:+ "11-" +:+ fileNameRabbitmqConfdDefaultUser.
Definition filePathRabbitmqConfdUserDefined : string :=
  dirRabbitmqConfd +:+ "90-" +:+ fileNameRabbitmqConfdUserDefined.

(** ** Vault annotations *)

Definition quoted (s : string) : string := dquote +:+ s +:+ dquote.

Definition podHostName (instance : RabbitmqCluster) (i : Z) : string :=
  PodName instance ResourceStatefulsetSuffix i +:+ "." +:+
  ChildResourceName instance ResourceHeadlessServiceSuffix +:+ "." +:+ rmq_Namespace instance.

Definition podHostNames (instance : RabbitmqCluster) : string :=
  TrimPrefix
    (foldl (λ altNames i, altNames +:+ "," +:+ podHostName instance i) ""
       (seqZ 0 (default 1%Z (rs_Replicas (rmq_Spec instance))))) ",".

Definition generateVaultTLSTemplate (commonName altNames vaultPath ipSans tlsAttribute : string) : string :=
  newline +:+ "{{- with secret " +:+ quoted vaultPath +:+ " " +:+
  quoted ("common_name=" +:+ commonName) +:+ " " +:+ quoted ("alt_names=" +:+ altNames) +:+ " " +:+
  quoted ("ip_sans=" +:+ ipSans) +:+ " -}}" +:+ newline +:+
  "{{ .Data." +:+ tlsAttribute +:+ " }}" +:+ newline +:+ "{{- end }}".

Definition generateVaultCATemplate (commonName altNames : string) (vault : VaultSpec) : string :=
  if (vts_PKIRootPath (vlt_TLS vault) =? "")%string
  then generateVaultTLSTemplate commonName altNames (vts_PKIIssuerPath (vlt_TLS vault))
         (vts_IpSans (vlt_TLS vault)) "issuing_ca"
  else newline +:+ "{{- with secret " +:+ quoted (vts_PKIRootPath (vlt_TLS vault)) +:+ " -}}" +:+
       newline +:+ "{{ .Data.certificate }}" +:+ newline +:+ "{{- end }}".

Definition generateVaultTLSCertificateTemplate (commonName altNames : string) (vault : VaultSpec) : string :=
  newline +:+ "{{- with secret " +:+ quoted (vts_PKIIssuerPath (vlt_TLS vault)) +:+ " " +:+
  quoted ("common_name=" +:+ commonName) +:+ " " +:+ quoted ("alt_names=" +:+ altNames) +:+ " " +:+
  quoted ("ip_sans=" +:+ vts_IpSans (vlt_TLS vault)) +:+ " -}}" +:+ "
{{ .Data.certificate }}
{{- if .Data.ca_chain -}}
{{- $lastintermediatecertindex := len .Data.ca_chain | subtract 1 -}}
{{ range $index, $cacert := .Data.ca_chain }}
{{ if (lt $index $lastintermediatecertindex) }}
{{ $cacert }}
{{ end }}
{{ end }}
{{- end -}}
{{- end -}}".

Definition vaultPrefix : string := "vault.hashicorp.com/".

Definition vaultUserAnnotations (vault : VaultSpec) : gmap string string :=
  let secretName := "11-default_user.conf" in
  {[ vaultPrefix +:+ "secret-volume-path-" +:+ secretName := "/etc/rabbitmq/conf.d";
     vaultPrefix +:+ "agent-inject-perms-" +:+ secretName := "0640";
     vaultPrefix +:+ "agent-inject-secret-" +:+ secretName := vlt_DefaultUserPath vault;
     vaultPrefix +:+ "agent-inject-template-" +:+ secretName :=
       newline +:+ "{{- with secret " +:+ quoted (vlt_DefaultUserPath vault) +:+ " -}}" +:+ "
default_user = {{ .Data.data.username }}
default_pass = {{ .Data.data.password }}
{{- end }}" ]}.

Definition vaultTLSAnnotations (instance : RabbitmqCluster) (vault : VaultSpec) : gmap string string :=
  let tls := vlt_TLS vault in
  let pathCert := vts_PKIIssuerPath tls in
  let commonName := if negb (vts_CommonName tls =? "")%string then vts_CommonName tls
                    else ServiceSubDomain instance in
  let altNames := podHostNames instance in
  let altNames := if negb (vts_AltNames tls =? "")%string
                  then altNames +:+ "," +:+ vts_AltNames tls else altNames in
  let certDir := TrimSuffix dirRabbitmqTls "/" in
  {[ vaultPrefix +:+ "secret-volume-path-" +:+ fileNameTlsCert := certDir;
     vaultPrefix +:+ "agent-inject-secret-" +:+ fileNameTlsCert := pathCert;
     vaultPrefix +:+ "agent-inject-template-" +:+ fileNameTlsCert :=
       generateVaultTLSCertificateTemplate commonName altNames vault;
     vaultPrefix +:+ "secret-volume-path-" +:+ fileNameTlsKey := certDir;
     vaultPrefix +:+ "agent-inject-secret-" +:+ fileNameTlsKey := pathCert;
     vaultPrefix +:+ "agent-inject-template-" +:+ fileNameTlsKey :=
       generateVaultTLSTemplate commonName altNames pathCert (vts_IpSans tls) "private_key";
     vaultPrefix +:+ "secret-volume-path-" +:+ fileNameCaCert := certDir;
     vaultPrefix +:+ "agent-inject-secret-" +:+ fileNameCaCert := pathCert;
     vaultPrefix +:+ "agent-inject-template-" +:+ fileNameCaCert :=
       generateVaultCATemplate commonName altNames vault ]}.

Definition appendVaultAnnotations (currentAnnotations : gomap string) (instance : RabbitmqCluster)
    (vault : VaultSpec) : gomap string :=
  let vaultAnnotations : gmap string string :=
    {[ vaultPrefix +:+ "agent-inject" := "true";
       vaultPrefix +:+ "agent-init-first" := "true";
       vaultPrefix +:+ "role" := vlt_Role vault ]} in
  let vaultAnnotations :=
    if vault_DefaultUserSecretEnabled vault
    then vaultUserAnnotations vault ∪ vaultAnnotations else vaultAnnotations in
  let vaultAnnotations :=
    if vault_TLSEnabled vault
    then vaultTLSAnnotations instance vault ∪ vaultAnnotations else vaultAnnotations in
  ReconcileAnnotations currentAnnotations [Some vaultAnnotations; vlt_Annotations vault].

(** ** Volumes *)

Section sts.
Context (instance : RabbitmqCluster).

Definition child (suffix : string) : string := ChildResourceName instance suffix.

(** [ptr.To(int32(0755))]: an octal literal. *)
Definition mode0755 : Z := 493.

Definition volumeTLS : Volume :=
  mkVolume VolumeNameRabbitmqTls
    (VSProjected
       ([ProjSecret (tls_SecretName (rs_TLS (rmq_Spec instance))) [] (Some true)] ++
        (if MutualTLSEnabled instance && negb (SingleTLSSecret instance)
         then [ProjSecret (tls_CaSecretName (rs_TLS (rmq_Spec instance))) [] (Some true)] else []))
       (Some 400%Z)).

Definition defaultUserSecretName : string :=
  if ExternalSecretEnabled instance
  then lor_Name (sb_ExternalSecret (rs_SecretBackend (rmq_Spec instance)))
  else child ResourceDefaultUserSuffix.

Definition volumeConfd : Volume :=
  mkVolume VolumeNameRabbitmqConfd
    (VSProjected
       ([ProjConfigMap (child ResourceServerConfigMapSuffix)
           [mkKeyToPath fileNameRabbitmqConfdDefault fileNameRabbitmqConfdDefault;
            mkKeyToPath fileNameRabbitmqConfdUserDefined fileNameRabbitmqConfdUserDefined]] ++
        (if negb (VaultDefaultUserSecretEnabled instance)
         then [ProjSecret defaultUserSecretName
                 [mkKeyToPath fileNameRabbitmqConfdDefaultUser fileNameRabbitmqConfdDefaultUser] None]
         else []))
       (Some mode0755)).

Definition rabbitmqConfigurationIsSet : bool :=
  let p := rs_Rabbitmq (rmq_Spec instance) in
  negb (rcs_AdvancedConfig p =? "")%string || negb (rcs_EnvConfig p =? "")%string ||
  negb (rcs_ErlangInetConfig p =? "")%string.

(** The generated volumes, given whether the storage is zero. *)
Definition nextVolumes (storageZero : bool) : list Volume :=
  [volumeConfd;
   mkVolume VolumeNameRabbitmqLog VSEmptyDir;
   mkVolume VolumeNameRabbitmqPlugins VSEmptyDir;
   mkVolume VolumeNamePluginsConf (VSConfigMap (child ResourcePluginConfigMapSuffix) (Some mode0755));
   mkVolume VolumeNameRabbitmqErlangCookie VSEmptyDir;
   mkVolume VolumeNameErlangCookieSecret (VSSecret (child ResourceErlangCookieSuffix) (Some mode0755));
   mkVolume VolumeNamePodInfo
     (VSDownwardAPI
        [(DeletionMarker, mkObjectFieldSelector "v1" ("metadata.labels['" +:+ DeletionMarker +:+ "']"))]
        (Some mode0755))] ++
  (if SecretTLSEnabled instance then [volumeTLS] else []) ++
  (if storageZero then [mkVolume VolumeNamePersistence VSEmptyDir] else []) ++
  (if rabbitmqConfigurationIsSet
   then [mkVolume VolumeNameRabbitmqServerConf (VSConfigMap (child ResourceServerConfigMapSuffix) None)]
   else []).

Definition volumes (currVolumes : list Volume) : outcome (list Volume) :=
  zero ← storageIsZero instance;
  mergeVolumes currVolumes (nextVolumes zero).

(** ** Containers *)

Definition mount (name path sub : string) : VolumeMount := mkVolumeMount name path sub false.
Definition literalEnv (name value : string) : EnvVar := mkEnvVar name value None.
Definition fieldEnv (name path : string) : EnvVar :=
  mkEnvVar name "" (Some (mkObjectFieldSelector "v1" path)).

Definition envs : list EnvVar :=
  [literalEnv "K8S_SERVICE_NAME" (child ResourceHeadlessServiceSuffix);
   fieldEnv "MY_POD_NAME" "metadata.name";
   fieldEnv "MY_POD_NAMESPACE" "metadata.namespace"].

Definition initContainerResources : ResourceList :=
  Some {[ResourceCPU := milli 100; ResourceMemory := MiB 500]}.

Definition setupCommand (defaultUserConf : string) : string :=
  "cp " +:+ filePathErlangCookieTmp +:+ " " +:+ filePathErlangCookie +:+ " " +:+
  "&& chmod 600 " +:+ filePathErlangCookie +:+ " ; " +:+
  "cp " +:+ filePathRabbitmqPluginsTmp +:+ " " +:+ filePathRabbitmqPlugins +:+ " ; " +:+
  "echo '[default]' > " +:+ filePathRabbitmqAdminConf +:+ " " +:+
  "&& sed -e 's/default_user/username/' -e 's/default_pass/password/' " +:+ defaultUserConf +:+
  " >> " +:+ filePathRabbitmqAdminConf +:+ " " +:+
  "&& chmod 600 " +:+ filePathRabbitmqAdminConf +:+ " ; " +:+
  "sleep " +:+ Itoa (default 30%Z (rs_DelayStartSeconds (rmq_Spec instance))).

Definition containerSetup : Container :=
  let vault := VaultDefaultUserSecretEnabled instance in
  mkContainer ContainerNameSetup (rs_Image (rmq_Spec instance))
    ["sh"; "-c"; setupCommand (if vault then filePathRabbitmqConfdDefaultUser
                               else filePathRabbitmqConfdDefaultUserTmp)] []
    None
    (Some ([mount VolumeNamePersistence dirRabbitmqData "";
            mount VolumeNamePluginsConf dirRabbitmqPluginsTmp "";
            mount VolumeNameRabbitmqPlugins dirRabbitmqPlugins "";
            mount VolumeNameErlangCookieSecret dirErlangCookieTmp "";
            mount VolumeNameRabbitmqErlangCookie dirRabbitmqLib ""] ++
           (if vault then [] else
              [mount VolumeNameRabbitmqConfd filePathRabbitmqConfdDefaultUserTmp
                 fileNameRabbitmqConfdDefaultUser])))
    [] (mkResourceRequirements initContainerResources initContainerResources)
    "IfNotPresent" "/dev/termination-log" "File" None None None.

Definition preStopCommand (grace : Z) : string :=
  "if [ ! -z " +:+ quoted ("$(cat " +:+ dirPodInfo +:+ DeletionMarker +:+ ")") +:+
  " ]; then exit 0; fi;" +:+
  " rabbitmq-upgrade await_online_quorum_plus_one -t " +:+ Itoa grace +:+ " &&" +:+
  " rabbitmq-upgrade await_online_synchronized_mirror -t " +:+ Itoa grace +:+ " &&" +:+
  " rabbitmq-upgrade drain -t " +:+ Itoa grace.

Definition rabbitmqMounts : list VolumeMount :=
  let p := rs_Rabbitmq (rmq_Spec instance) in
  [mount VolumeNamePodInfo dirPodInfo "";
   mount VolumeNameRabbitmqLog dirRabbitmqLog "";
   mount VolumeNameRabbitmqPlugins dirRabbitmqPlugins "";
   mount VolumeNameRabbitmqErlangCookie dirRabbitmqLib "";
   mount VolumeNamePersistence dirRabbitmqData "";
   mount VolumeNameRabbitmqConfd filePathRabbitmqConfdDefault fileNameRabbitmqConfdDefault;
   mount VolumeNameRabbitmqConfd filePathRabbitmqConfdUserDefined fileNameRabbitmqConfdUserDefined] ++
  (if SecretTLSEnabled instance then [mkVolumeMount VolumeNameRabbitmqTls dirRabbitmqTls "" true] else []) ++
  (if negb (VaultDefaultUserSecretEnabled instance)
   then [mount VolumeNameRabbitmqConfd filePathRabbitmqConfdDefaultUser fileNameRabbitmqConfdDefaultUser]
   else []) ++
  (if negb (rcs_EnvConfig p =? "")%string
   then [mount VolumeNameRabbitmqServerConf filePathRabbitmqConfEnv fileNameRabbitmqConfEnv] else []) ++
  (if negb (rcs_AdvancedConfig p =? "")%string
   then [mount VolumeNameRabbitmqServerConf filePathRabbitmqConfAdvanced fileNameRabbitmqConfAdvanced]
   else []) ++
  (if negb (rcs_ErlangInetConfig p =? "")%string
   then [mount VolumeNameRabbitmqServerConf filePathRabbitmqConfErlangInet fileNameRabbitmqConfErlangInet]
   else []).

Definition rabbitmqEnv : list EnvVar :=
  envs ++
  [literalEnv "RABBITMQ_ENABLED_PLUGINS_FILE" filePathRabbitmqPlugins;
   literalEnv "RABBITMQ_USE_LONGNAME" "true";
   literalEnv "RABBITMQ_NODENAME" "rabbit@$(MY_POD_NAME).$(K8S_SERVICE_NAME).$(MY_POD_NAMESPACE)";
   literalEnv "K8S_HOSTNAME_SUFFIX" ".$(K8S_SERVICE_NAME).$(MY_POD_NAMESPACE)"].

Definition containerPort (port : ServicePort) : ContainerPort :=
  mkContainerPort (sp_Name port) (sp_Port port) (sp_Protocol port).

Definition containerRabbitmq_ : outcome Container :=
  resources ← derefO (rs_Resources (rmq_Spec instance));
  grace ← derefO (rs_TerminationGracePeriodSeconds (rmq_Spec instance));
  Returns (mkContainer ContainerNameRabbitMQ (rs_Image (rmq_Spec instance)) [] []
    (Some rabbitmqEnv) (Some rabbitmqMounts)
    (containerPort <$> RabbitMQPorts (NewPortManager instance))
    resources "IfNotPresent" "/dev/termination-log" "File"
    (Some (mkProbe (if DisableNonTLSListeners instance then PortNameAmqps else PortNameAmqp) 5 10 1 3 10))
    (Some ["/bin/bash"; "-c"; preStopCommand grace]) None).

Definition containerUserCredentialUpdater (image : string) : Container :=
  mkContainer ContainerNameUserCredentialUpdater image []
    ["--management-uri";
     (if TLSEnabled instance then "https://$(HOSTNAME_DOMAIN):15671" else "http://127.0.0.1:15672");
     "-v"; "4"]
    (Some (envs ++ [literalEnv "HOSTNAME_DOMAIN" "$(MY_POD_NAME).$(K8S_SERVICE_NAME).$(MY_POD_NAMESPACE)"]))
    (Some ([mount VolumeNameRabbitmqErlangCookie dirRabbitmqLib ""] ++
           (if SecretTLSEnabled instance
            then [mkVolumeMount VolumeNameRabbitmqTls dirRabbitmqTls "" true] else [])))
    []
    (mkResourceRequirements (Some {[ResourceCPU := milli 500; ResourceMemory := MiB 128]})
                            (Some {[ResourceCPU := milli 10; ResourceMemory := KiB 512]}))
    "IfNotPresent" "/dev/termination-log" "File" None None None.

(** The image of the updater when the sidecar is wanted. *)
Definition userUpdaterImage : option string :=
  if VaultDefaultUserSecretEnabled instance then
    match sb_Vault (rs_SecretBackend (rmq_Spec instance)) with
    | Some vault =>
        match vlt_DefaultUserUpdaterImage vault with
        | Some image => if negb (image =? "")%string then Some image else None
        | None => None
        end
    | None => None
    end
  else None.

Definition containers (currContainers : list Container) : outcome (list Container) :=
  rabbit ← containerRabbitmq_;
  mergeContainers currContainers
    (rabbit :: match userUpdaterImage with
               | Some image => [containerUserCredentialUpdater image]
               | None => []
               end).

Definition initContainers (currContainers : list Container) : outcome (list Container) :=
  mergeContainers currContainers [containerSetup].

(** ** Claims and spread *)

Definition desiredPVC (storage : Quantity) : PersistentVolumeClaim :=
  mkPersistentVolumeClaim
    (newObjectMeta c_PVCName (rmq_Namespace instance) (Some (Label (rmq_Name instance)))
       (ReconcileAndFilterAnnotations (Some ∅) [rmq_Annotations instance]))
    (mkPersistentVolumeClaimSpec (Some {[ResourceStorage := storage]})
       (rps_StorageClassName (rs_Persistence (rmq_Spec instance))) ["ReadWriteOnce"] "").

Definition persistentVolumeClaims (currPVCs : list PersistentVolumeClaim)
    : outcome (list PersistentVolumeClaim) :=
  storage ← derefO (rps_Storage (rs_Persistence (rmq_Spec instance)));
  if (Cmp storage 0 =? 0)%Z then Returns currPVCs else
  match setController (k := KPVC) instance (desiredPVC storage) with
  | inl _ => Returns currPVCs
  | inr pvc => mergePVCs currPVCs [disableBlockOwnerDeletion pvc]
  end.

Definition topologySpreadConstraints (currTSCs : list TopologySpreadConstraint)
    : outcome (list TopologySpreadConstraint) :=
  if DisableDefaultTopologySpreadConstraints instance then Returns currTSCs else
  mergeTSCs currTSCs
    [mkTopologySpreadConstraint 1 "topology.kubernetes.io/zone" "ScheduleAnyway"
       (Some (mkLabelSelector (Some (Metadata.LabelSelector (rmq_Name instance))) ""))].

(** ** The pod template *)

Definition podMeta (m : ObjectMeta) : ObjectMeta :=
  let defaultPodAnnotations : gomap string :=
    match sb_Vault (rs_SecretBackend (rmq_Spec instance)) with
    | Some vault => appendVaultAnnotations (Some ∅) instance vault
    | None => Some ∅
    end in
  let m := set_om_Labels (Some (Label (rmq_Name instance))) m in
  set_om_Annotations (ReconcileAnnotations (om_Annotations m) [defaultPodAnnotations]) m.

Definition podTemplateSpec (pod : PodTemplateSpec) : outcome PodTemplateSpec :=
  let spec := pts_Spec pod in
  vols ← volumes (ps_Volumes spec);
  ctrs ← containers (ps_Containers spec);
  inits ← initContainers (ps_InitContainers spec);
  tscs ← topologySpreadConstraints (ps_TopologySpreadConstraints spec);
  Returns (mkPodTemplateSpec (podMeta (pts_ObjectMeta pod))
    (mkPodSpec vols ctrs inits
       (rs_Affinity (rmq_Spec instance)) (rs_Tolerations (rmq_Spec instance)) tscs
       (rs_ImagePullSecrets (rmq_Spec instance)) (child ResourceServiceAccountSuffix)
       (Some true) (rs_TerminationGracePeriodSeconds (rmq_Spec instance))
       (Some (mkPodSecurityContext (Some 0%Z) (Some 999%Z) "")) (ps_Rest spec))).

(** ** Build and Update *)

Definition StatefulSet_Build (index : Z) : fallible StatefulSet :=
  pvcs ← persistentVolumeClaims [];
  let overrideSpec := ros_StatefulSet (rs_Override (rmq_Spec instance)) ≫= sto_Spec in
  let selector := match overrideSpec ≫= sso_Selector with
                  | Some s => s
                  | None => mkLabelSelector (Some (Metadata.LabelSelector (rmq_Name instance))) ""
                  end in
  let serviceName := match overrideSpec with
                     | Some o => if negb (sso_ServiceName o =? "")%string then sso_ServiceName o
                                 else child ResourceHeadlessServiceSuffix
                     | None => child ResourceHeadlessServiceSuffix
                     end in
  ok (mkStatefulSet
    (buildMeta instance (StatefulsetName instance ResourceStatefulsetSuffix index))
    (mkStatefulSetSpec None (Some selector)
       (mkPodTemplateSpec (newObjectMeta "" "" None None)
          (mkPodSpec [] [] [] None [] [] None "" None None None ""))
       pvcs serviceName "Parallel" (mkStatefulSetUpdateStrategy "" None) 0)
    (mkStatefulSetStatus 0 "" "")).

(** The generated spec, before the override. *)
Definition generatedSpec (spec : StatefulSetSpec) : outcome StatefulSetSpec :=
  template ← podTemplateSpec (stss_Template spec);
  pvcs ← persistentVolumeClaims (stss_VolumeClaimTemplates spec);
  Returns (set_stss_UpdateStrategy (mkStatefulSetUpdateStrategy "RollingUpdate" (Some 0%Z))
    (set_stss_VolumeClaimTemplates pvcs
      (set_stss_Template template
        (set_stss_Replicas (Some (if rs_Disable (rmq_Spec instance) then 0 else 1)%Z) spec)))).

Definition StatefulSet_Update `{Patchable PodSpec} (sts : StatefulSet) : fallible StatefulSet :=
  let sts := updateMeta (k := KStatefulSet) instance sts in
  spec ← generatedSpec (sts_Spec sts);
  let sts := set_sts_Spec spec sts in
  tryf (match ros_StatefulSet (rs_Override (rmq_Spec instance)) with
        | Some override =>
            wrapf "failed applying StatefulSet override: " (applyStsOverride instance sts override)
        | None => ok sts
        end) (λ sts,
  Returns (setController (k := KStatefulSet) instance sts)).
End sts.

(** ** Lemmas *)

Section sts_lemmas.
Context (instance : RabbitmqCluster).

Lemma nextVolumes_names zero : NoDup (vol_Name <$> nextVolumes instance zero).
Proof.
  rw /nextVolumes. destruct (SecretTLSEnabled instance), zero, (rabbitmqConfigurationIsSet instance);
    by apply (bool_decide_unpack _).
Qed.

(** The names of the generated volumes, by their conditions. *)
Lemma nextVolumes_elem zero name :
  name ∈ vol_Name <$> nextVolumes instance zero ↔
  name ∈ [VolumeNameRabbitmqConfd; VolumeNameRabbitmqLog; VolumeNameRabbitmqPlugins;
          VolumeNamePluginsConf; VolumeNameRabbitmqErlangCookie; VolumeNameErlangCookieSecret;
          VolumeNamePodInfo] ∨
  (SecretTLSEnabled instance = true ∧ name = VolumeNameRabbitmqTls) ∨
  (zero = true ∧ name = VolumeNamePersistence) ∨
  (rabbitmqConfigurationIsSet instance = true ∧ name = VolumeNameRabbitmqServerConf).
Proof.
  rw /nextVolumes !fmap_app !elem_of_app.
  match goal with |- (_ ∈ ?l) ∨ _ ↔ (_ ∈ ?l') ∨ _ => change l with l'; generalize (name ∈ l') end.
  intros P. destruct (SecretTLSEnabled instance), zero, (rabbitmqConfigurationIsSet instance); cbn;
    rw ?list_elem_of_singleton ?elem_of_nil; intuition congruence.
Qed.

(** A mount whose volume is generated, or is the persistence claim. *)
Definition mountable (zero : bool) (m : VolumeMount) : Prop :=
  vm_Name m ∈ vol_Name <$> nextVolumes instance zero ∨ (zero = false ∧ vm_Name m = c_PVCName).

Lemma mountable_static zero m :
  vm_Name m ∈ [VolumeNameRabbitmqConfd; VolumeNameRabbitmqLog; VolumeNameRabbitmqPlugins;
          VolumeNamePluginsConf; VolumeNameRabbitmqErlangCookie; VolumeNameErlangCookieSecret;
          VolumeNamePodInfo; VolumeNamePersistence] → mountable zero m.
Proof.
  rw /mountable nextVolumes_elem. change c_PVCName with VolumeNamePersistence.
  intros Hm. destruct (decide (vm_Name m = VolumeNamePersistence)) as [->|Hne].
  - destruct zero; [left; right; right; by left|by right].
  - left. left. rw !elem_of_cons elem_of_nil in Hm. rw !elem_of_cons elem_of_nil. tauto.
Qed.

Lemma mountable_tls zero m :
  SecretTLSEnabled instance = true → vm_Name m = VolumeNameRabbitmqTls → mountable zero m.
Proof. intros ??. left. apply nextVolumes_elem. tauto. Qed.

Lemma mountable_conf zero m :
  rabbitmqConfigurationIsSet instance = true → vm_Name m = VolumeNameRabbitmqServerConf →
  mountable zero m.
Proof. intros ??. left. apply nextVolumes_elem. tauto. Qed.

Lemma Forall_if {A} (P : A → Prop) (b : bool) x : (b = true → P x) → Forall P (if b then [x] else []).
Proof. destruct b; repeat constructor; auto. Qed.

Lemma rabbitmqMounts_mountable zero : Forall (mountable zero) (rabbitmqMounts instance).
Proof.
  rw /rabbitmqMounts. rw !Forall_app. split_and!.
  - apply Forall_forall. intros m Hm. apply mountable_static. revert m Hm.
    apply Forall_forall. by apply (bool_decide_unpack _).
  - apply Forall_if. intros. by apply mountable_tls.
  - apply Forall_if. intros. apply mountable_static. apply list_elem_of_here.
  - apply Forall_if. intros Hn. apply mountable_conf; [|done]. rw /rabbitmqConfigurationIsSet Hn.
    by rw orb_true_r.
  - apply Forall_if. intros Hn. apply mountable_conf; [|done]. by rw /rabbitmqConfigurationIsSet Hn.
  - apply Forall_if. intros Hn. apply mountable_conf; [|done]. by rw /rabbitmqConfigurationIsSet Hn orb_true_r.
Qed.

Lemma containerSetup_mountable zero : Forall (mountable zero) (sl (ctr_VolumeMounts (containerSetup instance))).
Proof.
  apply Forall_forall. intros m Hm. apply mountable_static. revert m Hm. apply Forall_forall.
  rw /containerSetup /=. by destruct (VaultDefaultUserSecretEnabled instance); apply (bool_decide_unpack _).
Qed.

Lemma containerUpdater_mountable zero image :
  Forall (mountable zero) (sl (ctr_VolumeMounts (containerUserCredentialUpdater instance image))).
Proof.
  simpl. apply Forall_cons. split.
  - apply mountable_static. by apply (bool_decide_unpack _).
  - apply Forall_if. intros. by apply mountable_tls.
Qed.

(** The generated claim is a fixed point of the claim's update. *)
Lemma desiredPVC_update storage pvc :
  setController (k := KPVC) instance (desiredPVC instance storage) = inr pvc →
  updatePVC (disableBlockOwnerDeletion pvc) (disableBlockOwnerDeletion pvc) =
    Returns (disableBlockOwnerDeletion pvc) ∧
  om_Name (pvc_ObjectMeta (disableBlockOwnerDeletion pvc)) = c_PVCName ∧
  pvcRequest (disableBlockOwnerDeletion pvc) = storage.
Proof.
  intros ->%(setController_meta (k := KPVC)). split_and!; [|done|].
  - rw /updatePVC /pvcRequest /gm_lookup /mbind /outcome_bind /= lookup_singleton_eq /=.
    by rw insert_singleton_eq.
  - by rw /pvcRequest /gm_lookup /= lookup_singleton_eq.
Qed.

Definition claimsDistinct (pvcs : list PersistentVolumeClaim) : Prop := NoDup (mkey <$> pvcs).

Lemma persistentVolumeClaims_twice curr r :
  claimsDistinct curr → persistentVolumeClaims instance curr = Returns r →
  persistentVolumeClaims instance r = Returns r.
Proof.
  intros Hc. rw /persistentVolumeClaims /mbind /outcome_bind.
  destruct (derefO _) as [storage|]; [|done]. destruct (_ =? 0)%Z; [done|].
  destruct (setController _ _) as [|pvc] eqn:E; [done|]. intros Hm.
  destruct (desiredPVC_update _ _ E) as (Hu & _ & _).
  rw /mergePVCs in Hm |- *. apply (merge_twice curr); [done|apply NoDup_singleton| |done].
  by intros n ->%list_elem_of_singleton.
Qed.

Lemma volumes_twice curr r :
  NoDup (mkey <$> curr) → volumes instance curr = Returns r → volumes instance r = Returns r.
Proof.
  intros Hc. rw /volumes /mbind /outcome_bind. destruct (storageIsZero instance) as [zero|]; [|done].
  rw /mergeVolumes. intros Hm. apply (merge_twice curr); [done|apply nextVolumes_names| |done].
  intros n _. by destruct n.
Qed.

Lemma containers_twice curr r :
  NoDup (mkey <$> curr) → containers instance curr = Returns r → containers instance r = Returns r.
Proof.
  intros Hc. rw /containers /mbind /outcome_bind /containerRabbitmq_ /mbind /outcome_bind.
  destruct (derefO (rs_Resources _)) as [res|]; [|done]. destruct (derefO _) as [grace|]; [|done].
  rw /mergeContainers. intros Hm. eapply (merge_twice curr); [done| |by intros n _|done].
  destruct (userUpdaterImage instance); by apply (bool_decide_unpack _).
Qed.

Lemma initContainers_twice curr r :
  NoDup (mkey <$> curr) → initContainers instance curr = Returns r → initContainers instance r = Returns r.
Proof.
  intros Hc Hm. eapply (merge_twice curr); [done|apply NoDup_singleton|by intros n _|done].
Qed.

Lemma topologySpreadConstraints_twice curr r :
  NoDup (mkey <$> curr) → topologySpreadConstraints instance curr = Returns r →
  topologySpreadConstraints instance r = Returns r.
Proof.
  intros Hc. rw /topologySpreadConstraints. destruct (DisableDefaultTopologySpreadConstraints _); [done|].
  rw /mergeTSCs. intros Hm. eapply (merge_twice curr); [done|apply NoDup_singleton|by intros n _|done].
Qed.

Lemma podMeta_twice m : podMeta instance (podMeta instance m) = podMeta instance m.
Proof. rw /podMeta /= /ReconcileAnnotations mergeWithFilter_twice //. Qed.

(** Lists whose entries the merges can tell apart. *)
Definition specDistinct (spec : StatefulSetSpec) : Prop :=
  let pod := pts_Spec (stss_Template spec) in
  NoDup (mkey <$> ps_Volumes pod) ∧ NoDup (mkey <$> ps_Containers pod) ∧
  NoDup (mkey <$> ps_InitContainers pod) ∧ NoDup (mkey <$> ps_TopologySpreadConstraints pod) ∧
  claimsDistinct (stss_VolumeClaimTemplates spec).

Lemma podTemplateSpec_twice pod r :
  NoDup (mkey <$> ps_Volumes (pts_Spec pod)) → NoDup (mkey <$> ps_Containers (pts_Spec pod)) →
  NoDup (mkey <$> ps_InitContainers (pts_Spec pod)) →
  NoDup (mkey <$> ps_TopologySpreadConstraints (pts_Spec pod)) →
  podTemplateSpec instance pod = Returns r → podTemplateSpec instance r = Returns r.
Proof.
  intros H1 H2 H3 H4. rw /podTemplateSpec /mbind /outcome_bind.
  destruct (volumes instance _) as [vols|] eqn:Ev; [|done].
  destruct (containers instance _) as [ctrs|] eqn:Ec; [|done].
  destruct (initContainers instance _) as [inits|] eqn:Ei; [|done].
  destruct (topologySpreadConstraints instance _) as [tscs|] eqn:Et; [|done].
  intros [= <-]. cbn [pts_Spec pts_ObjectMeta ps_Volumes ps_Containers ps_InitContainers
    ps_TopologySpreadConstraints ps_Rest].
  by rw (volumes_twice _ _ H1 Ev) (containers_twice _ _ H2 Ec) (initContainers_twice _ _ H3 Ei)
    (topologySpreadConstraints_twice _ _ H4 Et) podMeta_twice.
Qed.

Lemma generatedSpec_twice spec r :
  specDistinct spec → generatedSpec instance spec = Returns r → generatedSpec instance r = Returns r.
Proof.
  intros (H1 & H2 & H3 & H4 & H5). rw /generatedSpec /mbind /outcome_bind.
  destruct (podTemplateSpec instance _) as [t|] eqn:Et; [|done].
  destruct (persistentVolumeClaims instance _) as [p|] eqn:Ep; [|done].
  intros [= <-]. cbn. by rw (podTemplateSpec_twice _ _ H1 H2 H3 H4 Et) (persistentVolumeClaims_twice _ _ H5 Ep).
Qed.

Lemma StatefulSet_Update_eq `{Patchable PodSpec} sts :
  ros_StatefulSet (rs_Override (rmq_Spec instance)) = None →
  StatefulSet_Update instance sts =
    controlled (k := KStatefulSet) instance
      (λ s, spec ← generatedSpec instance (sts_Spec s); Returns (set_sts_Spec spec s)) sts.
Proof.
  intros Hno. rw /StatefulSet_Update Hno /controlled /mbind /outcome_bind.
  by destruct (generatedSpec instance _).
Qed.

Lemma stsRest_restOnly :
  restOnly (k := KStatefulSet)
    (λ s, spec ← generatedSpec instance (sts_Spec s); Returns (set_sts_Spec spec s))
    (λ s, specDistinct (sts_Spec s)).
Proof.
  split.
  - intros m o. rw /mbind /outcome_bind /=. by destruct (generatedSpec instance _).
  - intros o o'. rw /mbind /outcome_bind. destruct (generatedSpec instance _); [|done].
    by intros [= <-].
  - intros o o' Hd. rw /mbind /outcome_bind.
    destruct (generatedSpec instance (sts_Spec o)) as [spec|] eqn:E; [|done].
    intros [= <-]. simpl. by rw (generatedSpec_twice _ _ Hd E).
  - done.
Qed.

(** ** Properties *)

(** C31: every volume that a generated container mounts exists: it is one of the
    generated volumes of the pod or, with storage that is not zero, the
    persistence claim; and no two generated volumes have the same name. *)
Theorem mounts_have_volumes zero image c :
  (containerRabbitmq_ instance = Returns c ∨ c = containerSetup instance ∨
   c = containerUserCredentialUpdater instance image) →
  NoDup (vol_Name <$> nextVolumes instance zero) ∧
  ∀ m, m ∈ sl (ctr_VolumeMounts c) →
    vm_Name m ∈ vol_Name <$> nextVolumes instance zero ∨ (zero = false ∧ vm_Name m = c_PVCName).
Proof.
  intros Hc. split; [apply nextVolumes_names|].
  change (∀ m, m ∈ sl (ctr_VolumeMounts c) → mountable zero m). apply Forall_forall.
  destruct Hc as [Hc|[->| ->]]; [|apply containerSetup_mountable|apply containerUpdater_mountable].
  rw /containerRabbitmq_ /mbind /outcome_bind in Hc.
  destruct (derefO _); [|done]. destruct (derefO _); [|done]. injection Hc as <-.
  apply rabbitmqMounts_mountable.
Qed.

(** C18: without an override the StatefulSet of a replica, whose volumes,
    containers, init containers, spread constraints and claim templates have
    distinct names each, runs one pod, or none when the cluster is disabled,
    keeps its name, gets the labels, annotations and controller of the cluster,
    and updating it again changes nothing, so a reconciled replica is not
    written again. *)
Theorem StatefulSet_Update_spec `{Patchable PodSpec} sts sts' :
  ros_StatefulSet (rs_Override (rmq_Spec instance)) = None →
  specDistinct (sts_Spec sts) →
  StatefulSet_Update instance sts = ok sts' →
  updatedMeta instance (sts_ObjectMeta sts) (sts_ObjectMeta sts') ∧
  stss_Replicas (sts_Spec sts') = Some (if rs_Disable (rmq_Spec instance) then 0 else 1)%Z ∧
  om_Labels (pts_ObjectMeta (stss_Template (sts_Spec sts'))) = Some (Label (rmq_Name instance)) ∧
  sts_Status sts' = sts_Status sts ∧
  StatefulSet_Update instance sts' = ok sts'.
Proof.
  intros Hno Hd Hu. assert (Ht : StatefulSet_Update instance sts' = ok sts').
  { rw StatefulSet_Update_eq // in Hu. rw StatefulSet_Update_eq //.
    apply (controlled_twice (k := KStatefulSet) instance _ _ sts sts' stsRest_restOnly Hd Hu). }
  rw /StatefulSet_Update Hno /mbind /outcome_bind in Hu.
  destruct (generatedSpec instance _) as [spec|] eqn:Es; [|done]. rw /= /ok in Hu. injection Hu as E.
  pose proof (setController_meta (k := KStatefulSet) _ _ _ E) as Hs.
  rw /generatedSpec /mbind /outcome_bind in Es.
  destruct (podTemplateSpec instance _) as [t|] eqn:Et; [|done].
  destruct (persistentVolumeClaims instance _) as [p|] eqn:Ep; [|done]. injection Es as <-.
  split_and!; [by eapply (setController_ok (k := KStatefulSet))|by rw Hs| |by rw Hs|done].
  rw Hs. simpl. rw /podTemplateSpec /mbind /outcome_bind in Et.
  destruct (volumes instance _); [|done]. destruct (containers instance _); [|done].
  destruct (initContainers instance _); [|done].
  destruct (topologySpreadConstraints instance _); [|done]. by injection Et as <-.
Qed.

(** The storage of a replica: with zero storage the claims stay as they are;
    otherwise the persistence claim asks for the storage of the cluster, in
    place if it was there and appended if not, and every other claim is kept;
    a cluster without a storage makes the operator panic. *)
Theorem persistentVolumeClaims_spec curr :
  match rps_Storage (rs_Persistence (rmq_Spec instance)) with
  | None => ∃ msg, persistentVolumeClaims instance curr = Panics msg
  | Some storage =>
      (storage = 0%Z → persistentVolumeClaims instance curr = Returns curr) ∧
      ∀ r, storage ≠ 0%Z → claimsDistinct curr → persistentVolumeClaims instance curr = Returns r →
        (∃ p, findKey c_PVCName r = Some p ∧ pvcRequest p = storage) ∧
        (∀ k, k ≠ c_PVCName → findKey k r = findKey k curr) ∧
        (mkey <$> curr) `prefix_of` (mkey <$> r)
  end.
Proof.
  rw /persistentVolumeClaims /mbind /outcome_bind.
  destruct (rps_Storage _) as [storage|]; simpl; [|by eexists]. split.
  { by intros ->. }
  intros r Hs Hc. rw (proj2 (Z.eqb_neq _ _)).
  { rw /Cmp. destruct (Z.compare_spec storage 0); lia. }
  destruct (setController (k := KPVC) instance (desiredPVC instance storage)) as [er|pvc] eqn:E.
  { exfalso. rw /setController in E. destruct (SetControllerReference _ _) as [e1|] eqn:ES; [|done].
    rw /SetControllerReference /= in ES. destruct (validateOwner _ _) as [ee|] eqn:Ev; [|done].
    by rw (proj2 (validateOwner_None _ _)) in Ev; [right|]. }
  destruct (desiredPVC_update _ _ E) as (Hu & Hn & Hq).
  rw /mergePVCs merge_mergeSpec //. intros Hr.
  assert (mkey (disableBlockOwnerDeletion pvc) = c_PVCName) as Hk by exact Hn.
  pose proof (mergeSpec_lookup _ _ _ c_PVCName Hr (NoDup_singleton _)) as Hl.
  cbn [findKey] in Hl. rewrite ->decide_True in Hl by done. split_and!.
  - destruct (findKey c_PVCName curr) as [c|].
    + destruct Hl as (c' & Hcu & Hf). exists c'. split; [done|].
      rw /= /updatePVC Hq /mbind /outcome_bind in Hcu.
      destruct (pvcs_Requests (pvc_Spec c)) as [rq|]; [|done]. injection Hcu as <-.
      by rw /pvcRequest /gm_lookup /= lookup_insert_eq.
    + by eexists.
  - intros k Hne. apply (mergeSpec_other _ _ _ _ Hr). cbn. rw list_elem_of_singleton.
    intros ->. by apply Hne.
  - by apply (mergeSpec_keys _ _ _ Hr Hc).
Qed.
End sts_lemmas.
