(* ===== verification/Builders.v ===== *)
(** internal/resource/rabbitmq_resource_builder.go: the builders of a cluster,
    in order, and the interface they implement. *)

From S2P Require Import Prelude GoStd K8s V1beta1 Constant Metadata Kube Controllerutil Builder.
From S2P Require Import Plugins Services Secrets Rbac ServerConf Sts.

(** ** Definitions *)

(** The implementations of the interface [ResourceBuilder]; the cluster they
    share through a pointer is part of the state. *)
Inductive ResourceBuilder :=
  | HeadlessServiceBuilder
  | ServiceBuilder
  | ErlangCookieBuilder
  | DefaultUserSecretBuilder
  | RabbitmqPluginsConfigMapBuilder
  | ServerConfigMapBuilder (UpdateRequiresStsRestart : bool)
  | ServiceAccountBuilder
  | RoleBuilder
  | RoleBindingBuilder
  | StatefulSetBuilder (Index : Z).

#[export] Instance ResourceBuilder_eq_dec : EqDecision ResourceBuilder.
Proof. solve_decision. Defined.

(** The methods of the shared builder that make one of them. *)
Definition HeadlessService : ResourceBuilder := HeadlessServiceBuilder.
Definition ClientService : ResourceBuilder := ServiceBuilder.
Definition ErlangCookie : ResourceBuilder := ErlangCookieBuilder.
Definition DefaultUserSecret : ResourceBuilder := DefaultUserSecretBuilder.
Definition RabbitmqPluginsConfigMap : ResourceBuilder := RabbitmqPluginsConfigMapBuilder.
Definition ServerConfigMap : ResourceBuilder := ServerConfigMapBuilder true.
Definition ClusterServiceAccount : ResourceBuilder := ServiceAccountBuilder.
Definition ClusterRole : ResourceBuilder := RoleBuilder.
Definition ClusterRoleBinding : ResourceBuilder := RoleBindingBuilder.
Definition ReplicaStatefulSet (index : Z) : ResourceBuilder := StatefulSetBuilder index.

(** The method of each builder, and the choice among them. *)
Definition HeadlessService_UpdateMayRequireStsRecreate : bool := false.
Definition Service_UpdateMayRequireStsRecreate : bool := false.
Definition ErlangCookie_UpdateMayRequireStsRecreate : bool := false.
Definition DefaultUserSecret_UpdateMayRequireStsRecreate : bool := false.
Definition RabbitmqPluginsConfigMap_UpdateMayRequireStsRecreate : bool := false.
Definition ServerConfigMap_UpdateMayRequireStsRecreate : bool := false.
Definition ServiceAccount_UpdateMayRequireStsRecreate : bool := false.
Definition Role_UpdateMayRequireStsRecreate : bool := false.
Definition RoleBinding_UpdateMayRequireStsRecreate : bool := false.
Definition StatefulSet_UpdateMayRequireStsRecreate : bool := true.

Definition UpdateMayRequireStsRecreate (b : ResourceBuilder) : bool :=
  match b with
  | HeadlessServiceBuilder => HeadlessService_UpdateMayRequireStsRecreate
  | ServiceBuilder => Service_UpdateMayRequireStsRecreate
  | ErlangCookieBuilder => ErlangCookie_UpdateMayRequireStsRecreate
  | DefaultUserSecretBuilder => DefaultUserSecret_UpdateMayRequireStsRecreate
  | RabbitmqPluginsConfigMapBuilder => RabbitmqPluginsConfigMap_UpdateMayRequireStsRecreate
  | ServerConfigMapBuilder _ => ServerConfigMap_UpdateMayRequireStsRecreate
  | ServiceAccountBuilder => ServiceAccount_UpdateMayRequireStsRecreate
  | RoleBuilder => Role_UpdateMayRequireStsRecreate
  | RoleBindingBuilder => RoleBinding_UpdateMayRequireStsRecreate
  | StatefulSetBuilder _ => StatefulSet_UpdateMayRequireStsRecreate
  end.

Definition ResourceBuilders (replicas : Z) (instance : RabbitmqCluster) : list ResourceBuilder :=
  let builders :=
    [HeadlessService; ClientService; ErlangCookie; DefaultUserSecret; RabbitmqPluginsConfigMap;
     ServerConfigMap; ClusterServiceAccount; ClusterRole; ClusterRoleBinding] ++
    (ReplicaStatefulSet <$> seqZ 0 replicas) in
  if VaultDefaultUserSecretEnabled instance || ExternalSecretEnabled instance
  then take 3 builders ++ drop (3 + 1) builders
  else builders.

(** Packing and unpacking [client.Object]. *)
Definition pack {k} (r : result (Obj k)) : result Object :=
  match r with inl e => inl e | inr o => inr (existT k o) end.

(** [object.( *T)]: the assertion panics on another type. *)
Definition assertKind {S} (k : Kind) (o : Object) : M S (Obj k) :=
  match decide (projT1 o = k) with
  | left E => mret (eq_rect _ Obj (projT2 o) _ E)
  | right _ => panic "interface conversion"
  end.

Section builders.
Context {W : Type} `{!Kube W, !Library}.

(** A computation on the shared cluster object. *)
Definition onInstance {A} (m : M RabbitmqCluster A) : Run W A := λ s,
  let '(o, r) := m (op_rmq s) in (o, mkOp r (op_world s)).

Definition Build (b : ResourceBuilder) : Run W (result Object) :=
  match b with
  | ErlangCookieBuilder => r ← ErlangCookie_Build; mret (pack (k := KSecret) r)
  | DefaultUserSecretBuilder => r ← DefaultUserSecret_Build; mret (pack (k := KSecret) r)
  | StatefulSetBuilder i =>
      instance ← rmq; r ← lift (StatefulSet_Build instance i); mret (pack (k := KStatefulSet) r)
  | HeadlessServiceBuilder =>
      instance ← rmq; mret (pack (k := KService) (inr (HeadlessService_Build instance)))
  | ServiceBuilder => instance ← rmq; mret (pack (k := KService) (inr (Service_Build instance)))
  | RabbitmqPluginsConfigMapBuilder =>
      instance ← rmq; mret (pack (k := KConfigMap) (inr (RabbitmqPluginsConfigMap_Build instance)))
  | ServerConfigMapBuilder _ =>
      instance ← rmq; mret (pack (k := KConfigMap) (inr (ServerConfigMap_Build instance)))
  | ServiceAccountBuilder =>
      instance ← rmq; mret (pack (k := KServiceAccount) (inr (ServiceAccount_Build instance)))
  | RoleBuilder => instance ← rmq; mret (pack (k := KRole) (inr (Role_Build instance)))
  | RoleBindingBuilder =>
      instance ← rmq; mret (pack (k := KRoleBinding) (inr (RoleBinding_Build instance)))
  end.

(** An update that reads the cluster only. *)
Definition pureUpdate (k : Kind) (f : RabbitmqCluster → Obj k → fallible (Obj k)) (o : Object)
    : Run W (result Object) :=
  obj ← assertKind k o;
  instance ← rmq;
  r ← lift (f instance obj);
  mret (pack r).

(** The updated object, and the builder with its flag. *)
Definition Update (b : ResourceBuilder) (o : Object) : Run W (result Object * ResourceBuilder) :=
  match b with
  | HeadlessServiceBuilder => r ← pureUpdate KService HeadlessService_Update o; mret (r, b)
  | ServiceBuilder =>
      obj ← assertKind KService o;
      r ← onInstance (Service_Update obj);
      mret (pack (k := KService) r, b)
  | ErlangCookieBuilder => r ← pureUpdate KSecret ErlangCookie_Update o; mret (r, b)
  | DefaultUserSecretBuilder => r ← pureUpdate KSecret DefaultUserSecret_Update o; mret (r, b)
  | RabbitmqPluginsConfigMapBuilder =>
      r ← pureUpdate KConfigMap RabbitmqPluginsConfigMap_Update o; mret (r, b)
  | ServerConfigMapBuilder flag =>
      obj ← assertKind KConfigMap o;
      instance ← rmq;
      r ← lift (ServerConfigMap_Update instance flag obj);
      match r with
      | inl err => mret (inl err, b)
      | inr (obj, flag) =>
          mret (inr (existT KConfigMap (obj : Obj KConfigMap)), ServerConfigMapBuilder flag)
      end
  | ServiceAccountBuilder => r ← pureUpdate KServiceAccount ServiceAccount_Update o; mret (r, b)
  | RoleBuilder => r ← pureUpdate KRole Role_Update o; mret (r, b)
  | RoleBindingBuilder => r ← pureUpdate KRoleBinding RoleBinding_Update o; mret (r, b)
  | StatefulSetBuilder _ => r ← pureUpdate KStatefulSet (λ i, StatefulSet_Update i) o; mret (r, b)
  end.

(** ** Lemmas *)

(** The kind of the objects of a builder. *)
Definition builderKind (b : ResourceBuilder) : Kind :=
  match b with
  | HeadlessServiceBuilder | ServiceBuilder => KService
  | ErlangCookieBuilder | DefaultUserSecretBuilder => KSecret
  | RabbitmqPluginsConfigMapBuilder | ServerConfigMapBuilder _ => KConfigMap
  | ServiceAccountBuilder => KServiceAccount
  | RoleBuilder => KRole
  | RoleBindingBuilder => KRoleBinding
  | StatefulSetBuilder _ => KStatefulSet
  end.

(** The name a builder gives its object. *)
Definition builderName (instance : RabbitmqCluster) (b : ResourceBuilder) : string :=
  match b with
  | HeadlessServiceBuilder => ChildResourceName instance ResourceHeadlessServiceSuffix
  | ServiceBuilder => ChildResourceName instance ResourceClientServiceSuffix
  | ErlangCookieBuilder => ChildResourceName instance ResourceErlangCookieSuffix
  | DefaultUserSecretBuilder => ChildResourceName instance ResourceDefaultUserSuffix
  | RabbitmqPluginsConfigMapBuilder => ChildResourceName instance ResourcePluginConfigMapSuffix
  | ServerConfigMapBuilder _ => ChildResourceName instance ResourceServerConfigMapSuffix
  | ServiceAccountBuilder => ChildResourceName instance ResourceServiceAccountSuffix
  | RoleBuilder => ChildResourceName instance ResourceRoleSuffix
  | RoleBindingBuilder => ChildResourceName instance ResourceRoleBindingSuffix
  | StatefulSetBuilder i => StatefulsetName instance ResourceStatefulsetSuffix i
  end.

Lemma pack_inv {k} (r : result (Obj k)) o : pack r = inr o → ∃ x, r = inr x ∧ o = existT k x.
Proof. destruct r as [|x]; [done|]. intros [= <-]. by exists x. Qed.

Lemma assertKind_self {S} k (x : Obj k) (s : S) : assertKind k (existT k x) s = (Returns x, s).
Proof.
  rw /assertKind /=. destruct (decide (k = k)) as [E|]; [|done].
  rw (proof_irrel E eq_refl) //.
Qed.

(** A [bind] whose first step keeps the shared cluster object. *)
Definition keepsRmq {A} (m : Run W A) : Prop := ∀ s, op_rmq (m s).2 = op_rmq s.

Lemma keepsRmq_bind {A B} (m : Run W A) (f : A → Run W B) :
  keepsRmq m → (∀ a, keepsRmq (f a)) → keepsRmq (m ≫= f).
Proof.
  intros Hm Hf s. rw /mbind /M_bind. specialize (Hm s). destruct (m s) as [[a|e] s1]; simpl in *; [|done].
  by rw Hf Hm.
Qed.

Lemma keepsRmq_ret {A} (a : A) : keepsRmq (mret a : Run W A).
Proof. done. Qed.
Lemma keepsRmq_lift {A} (o : outcome A) : keepsRmq (lift o : Run W A).
Proof. done. Qed.
Lemma keepsRmq_ext {A} (f : Ext W A) : keepsRmq (ext f).
Proof. intros s. rw /ext. by destruct (f (op_world s)). Qed.
Lemma keepsRmq_rmq : keepsRmq (rmq : Run W _).
Proof. done. Qed.
End builders.

#[export] Hint Resolve keepsRmq_ret keepsRmq_lift keepsRmq_ext keepsRmq_rmq : op.
#[export] Hint Extern 2 (keepsRmq (_ ≫= _)) => apply keepsRmq_bind; [|intros ?] : op.
#[export] Hint Extern 3 (keepsRmq (match ?x with _ => _ end)) => destruct x : op.

Section builders_properties.
Context {W : Type} `{!Kube W, !Library}.
Implicit Types (s : Op W).

Lemma randomEncodedString_keeps n : keepsRmq (randomEncodedString n : Run W _).
Proof. unfold randomEncodedString. auto 10 with op. Qed.

Lemma ErlangCookie_Build_inv s r s' :
  (ErlangCookie_Build : Run W _) s = (Returns (inr r), s') →
  op_rmq s' = op_rmq s ∧ ∃ bytes, (kRandRead 24 (op_world s)).1 = inr bytes ∧
  r = mkSecret (buildMeta (op_rmq s) (ChildResourceName (op_rmq s) ResourceErlangCookieSuffix))
        SecretTypeOpaque (Some {[fileNameErlangCookie := EncodeToString bytes]}).
Proof.
  unfold ErlangCookie_Build, randomEncodedString, ext, mbind, M_bind.
  destruct (kRandRead 24 (op_world s)) as [[|b] w]; simpl; [done|]. intros [= <- <-]. simpl. eauto.
Qed.

Lemma Build_pure k (x : Obj k) s o s' :
  (instance ← rmq; mret (pack (inr x)) : Run W _) s = (Returns (inr o), s') → o = existT k x ∧ s' = s.
Proof. by intros [= <- <-]. Qed.

(** What [Build] returns, for every builder. *)
Definition built (b : ResourceBuilder) (instance : RabbitmqCluster) (o : Object) : Prop :=
  projT1 o = builderKind b ∧
  meta (projT2 o) = buildMeta instance (builderName instance b).

Lemma DefaultUserSecret_Build_inv s r s' :
  (DefaultUserSecret_Build : Run W _) s = (Returns (inr r), s') →
  op_rmq s' = op_rmq s ∧ ∃ username password conf,
  (∃ encoded, usernameOf encoded = Returns username) ∧
  generateDefaultUserConf username password = inr conf ∧
  updateData (op_rmq s) (sec_Data (newUserSecret (op_rmq s) username password conf)) =
    Returns (sec_Data r) ∧
  r = set_sec_Data (sec_Data r) (newUserSecret (op_rmq s) username password conf).
Proof.
  unfold DefaultUserSecret_Build, generateUsername, randomEncodedString, ext, mbind, M_bind, mret,
    M_ret, lift, rmq, gets.
  destruct (kRandRead 24 (op_world s)) as [[|b1] w1]; [done|].
  destruct (usernameOf (EncodeToString b1)) as [u|] eqn:Eu; [|done].
  cbn [op_rmq op_world]. destruct (kRandRead 24 w1) as [[|b2] w2]; [done|].
  destruct (generateDefaultUserConf u (EncodeToString b2)) as [|conf] eqn:Ec; [done|].
  cbn [op_rmq op_world].
  destruct (updateData (op_rmq s) (sec_Data (newUserSecret (op_rmq s) u (EncodeToString b2) conf)))
    as [d|] eqn:Ed; [|done].
  intros [= <- <-]. split; [done|]. exists u, (EncodeToString b2), conf.
  split_and!; [by eexists|done|exact Ed|done].
Qed.

Lemma Build_built b s o s' :
  Build b s = (Returns (inr o), s') → built b (op_rmq s) o ∧ op_rmq s' = op_rmq s.
Proof.
  intros Hb.
  destruct b; simpl in Hb; try by injection Hb as <- <-.
  - m_inv Hb. injection Hb as Hp <-. apply pack_inv in Hp as (x & -> & ->).
    by apply ErlangCookie_Build_inv in E as (? & bytes & ? & ->).
  - m_inv Hb. injection Hb as Hp <-. apply pack_inv in Hp as (x & -> & ->).
    apply DefaultUserSecret_Build_inv in E as (? & u & p & c & ? & ? & ? & ->). done.
  - m_inv Hb. injection E as <- <-. m_inv Hb. injection Hb as Hp <-.
    apply pack_inv in Hp as (x & -> & ->). unfold lift in E. injection E as E <-.
    unfold StatefulSet_Build, mbind, outcome_bind in E.
    destruct (persistentVolumeClaims _ _) as [pvcs|]; [|done]. by injection E as <-.
Qed.

Lemma StatefulSetBuilder_elem i replicas :
  StatefulSetBuilder i ∈ StatefulSetBuilder <$> seqZ 0 replicas ↔ (0 ≤ i < replicas)%Z.
Proof.
  rw list_elem_of_fmap. split.
  - intros (j & [= ->] & Hj%elem_of_seqZ). lia.
  - intros Hi. exists i. split; [done|]. apply elem_of_seqZ. lia.
Qed.

(** The builders of a cluster, with and without credentials of their own. *)
Lemma ResourceBuilders_eq replicas instance :
  ResourceBuilders replicas instance =
  [HeadlessServiceBuilder; ServiceBuilder; ErlangCookieBuilder] ++
  (if VaultDefaultUserSecretEnabled instance || ExternalSecretEnabled instance then [] else [DefaultUserSecretBuilder]) ++
  [RabbitmqPluginsConfigMapBuilder; ServerConfigMapBuilder true; ServiceAccountBuilder;
   RoleBuilder; RoleBindingBuilder] ++ (StatefulSetBuilder <$> seqZ 0 replicas).
Proof. rw /ResourceBuilders. by destruct (_ || _). Qed.

Lemma ResourceBuilders_NoDup replicas instance : NoDup (ResourceBuilders replicas instance).
Proof.
  rw ResourceBuilders_eq !app_assoc. apply NoDup_app. split_and!.
  - by destruct (_ || _); apply (bool_decide_unpack _).
  - intros b Hb (i & -> & _)%list_elem_of_fmap. revert Hb.
    destruct (_ || _); simpl; rw !elem_of_cons elem_of_nil; naive_solver.
  - apply NoDup_fmap; [by intros ?? [=]|apply NoDup_seqZ].
Qed.

(** ** Properties *)

(** The builders of a cluster come in a fixed order: the shared resources
    first, then one StatefulSet for each replica, in order and nothing else;
    the secret of the default user is left out, and only it, exactly when the
    credentials come from Vault or from an external secret. *)
Theorem ResourceBuilders_spec replicas instance :
  let bs := ResourceBuilders replicas instance in
  let external := VaultDefaultUserSecretEnabled instance || ExternalSecretEnabled instance in
  bs = [HeadlessServiceBuilder; ServiceBuilder; ErlangCookieBuilder] ++
       (if external then [] else [DefaultUserSecretBuilder]) ++
       [RabbitmqPluginsConfigMapBuilder; ServerConfigMapBuilder true; ServiceAccountBuilder;
        RoleBuilder; RoleBindingBuilder] ++ (StatefulSetBuilder <$> seqZ 0 replicas) ∧
  NoDup bs ∧
  (∀ i, StatefulSetBuilder i ∈ bs ↔ (0 ≤ i < replicas)%Z) ∧
  length bs = ((if external then 8 else 9) + Z.to_nat replicas)%nat ∧
  (∀ b, b ∈ bs → UpdateMayRequireStsRecreate b = true ↔ ∃ i, b = StatefulSetBuilder i).
Proof.
  cbv zeta. rw ResourceBuilders_eq. set (external := VaultDefaultUserSecretEnabled instance || ExternalSecretEnabled instance).
  split_and!; [done| | | |].
  - pose proof (ResourceBuilders_NoDup replicas instance) as Hnd. by rw ResourceBuilders_eq in Hnd.
  - intros i. rw !elem_of_app StatefulSetBuilder_elem. destruct external; simpl; rw ?elem_of_cons ?elem_of_nil; naive_solver.
  - rw !length_app length_fmap length_seqZ. destruct external; simpl; lia.
  - intros b _. destruct b; simpl; naive_solver.
Qed.

(** C36: what a builder builds is an object of its kind, under its name in the
    namespace of the cluster, with the cluster's labels and filtered
    annotations and nothing else in its metadata; building leaves the cluster
    as it is, and the type assertion of the builder's update succeeds on it. *)
Theorem Build_spec b s o s' :
  Build b s = (Returns (inr o), s') →
  projT1 o = builderKind b ∧ op_rmq s' = op_rmq s ∧
  meta (projT2 o) = newObjectMeta (builderName (op_rmq s) b) (rmq_Namespace (op_rmq s))
    (Some (GetLabels (rmq_Name (op_rmq s)) (rmq_Labels (op_rmq s))))
    (ReconcileAndFilterAnnotations None [rmq_Annotations (op_rmq s)]) ∧
  ∃ x, assertKind (builderKind b) o s' = (Returns x, s').
Proof.
  intros [[Hk Hm] Hs]%Build_built. split_and!; [done|done|exact Hm|].
  destruct o as [k x]. simpl in Hk. subst k. exists x. apply assertKind_self.
Qed.
End builders_properties.
