(* ===== verification/Trace.v ===== *)
(** Which calls that change something outside a computation makes.

    [traced] turns the services of any world into services that also keep a
    log of the writing calls; [run m s Q] says what a computation returns,
    which state it ends in and which calls it has added to the log.  The
    theorems about the operator's steps are stated for the logged services of
    an arbitrary world. *)

From S2P Require Import Prelude GoStd K8s V1beta1 Kube.

(** ** The log *)

(** A creation or an update through the client is logged with whether the
    server has carried it out. *)
Inductive Call :=
  | Created (k : Kind) (o : Obj k) (done : bool)
  | Updated (k : Kind) (o : Obj k) (done : bool)
  | Deleted (k : Kind) (uid : option string) (o : Obj k)
  | StatusUpdated (r : RabbitmqCluster)
  | CsUpdated (k : Kind) (namespace : string) (o : Obj k)
  | CsDeleted (k : Kind) (key : NamespacedName)
  | Event (eventtype reason message : string)
  | Exec (namespace pod container : string) (command : list string).

(** A call that asks the API server to change an object. *)
Definition isWrite (c : Call) : bool :=
  match c with Event _ _ _ | Exec _ _ _ _ => false | _ => true end.

(** A call that asks the API server to create or change a child object. *)
Definition isChildWrite (c : Call) : bool :=
  match c with
  | Created _ _ _ | Deleted _ _ _ | CsUpdated _ _ _ | CsDeleted _ _ => true
  | Updated k _ _ => negb (bool_decide (k = KRabbitmqCluster))
  | StatusUpdated _ | Event _ _ _ | Exec _ _ _ _ => false
  end.

(** A state that holds a log: the state of a step, or that with the local
    variables of a closure next to it. *)
Class HasLog (S : Type) := log : S → list Call.

#[export] Instance local_log {S L} `{!HasLog S} : HasLog (S * L) := λ sl, log (fst sl).

(** ** What a computation does *)

Section run.
Context {S : Type} `{!HasLog S}.
Implicit Types (s : S).

Definition run {A} (m : M S A) (s : S) (Q : outcome A → S → list Call → Prop) : Prop :=
  ∃ calls, log (m s).2 = log s ++ calls ∧ Q (m s).1 (m s).2 calls.

Lemma run_mono {A} (m : M S A) s (Q Q' : outcome A → S → list Call → Prop) :
  run m s Q → (∀ o s' c, Q o s' c → Q' o s' c) → run m s Q'.
Proof. intros (c & Hl & HQ) HQ'. exists c. eauto. Qed.

Lemma run_ret {A} (a : A) s (Q : outcome A → S → list Call → Prop) :
  Q (Returns a) s [] → run (mret a) s Q.
Proof. intros HQ. exists []. by rw app_nil_r. Qed.

Lemma run_lift {A} (o : outcome A) s (Q : outcome A → S → list Call → Prop) :
  Q o s [] → run (lift o) s Q.
Proof. intros HQ. exists []. by rw app_nil_r. Qed.

Lemma run_panic {A} msg s (Q : outcome A → S → list Call → Prop) :
  Q (Panics msg) s [] → run (panic msg) s Q.
Proof. intros HQ. exists []. by rw app_nil_r. Qed.

Lemma run_bind {A B} (m : M S A) (f : A → M S B) s Q1 (Q : outcome B → S → list Call → Prop) :
  run m s Q1 →
  (∀ a s1 c1, Q1 (Returns a) s1 c1 → run (f a) s1 (λ o s2 c2, Q o s2 (c1 ++ c2))) →
  (∀ e s1 c1, Q1 (Panics e) s1 c1 → Q (Panics e) s1 c1) →
  run (m ≫= f) s Q.
Proof.
  intros (c1 & Hl & H1) Hf Hp. rw /run /mbind /M_bind. destruct (m s) as [[a|e] s1]; simpl in *.
  - destruct (Hf a s1 c1 H1) as (c2 & Hl2 & H2). exists (c1 ++ c2).
    split; [|done]. by rw Hl2 Hl app_assoc.
  - exists c1. split; [done|]. by apply Hp.
Qed.

(** The rule the tactic [step] follows. *)
Lemma run_seq {A B} (m : M S A) (f : A → M S B) s (Q : outcome B → S → list Call → Prop) :
  run m s (λ o s1 c1, match o with
    | Returns a => run (f a) s1 (λ o s2 c2, Q o s2 (c1 ++ c2))
    | Panics e => Q (Panics e) s1 c1
    end) →
  run (m ≫= f) s Q.
Proof. intros Hm. eapply run_bind; [exact Hm|done|done]. Qed.

Lemma run_deref {A} (p : option A) s (Q : outcome A → S → list Call → Prop) :
  match p with
  | Some a => Q (Returns a) s []
  | None => Q (Panics "invalid memory address or nil pointer dereference") s []
  end → run (deref p) s Q.
Proof. destruct p; [apply run_ret|apply run_panic]. Qed.

(** What is known of the result without the calls. *)
Lemma run_with {A} (m : M S A) s (Q : outcome A → S → list Call → Prop) (R : outcome A → S → Prop) :
  run m s Q → (∀ o s', m s = (o, s') → R o s') → run m s (λ o s' c, Q o s' c ∧ R o s').
Proof. intros (c & Hl & HQ) HR. exists c. split; [done|]. split; [done|]. apply HR. by destruct (m s). Qed.

(** Two things that are known of the same computation. *)
Lemma run_and {A} (m : M S A) s (Q Q' : outcome A → S → list Call → Prop) :
  run m s Q → run m s Q' → run m s (λ o s' c, Q o s' c ∧ Q' o s' c).
Proof.
  intros (c & Hl & HQ) (c' & Hl' & HQ'). exists c. split; [done|]. split; [done|].
  by assert (c = c') as -> by (by apply (app_inv_head (log s)); rw Hl in Hl').
Qed.

(** What one computation does twice is the same. *)
Lemma run_elim {A} (m : M S A) s (Q : outcome A → S → list Call → Prop) o s' :
  run m s Q → m s = (o, s') → ∃ calls, log s' = log s ++ calls ∧ Q o s' calls.
Proof. intros (c & Hl & HQ) E. rw E in Hl HQ. eauto. Qed.

(** The retry loop: [I k last] holds after [k] failed attempts. *)
Lemma run_OnErrorSteps n (retriable : error → bool) (fn : M S goerror) last s
    (I : nat → goerror → S → list Call → Prop) (Q : outcome goerror → S → list Call → Prop) :
  I 0%nat last s [] →
  (∀ k last s1 c1, (k < n)%nat → I k last s1 c1 → run fn s1 (λ o s2 c,
     match o with
     | Returns (Some e) => if retriable e then I (Datatypes.S k) (Some e) s2 (c1 ++ c)
                           else Q o s2 (c1 ++ c)
     | _ => Q o s2 (c1 ++ c)
     end)) →
  (∀ last s1 c1, I n last s1 c1 → Q (Returns last) s1 c1) →
  run (OnErrorSteps n retriable fn last) s Q.
Proof.
  revert last s I Q. induction n as [|n IH]; intros last s I Q H0 Hstep Hend; simpl.
  { apply run_ret. by apply Hend. }
  eapply run_bind; [by eapply (Hstep 0%nat); [lia|]| |by intros e s1 c1; simpl].
  intros [e|] s1 c1; simpl; [|intros HQ; apply run_ret; by rw app_nil_r].
  destruct (retriable e); [|intros HQ; apply run_ret; by rw app_nil_r].
  intros HI. apply (IH _ _ (λ k last s2 c2, I (Datatypes.S k) last s2 (c1 ++ c2))).
  - by rw app_nil_r.
  - intros k last2 s2 c2 Hk HI2. eapply run_mono; [by eapply (Hstep (Datatypes.S k)); [lia|]|].
    intros o s3 c3. by rw !app_assoc.
  - intros last2 s2 c2. apply Hend.
Qed.

(** *** The attempts of a retry loop, one after the other *)

Section attempts.
Context {X : Type} (retriable : error → bool).
Context (once : X → outcome goerror → list Call → X → Prop).

Definition again (o : outcome goerror) : bool :=
  match o with Returns (Some err) => retriable err | _ => false end.

(** At most [n] of them: the last has another outcome than an error that is
    worth a retry, unless the number is exhausted, and each begins where the one
    before it has ended. *)
Inductive attempts : nat → X → outcome goerror → list Call → X → Prop :=
  | attempts_end n x o c x' :
      once x o c x' → n = O ∨ again o = false → attempts (Datatypes.S n) x o c x'
  | attempts_again n x o1 c1 x1 o c x' :
      once x o1 c1 x1 → again o1 = true → attempts n x1 o c x' → attempts (Datatypes.S n) x o (c1 ++ c) x'.

Lemma run_again (view : S → X) (J : S → Prop) (fn : M S goerror) n last s :
  (∀ s, J s → run fn s (λ o s' c, J s' ∧ once (view s) o c (view s'))) → J s →
  run (OnErrorSteps (Datatypes.S n) retriable fn last) s (λ o s' c,
    J s' ∧ attempts (Datatypes.S n) (view s) o c (view s')).
Proof.
  intros Hfn. revert s last. induction n as [|n IH]; intros s last Hs.
  all: cbn [OnErrorSteps]; apply run_seq; eapply run_mono; [by apply Hfn|]; intros o s1 c1 [H1 Ho].
  - destruct o as [[e|]|msg]; [destruct (retriable e)|..]; try (apply run_ret; rw app_nil_r);
      (split; [done|]); constructor; auto.
  - destruct o as [[e|]|msg]; [destruct (retriable e) eqn:Er| |].
    + eapply run_mono; [by apply (IH s1 (Some e))|]. intros o s2 c2 [H2 Ha]. split; [done|]. by eapply attempts_again.
    + apply run_ret. rw app_nil_r. split; [done|]. constructor; [done|by right].
    + apply run_ret. rw app_nil_r. split; [done|]. constructor; [done|by right].
    + split; [done|]. constructor; [done|by right].
Qed.

(** Something that holds of the calls of every attempt. *)
Lemma attempts_calls (P : Call → Prop) n x o c x' :
  (∀ x o c x', once x o c x' → Forall P c) → attempts n x o c x' → Forall P c.
Proof. intros HP. induction 1; [by eapply HP|]. apply Forall_app. split; [by eapply HP|done]. Qed.
End attempts.

(** *** A property of all the calls of a computation, whatever it returns *)

Definition emits {A} (P : Call → Prop) (m : M S A) : Prop :=
  ∀ s, run m s (λ _ _ c, Forall P c).

Lemma emits_mono {A} (P P' : Call → Prop) (m : M S A) :
  (∀ c, P c → P' c) → emits P m → emits P' m.
Proof. intros HP Hm s. eapply run_mono; [apply Hm|]. intros o s' c Hc. exact (Forall_impl _ _ _ Hc HP). Qed.

Lemma emits_bind {A B} P (m : M S A) (f : A → M S B) :
  emits P m → (∀ a, emits P (f a)) → emits P (m ≫= f).
Proof.
  intros Hm Hf s. eapply run_bind; [apply Hm| |done]. intros a s1 c1 H1.
  eapply run_mono; [apply Hf|]. intros o s2 c2 H2. by apply Forall_app.
Qed.

Lemma emits_ret {A} P (a : A) : emits P (mret a).
Proof. intros s. by apply run_ret. Qed.
Lemma emits_lift {A} P (o : outcome A) : emits P (lift o).
Proof. intros s. by apply run_lift. Qed.
Lemma emits_panic {A} P msg : emits P (panic msg : M S A).
Proof. intros s. by apply run_panic. Qed.
Lemma emits_deref {A} P (p : option A) : emits P (deref p).
Proof. destruct p; [apply emits_ret|apply emits_panic]. Qed.

Lemma emits_OnErrorSteps P n (retriable : error → bool) (fn : M S goerror) last :
  emits P fn → emits P (OnErrorSteps n retriable fn last).
Proof.
  intros Hfn s. apply (run_OnErrorSteps _ _ _ _ _ (λ _ _ _ c, Forall P c)); [done| |done].
  intros k last' s1 c1 _ H1. eapply run_mono; [apply Hfn|]. intros o s2 c2 H2.
  assert (Forall P (c1 ++ c2)) by by apply Forall_app. by destruct o as [[e|]|]; [destruct (retriable e)| |].
Qed.
End run.

(** *** Local variables of a closure *)

Section locals.
Context {S L : Type} `{!HasLog S}.

Lemma run_outer {A} (m : M S A) (s : S) (l : L) (Q : outcome A → S * L → list Call → Prop) :
  run m s (λ o s' c, Q o (s', l) c) → run (outer m) (s, l) Q.
Proof.
  intros (c & Hl & HQ). exists c. rw /outer /=. destruct (m s) as [o s'].
  split; [exact Hl|exact HQ].
Qed.

Lemma run_local (s : S) (l : L) (Q : outcome L → S * L → list Call → Prop) :
  Q (Returns l) (s, l) [] → run local (s, l) Q.
Proof. intros HQ. exists []. by rw app_nil_r. Qed.

Lemma run_set_local (s : S) (l l' : L) (Q : outcome unit → S * L → list Call → Prop) :
  Q (Returns tt) (s, l') [] → run (set_local l') (s, l) Q.
Proof. intros HQ. exists []. by rw app_nil_r. Qed.

Lemma run_withLocal {A} (m : M (S * L) A) (s : S) (l : L) (Q : outcome (A * L) → S → list Call → Prop) :
  run m (s, l) (λ o sl c, match o with
                          | Returns a => Q (Returns (a, sl.2)) sl.1 c
                          | Panics e => Q (Panics e) sl.1 c
                          end) →
  run (withLocal l m) s Q.
Proof.
  intros (c & Hl & HQ). exists c. rw /withLocal. destruct (m (s, l)) as [[a|e] [s' l']]; done.
Qed.
End locals.

(** ** The logged services *)

Section traced.
Context {W : Type} `{!Kube W}.

(** A service on the world, with one more entry in the log. *)
Definition logged {A} (call : A → Call) (f : Ext W A) : Ext (W * list Call) A := λ wl,
  let '(a, w) := f (fst wl) in (a, (w, snd wl ++ [call a])).
Definition carriedOut {A} (answer : result A) : bool :=
  match answer with inl _ => false | inr _ => true end.
Definition unlogged {A} (f : Ext W A) : Ext (W * list Call) A := λ wl,
  let '(a, w) := f (fst wl) in (a, (w, snd wl)).

#[export] Instance traced : Kube (W * list Call) := {
  kGet k key := unlogged (kGet k key);
  kList k ns labels := unlogged (kList k ns labels);
  kCreate k o := logged (λ a, Created k o (carriedOut a)) (kCreate k o);
  kUpdate k o := logged (λ a, Updated k o (carriedOut a)) (kUpdate k o);
  kDelete k uid o := logged (λ _, Deleted k uid o) (kDelete k uid o);
  kStatusUpdate r := logged (λ _, StatusUpdated r) (kStatusUpdate r);
  kReaderGet k key := unlogged (kReaderGet k key);
  csGet k key := unlogged (csGet k key);
  csUpdate k ns o := logged (λ _, CsUpdated k ns o) (csUpdate k ns o);
  csDeleteOrphan k key := logged (λ _, CsDeleted k key) (csDeleteOrphan k key);
  kEvent r ty reason msg := logged (λ _, Event ty reason msg) (kEvent r ty reason msg);
  kNow := unlogged kNow;
  kRandRead n := unlogged (kRandRead n);
  kExec ns pod container command := logged (λ _, Exec ns pod container command) (kExec ns pod container command)
}.

Abbreviation St := (Op (W * list Call)).
Abbreviation TRun A := (Run (W * list Call) A).

#[export] Instance op_log : HasLog St := λ s, snd (op_world s).

Lemma run_rmq s (Q : outcome RabbitmqCluster → St → list Call → Prop) :
  Q (Returns (op_rmq s)) s [] → run rmq s Q.
Proof. intros HQ. exists []. by rw app_nil_r. Qed.

Lemma run_set_rmq r s (Q : outcome unit → St → list Call → Prop) :
  Q (Returns tt) (mkOp r (op_world s)) [] → run (set_rmq r) s Q.
Proof. intros HQ. exists []. by rw app_nil_r. Qed.

Lemma run_mod_rmq f s (Q : outcome unit → St → list Call → Prop) :
  Q (Returns tt) (mkOp (f (op_rmq s)) (op_world s)) [] → run (mod_rmq f) s Q.
Proof. intros HQ. exists []. by rw app_nil_r. Qed.

Lemma run_logged {A} call (f : Ext W A) s (Q : outcome A → St → list Call → Prop) :
  (∀ a s', op_rmq s' = op_rmq s → Q (Returns a) s' [call a]) → run (ext (logged call f)) s Q.
Proof.
  intros HQ. destruct s as [r [w l]]. rw /run /ext /logged. simpl.
  destruct (f w) as [a w']. exists [call a]. split; [done|]. by apply HQ.
Qed.

(** The world of the services, without the log. *)
Definition world (s : St) : W := fst (op_world s).

(** Exactly what a call answers and leaves behind. *)
Lemma run_ask {A} (f : Ext W A) s (Q : outcome A → St → list Call → Prop) :
  (∀ s', op_rmq s' = op_rmq s → world s' = (f (world s)).2 → Q (Returns (f (world s)).1) s' []) →
  run (ext (unlogged f)) s Q.
Proof.
  intros HQ. exists []. rw /ext /unlogged. destruct s as [r [w l]]. unfold world in HQ. simpl in *.
  destruct (f w) as [a w']. split; [by rw /log /= app_nil_r|]. by apply HQ.
Qed.

Lemma run_tell {A} call (f : Ext W A) s (Q : outcome A → St → list Call → Prop) :
  (∀ s', op_rmq s' = op_rmq s → world s' = (f (world s)).2 →
     Q (Returns (f (world s)).1) s' [call (f (world s)).1]) → run (ext (logged call f)) s Q.
Proof.
  intros HQ. destruct s as [r [w l]]. unfold world in HQ. rw /run /ext /logged. simpl in *.
  destruct (f w) as [a w']. exists [call a]. split; [done|]. by apply HQ.
Qed.

(** The same, with the answer. *)
Lemma run_unlogged_eq {A} (f : Ext W A) s (Q : outcome A → St → list Call → Prop) :
  (∀ s', op_rmq s' = op_rmq s → Q (Returns (f (fst (op_world s))).1) s' []) →
  run (ext (unlogged f)) s Q.
Proof.
  intros HQ. exists []. rw /ext /unlogged. destruct s as [r [w l]]. simpl in *.
  destruct (f w) as [a w']. split; [by rw /log /= app_nil_r|]. by apply HQ.
Qed.

Lemma run_unlogged {A} (f : Ext W A) s (Q : outcome A → St → list Call → Prop) :
  (∀ a s', op_rmq s' = op_rmq s → Q (Returns a) s' []) → run (ext (unlogged f)) s Q.
Proof.
  intros HQ. exists []. rw /ext /unlogged. destruct s as [r [w l]]. simpl.
  destruct (f w) as [a w']. split; [by rw /log /= app_nil_r|]. by apply HQ.
Qed.

Lemma emits_rmq P : emits P rmq.
Proof. intros s. by apply run_rmq. Qed.
Lemma emits_set_rmq P r : emits P (set_rmq r).
Proof. intros s. by apply run_set_rmq. Qed.
Lemma emits_mod_rmq P f : emits P (mod_rmq f).
Proof. intros s. by apply run_mod_rmq. Qed.
Lemma emits_unlogged {A} P (f : Ext W A) : emits P (ext (unlogged f)).
Proof. intros s. by apply run_unlogged. Qed.
Lemma emits_logged {A} (P : Call → Prop) call (f : Ext W A) : (∀ a, P (call a)) → emits P (ext (logged call f)).
Proof. intros HP s. apply run_logged. intros a s' _. by constructor. Qed.

(** *** Calls that satisfy [P], and the metadata of the cluster stays *)

Definition frames {A} (P : Call → Prop) (m : TRun A) : Prop :=
  ∀ s, run m s (λ _ s' c, Forall P c ∧ rmq_ObjectMeta (op_rmq s') = rmq_ObjectMeta (op_rmq s)).

Lemma frames_mono {A} (P P' : Call → Prop) (m : TRun A) :
  (∀ c, P c → P' c) → frames P m → frames P' m.
Proof.
  intros HP Hm s. eapply run_mono; [apply Hm|]. intros o s' c [Hc ?].
  split; [exact (Forall_impl _ _ _ Hc HP)|done].
Qed.

Lemma frames_emits {A} P (m : TRun A) : frames P m → emits P m.
Proof. intros Hm s. eapply run_mono; [apply Hm|]. by intros o s' c []. Qed.

Lemma frames_bind {A B} P (m : TRun A) (f : A → TRun B) :
  frames P m → (∀ a, frames P (f a)) → frames P (m ≫= f).
Proof.
  intros Hm Hf s. eapply run_bind; [apply Hm| |done]. intros a s1 c1 [H1 E1].
  eapply run_mono; [apply Hf|]. intros o s2 c2 [H2 E2]. rw E2. split; [by apply Forall_app|done].
Qed.

Lemma frames_ret {A} P (a : A) : frames P (mret a).
Proof. intros s. by apply run_ret. Qed.
Lemma frames_lift {A} P (o : outcome A) : frames P (lift o).
Proof. intros s. by apply run_lift. Qed.
Lemma frames_rmq P : frames P rmq.
Proof. intros s. by apply run_rmq. Qed.
Lemma frames_deref {A} P (p : option A) : frames P (deref p).
Proof. intros s. apply run_deref. by destruct p. Qed.
Lemma frames_panic {A} P msg : frames P (panic msg : TRun A).
Proof. intros s. by apply run_panic. Qed.
Lemma frames_mod_rmq P f : (∀ r, rmq_ObjectMeta (f r) = rmq_ObjectMeta r) → frames P (mod_rmq f).
Proof. intros Hf s. apply run_mod_rmq. split; [done|]. apply Hf. Qed.
Lemma frames_unlogged {A} P (f : Ext W A) : frames P (ext (unlogged f)).
Proof. intros s. apply run_unlogged. intros a s' ->. done. Qed.
Lemma frames_logged {A} (P : Call → Prop) call (f : Ext W A) :
  (∀ a, P (call a)) → frames P (ext (logged call f)).
Proof. intros HP s. apply run_logged. intros a s' ->. split; [by constructor|done]. Qed.
End traced.

(** One step of a computation. *)
Ltac step :=
  lazymatch goal with
  | |- run (_ ≫= _) _ _ => apply run_seq; step
  | |- run (mret _) _ _ => apply run_ret
  | |- run rmq _ _ => apply run_rmq
  | |- run (set_rmq _) _ _ => apply run_set_rmq
  | |- run (mod_rmq _) _ _ => apply run_mod_rmq
  | |- run (lift _) _ _ => apply run_lift
  | |- run (deref _) _ _ => apply run_deref
  | |- run (panic _) _ _ => apply run_panic
  | |- run (outer _) _ _ => apply run_outer; step
  | |- run local _ _ => apply run_local
  | |- run (set_local _) _ _ => apply run_set_local
  | |- run (withLocal _ _) _ _ => apply run_withLocal
  | |- run (ext (logged _ _)) _ _ => apply run_logged; intros
  | |- run (ext (unlogged _)) _ _ => apply run_unlogged; intros
  | |- run (ext _) _ _ => first [apply run_logged; intros|apply run_unlogged; intros]
  | _ => idtac
  end; cbn beta iota zeta; cbn [app fst snd].

(** [emits] goals are solved by following the structure of the computation. *)
Create HintDb trace discriminated.
#[export] Hint Resolve emits_ret emits_lift emits_panic emits_rmq emits_set_rmq emits_mod_rmq
  emits_deref emits_unlogged : trace.
#[export] Hint Extern 1 (emits _ (ext (logged _ _))) => apply emits_logged; intros ? : trace.
#[export] Hint Extern 2 (emits _ (_ ≫= _)) => apply emits_bind; [|intros ?] : trace.
#[export] Hint Extern 3 (emits _ (match ?x with _ => _ end)) => destruct x : trace.
#[export] Hint Resolve frames_ret frames_lift frames_rmq frames_deref frames_panic
  frames_unlogged : trace.
#[export] Hint Extern 1 (frames _ (mod_rmq _)) => apply frames_mod_rmq; intros ?; done : trace.
#[export] Hint Extern 1 (frames _ (ext (logged _ _))) => apply frames_logged; intros ? : trace.
#[export] Hint Extern 1 (frames _ (ext _)) => first [apply frames_unlogged|apply frames_logged; intros ?] : trace.
#[export] Hint Extern 2 (frames _ (_ ≫= _)) => apply frames_bind; [|intros ?] : trace.
#[export] Hint Extern 3 (frames _ (match ?x with _ => _ end)) => destruct x : trace.
