(* ===== verification/Scaling.v ===== *)
(** internal/scaling/scaling.go: growing the volumes of a replica, which means
    deleting its StatefulSet without its pods and growing the claims. *)

From S2P Require Import Prelude GoStd K8s V1beta1 Constant Merge Kube Trace.

(** ** Definitions *)

Section scaling.
Context {W : Type} `{!Kube W}.

Definition getStatefulset (statefulsetKey : NamespacedName) : Run W (result StatefulSet) :=
  ext (csGet KStatefulSet statefulsetKey).

(** The request of the first claim template of the name; zero without one. *)
Fixpoint templateCapacity (pvcName : string) (templates : list PersistentVolumeClaim) : Quantity :=
  match templates with
  | [] => 0%Z
  | t :: templates =>
      if (om_Name (pvc_ObjectMeta t) =? pvcName)%string then pvcRequest t
      else templateCapacity pvcName templates
  end.

Definition existingCapacity (pvcName : string) (statefulsetKey : NamespacedName)
    : Run W (result Quantity) :=
  sts ← getStatefulset statefulsetKey;
  match sts with
  | inl err => mret (inl err)
  | inr sts => mret (inr (templateCapacity pvcName (stss_VolumeClaimTemplates (sts_Spec sts))))
  end.

Definition pvcKey (pvcName : string) (sts : StatefulSet) (namespace : string) (i : Z) : NamespacedName :=
  mkNamespacedName namespace (pvcName +:+ "-" +:+ om_Name (sts_ObjectMeta sts) +:+ "-" +:+ Itoa i).

(** The loop over the ordinals of the StatefulSet. *)
Fixpoint getPVCsLoop (pvcName : string) (sts : StatefulSet) (namespace : string) (ords : list Z)
    : Run W (result (list PersistentVolumeClaim)) :=
  match ords with
  | [] => mret (inr [])
  | i :: ords =>
      pvc ← ext (csGet KPVC (pvcKey pvcName sts namespace i));
      match pvc with
      | inr pvc =>
          rest ← getPVCsLoop pvcName sts namespace ords;
          mret (match rest with inl err => inl err | inr pvcs => inr (pvc :: pvcs) end)
      | inl err =>
          if errIsNotFound err then getPVCsLoop pvcName sts namespace ords
          else mret (inl (WrapError "failed to get sts from Kubernetes API: " err))
      end
  end.

Definition getPVCs (pvcName : string) (statefulsetKey : NamespacedName)
    : Run W (result (list PersistentVolumeClaim)) :=
  sts ← getStatefulset statefulsetKey;
  match sts with
  | inl err =>
      if errIsNotFound err then mret (inr [])
      else mret (inl (WrapError "failed to get sts from Kubernetes API: " err))
  | inr sts =>
      replicas ← deref (stss_Replicas (sts_Spec sts));
      getPVCsLoop pvcName sts (nn_Namespace statefulsetKey) (seqZ 0 replicas)
  end.

Definition pvcsNeedingScaling (existingPVCs : list PersistentVolumeClaim) (desiredCapacity : Quantity)
    : list PersistentVolumeClaim :=
  List.filter (λ pvc, Cmp (pvcRequest pvc) desiredCapacity =? -1)%Z existingPVCs.

(** [retryWithInterval]: at most [retry] polls, a pause after each failed one. *)
Fixpoint retryWithInterval (msg : string) (total retry : nat) (f : Run W bool) : Run W goerror :=
  match retry with
  | O => mret (Some (New ("failed to " +:+ msg +:+ " after " +:+ Itoa (Z.of_nat total) +:+ " retries")))
  | S retry =>
      ok ← f;
      if (ok : bool) then mret None else retryWithInterval msg total retry f
  end.

Definition statefulSetGone (statefulsetKey : NamespacedName) : Run W bool :=
  r ← ext (csGet KStatefulSet statefulsetKey);
  mret (match r with inl err => errIsNotFound err | inr _ => false end).

Definition deleteStatefulset (statefulsetKey : NamespacedName) : Run W goerror :=
  err ← ext (csDeleteOrphan KStatefulSet statefulsetKey);
  match err with
  | Some err =>
      mret (Some (WrapError ("failed to delete statefulSet " +:+ nn_Name statefulsetKey +:+ ": ") err))
  | None =>
      err ← retryWithInterval "delete statefulSet" 10 10 (statefulSetGone statefulsetKey);
      match err with
      | Some err =>
          mret (Some (WrapError ("statefulSet not deleting after 30 seconds " +:+
                                 nn_Name statefulsetKey +:+ ": ") err))
      | None => mret None
      end
  end.

Fixpoint scaleUpPVCs (namespace : string) (pvcs : list PersistentVolumeClaim)
    (desiredCapacity : Quantity) : Run W goerror :=
  match pvcs with
  | [] => mret None
  | p :: pvcs =>
      pvc ← ext (csGet KPVC (ObjectKeyFromObject (k := KPVC) p));
      match pvc with
      | inl err => mret (Some (WrapError "failed to get PVC from Kubernetes API: " err))
      | inr pvc =>
          requests ← lift (gm_insert ResourceStorage desiredCapacity (pvcs_Requests (pvc_Spec pvc)));
          let pvc := set_pvc_Spec (set_pvcs_Requests requests (pvc_Spec pvc)) pvc in
          r ← ext (csUpdate KPVC namespace pvc);
          match r with
          | inl err =>
              mret (Some (WrapError ("failed to update PersistentVolumeClaim " +:+
                                     om_Name (pvc_ObjectMeta pvc) +:+ ": ") err))
          | inr _ => scaleUpPVCs namespace pvcs desiredCapacity
          end
      end
  end.

Definition Scale (pvcName : string) (statefulsetKey : NamespacedName) (desiredCapacity : Quantity)
    : Run W goerror :=
  existing ← existingCapacity pvcName statefulsetKey;
  match existing with
  | inl err =>
      if errIsNotFound err then mret None
      else mret (Some (WrapError "failed to determine existing STS capactiy: " err))
  | inr existingCapacity =>
      if (Cmp existingCapacity desiredCapacity =? 0)%Z then mret None else
      if (Cmp existingCapacity desiredCapacity =? 1)%Z
      then mret (Some (New "shrinking persistent volumes is not supported")) else
      if (Cmp existingCapacity 0 =? 0)%Z
      then mret (Some (New "changing from ephemeral to persistent storage is not supported")) else
      existingPVCs ← getPVCs pvcName statefulsetKey;
      match existingPVCs with
      | inl _ =>
          mret (Some (New ("failed to retrieve the existing PVC " +:+ pvcName +:+ " for " +:+
                           nn_Namespace statefulsetKey +:+ "/" +:+ nn_Name statefulsetKey)))
      | inr existingPVCs =>
          match pvcsNeedingScaling existingPVCs desiredCapacity with
          | [] => mret None
          | pvcsToBeScaled =>
              err ← deleteStatefulset statefulsetKey;
              match err with
              | Some err =>
                  mret (Some (WrapError "failed to delete Statefulset from Kubernetes API: " err))
              | None => scaleUpPVCs (nn_Namespace statefulsetKey) pvcsToBeScaled desiredCapacity
              end
          end
      end
  end.

(** ** Lemmas *)

Lemma Cmp_spec q y :
  (Cmp q y = 0 ↔ q = y)%Z ∧ (Cmp q y = 1 ↔ y < q)%Z ∧ (Cmp q y = -1 ↔ q < y)%Z.
Proof. rw /Cmp. destruct (Z.compare_spec q y); split_and!; lia. Qed.

Lemma pvcsNeedingScaling_elem pvcs desired p :
  p ∈ pvcsNeedingScaling pvcs desired ↔ p ∈ pvcs ∧ (pvcRequest p < desired)%Z.
Proof.
  rw /pvcsNeedingScaling !list_elem_of_In filter_In Z.eqb_eq.
  by rw (proj2 (proj2 (Cmp_spec (pvcRequest p) desired))).
Qed.

(** The number of polls, and that the last one succeeded. *)
Lemma retryWithInterval_spec msg total n (f : Run W bool) s :
  (∀ s, ∃ b s', f s = (Returns b, s')) →
  ∃ r s', retryWithInterval msg total n f s = (Returns r, s') ∧
    (r = None → ∃ s1, f s1 = (Returns true, s')).
Proof.
  intros Hf. revert s. induction n as [|n IH]; intros s; simpl.
  - by eexists _, s.
  - destruct (Hf s) as ([] & s1 & E); rw (M_bind_eq _ _ _ _ _ E).
    + exists None, s1. split; [done|]. eauto.
    + apply IH.
Qed.
End scaling.

(** ** Properties *)

Section scaling_properties.
Context {W : Type} `{!Kube W}.
Abbreviation TW := (W * list Call)%type.
Implicit Types (s : Op TW).

Lemma getPVCsLoop_silent pvcName sts ns ords : emits (λ _, False) (getPVCsLoop pvcName sts ns ords : Run TW _).
Proof.
  induction ords as [|i ords IH]; cbn [getPVCsLoop]; [apply emits_ret|].
  apply emits_bind; [apply emits_unlogged|]. intros [err|pvc].
  - destruct (errIsNotFound err); [done|apply emits_ret].
  - apply emits_bind; [done|]. intros. apply emits_ret.
Qed.

Lemma getPVCs_silent pvcName key : emits (λ _, False) (getPVCs pvcName key : Run TW _).
Proof.
  apply emits_bind; [apply emits_unlogged|]. intros [err|sts].
  - destruct (errIsNotFound err); apply emits_ret.
  - apply emits_bind; [apply emits_deref|]. intros. apply getPVCsLoop_silent.
Qed.

Lemma retryWithInterval_silent msg total n (f : Run TW bool) :
  emits (λ _, False) f → emits (λ _, False) (retryWithInterval msg total n f).
Proof.
  intros Hf. induction n as [|n IH]; cbn [retryWithInterval]; [apply emits_ret|].
  apply emits_bind; [done|]. intros []; [apply emits_ret|done].
Qed.

Lemma silent_nil (c : list Call) : Forall (λ _, False) c → c = [].
Proof. by destruct 1. Qed.

(** A write of a claim that asks for the capacity. *)
Definition growsTo (ns : string) (desired : Quantity) (c : Call) : Prop :=
  ∃ p, c = CsUpdated KPVC ns p ∧ pvcRequest p = desired.

Lemma scaleUpPVCs_calls ns pvcs desired :
  emits (growsTo ns desired) (scaleUpPVCs ns pvcs desired : Run TW _).
Proof.
  induction pvcs as [|p pvcs IH]; cbn [scaleUpPVCs]; [apply emits_ret|].
  apply emits_bind; [apply emits_unlogged|]. intros [err|pvc]; [apply emits_ret|].
  unfold gm_insert. destruct (pvcs_Requests (pvc_Spec pvc)) as [rq|].
  - intros s. rw /mbind /M_bind /lift. change (run (r ← ext (csUpdate KPVC ns
      (set_pvc_Spec (set_pvcs_Requests (Some (<[ResourceStorage:=desired]> rq)) (pvc_Spec pvc)) pvc));
      match r with
      | inl err => mret (Some (WrapError ("failed to update PersistentVolumeClaim " +:+
                                     om_Name (pvc_ObjectMeta pvc) +:+ ": ") err))
      | inr _ => scaleUpPVCs ns pvcs desired
      end) s (λ _ _ c, Forall (growsTo ns desired) c)). revert s.
    apply emits_bind; [|intros []; [apply emits_ret|done]].
    apply emits_logged. intros _. eexists. split; [done|].
    by rw /pvcRequest /gm_lookup /= lookup_insert_eq.
  - intros s. rw /mbind /M_bind /lift. by apply (run_panic (A := goerror)).
Qed.

Lemma deleteStatefulset_calls key s :
  run (deleteStatefulset key) s (λ _ _ c, c = [CsDeleted KStatefulSet key]).
Proof.
  eapply run_bind; [apply (run_logged _ _ _ (λ o _ c, c = [CsDeleted KStatefulSet key])); done| |done].
  intros [err|] s1 c1 ->; [by apply run_ret|].
  eapply run_bind; [apply (retryWithInterval_silent "delete statefulSet" 10 10 (statefulSetGone key))| |].
  - apply emits_bind; [apply emits_unlogged|]. intros. apply emits_ret.
  - intros r s2 c2 ->%silent_nil. destruct r; by apply run_ret.
  - by intros e s2 c2 ->%silent_nil.
Qed.

Lemma existingCapacity_run pvcName key s :
  run (existingCapacity pvcName key) s (λ _ _ c, c = []).
Proof.
  eapply run_bind; [by apply (run_unlogged _ _ (λ _ _ c, c = []))| |done].
  intros [err|sts] s1 c1 ->; by apply run_ret.
Qed.

(** The capacity a run of [Scale] finds. *)
Definition foundCapacity (pvcName : string) (key : NamespacedName) s : result Quantity :=
  match (csGet (W := W) KStatefulSet key (fst (op_world s))).1 with
  | inl err => inl err
  | inr sts => inr (templateCapacity pvcName (stss_VolumeClaimTemplates (sts_Spec sts)))
  end.

(** C19: scaling the volumes of a replica changes nothing in the cluster unless
    the found capacity is not zero and smaller than the desired one; then it
    first deletes the StatefulSet, leaving its pods, and only after that
    writes claims, each of them with exactly the desired capacity.  It never
    shrinks: a smaller desired capacity is refused, as is one for a replica
    without storage, and a missing StatefulSet or an equal capacity is done. *)
Theorem Scale_calls pvcName key desired s :
  run (Scale pvcName key desired) s (λ o s' calls,
    (calls = [] ∨ ∃ current rest,
       foundCapacity pvcName key s = inr current ∧ current ≠ 0%Z ∧ (current < desired)%Z ∧
       calls = CsDeleted KStatefulSet key :: rest ∧ Forall (growsTo (nn_Namespace key) desired) rest) ∧
    match foundCapacity pvcName key s with
    | inl err => if errIsNotFound err then o = Returns None
                 else o = Returns (Some (WrapError "failed to determine existing STS capactiy: " err))
    | inr current =>
        (current = desired → o = Returns None) ∧
        ((desired < current)%Z →
           o = Returns (Some (New "shrinking persistent volumes is not supported"))) ∧
        (current = 0%Z → (0 < desired)%Z →
           o = Returns (Some (New "changing from ephemeral to persistent storage is not supported")))
    end).
Proof.
  unfold Scale. eapply (run_bind _ _ _ (λ o s1 c, c = [] ∧ o = Returns (foundCapacity pvcName key s))).
  { rw /existingCapacity /getStatefulset /foundCapacity.
    exists []. rw /mbind /M_bind /ext /= /unlogged. destruct s as [r [w l]]. simpl.
    destruct (csGet KStatefulSet key w) as [[err|sts] w']; simpl; by rw /log /= app_nil_r. }
  2: by intros e s1 c1 [_ ?].
  intros a s1 c1 [-> [= ->]]. cbn [app]. destruct (foundCapacity pvcName key s) as [err|current].
  { destruct (errIsNotFound err); apply run_ret; by split; [left|]. }
  destruct (Cmp_spec current desired) as (C0 & C1 & _). destruct (Cmp_spec current 0) as (Z0 & _).
  destruct (Z.eqb_spec (Cmp current desired) 0) as [E0|N0].
  { apply C0 in E0. apply run_ret. split; [by left|]. split_and!; [done|lia|lia]. }
  destruct (Z.eqb_spec (Cmp current desired) 1) as [E1|N1].
  { apply C1 in E1. apply run_ret. split; [by left|]. split_and!; [lia|done|lia]. }
  destruct (Z.eqb_spec (Cmp current 0) 0) as [Ez|Nz].
  { apply Z0 in Ez. apply run_ret. split; [by left|]. split_and!; [lia|lia|done]. }
  assert (current ≠ 0 ∧ current < desired)%Z as [Hc0 Hlt] by (split; lia).
  eapply run_bind; [apply getPVCs_silent| |].
  2: { intros e s2 c2 ->%silent_nil. split; [by left|]. split_and!; lia. }
  intros [err|pvcs] s2 c2 ->%silent_nil; cbn [app].
  { apply run_ret. split; [by left|]. split_and!; lia. }
  destruct (pvcsNeedingScaling pvcs desired) as [|p ps].
  { apply run_ret. split; [by left|]. split_and!; lia. }
  eapply run_bind; [apply deleteStatefulset_calls| |].
  - intros [err|] s3 c3 ->.
    + apply run_ret. split; [|split_and!; lia]. right. by exists current, [].
    + eapply run_mono; [apply scaleUpPVCs_calls|]. intros o s4 c4 H4.
      split; [|split_and!; lia]. right. by exists current, c4.
  - intros e s3 c3 ->. split; [|split_and!; lia]. right. by exists current, [].
Qed.

(** *** The claims of a replica *)

(** The claim of a pod of the StatefulSet, by the name it is generated with. *)
Definition claimKey (pvcName : string) (key : NamespacedName) (j : Z) : NamespacedName :=
  mkNamespacedName (nn_Namespace key) (pvcName +:+ "-" +:+ nn_Name key +:+ "-" +:+ Itoa j).

Definition claimOf (pvcName : string) (key : NamespacedName) (p : PersistentVolumeClaim) : Prop :=
  ∃ j, (0 ≤ j)%Z ∧ ObjectKeyFromObject (k := KPVC) p = claimKey pvcName key j.

(** Nothing, or the deletion of the StatefulSet and then writes of its claims
    with the capacity. *)
Definition scales (pvcName : string) (key : NamespacedName) (desired : Quantity) (calls : list Call) : Prop :=
  calls = [] ∨ ∃ rest, calls = CsDeleted KStatefulSet key :: rest ∧
    Forall (λ c, ∃ p, c = CsUpdated KPVC (nn_Namespace key) p ∧ claimOf pvcName key p ∧ pvcRequest p = desired) rest.

Section claims.
Context `{!CsGetLaw W}.

Lemma run_csGet k key s (Q : outcome (result (Obj k)) → Op TW → list Call → Prop) :
  (∀ err s', Q (Returns (inl err)) s' []) → (∀ o s', ObjectKeyFromObject o = key → Q (Returns (inr o)) s' []) →
  run (ext (csGet k key)) s Q.
Proof.
  intros Herr Hok. apply run_ask. intros s' _ _. destruct (csGet k key (world s)).1 as [err|o] eqn:E; [apply Herr|].
  apply Hok. by eapply csGet_key.
Qed.

Lemma getPVCsLoop_claims pvcName key sts ords s :
  ObjectKeyFromObject (k := KStatefulSet) sts = key → Forall (λ j, 0 ≤ j)%Z ords →
  run (getPVCsLoop pvcName sts (nn_Namespace key) ords) s (λ o _ c,
    c = [] ∧ ∀ pvcs, o = Returns (inr pvcs) → Forall (claimOf pvcName key) pvcs).
Proof.
  intros <- Hords. revert s. induction Hords as [|j ords Hj _ IH]; intros s; cbn [getPVCsLoop].
  { apply run_ret. split; [done|]. by intros ? [= <-]. }
  apply run_seq, (run_csGet KPVC); cbn beta iota.
  - intros err s1. destruct (errIsNotFound err); [apply IH|]. by apply run_ret.
  - intros p s1 Hp. apply run_seq. eapply run_mono; [apply IH|]. intros [[err|pvcs]|msg] s2 c [-> Hc]; [|..|done];
      apply run_ret; (split; [done|]); [done|]. intros ? [= <-]. constructor; [by exists j|by apply Hc].
Qed.

Lemma getPVCs_claims pvcName key s :
  run (getPVCs pvcName key) s (λ o _ c, c = [] ∧ ∀ pvcs, o = Returns (inr pvcs) → Forall (claimOf pvcName key) pvcs).
Proof.
  unfold getPVCs, getStatefulset. apply run_seq, (run_csGet KStatefulSet); cbn beta iota.
  - intros err s1. destruct (errIsNotFound err); apply run_ret; (split; [done|]); [by intros ? [= <-]|done].
  - intros sts s1 Hk. apply run_seq, run_deref. destruct (stss_Replicas (sts_Spec sts)) as [n|]; [|done].
    cbn beta iota. apply getPVCsLoop_claims; [done|]. apply Forall_forall. intros j Hj%elem_of_seqZ. lia.
Qed.

Lemma scaleUpPVCs_claims pvcName key pvcs desired s :
  Forall (claimOf pvcName key) pvcs →
  run (scaleUpPVCs (nn_Namespace key) pvcs desired) s (λ _ _ c, Forall (λ c,
    ∃ p, c = CsUpdated KPVC (nn_Namespace key) p ∧ claimOf pvcName key p ∧ pvcRequest p = desired) c).
Proof.
  intros HF. revert s. induction HF as [|p pvcs (j & Hj & Hp) _ IH]; intros s; cbn [scaleUpPVCs]; [by apply run_ret|].
  apply run_seq, (run_csGet KPVC); cbn beta iota; [intros err s1; by apply run_ret|]. intros q s1 Hq.
  apply run_seq, run_lift. unfold gm_insert. destruct (pvcs_Requests (pvc_Spec q)) as [rq|]; [|by constructor].
  cbn beta iota. set (q' := set_pvc_Spec _ q). apply run_seq, run_logged. intros a s2 _. cbn beta iota.
  assert (∃ p, CsUpdated KPVC (nn_Namespace key) q' = CsUpdated KPVC (nn_Namespace key) p ∧
    claimOf pvcName key p ∧ pvcRequest p = desired) as Hone.
  { exists q'. split; [done|]. split; [exists j; split; [done|]; by rw -Hp -Hq|].
    by rw /q' /pvcRequest /gm_lookup /= lookup_insert_eq. }
  destruct a as [err|]; cbn beta iota; [apply run_ret; by constructor|].
  eapply run_mono; [apply IH|]. intros out s3 c Hc. by constructor.
Qed.

Lemma Scale_scales pvcName key desired s :
  run (Scale pvcName key desired) s (λ _ _ c, scales pvcName key desired c).
Proof.
  unfold Scale. apply run_seq. eapply run_mono; [apply existingCapacity_run|]. intros [[err|current]|msg] s1 c1 ->.
  - destruct (errIsNotFound err); apply run_ret; by left.
  - cbn [app]. do 3 (destruct (Z.eqb _ _); [apply run_ret; by left|]).
    apply run_seq. eapply run_mono; [apply getPVCs_claims|]. intros [[err|pvcs]|msg] s2 c2 [-> Hc]; [|..|by left].
    { apply run_ret. by left. }
    assert (Forall (claimOf pvcName key) (pvcsNeedingScaling pvcs desired)) as Hneed.
    { specialize (Hc _ eq_refl). apply Forall_forall. intros p [Hp _]%pvcsNeedingScaling_elem.
      by eapply Forall_forall in Hc. }
    destruct (pvcsNeedingScaling pvcs desired) as [|p ps]; [apply run_ret; by left|].
    apply run_seq. eapply run_mono; [apply deleteStatefulset_calls|]. intros [[err|]|msg] s3 c3 ->.
    + apply run_ret. right. by exists [].
    + eapply run_mono; [by apply scaleUpPVCs_claims|]. intros o s4 c4 H4. right. by exists c4.
    + right. by exists [].
  - by left.
Qed.
End claims.
End scaling_properties.
