(* ===== verification/ControllerUtils.v ===== *)
(** controllers/utils.go, controllers/pod_executor.go and the field index of
    controllers/rabbitmqcluster_controller.go: what the reconcile steps share. *)

From S2P Require Import Prelude GoStd K8s V1beta1 Constant Metadata Merge Kube Controllerutil Trace.
From S2P Require Import Result Status.

(** ** Annotations *)

Definition set_annotations {k} (annotations : gomap string) (o : Obj k) : Obj k :=
  set_meta (set_om_Annotations annotations (meta o)) o.

Definition annotations {k} (o : Obj k) : gomap string := om_Annotations (meta o).

(** [annotations[key] = value] after [if annotations == nil { make }]. *)
Definition annotate {k} (key value : string) (o : Obj k) : Obj k :=
  set_annotations (Some (<[key := value]> (gm (annotations o)))) o.

Definition errorIsConflictOrNotFound (err : error) : bool := errIsConflict err || errIsNotFound err.

Section utils.
Context {W : Type} `{!Kube W}.

(** [r.Update(ctx, obj)]: on success the object holds the server's answer. *)
Definition update {k} (o : Obj k) : Run W (Obj k * goerror) :=
  r ← ext (kUpdate k o);
  mret (match r with inl err => (o, Some err) | inr o' => (o', None) end).

(** [r.Update(ctx, rmq)] of the shared cluster object. *)
Definition updateRmq : Run W goerror :=
  r ← rmq;
  u ← update (k := KRabbitmqCluster) r;
  _ ← set_rmq u.1;
  mret u.2.

(** [r.Status().Update(ctx, rmq)]. *)
Definition statusUpdateRmq : Run W goerror :=
  r ← rmq;
  u ← ext (kStatusUpdate r);
  match u with
  | inl err => mret (Some err)
  | inr r' => _ ← set_rmq r'; mret None
  end.

Definition event (eventtype reason msg : string) : Run W unit :=
  r ← rmq; ext (kEvent r eventtype reason msg).

(** [status.SetCondition(&rmq.Status, ...)]. *)
Definition setCondition (condType condStatus reason : string) (messages : list string) : Run W unit :=
  now ← ext kNow;
  mod_rmq (λ r, set_rmq_Status (SetCondition now condType condStatus reason messages (rmq_Status r)) r).

Definition exec (namespace podName containerName : string) (command : list string)
    : Run W (string * string * goerror) :=
  ext (kExec namespace podName containerName command).

(** The object afterwards and the error. *)
Definition deleteAnnotation {k} (obj : Obj k) (annotation : string) : Run W (Obj k * goerror) :=
  match annotations obj with
  | None => mret (obj, None)
  | Some _ => update (set_annotations (gm_delete annotation (annotations obj)) obj)
  end.

(** One attempt; [Get] overwrites the object that [updateAnnotation] was given. *)
Definition updateAnnotationOnce (k : Kind) (namespace objName key value : string) : Run W goerror :=
  got ← ext (kGet k (mkNamespacedName namespace objName));
  match got with
  | inl err => mret (Some err)
  | inr obj => u ← update (annotate key value obj); mret u.2
  end.

Definition updateAnnotation (k : Kind) (namespace objName key value : string) : Run W goerror :=
  OnError errorIsConflictOrNotFound (updateAnnotationOnce k namespace objName key value).

(** ** Reading the children *)

(** The two results of a call that lists: without an error the items, with one
    the empty list. *)
Definition errorOf {A} (r : result A) : goerror := match r with inl err => Some err | inr _ => None end.
Definition itemsOf {A} (r : result (list A)) : list A := match r with inl _ => [] | inr items => items end.

Definition configMapServer : Run W (result ConfigMap) :=
  r ← rmq;
  ext (kGet KConfigMap (mkNamespacedName (rmq_Namespace r)
    (ChildResourceName r ResourceServerConfigMapSuffix))).

Definition configMapPlugins : Run W (result ConfigMap) :=
  r ← rmq;
  ext (kGet KConfigMap (mkNamespacedName (rmq_Namespace r)
    (ChildResourceName r ResourcePluginConfigMapSuffix))).

Definition statefulSet (key : NamespacedName) : Run W (result StatefulSet) :=
  ext (kGet KStatefulSet key).

(** The list is read before [Items] of the returned pair is evaluated. *)
Definition statefulSets : Run W (result (list StatefulSet)) :=
  r ← rmq;
  ext (kList KStatefulSet (Some (rmq_Namespace r)) (Metadata.LabelSelector (rmq_Name r))).
End utils.

(** ** Predicates on StatefulSets *)

(** The UID, when the controller reference names the cluster's UID. *)
Definition statefulSetUID (sts : StatefulSet) (r : RabbitmqCluster) : result string :=
  match GetControllerOf (sts_ObjectMeta sts) with
  | None => inl (New ("failed to get controller reference for statefulSet " +:+ om_Name (sts_ObjectMeta sts)))
  | Some ref =>
      if negb (om_UID (rmq_ObjectMeta r) =? or_UID ref)%string
      then inl (New ("statefulSet " +:+ om_Name (sts_ObjectMeta sts) +:+
                     " not owned by current RabbitmqCluster " +:+ rmq_Name r))
      else inr (om_UID (sts_ObjectMeta sts))
  end.

Definition statefulSetBeingUpdated (sts : StatefulSet) : bool :=
  negb (stst_CurrentRevision (sts_Status sts) =? stst_UpdateRevision (sts_Status sts))%string.

Fixpoint allReplicasReadyAndUpdated (statefulsets : list StatefulSet) : outcome bool :=
  match statefulsets with
  | [] => Returns true
  | sts :: statefulsets =>
      if statefulSetBeingUpdated sts then Returns false else
      replicas ← derefO (stss_Replicas (sts_Spec sts));
      if negb (stst_ReadyReplicas (sts_Status sts) =? replicas)%Z then Returns false
      else allReplicasReadyAndUpdated statefulsets
  end.

Definition statefulSetNeedsQueueRebalance (sts : StatefulSet) (r : RabbitmqCluster) : outcome bool :=
  if statefulSetBeingUpdated sts && negb (rs_SkipPostDeploySteps (rmq_Spec r))
  then replicas ← derefO (rs_Replicas (rmq_Spec r)); Returns (1 <? replicas)%Z
  else Returns false.

Fixpoint persistenceStorageCapacity (name : string) (templates : list PersistentVolumeClaim) : Quantity :=
  match templates with
  | [] => 0%Z
  | t :: templates =>
      if (om_Name (pvc_ObjectMeta t) =? name)%string then pvcRequest t
      else persistenceStorageCapacity name templates
  end.

(** ** The field index of the manager *)

Definition apiGVStr : string := GroupVersion.
Definition ownerKind : string := "RabbitmqCluster".

Definition validateAndGetOwner (owner : option OwnerReference) : list string :=
  match owner with
  | None => []
  | Some owner =>
      if negb (or_APIVersion owner =? apiGVStr)%string || negb (or_Kind owner =? ownerKind)%string
      then [] else [or_Name owner]
  end.

Definition addResourceToIndex {k} (rawObj : Obj k) : list string :=
  match k with
  | KStatefulSet | KConfigMap | KService | KRole | KRoleBinding | KServiceAccount | KSecret =>
      validateAndGetOwner (GetControllerOf (meta rawObj))
  | _ => []
  end.

(** ** Lemmas *)

Lemma meta_set_annotations k m (o : Obj k) :
  meta (set_annotations m o) = set_om_Annotations m (meta o).
Proof. by rw /set_annotations meta_set_meta. Qed.

Lemma annotate_key k key value (o : Obj k) :
  ObjectKeyFromObject (annotate key value o) = ObjectKeyFromObject o.
Proof. by rw /ObjectKeyFromObject /annotate meta_set_annotations. Qed.

Lemma annotate_lookup k key value (o : Obj k) key' :
  gm_lookup (annotations (annotate key value o)) key' =
  if decide (key = key') then Some value else gm_lookup (annotations o) key'.
Proof. rw /annotate /annotations meta_set_annotations /gm_lookup /=. apply lookup_insert. Qed.

Lemma allReplicasReadyAndUpdated_true stss :
  allReplicasReadyAndUpdated stss = Returns true ↔
  Forall (λ sts, stst_CurrentRevision (sts_Status sts) = stst_UpdateRevision (sts_Status sts) ∧
                 stss_Replicas (sts_Spec sts) = Some (stst_ReadyReplicas (sts_Status sts))) stss.
Proof.
  induction stss as [|sts stss IH]; simpl; [by rw Forall_nil|].
  rw Forall_cons -IH /statefulSetBeingUpdated.
  destruct (String.eqb_spec (stst_CurrentRevision (sts_Status sts)) (stst_UpdateRevision (sts_Status sts)))
    as [->|]; simpl; [|naive_solver].
  destruct (stss_Replicas (sts_Spec sts)) as [n|]; simpl; [|naive_solver].
  rw /mbind /outcome_bind. destruct (Z.eqb_spec (stst_ReadyReplicas (sts_Status sts)) n) as [->|]; simpl; naive_solver.
Qed.

Lemma allReplicasReadyAndUpdated_total stss :
  Forall (λ sts, is_Some (stss_Replicas (sts_Spec sts))) stss →
  ∃ b, allReplicasReadyAndUpdated stss = Returns b.
Proof.
  induction 1 as [|sts stss [n Hn] _ IH]; simpl; [by eexists|].
  destruct (statefulSetBeingUpdated sts); [by eexists|]. rw Hn /= /mbind /outcome_bind.
  destruct (negb _); [by eexists|done].
Qed.

Section utils_lemmas.
Context {W : Type} `{!Kube W}.
Abbreviation TW := (W * list Call)%type.
Implicit Types (s : Op TW).

Lemma run_update {k} (o : Obj k) s (Q : outcome (Obj k * goerror) → Op TW → list Call → Prop) :
  (∀ o' s', op_rmq s' = op_rmq s → Q (Returns (o', None)) s' [Updated k o true]) →
  (∀ err s', op_rmq s' = op_rmq s → Q (Returns (o, Some err)) s' [Updated k o false]) →
  run (update o) s Q.
Proof.
  intros Hok Herr. unfold update. step. destruct a as [err|o']; step; [by apply Herr|by apply Hok].
Qed.

(** The update of an object in a given world, with its answer. *)
Lemma run_update_at {k} (o : Obj k) s (Q : outcome (Obj k * goerror) → Op TW → list Call → Prop) :
  (∀ s', op_rmq s' = op_rmq s → world s' = (kUpdate k o (world s)).2 →
     Q (Returns (match (kUpdate k o (world s)).1 with inl err => (o, Some err) | inr o' => (o', None) end)) s'
       [Updated k o (carriedOut (kUpdate k o (world s)).1)]) →
  run (update o) s Q.
Proof.
  intros HQ. unfold update. apply run_seq, run_tell. intros s' Hs' Hw. cbn beta iota. apply run_ret. by apply HQ.
Qed.

(** The update of the cluster, likewise. *)
Lemma run_updateRmq_at s (Q : outcome goerror → Op TW → list Call → Prop) :
  let r := op_rmq s in
  let answer := (kUpdate KRabbitmqCluster r (world s)).1 in
  (∀ s', world s' = (kUpdate KRabbitmqCluster r (world s)).2 →
     op_rmq s' = match answer with inl _ => r | inr r' => r' end →
     Q (Returns (errorOf answer)) s' [Updated KRabbitmqCluster r (carriedOut answer)]) →
  run updateRmq s Q.
Proof.
  cbv zeta. intros HQ. unfold updateRmq. apply run_seq, run_rmq. cbn beta iota.
  apply run_seq, (run_update_at (k := KRabbitmqCluster)). intros s1 Hs1 Hw1. cbn beta iota. step. step.
  destruct (kUpdate _ _ _).1 as [err|r'] eqn:E; cbn [fst snd]; by apply HQ.
Qed.

Lemma run_updateRmq s (Q : outcome goerror → Op TW → list Call → Prop) :
  (∀ s', Q (Returns None) s' [Updated KRabbitmqCluster (op_rmq s) true]) →
  (∀ err s', op_rmq s' = op_rmq s →
     Q (Returns (Some err)) s' [Updated KRabbitmqCluster (op_rmq s) false]) →
  run updateRmq s Q.
Proof.
  intros Hok Herr. unfold updateRmq. step. step. apply (run_update (k := KRabbitmqCluster)); intros; step; step; [apply Hok|by apply Herr].
Qed.

Lemma run_statusUpdateRmq s (Q : outcome goerror → Op TW → list Call → Prop) :
  (∀ s', Q (Returns None) s' [StatusUpdated (op_rmq s)]) →
  (∀ err s', op_rmq s' = op_rmq s → Q (Returns (Some err)) s' [StatusUpdated (op_rmq s)]) →
  run statusUpdateRmq s Q.
Proof.
  intros Hok Herr. unfold statusUpdateRmq. step. step. destruct a as [err|r']; step; [by apply Herr|].
  step. apply Hok.
Qed.

Lemma run_event ty reason msg s (Q : outcome unit → Op TW → list Call → Prop) :
  (∀ s', op_rmq s' = op_rmq s → Q (Returns tt) s' [Event ty reason msg]) →
  run (event ty reason msg) s Q.
Proof. intros HQ. unfold event. step. step. destruct a. by apply HQ. Qed.

Lemma run_setCondition ty st reason msgs s (Q : outcome unit → Op TW → list Call → Prop) :
  (∀ now s', op_rmq s' = set_rmq_Status (SetCondition now ty st reason msgs (rmq_Status (op_rmq s)))
                           (op_rmq s) → Q (Returns tt) s' []) →
  run (setCondition ty st reason msgs) s Q.
Proof. intros HQ. unfold setCondition. step. step. apply (HQ a). cbn [op_rmq]. congruence. Qed.

Lemma run_get_eq `{!GetLaw W} k key s (Q : outcome (result (Obj k)) → Op TW → list Call → Prop) :
  (∀ err s', op_rmq s' = op_rmq s → (kGet (W := W) k key (fst (op_world s))).1 = inl err →
     Q (Returns (inl err)) s' []) →
  (∀ o s', op_rmq s' = op_rmq s → (kGet (W := W) k key (fst (op_world s))).1 = inr o →
     ObjectKeyFromObject o = key → Q (Returns (inr o)) s' []) →
  run (ext (kGet k key)) s Q.
Proof.
  intros Herr Hok. exists []. rw /ext /= /unlogged. destruct s as [r [w l]]. simpl in *.
  destruct (kGet k key w) as [[err|o] w'] eqn:E; simpl in *; rw /log /= app_nil_r; split; try done.
  - by apply Herr.
  - apply Hok; [done..|]. by eapply get_key.
Qed.

Lemma run_get `{!GetLaw W} k key s (Q : outcome (result (Obj k)) → Op TW → list Call → Prop) :
  (∀ err s', op_rmq s' = op_rmq s → Q (Returns (inl err)) s' []) →
  (∀ o s', op_rmq s' = op_rmq s → ObjectKeyFromObject o = key → Q (Returns (inr o)) s' []) →
  run (ext (kGet k key)) s Q.
Proof. intros Herr Hok. apply run_get_eq; eauto. Qed.

(** The StatefulSets of the cluster that the client lists. *)
Definition listed s : result (list StatefulSet) :=
  (kList (W := W) KStatefulSet (Some (rmq_Namespace (op_rmq s)))
     (Metadata.LabelSelector (rmq_Name (op_rmq s))) (fst (op_world s))).1.

(** The world after that. *)
Definition afterList s : W :=
  (kList (W := W) KStatefulSet (Some (rmq_Namespace (op_rmq s)))
     (Metadata.LabelSelector (rmq_Name (op_rmq s))) (world s)).2.

Lemma run_statefulSets_at s (Q : outcome (result (list StatefulSet)) → Op TW → list Call → Prop) :
  (∀ s', op_rmq s' = op_rmq s → world s' = afterList s → Q (Returns (listed s)) s' []) → run statefulSets s Q.
Proof. intros HQ. unfold statefulSets. apply run_seq, run_rmq. cbn beta iota. apply run_ask. intros s' Hs' Hw. by apply HQ. Qed.

Lemma run_statefulSets s (Q : outcome (result (list StatefulSet)) → Op TW → list Call → Prop) :
  (∀ s', op_rmq s' = op_rmq s → Q (Returns (listed s)) s' []) → run statefulSets s Q.
Proof.
  intros HQ. unfold statefulSets. step. exists []. rw /listed in HQ. rw /ext /= /unlogged.
  destruct s as [r [w l]]. simpl in *. destruct (kList _ _ _ w) as [a w']; simpl in *.
  rw /log /= app_nil_r. split; [done|]. by apply HQ.
Qed.

(** *** One attempt of [updateAnnotation] *)
Definition annotates (k : Kind) (ns name key value : string) (done : bool) (c : Call) : Prop :=
  ∃ obj, c = Updated k (annotate key value obj) done ∧
         ObjectKeyFromObject obj = mkNamespacedName ns name.

Lemma run_updateAnnotation `{!GetLaw W} k ns name key value s
    (Q : outcome goerror → Op TW → list Call → Prop) :
  (∀ s' pre last, op_rmq s' = op_rmq s → (length pre < DefaultRetrySteps)%nat →
     Forall (annotates k ns name key value false) pre →
     annotates k ns name key value true last → Q (Returns None) s' (pre ++ [last])) →
  (∀ err s' calls, op_rmq s' = op_rmq s → (length calls ≤ DefaultRetrySteps)%nat →
     Forall (annotates k ns name key value false) calls → Q (Returns (Some err)) s' calls) →
  run (updateAnnotation k ns name key value) s Q.
Proof.
  intros Hok Herr. unfold updateAnnotation, OnError.
  apply (run_OnErrorSteps _ _ _ _ _ (λ n last s' c, op_rmq s' = op_rmq s ∧ (length c ≤ n)%nat ∧
    Forall (annotates k ns name key value false) c ∧ (n = O ∨ is_Some last))).
  - split_and!; try done. by left.
  - intros n last s1 c1 Hn (Hs1 & Hl & HF & _). unfold updateAnnotationOnce. apply run_seq, run_get.
    + intros err s2 Hs2. cbn beta iota. apply run_ret. cbn [app]. rw app_nil_r.
      destruct (errorIsConflictOrNotFound err).
      * split_and!; [congruence|lia|done|by right].
      * apply Herr; [congruence|unfold DefaultRetrySteps in *; lia|done].
    + intros o s2 Hs2 Hkey. cbn beta iota. apply run_seq, run_update; intros; step; cbn [app].
      * apply Hok; [congruence|unfold DefaultRetrySteps in *; lia|done|by exists o].
      * assert (Forall (annotates k ns name key value false) (c1 ++ [Updated k (annotate key value o) false])).
        { apply Forall_app. split; [done|]. constructor; [by exists o|done]. }
        assert (length (c1 ++ [Updated k (annotate key value o) false]) ≤ S n)%nat
          by (rw length_app /=; lia).
        destruct (errorIsConflictOrNotFound err); [split_and!; [congruence|done|done|by right]|].
        apply Herr; [congruence|unfold DefaultRetrySteps in *; lia|done].
  - intros last s1 c1 (Hs1 & Hl & HF & [|[err ->]]); [done|]. by apply Herr.
Qed.
End utils_lemmas.

(** ** Properties *)

Section utils_properties.
Context {W : Type} `{!Kube W, !GetLaw W}.

(** Annotating an object never panics and leaves the cluster object as it
    is; it sends at most five updates, every one of the object that was asked
    for, with the annotation at the value and every other annotation as it was
    read; it succeeds exactly when the last update is carried out, and no other
    one is. *)
Theorem updateAnnotation_spec k ns name key value (s : Op (W * list Call)) :
  run (updateAnnotation k ns name key value) s (λ o s' calls,
    op_rmq s' = op_rmq s ∧ (length calls ≤ 5)%nat ∧
    Forall (λ c, ∃ (obj obj' : Obj k) done, c = Updated k obj' done ∧
      ObjectKeyFromObject obj' = mkNamespacedName ns name ∧
      meta obj' = set_om_Annotations (annotations obj') (meta obj) ∧
      ∀ key', gm_lookup (annotations obj') key' =
              if decide (key = key') then Some value else gm_lookup (annotations obj) key') calls ∧
    ∃ err, o = Returns err ∧
      (err = None ↔ ∃ pre obj', calls = pre ++ [Updated k obj' true]) ∧
      ∀ pre c post, calls = pre ++ c :: post → post ≠ [] → ∃ obj', c = Updated k obj' false).
Proof.
  assert (∀ done c, annotates k ns name key value done c →
    ∃ (obj obj' : Obj k) done, c = Updated k obj' done ∧ ObjectKeyFromObject obj' = mkNamespacedName ns name ∧
      meta obj' = set_om_Annotations (annotations obj') (meta obj) ∧
      ∀ key', gm_lookup (annotations obj') key' =
              if decide (key = key') then Some value else gm_lookup (annotations obj) key') as Hform.
  { intros d c (obj & -> & Hkey). exists obj, (annotate key value obj), d. rw annotate_key.
    split_and!; [done|done| |apply annotate_lookup].
    by rw /annotate /annotations !meta_set_annotations. }
  assert (∀ l, Forall (annotates k ns name key value false) l →
    ∀ c, c ∈ l → ∃ obj', c = Updated k obj' false) as Hfailed.
  { intros l HF c Hc. eapply Forall_forall in HF as (obj & -> & _); [by eexists|done]. }
  apply run_updateAnnotation.
  - intros s' pre last Hs Hl HF Hlast. split_and!; [done|rw length_app /=; unfold DefaultRetrySteps in Hl; lia| |].
    { apply Forall_app. split; [by eapply Forall_impl; [|apply Hform]|].
      constructor; [by eapply Hform|done]. }
    exists None. split_and!; [done| |].
    + split; [|done]. intros _. destruct Hlast as (obj & -> & _). by exists pre, (annotate key value obj).
    + intros pre' c post E Hpost. apply (Hfailed pre HF).
      destruct post as [|x post _] using rev_ind; [done|].
      rw app_comm_cons app_assoc in E. apply app_inj_tail in E as [-> _]. set_solver.
  - intros err s' calls Hs Hl HF. split_and!; [done|done|by eapply Forall_impl; [|apply Hform]|].
    exists (Some err). split_and!; [done| |].
    + split; [done|]. intros (pre & obj' & ->). exfalso.
      destruct (Hfailed _ HF (Updated k obj' true)) as [? E]; [set_solver|].
      by injection E.
    + intros pre c post -> Hpost. apply (Hfailed _ HF). set_solver.
Qed.
End utils_properties.
