(* ===== verification/Configurations.v ===== *)
(** controllers/reconcile_rabbitmq_configurations.go: the annotations with which
    one reconciliation leaves work for a later one. *)

From S2P Require Import Prelude GoStd GoTime K8s V1beta1 Constant Kube Builders Trace Result Status.
From S2P Require Import ControllerUtils.

(** ** Definitions *)

Definition pluginsUpdateAnnotation : string := "rabbitmq.com/pluginsUpdatedAt".
Definition serverConfAnnotation : string := "rabbitmq.com/serverConfUpdatedAt".
Definition stsRestartAnnotation : string := "rabbitmq.com/lastRestartAt".
Definition stsCreateAnnotation : string := "rabbitmq.com/createdAt".
Definition queueRebalanceAnnotation : string := "rabbitmq.com/queueRebalanceNeededAt".

(** [controllerutil.OperationResult]. *)
Inductive OperationResult :=
  | OperationResultNone | OperationResultCreated | OperationResultUpdated.

#[export] Instance OperationResult_eq_dec : EqDecision OperationResult.
Proof. solve_decision. Defined.

(** The loop that breaks at the first StatefulSet that needs it. *)
Fixpoint anyNeedsRebalance (statefulsets : list StatefulSet) (r : RabbitmqCluster) : outcome bool :=
  match statefulsets with
  | [] => Returns false
  | sts :: statefulsets =>
      b ← statefulSetNeedsQueueRebalance sts r;
      if (b : bool) then Returns true else anyNeedsRebalance statefulsets r
  end.

(** [obj.Annotations[key] != ""], false on a nil map. *)
Definition hasFlag {k} (o : Obj k) (key : string) : bool :=
  match annotations o with
  | None => false
  | Some _ => negb (gm_get (annotations o) key =? "")%string
  end.

Definition statefulsetCreated (sts : StatefulSet) : bool :=
  hasFlag (k := KStatefulSet) sts stsCreateAnnotation.
Definition serverConfigUpdated (cfg : ConfigMap) : bool :=
  hasFlag (k := KConfigMap) cfg serverConfAnnotation.
Definition pluginsConfigUpdated (cfg : ConfigMap) : bool :=
  hasFlag (k := KConfigMap) cfg pluginsUpdateAnnotation.
Definition needQueueRebalance (r : RabbitmqCluster) : bool :=
  hasFlag (k := KRabbitmqCluster) r queueRebalanceAnnotation.

(** [time.Since(t).Seconds() < 2] at time [now]. *)
Definition pluginsConfigUpdatedRecently (now : Z) (cfg : ConfigMap) : bool :=
  if negb (pluginsConfigUpdated cfg) then false else
  match gm_lookup (annotations (k := KConfigMap) cfg) pluginsUpdateAnnotation with
  | None => false
  | Some pluginsUpdatedAt =>
      match Parse pluginsUpdatedAt with
      | None => false
      | Some annotationTime => (now - annotationTime <? 2 * Second)%Z
      end
  end.

Section configurations.
Context {W : Type} `{!Kube W}.

Definition markForQueueRebalance : Run W ReconcileResult :=
  _ ← mod_rmq (λ r, set_annotations (k := KRabbitmqCluster) (gm_make (rmq_Annotations r)) r);
  r ← rmq;
  if (0 <? String.length (gm_get (rmq_Annotations r) queueRebalanceAnnotation))%nat then mret Continue else
  now ← ext kNow;
  annotations ← lift (gm_insert queueRebalanceAnnotation (Format now) (rmq_Annotations r));
  _ ← set_rmq (set_annotations (k := KRabbitmqCluster) annotations r);
  err ← updateRmq;
  mret (match err with None => Done | Some err => ErrorResult err end).

Definition reconcileQueueRebalanced : Run W ReconcileResult :=
  sets ← statefulSets;
  match IgnoreNotFound (errorOf sets) with
  | Some err => mret (ErrorResult err)
  | None =>
      r ← rmq;
      needRebalance ← lift (anyNeedsRebalance (itemsOf sets) r);
      if negb needRebalance then mret Continue else markForQueueRebalance
  end.

(** The object that is annotated, its name and the annotation. *)
Definition annotationTarget (r : RabbitmqCluster) (b : ResourceBuilder) (operationResult : OperationResult)
    : option (Kind * string * string) :=
  match b with
  | RabbitmqPluginsConfigMapBuilder =>
      if bool_decide (operationResult ≠ OperationResultUpdated) then None
      else Some (KConfigMap, ChildResourceName r ResourcePluginConfigMapSuffix, pluginsUpdateAnnotation)
  | ServerConfigMapBuilder UpdateRequiresStsRestart =>
      if bool_decide (operationResult ≠ OperationResultUpdated) || negb UpdateRequiresStsRestart then None
      else Some (KConfigMap, ChildResourceName r ResourceServerConfigMapSuffix, serverConfAnnotation)
  | StatefulSetBuilder Index =>
      if bool_decide (operationResult ≠ OperationResultCreated) then None
      else Some (KStatefulSet, StatefulsetName r ResourceStatefulsetSuffix Index, stsCreateAnnotation)
  | _ => None
  end.

Definition annotateIfNeeded (b : ResourceBuilder) (operationResult : OperationResult)
    : Run W ReconcileResult :=
  r ← rmq;
  match annotationTarget r b operationResult with
  | None => mret Continue
  | Some (k, objName, annotationKey) =>
      now ← ext kNow;
      err ← updateAnnotation k (rmq_Namespace r) objName annotationKey (Format now);
      match err with
      | Some err =>
          _ ← event "Warning" "FailedUpdate" ("failed to annotate " +:+ objName);
          mret (ErrorResult err)
      | None => mret Done
      end
  end.

Definition removeStatefulsetCreatedFlag (sts : StatefulSet) : Run W goerror :=
  u ← deleteAnnotation (k := KStatefulSet) sts stsCreateAnnotation; mret u.2.
Definition removeServerConfigUpdatedFlag (cfg : ConfigMap) : Run W goerror :=
  u ← deleteAnnotation (k := KConfigMap) cfg serverConfAnnotation; mret u.2.
Definition removePluginsConfigUpdatedFlag (cfg : ConfigMap) : Run W goerror :=
  u ← deleteAnnotation (k := KConfigMap) cfg pluginsUpdateAnnotation; mret u.2.

(** The cluster object is the shared one. *)
Definition removeQueueRebalanceFlag : Run W goerror :=
  r ← rmq;
  u ← deleteAnnotation (k := KRabbitmqCluster) r queueRebalanceAnnotation;
  _ ← set_rmq u.1;
  mret u.2.
End configurations.

(** ** Properties *)

Lemma Format_nonempty t : inRange t → Format t ≠ "".
Proof. intros Ht E. pose proof (Parse_Format t Ht) as Hp. by rw E in Hp. Qed.

Lemma annotate_flag k (o : Obj k) key value : gm_lookup (annotations (annotate key value o)) key = Some value.
Proof. rw annotate_lookup. by rw decide_True. Qed.

(** A flag that was just set is found. *)
Lemma hasFlag_annotate k (o : Obj k) key value : value ≠ "" → hasFlag (annotate key value o) key = true.
Proof.
  intros Hv. pose proof (annotate_flag k o key value) as Hl.
  rw /hasFlag /gm_get Hl. destruct (annotations _); [|done]. simpl.
  by rw (proj2 (String.eqb_neq _ _) Hv).
Qed.

(** C40: a plugins ConfigMap that is flagged at some time is read as flagged, and
    counts as recently updated exactly while less than two seconds have passed
    since the full second in which it was flagged: for at least one second
    after the flag was set, and never when two seconds have passed. *)
Theorem pluginsConfigUpdatedRecently_window cm written now :
  inRange written →
  let cm := annotate (k := KConfigMap) pluginsUpdateAnnotation (Format written) cm in
  pluginsConfigUpdated cm = true ∧
  (pluginsConfigUpdatedRecently now cm = true ↔ (now < written / Second * Second + 2 * Second)%Z) ∧
  (written ≤ now < written + Second → pluginsConfigUpdatedRecently now cm = true)%Z ∧
  (written + 2 * Second ≤ now → pluginsConfigUpdatedRecently now cm = false)%Z.
Proof.
  intros Hw cm'. assert (pluginsConfigUpdated cm' = true) as Hf
    by by apply hasFlag_annotate, Format_nonempty.
  assert (pluginsConfigUpdatedRecently now cm' = (now - written / Second * Second <? 2 * Second)%Z) as ->.
  { unfold pluginsConfigUpdatedRecently. rw Hf. cbn [negb].
    rw (annotate_flag KConfigMap). by rw Parse_Format. }
  pose proof (Z.div_mod written Second ltac:(done)). pose proof (Z.mod_pos_bound written Second ltac:(done)).
  assert (0 < Second)%Z by done.
  split; [done|]. rw Z.ltb_lt. split; [lia|]. split; [lia|]. intros Hn. apply Z.ltb_ge. lia.
Qed.
