(* ===== verification/Resources.v ===== *)
(** controllers/reconcile_resources.go and reconcile_persistence.go: creating
    and updating the children of a cluster, one at a time, and restarting the
    StatefulSets after a change of the server configuration. *)

From S2P Require Import Prelude GoStd GoTime K8s V1beta1 Constant Metadata Kube Controllerutil.
From S2P Require Import Builder Services Secrets Builders Trace Scaling Result Status.
From S2P Require Import ControllerUtils Configurations.

(** ** Definitions *)

(** The verb %T. *)
Definition typeName (k : Kind) : string :=
  match k with
  | KRabbitmqCluster => "*v1beta1.RabbitmqCluster"
  | KStatefulSet => "*v1.StatefulSet"
  | KService => "*v1.Service"
  | KConfigMap => "*v1.ConfigMap"
  | KSecret => "*v1.Secret"
  | KServiceAccount => "*v1.ServiceAccount"
  | KRole => "*v1.Role"
  | KRoleBinding => "*v1.RoleBinding"
  | KEndpoints => "*v1.Endpoints"
  | KPod => "*v1.Pod"
  | KPVC => "*v1.PersistentVolumeClaim"
  end.

Section resources.
Context {W : Type} `{!Kube W, !Library}.

(** The variables of [reconcileResources] that the closure given to the retry
    loop assigns: the object, the builder it captures and the result. *)
Record Vars := mkVars { v_object : Object; v_builder : ResourceBuilder; v_result : OperationResult }.

Definition waitResourceReady : Run W ReconcileResult :=
  sets ← statefulSets;
  match sets with
  | inl err => mret (ErrorResult err)
  | inr statefulSets =>
      ready ← lift (allReplicasReadyAndUpdated statefulSets);
      mret (if (ready : bool) then Continue else RequeueSoon (5 * Second))
  end.

(** [mutate]: the builder's update, then the check of the key.  The object of a
    failed update is not used again. *)
Definition mutate {k} (b : ResourceBuilder) (key : NamespacedName) (obj : Obj k)
    : Run W (result (Obj k) * ResourceBuilder) :=
  u ← Update b (existT k obj);
  match u.1 with
  | inl err => mret (inl err, u.2)
  | inr o =>
      obj ← assertKind k o;
      if bool_decide (key ≠ ObjectKeyFromObject obj)
      then mret (inl (New "MutateFn cannot mutate object name and/or object namespace"), u.2)
      else mret (inr obj, u.2)
  end.

(** On a kind that is known. *)
Definition CreateOrUpdateObj {k} (b : ResourceBuilder) (obj : Obj k) : Run W (Vars * goerror) :=
  let key := ObjectKeyFromObject obj in
  let vars obj b res : Vars := mkVars (existT k obj) b res in
  got ← ext (kGet k key);
  match got with
  | inl err =>
      if negb (errIsNotFound err) then mret (vars obj b OperationResultNone, Some err) else
      m ← mutate b key obj;
      match m.1 with
      | inl err => mret (vars obj m.2 OperationResultNone, Some err)
      | inr obj =>
          r ← ext (kCreate k obj);
          match r with
          | inl err => mret (vars obj m.2 OperationResultNone, Some err)
          | inr obj => mret (vars obj m.2 OperationResultCreated, None)
          end
      end
  | inr existing =>
      m ← mutate b key existing;
      match m.1 with
      | inl err => mret (vars existing m.2 OperationResultNone, Some err)
      | inr obj =>
          if SemanticDeepEqual k existing obj then mret (vars obj m.2 OperationResultNone, None) else
          u ← update obj;
          match u.2 with
          | Some err => mret (vars u.1 m.2 OperationResultNone, Some err)
          | None => mret (vars u.1 m.2 OperationResultUpdated, None)
          end
      end
  end.

Definition CreateOrUpdate (b : ResourceBuilder) (object : Object) : Run W (Vars * goerror) :=
  CreateOrUpdateObj b (projT2 object).

(** The closure of the retry loop. *)
Definition attempt : M (Op W * Vars) goerror :=
  v ← local;
  r ← outer (CreateOrUpdate (v_builder v) (v_object v));
  _ ← set_local r.1;
  mret r.2.

Definition operationName (operationResult : OperationResult) : string :=
  match operationResult with
  | OperationResultNone => "unchanged"
  | OperationResultCreated => "create"
  | OperationResultUpdated => "update"
  end.

Definition logAndRecordOperationResult (object : Object) (operationResult : OperationResult)
    (err : goerror) : Run W unit :=
  if bool_decide (operationResult = OperationResultNone) then mret tt else
  let operation := operationName operationResult in
  let name := om_Name (meta (projT2 object)) in
  match err with
  | None =>
      event "Normal" ("Successful" +:+ Title operation)
        (operation +:+ "d resource " +:+ name +:+ " of Type " +:+ typeName (projT1 object))
  | Some err =>
      event "Warning" ("Failed" +:+ Title operation)
        ("failed to " +:+ operation +:+ " resource " +:+ name +:+ " of Type " +:+
         typeName (projT1 object) +:+ ": " +:+ Error err)
  end.

Definition reconcilePVC (desiredSts : StatefulSet) : Run W ReconcileResult :=
  let desiredCapacity :=
    persistenceStorageCapacity c_PVCName (stss_VolumeClaimTemplates (sts_Spec desiredSts)) in
  err ← Scale c_PVCName (ObjectKeyFromObject (k := KStatefulSet) desiredSts) desiredCapacity;
  match err with
  | None => mret Continue
  | Some err =>
      _ ← event "Warning" "FailedReconcilePersistence" ("failed to scale PVCs: " +:+ Error err);
      _ ← setCondition ReconcileSuccess ConditionFalse "FailedReconcilePVC" [Error err];
      mret (ErrorResult err)
  end.

Definition reconcilePVCOf (object : Object) : Run W ReconcileResult :=
  match object with
  | existT KStatefulSet sts => reconcilePVC sts
  | _ => mret Continue
  end.

(** One round of the loop over the builders. *)
Definition reconcileBuilder (builder : ResourceBuilder) : Run W ReconcileResult :=
  built ← Build builder;
  match built with
  | inl err => mret (ErrorResult err)
  | inr object =>
      res ← reconcilePVCOf object;
      if Completed res then mret res else
      r ← withLocal (mkVars object builder OperationResultNone) (RetryOnConflict attempt);
      let '(err, v) := r in
      _ ← logAndRecordOperationResult (v_object v) (v_result v) err;
      match err with
      | Some err =>
          _ ← setCondition ReconcileSuccess ConditionFalse "Error" [Error err];
          mret (ErrorResult err)
      | None =>
          res ← annotateIfNeeded (v_builder v) (v_result v);
          if Completed res then mret res else
          match v_result v with
          | OperationResultCreated | OperationResultUpdated => mret Done
          | OperationResultNone => mret Continue
          end
      end
  end.

Fixpoint reconcileBuilders (builders : list ResourceBuilder) : Run W ReconcileResult :=
  match builders with
  | [] => mret Continue
  | builder :: builders =>
      res ← reconcileBuilder builder;
      if Completed res then mret res else reconcileBuilders builders
  end.

Definition reconcileResources : Run W ReconcileResult :=
  res ← waitResourceReady;
  if Completed res then mret res else
  r ← rmq;
  replicas ← deref (rs_Replicas (rmq_Spec r));
  reconcileBuilders (ResourceBuilders replicas r).

(** ** Restarting the StatefulSets *)

Definition set_templateAnnotations (annotations : gomap string) (sts : StatefulSet) : StatefulSet :=
  let t := stss_Template (sts_Spec sts) in
  set_sts_Spec (set_stss_Template (set_pts_ObjectMeta
    (set_om_Annotations annotations (pts_ObjectMeta t)) t) (sts_Spec sts)) sts.

Definition templateAnnotations (sts : StatefulSet) : gomap string :=
  om_Annotations (pts_ObjectMeta (stss_Template (sts_Spec sts))).

(** The closure of the retry loop; it assigns the loop variable [sts]. *)
Definition restartOnce : M (Op W * StatefulSet) goerror :=
  sts ← local;
  got ← outer (ext (kGet KStatefulSet (mkNamespacedName (om_Namespace (sts_ObjectMeta sts))
                                          (om_Name (sts_ObjectMeta sts)))));
  match got with
  | inl err => mret (Some err)
  | inr sts =>
      now ← outer (ext kNow);
      let sts := set_templateAnnotations
        (Some (<[stsRestartAnnotation := Format now]> (gm (templateAnnotations sts)))) sts in
      u ← outer (update (k := KStatefulSet) sts);
      _ ← set_local u.1;
      mret u.2
  end.

Definition restartStatefulSet (sts : StatefulSet) : Run W ReconcileResult :=
  r ← withLocal sts (RetryOnConflict restartOnce);
  let '(err, sts) := r in
  match err with
  | None =>
      _ ← event "Normal" "SuccessfulUpdate" ("restarted StatefulSet " +:+ om_Name (sts_ObjectMeta sts));
      mret Done
  | Some err =>
      _ ← event "Warning" "FailedUpdate" ("failed to restart StatefulSet " +:+ om_Name (sts_ObjectMeta sts)
                    +:+ "; rabbitmq.conf configuration may be outdated");
      mret (ErrorResult err)
  end.

(** [stsRestartedAt > serverConfigUpdatedAt], on strings. *)
Definition restartedSince (serverConfigUpdatedAt : string) (sts : StatefulSet) : bool :=
  match gm_lookup (templateAnnotations sts) stsRestartAnnotation with
  | Some stsRestartedAt => bool_decide (String.compare stsRestartedAt serverConfigUpdatedAt = Gt)
  | None => false
  end.

Fixpoint restartFirst (serverConfigUpdatedAt : string) (statefulsets : list StatefulSet)
    : Run W ReconcileResult :=
  match statefulsets with
  | [] => mret Continue
  | sts :: statefulsets =>
      if restartedSince serverConfigUpdatedAt sts then restartFirst serverConfigUpdatedAt statefulsets
      else restartStatefulSet sts
  end.

Definition restartStatefulSetIfNeeded : Run W ReconcileResult :=
  serverConf ← configMapServer;
  match serverConf with
  | inl err => mret (if errIsNotFound err then Continue else RequeueSoonError (10 * Second) err)
  | inr serverConf =>
      match gm_lookup (annotations (k := KConfigMap) serverConf) serverConfAnnotation with
      | None => mret Continue
      | Some serverConfigUpdatedAt =>
          sets ← statefulSets;
          match sets with
          | inl err => mret (RequeueSoonError (10 * Second) err)
          | inr statefulsets => restartFirst serverConfigUpdatedAt statefulsets
          end
      end
  end.
End resources.

(** ** Lemmas *)

(** The object a creation or an update through the client asks for. *)
Definition target (c : Call) : option (Kind * NamespacedName) :=
  match c with
  | Created k o _ | Updated k o _ => Some (k, ObjectKeyFromObject o)
  | _ => None
  end.

(** A creation or an update that the server has carried out. *)
Definition succeeded (c : Call) : bool :=
  match c with Created _ _ d | Updated _ _ d => d | _ => false end.

(** The object of a builder. *)
Definition builderTarget (r : RabbitmqCluster) (b : ResourceBuilder) : Kind * NamespacedName :=
  (builderKind b, mkNamespacedName (rmq_Namespace r) (builderName r b)).

Section resources_lemmas.
Context {W : Type} `{!Kube W, !Library}.
Abbreviation TW := (W * list Call)%type.
Implicit Types (s : Op TW) (b : ResourceBuilder).

Lemma builderTarget_meta r r' b :
  rmq_ObjectMeta r' = rmq_ObjectMeta r → builderTarget r' b = builderTarget r b.
Proof.
  intros E. rw /builderTarget /rmq_Namespace E. do 2 f_equal.
  destruct b; rw /= /StatefulsetName /ChildResourceName /rmq_Name E //.
Qed.

Lemma Service_Update_meta service r :
  rmq_ObjectMeta (Service_Update service r).2 = rmq_ObjectMeta r.
Proof.
  rw /Service_Update /mbind /M_bind /lift /get /modify /=. destruct (Service_Ports _ _); simpl; [|done].
  rw /defaultServiceType. by destruct (_ =? _)%string.
Qed.

Lemma assertKind_frames P k o : frames P (assertKind k o : Run TW _).
Proof. unfold assertKind. destruct (decide _); auto with trace. Qed.

Hint Extern 1 (frames _ (assertKind ?k ?o)) => exact (assertKind_frames _ k o) : trace.

Lemma pureUpdate_frames P k f o : frames P (pureUpdate k f o : Run TW _).
Proof. unfold pureUpdate. auto 10 with trace. Qed.

Hint Resolve pureUpdate_frames : trace.

Lemma Update_frames P b o : frames P (Update b o : Run TW _).
Proof.
  destruct b; cbn [Update]; try solve [auto 20 with trace].
  apply frames_bind; [auto with trace|]. intros obj. apply frames_bind; [|auto with trace].
  intros s. exists []. rw /onInstance app_nil_r. pose proof (Service_Update_meta obj (op_rmq s)) as Hm.
  by destruct (Service_Update obj (op_rmq s)).
Qed.

Lemma randomEncodedString_frames P n : frames P (randomEncodedString n : Run TW _).
Proof. unfold randomEncodedString. auto 10 with trace. Qed.

Hint Resolve randomEncodedString_frames : trace.

Lemma generateUsername_frames P n : frames P (generateUsername n : Run TW _).
Proof. unfold generateUsername. auto 10 with trace. Qed.

Hint Resolve generateUsername_frames : trace.

Lemma Build_frames P b : frames P (Build b : Run TW _).
Proof.
  destruct b; cbn [Build]; auto 10 with trace.
  - unfold ErlangCookie_Build. auto 20 with trace.
  - unfold DefaultUserSecret_Build. auto 30 with trace.
Qed.

Lemma Update_builder b o s u s' r :
  Update b o s = (Returns u, s') → builderTarget r u.2 = builderTarget r b.
Proof.
  intros E. destruct b; cbn [Update] in E; try (m_inv E; by injection E as <- <-).
  - m_inv E. m_inv E. by injection E as <- <-.
  - m_inv E. m_inv E. m_inv E. destruct a1 as [err|[obj flag]]; by injection E as <- <-.
Qed.

Lemma run_Update b o s (Q : outcome (result Object * ResourceBuilder) → Op TW → list Call → Prop) :
  (∀ u b' s', rmq_ObjectMeta (op_rmq s') = rmq_ObjectMeta (op_rmq s) →
     (∀ r, builderTarget r b' = builderTarget r b) → Q (Returns (u, b')) s' []) →
  (∀ msg s', rmq_ObjectMeta (op_rmq s') = rmq_ObjectMeta (op_rmq s) → Q (Panics msg) s' []) →
  run (Update b o) s Q.
Proof.
  intros Hok Hpanic. eapply run_mono; [eapply (run_with _ _ _ (λ out _, ∀ u, out = Returns u →
    ∀ r, builderTarget r u.2 = builderTarget r b)); [apply (Update_frames (λ _, False))|]|].
  - intros out s' E u -> r. by eapply Update_builder.
  - intros out s' c [[->%silent_nil Hs] Hb]. destruct out as [[u b']|msg]; [|by apply Hpanic].
    apply Hok; [done|]. by apply (Hb (u, b')).
Qed.

Lemma run_mutate {k} b key (obj : Obj k) s
    (Q : outcome (result (Obj k) * ResourceBuilder) → Op TW → list Call → Prop) :
  (∀ u b' s', rmq_ObjectMeta (op_rmq s') = rmq_ObjectMeta (op_rmq s) →
     (∀ r, builderTarget r b' = builderTarget r b) →
     (∀ obj', u = inr obj' → ObjectKeyFromObject obj' = key) → Q (Returns (u, b')) s' []) →
  (∀ msg s', rmq_ObjectMeta (op_rmq s') = rmq_ObjectMeta (op_rmq s) → Q (Panics msg) s' []) →
  run (mutate b key obj) s Q.
Proof.
  intros Hok Hpanic. unfold mutate. apply run_seq, run_Update; [|done]. intros u b' s1 Hs1 Hb'.
  cbn [fst snd]. destruct u as [err|o]; [by apply run_ret, Hok|].
  apply run_seq. unfold assertKind. destruct (decide _) as [E|]; [|by apply run_panic, Hpanic].
  apply run_ret. cbn beta iota. case_bool_decide as Hkey; apply run_ret; apply Hok; try done.
  intros obj' [= <-]. by symmetry.
Qed.

(** The calls of one [CreateOrUpdate], by its result and its error. *)
Definition callsOf (t : Kind * NamespacedName) (res : OperationResult) (err : goerror)
    (calls : list Call) : Prop :=
  match res, err with
  | OperationResultNone, None => calls = []
  | OperationResultNone, Some _ =>
      calls = [] ∨ ∃ c, calls = [c] ∧ target c = Some t ∧ succeeded c = false
  | OperationResultCreated, None =>
      ∃ o : Obj t.1, calls = [Created t.1 o true] ∧ ObjectKeyFromObject o = t.2
  | OperationResultUpdated, None =>
      ∃ o : Obj t.1, calls = [Updated t.1 o true] ∧ ObjectKeyFromObject o = t.2
  | _, Some _ => False
  end.

(** What the closure's variables are after a round. *)
Definition afterAttempt (t : Kind * NamespacedName) b (v : Vars) (err : goerror) : Prop :=
  projT1 (v_object v) = t.1 ∧ (∀ r, builderTarget r (v_builder v) = builderTarget r b) ∧
  (err ≠ None → ObjectKeyFromObject (projT2 (v_object v)) = t.2).

Definition objTarget (o : Object) : Kind * NamespacedName := (projT1 o, ObjectKeyFromObject (projT2 o)).

(** A creation of an object that was not found, or an update that changes the
    object that was found. *)
Definition justified (w : W) (c : Call) : Prop :=
  match c with
  | Created k o _ => ∃ err, (kGet k (ObjectKeyFromObject o) w).1 = inl err ∧ errIsNotFound err = true
  | Updated k o _ => ∃ existing, (kGet k (ObjectKeyFromObject o) w).1 = inr existing ∧
                                 SemanticDeepEqual k existing o = false
  | _ => True
  end.

Lemma run_CreateOrUpdate `{!GetLaw W} b o s :
  run (CreateOrUpdate b o) s (λ out s' calls,
    rmq_ObjectMeta (op_rmq s') = rmq_ObjectMeta (op_rmq s) ∧
    Forall (justified (fst (op_world s))) calls ∧
    match out with
    | Panics _ => calls = []
    | Returns (v, err) =>
        callsOf (objTarget o) (v_result v) err calls ∧ afterAttempt (objTarget o) b v err
    end).
Proof.
  unfold CreateOrUpdate, CreateOrUpdateObj. destruct o as [k obj]. cbn [projT1 projT2].
  change (objTarget (existT k obj)) with (k, ObjectKeyFromObject obj).
  set (key := ObjectKeyFromObject obj). apply run_seq, run_get_eq; cbn beta iota.
  - intros err s1 Hs1 Hgot. destruct (errIsNotFound err) eqn:Hnf; cbn [negb].
    2: { apply run_ret. rw Hs1. split; [done|]. split; [done|]. split; [by left|by split_and!]. }
    apply run_seq, run_mutate; cbn beta iota; [|by intros msg s2 ->; rw Hs1].
    intros u b' s2 Hs2 Hb Hkey. rw Hs1 in Hs2. cbn [fst snd]. destruct u as [e|obj'].
    { apply run_ret. split; [done|]. split; [done|]. split; [by left|by split_and!]. }
    specialize (Hkey _ eq_refl). apply run_seq, run_logged.
    assert (∀ d, justified (fst (op_world s)) (Created k obj' d)) as Hj by (intros d; exists err; by rw Hkey).
    intros [e|obj2] s3 Hs3; cbn beta iota; apply run_ret;
      (rw Hs3; split; [done|]; split; [by constructor|]; split; [|by split_and!]).
    + right. exists (Created k obj' false). split_and!; [done| |done]. by rw /= Hkey.
    + by exists obj'.
  - intros existing s1 Hs1 Hgot Hex. apply run_seq, run_mutate; cbn beta iota; [|by intros msg s2 ->; rw Hs1].
    intros u b' s2 Hs2 Hb Hkey. rw Hs1 in Hs2. cbn [fst snd]. destruct u as [e|obj'].
    { apply run_ret. split; [done|]. split; [done|]. split; [by left|by split_and!]. }
    specialize (Hkey _ eq_refl).
    destruct (SemanticDeepEqual k existing obj') eqn:Heq;
      [apply run_ret; split; [done|]; split; [done|]; split; [done|by split_and!]|].
    assert (∀ d, justified (fst (op_world s)) (Updated k obj' d)) as Hj by (intros d; exists existing; by rw Hkey).
    apply run_seq, run_update; intros; cbn beta iota; cbn [fst snd]; apply run_ret;
      (split; [congruence|]; split; [by constructor|]; split; [|by split_and!]).
    + by exists obj'.
    + right. exists (Updated k obj' false). split_and!; [done| |done]. by rw /= Hkey.
Qed.

(** *** The retry loop *)

Definition failedCalls (t : Kind * NamespacedName) (calls : list Call) : Prop :=
  Forall (λ c, target c = Some t ∧ succeeded c = false) calls.

(** The calls of all the attempts: the last one alone can have succeeded. *)
Definition attemptCalls (t : Kind * NamespacedName) (res : OperationResult) (err : goerror)
    (calls : list Call) : Prop :=
  match res, err with
  | OperationResultNone, _ => failedCalls t calls
  | _, None => ∃ pre c, calls = pre ++ [c] ∧ failedCalls t pre ∧ target c = Some t ∧ succeeded c = true
  | _, Some _ => False
  end.

Lemma callsOf_attempt t res err pre calls :
  failedCalls t pre → callsOf t res err calls → attemptCalls t res err (pre ++ calls).
Proof.
  destruct t as [k key]. intros Hpre. destruct res, err as [err|]; simpl; try done.
  - intros [->|(c & -> & Ht & Hs)]; [by rw app_nil_r|]. apply Forall_app. split; [done|].
    by constructor.
  - intros ->. by rw app_nil_r.
  - intros (o & -> & <-). by eexists _, _.
  - intros (o & -> & <-). by eexists _, _.
Qed.

Lemma run_attempts `{!GetLaw W} b o s :
  run (withLocal (mkVars o b OperationResultNone) (RetryOnConflict attempt)) s (λ out s' calls,
    rmq_ObjectMeta (op_rmq s') = rmq_ObjectMeta (op_rmq s) ∧
    match out with
    | Panics _ => failedCalls (objTarget o) calls
    | Returns (err, v) =>
        attemptCalls (objTarget o) (v_result v) err calls ∧ (length calls ≤ 5)%nat ∧
        (∀ r, builderTarget r (v_builder v) = builderTarget r b)
    end).
Proof.
  set (t := objTarget o). apply run_withLocal.
  apply (run_OnErrorSteps _ _ _ _ _ (λ n last sl c,
    rmq_ObjectMeta (op_rmq sl.1) = rmq_ObjectMeta (op_rmq s) ∧ (length c ≤ n)%nat ∧ failedCalls t c ∧
    v_result sl.2 = OperationResultNone ∧
    objTarget (v_object sl.2) = t ∧ ∀ r, builderTarget r (v_builder sl.2) = builderTarget r b)).
  - split_and!; try done. constructor.
  - intros n last [s1 v] c1 Hn (Hs1 & Hl & HF & Hres & Ht & Hb). cbn [fst snd] in *. unfold attempt.
    apply run_seq, run_local. cbn beta iota. apply run_seq, run_outer.
    eapply run_mono; [apply run_CreateOrUpdate|]. intros out s2 c2 (Hs2 & _ & H2). rw Hs1 Ht in Hs2 H2.
    destruct out as [[v' err]|msg].
    2: { subst c2. cbn [app]. by rw app_nil_r. }
    destruct H2 as (Hc & Hk & Hb' & Hkey).
    apply run_seq, run_set_local, run_ret. cbn [fst snd app]. rw !app_nil_r.
    pose proof (callsOf_attempt _ _ _ _ _ HF Hc) as Hatt.
    assert (length c2 ≤ 1)%nat as Hl2.
    { destruct t as [k key], (v_result v'), err; simpl in Hc; naive_solver (simpl; lia). }
    assert (∀ r, builderTarget r (v_builder v') = builderTarget r b) as Hb2 by (intros r; by rw Hb' Hb).
    destruct err as [err|]; [destruct (errIsConflict err)|].
    + destruct (v_result v') eqn:Er; try done. split_and!; try done.
      * rw length_app. lia.
      * rw /objTarget. destruct t as [k key]. simpl in *. f_equal; [done|]. by apply Hkey.
    + split_and!; try done. rw length_app. unfold DefaultRetrySteps in *. lia.
    + split_and!; try done. rw length_app. unfold DefaultRetrySteps in *. lia.
  - intros last [s1 v] c1 (Hs1 & Hl & HF & Hres & Ht & Hb). cbn [fst snd] in *.
    rw Hres. by split_and!.
Qed.

(** *** One builder *)

Lemma run_Build b s (Q : outcome (result Object) → Op TW → list Call → Prop) :
  (∀ err s', rmq_ObjectMeta (op_rmq s') = rmq_ObjectMeta (op_rmq s) → Q (Returns (inl err)) s' []) →
  (∀ o s', rmq_ObjectMeta (op_rmq s') = rmq_ObjectMeta (op_rmq s) →
     objTarget o = builderTarget (op_rmq s) b → Q (Returns (inr o)) s' []) →
  (∀ msg s', rmq_ObjectMeta (op_rmq s') = rmq_ObjectMeta (op_rmq s) → Q (Panics msg) s' []) →
  run (Build b) s Q.
Proof.
  intros Herr Hok Hpanic. eapply run_mono; [eapply (run_with _ _ _ (λ out _, ∀ o, out = Returns (inr o) →
    built b (op_rmq s) o)); [apply (Build_frames (λ _, False))|]|].
  - intros out s' E o ->. by apply Build_built in E as [? _].
  - intros out s' c [[->%silent_nil Hs] Hb]. destruct out as [[err|o]|msg]; [by apply Herr| |by apply Hpanic].
    apply Hok; [done|]. destruct (Hb o eq_refl) as [Hk Hm].
    destruct o as [k x]. simpl in Hk, Hm. subst k. by rw /objTarget /ObjectKeyFromObject /= Hm.
Qed.

(** Neither creates nor updates an object through the client. *)
Definition noTarget (c : Call) : Prop := target c = None.

Lemma event_frames (P : Call → Prop) ty reason msg :
  P (Event ty reason msg) → frames P (event ty reason msg : Run TW _).
Proof. intros HP s. apply run_event. intros s' ->. split; [by constructor|done]. Qed.

Lemma setCondition_frames P ty st reason msgs : frames P (setCondition ty st reason msgs : Run TW _).
Proof. intros s. apply run_setCondition. by intros now s' ->. Qed.

Hint Extern 1 (frames _ (event _ _ _)) => apply event_frames : trace.
Hint Resolve setCondition_frames : trace.

Lemma statefulSets_frames P : frames P (statefulSets : Run TW _).
Proof. unfold statefulSets. auto 10 with trace. Qed.
Hint Resolve statefulSets_frames : trace.

Lemma retryWithInterval_frames P msg total n (f : Run TW bool) :
  frames P f → frames P (retryWithInterval msg total n f).
Proof.
  intros Hf. induction n as [|n IH]; cbn [retryWithInterval]; [apply frames_ret|].
  apply frames_bind; [done|]. intros []; [apply frames_ret|done].
Qed.

Lemma getPVCsLoop_frames P pvcName sts ns ords : frames P (getPVCsLoop pvcName sts ns ords : Run TW _).
Proof. induction ords as [|i ords IH]; cbn [getPVCsLoop]; auto 10 with trace. Qed.

Lemma scaleUpPVCs_frames ns pvcs desired : frames noTarget (scaleUpPVCs ns pvcs desired : Run TW _).
Proof.
  induction pvcs as [|p pvcs IH]; cbn [scaleUpPVCs]; auto 10 with trace.
  apply frames_bind; [auto with trace|]. intros [err|pvc]; [auto with trace|].
  apply frames_bind; [auto with trace|]. intros rq. apply frames_bind; [|intros []; auto with trace].
  by apply frames_logged.
Qed.

Lemma Scale_frames pvcName key desired : frames noTarget (Scale pvcName key desired : Run TW _).
Proof.
  unfold Scale, existingCapacity, getStatefulset, getPVCs, getStatefulset.
  assert (frames noTarget (deleteStatefulset key : Run TW _)) as Hdel.
  { unfold deleteStatefulset, statefulSetGone. apply frames_bind; [by apply frames_logged|].
    intros [err|]; [auto with trace|]. apply frames_bind; [|intros []; auto with trace].
    apply retryWithInterval_frames. auto 10 with trace. }
  pose proof getPVCsLoop_frames. pose proof scaleUpPVCs_frames. auto 30 with trace.
Qed.

(** No write at all. *)
Definition noWrite (c : Call) : Prop := isWrite c = false.

(** The volumes of a StatefulSet are grown, or nothing is. *)
Definition grows (t : Kind * NamespacedName) (calls : list Call) : Prop :=
  calls = [] ∨ t.1 = KStatefulSet ∧ ∃ desired, scales c_PVCName t.2 desired calls.

Lemma run_reconcilePVCOf `{!CsGetLaw W} o s :
  run (reconcilePVCOf o) s (λ _ s' c, rmq_ObjectMeta (op_rmq s') = rmq_ObjectMeta (op_rmq s) ∧
    ∃ grown events, c = grown ++ events ∧ grows (objTarget o) grown ∧ Forall noWrite events).
Proof.
  assert (run (mret Continue : Run TW _) s (λ _ s' c, rmq_ObjectMeta (op_rmq s') = rmq_ObjectMeta (op_rmq s) ∧
    ∃ grown events, c = grown ++ events ∧ grows (objTarget o) grown ∧ Forall noWrite events)) as Hnone.
  { apply run_ret. split; [done|]. exists [], []. split_and!; [done|by left|done]. }
  destruct o as [[] sts]; cbn [reconcilePVCOf]; try exact Hnone. clear Hnone. unfold reconcilePVC.
  apply run_seq. eapply run_mono; [apply run_and; [apply Scale_scales|apply Scale_frames]|].
  intros out s1 c1 (Hc & _ & Hs1).
  assert (grows (objTarget (existT KStatefulSet sts)) c1) as Hg by (right; split; [done|]; by eexists).
  destruct out as [[err|]|msg].
  - apply run_seq, run_event. intros s2 Hs2. cbn beta iota. apply run_seq, run_setCondition.
    intros now s3 Hs3. cbn beta iota. apply run_ret. rw Hs3 Hs2. split; [done|].
    eexists c1, [_]. split_and!; [done|done|]. by constructor.
  - apply run_ret. split; [done|]. exists c1, []. by split_and!.
  - split; [done|]. exists c1, []. split_and!; [by rw app_nil_r|done|done].
Qed.

(** Writes no object through the client but the one. *)
Definition onTarget (t : Kind * NamespacedName) (c : Call) : Prop := noWrite c ∨ target c = Some t.

Lemma annotationTarget_builder r b res k name key :
  annotationTarget r b res = Some (k, name, key) →
  builderTarget r b = (k, mkNamespacedName (rmq_Namespace r) name) ∧ res ≠ OperationResultNone.
Proof.
  destruct b as [| | | | |[]| | | |]; simpl; try done; case_bool_decide as Hres; simpl; try done;
    intros [= <- <- <-]; (split; [done|]); intros ->; naive_solver.
Qed.

Lemma run_annotateIfNeeded `{!GetLaw W} b res s :
  run (annotateIfNeeded b res) s (λ out s' calls,
    op_rmq s' = op_rmq s ∧ Forall (onTarget (builderTarget (op_rmq s) b)) calls ∧
    (out = Returns Continue ∧ calls = [] ∨ res ≠ OperationResultNone ∧ out ≠ Returns Continue ∧
       ((∃ msg, out = Panics msg) ∨ out = Returns Done ∨ ∃ err, out = Returns (ErrorResult err)))).
Proof.
  unfold annotateIfNeeded. step. destruct (annotationTarget (op_rmq s) b res) as [[[k name] key]|] eqn:E;
    [|apply run_ret; split_and!; [done..|by left]].
  apply annotationTarget_builder in E as [Ht Hres]. set (t := builderTarget (op_rmq s) b) in *.
  step. assert (∀ done c, annotates k (rmq_Namespace (op_rmq s)) name key (Format a) done c → onTarget t c) as Hon.
  { intros d c (obj & -> & Hobj). right. by rw /= annotate_key Hobj Ht. }
  apply run_seq, run_updateAnnotation.
  - intros s1 pre last Hs1 Hl HF Hlast. cbn beta iota. apply run_ret. cbn [app]. rw app_nil_r.
    split_and!; [congruence| |right; split_and!; [done|done|by right; left]].
    apply Forall_app. split; [by eapply Forall_impl; [|apply Hon]|]. constructor; [by eapply Hon|done].
  - intros err s1 calls Hs1 Hl HF. cbn beta iota. apply run_seq, run_event. intros s2 Hs2. cbn beta iota.
    apply run_ret. cbn [app]. split_and!; [congruence| |right; split_and!; [done|done|]].
    + rw ?app_nil_r. apply Forall_app. split; [by eapply Forall_impl; [|apply Hon]|].
      constructor; [by left|done].
    + right. right. by eexists.
Qed.

Lemma attemptCalls_on t res err calls : attemptCalls t res err calls → Forall (onTarget t) calls.
Proof.
  assert (∀ cs, failedCalls t cs → Forall (onTarget t) cs) as Hf.
  { intros cs Hcs. eapply Forall_impl; [exact Hcs|]. intros c [? _]. by right. }
  destruct res, err as [err|]; simpl; try done; try apply Hf.
  all: intros (pre & c & -> & Hpre & Ht & _); apply Forall_app; split; [by apply Hf|].
  all: constructor; [by right|done].
Qed.

Lemma failedCalls_none t calls : failedCalls t calls → Forall (λ c, succeeded c = false) calls.
Proof. intros HF. eapply Forall_impl; [exact HF|]. by intros c []. Qed.

Lemma noWrite_on t calls : Forall noWrite calls →
  Forall (onTarget t) calls ∧ Forall (λ c, succeeded c = false) calls.
Proof.
  intros HF. split; (eapply Forall_impl; [exact HF|]); intros c Hc; [by left|]. by destruct c.
Qed.

Lemma grows_succeeded t calls : grows t calls → Forall (λ c, succeeded c = false) calls.
Proof.
  intros [->|(_ & desired & [->|(rest & -> & HF)])]; [done..|]. constructor; [done|].
  eapply Forall_impl; [exact HF|]. by intros c (p & -> & _).
Qed.

(** The calls of one builder: first perhaps the growth of the volumes of its
    StatefulSet, then no write but creations and updates of its own object. *)
Definition childCalls (t : Kind * NamespacedName) (calls : list Call) : Prop :=
  ∃ grown rest, calls = grown ++ rest ∧ grows t grown ∧ Forall (onTarget t) rest.

Lemma childCalls_app t calls rest : childCalls t calls → Forall (onTarget t) rest → childCalls t (calls ++ rest).
Proof.
  intros (grown & rest1 & -> & Hg & H1) H2. exists grown, (rest1 ++ rest). split_and!; [by rw app_assoc|done|].
  by apply Forall_app.
Qed.

(** The calls of one round: nothing was created or updated if the loop goes on. *)
Definition roundCalls (t : Kind * NamespacedName) (out : outcome ReconcileResult) (calls : list Call) : Prop :=
  childCalls t calls ∧ (out = Returns Continue → Forall (λ c, succeeded c = false) calls).

Lemma childCalls_nil t : childCalls t [].
Proof. exists [], []. split_and!; [done|by left|done]. Qed.

Lemma logAndRecord_frames P o res err :
  (∀ ty reason msg, P (Event ty reason msg)) →
  frames P (logAndRecordOperationResult o res err : Run TW _).
Proof.
  intros HP. unfold logAndRecordOperationResult. case_bool_decide; [auto with trace|].
  destruct err; by apply event_frames.
Qed.

Lemma run_reconcileBuilder `{!GetLaw W, !CsGetLaw W} b s :
  run (reconcileBuilder b) s (λ out s' calls,
    rmq_ObjectMeta (op_rmq s') = rmq_ObjectMeta (op_rmq s) ∧
    roundCalls (builderTarget (op_rmq s) b) out calls).
Proof.
  set (t := builderTarget (op_rmq s) b). pose proof (childCalls_nil t) as Hnil.
  unfold reconcileBuilder. apply run_seq, run_Build; cbn beta iota.
  - intros err s1 Hs1. apply run_ret. by split.
  - intros o s1 Hs1 Ho. fold t in Ho. apply run_seq. eapply run_mono; [apply run_reconcilePVCOf|].
    intros out s2 c2 (Hs2 & grown & ev & Hc2 & Hg & [Hev Hev']%(noWrite_on t)). rw Hs1 in Hs2. rw Ho in Hg.
    assert (childCalls t c2 ∧ Forall (λ c, succeeded c = false) c2) as [H2 H2'].
    { split; [by exists grown, ev|]. subst c2. apply Forall_app. split; [by eapply grows_succeeded|done]. }
    clear grown ev Hc2 Hg Hev Hev'. destruct out as [res|msg]; [|by split]. cbn [app].
    destruct (Completed res) eqn:Eres.
    { apply run_ret. rw app_nil_r. split; [done|]. by split. }
    apply run_seq. eapply run_mono; [apply run_attempts|]. intros out s3 c3 [Hs3 H3].
    rw Hs2 Ho in Hs3 H3. destruct out as [[err v]|msg].
    2: { split; [done|]. split; [|done]. apply childCalls_app; [done|].
         by apply (attemptCalls_on t OperationResultNone None). }
    destruct H3 as (H3 & _ & Hb).
    apply run_seq. eapply run_mono; [by apply (logAndRecord_frames noWrite)|].
    intros out s4 c4 [H4%(noWrite_on t) Hs4]. rw Hs3 in Hs4.
    assert (childCalls t (c2 ++ c3 ++ c4)) as Hpre.
    { apply childCalls_app; [done|]. apply Forall_app. split; [by eapply attemptCalls_on|apply H4]. }
    destruct out as [[]|msg]; [|by split]. destruct err as [err|].
    + apply run_seq, run_setCondition. intros now s5 Hs5. cbn beta iota. apply run_ret.
      rw Hs5 Hs4 !app_nil_r. split; [done|]. by split.
    + apply run_seq. eapply run_mono; [apply run_annotateIfNeeded|].
      intros out s5 c5 (Hs5 & H5 & Hout). rw (builderTarget_meta _ _ _ Hs4) Hb -/t in H5. rw Hs5 Hs4.
      assert (childCalls t (c2 ++ c3 ++ c4 ++ c5)) as Hall.
      { rw !app_assoc. apply childCalls_app; [by rw -!app_assoc|done]. }
      destruct Hout as [[-> ->]|(Hres & Hne & Hout)].
      * cbn [Completed Continue]. destruct (v_result v) eqn:Ev; apply run_ret; rw Hs5 Hs4 app_nil_r; (split; [done|]);
          (split; [done|]); try done.
        intros _. simpl in H3. rw !app_nil_r !Forall_app. split_and!; [apply H2'|by eapply failedCalls_none|apply H4].
      * destruct Hout as [[msg ->]|[->|[err ->]]]; [by split|..]; cbn [Completed Done ErrorResult];
          apply run_ret; rw Hs5 Hs4 app_nil_r; (split; [done|]); (split; [done|]); done.
  - intros msg s1 Hs1. by split.
Qed.

(** *** All the builders *)

(** The builders take their turns in order: as long as nothing is created or
    updated the next one follows; the first that does, fails or panics ends it. *)
Inductive inTurn (r : RabbitmqCluster) : list ResourceBuilder → outcome ReconcileResult → list Call → Prop :=
  | inTurn_nil : inTurn r [] (Returns Continue) []
  | inTurn_next b bs out calls1 calls2 :
      childCalls (builderTarget r b) calls1 → Forall (λ c, succeeded c = false) calls1 →
      inTurn r bs out calls2 → inTurn r (b :: bs) out (calls1 ++ calls2)
  | inTurn_last b bs out calls :
      childCalls (builderTarget r b) calls → out ≠ Returns Continue → inTurn r (b :: bs) out calls.

Lemma run_reconcileBuilders `{!GetLaw W, !CsGetLaw W} r bs s :
  rmq_ObjectMeta (op_rmq s) = rmq_ObjectMeta r →
  run (reconcileBuilders bs) s (λ out s' calls,
    rmq_ObjectMeta (op_rmq s') = rmq_ObjectMeta r ∧ inTurn r bs out calls).
Proof.
  revert s. induction bs as [|b bs IH]; intros s Hs; cbn [reconcileBuilders].
  { apply run_ret. split; [done|constructor]. }
  apply run_seq. eapply run_mono; [apply run_reconcileBuilder|]. intros out s1 c1 [Hs1 [H1 H1']].
  rw (builderTarget_meta _ _ _ Hs) Hs in Hs1 H1. destruct out as [res|msg].
  2: { split; [done|]. by apply inTurn_last. }
  destruct (Completed res) eqn:Eres.
  { apply run_ret. rw app_nil_r. split; [done|]. apply inTurn_last; [done|]. by intros [= ->]. }
  assert (res = continueReconcile) as -> by (by destruct res).
  eapply run_mono; [by apply IH|]. intros out s2 c2 [Hs2 H2]. split; [done|].
  apply inTurn_next; [done|by apply H1'|done].
Qed.

(** What follows for the whole. *)
Lemma inTurn_one r bs out calls :
  inTurn r bs out calls →
  (∃ t, Forall (λ c, succeeded c = true → target c = Some t) calls) ∧
  (out = Returns Continue → Forall (λ c, succeeded c = false) calls).
Proof.
  induction 1 as [|b bs out c1 c2 _ Hc1 _ [[t IH] IH']|b bs out calls (grown & rest & -> & Hg & Hr) Hout].
  - by split; [exists (KPod, mkNamespacedName "" "")|].
  - split.
    + exists t. apply Forall_app. split; [|done]. eapply Forall_impl; [exact Hc1|]. simpl. congruence.
    + intros Ho. apply Forall_app. auto.
  - split; [|done]. exists (builderTarget r b). apply Forall_app. split.
    + eapply Forall_impl; [by eapply grows_succeeded|]. simpl. congruence.
    + eapply Forall_impl; [exact Hr|]. intros c [E|E] Hs; [by destruct c|done].
Qed.

(** *** Restarting *)

(** Nothing but the restart annotation of the pod template is another. *)
Definition stamps (now : Z) (old new : StatefulSet) : Prop :=
  new = set_templateAnnotations (templateAnnotations new) old ∧
  ∀ key, gm_lookup (templateAnnotations new) key =
    if decide (stsRestartAnnotation = key) then Some (Format now) else gm_lookup (templateAnnotations old) key.

(** One attempt, from a world and the StatefulSet the loop holds: the object
    under the key of that one is read, then the clock, and the object that was
    read is sent back with the stamp. *)
Definition restartsOnce (x : W * StatefulSet) (out : outcome goerror) (calls : list Call)
    (x' : W * StatefulSet) : Prop :=
  let '(w, sts) := x in
  let '(got, w1) := kGet (W := W) KStatefulSet (ObjectKeyFromObject (k := KStatefulSet) sts) w in
  match got with
  | inl err => out = Returns (Some err) ∧ calls = [] ∧ x' = (w1, sts)
  | inr old => ∃ new, stamps (kNow w1).1 old new ∧
      let '(answer, w2) := kUpdate (W := W) KStatefulSet new (kNow w1).2 in
      calls = [Updated KStatefulSet new (carriedOut answer)] ∧
      out = Returns (errorOf answer) ∧ x' = (w2, match answer with inl _ => new | inr stored => stored end)
  end.

Lemma run_restartOnce (sl : Op TW * StatefulSet) :
  run restartOnce sl (λ out sl' calls, op_rmq sl'.1 = op_rmq sl.1 ∧
    restartsOnce (world sl.1, sl.2) out calls (world sl'.1, sl'.2)).
Proof.
  destruct sl as [s sts]. unfold restartOnce, restartsOnce. cbn [fst snd].
  apply run_seq, run_local. cbn beta iota. apply run_seq, run_outer.
  change (mkNamespacedName _ _) with (ObjectKeyFromObject (k := KStatefulSet) sts).
  apply run_ask. intros s1 Hs1 Hw1. destruct (kGet KStatefulSet _ (world s)) as [[err|old] w1];
    cbn [fst snd] in *; cbn beta iota; cbn [app].
  { apply run_ret. cbn [fst snd]. by rw Hw1. }
  apply run_seq, run_outer, run_ask. rw Hw1. intros s2 Hs2 Hw2. cbn beta iota zeta.
  set (new := set_templateAnnotations (Some (<[_ := _]> _)) old).
  apply run_seq, run_outer, (run_update_at (k := KStatefulSet)). rw Hw2. intros s3 Hs3 Hw3. cbn beta iota.
  step. step. split; [congruence|]. exists new. split.
  { split; [done|]. intros key. rw /new /gm_lookup /=. apply lookup_insert. }
  destruct (kUpdate KStatefulSet new _) as [[err|stored] w3]; cbn [fst snd] in *; by rw Hw3.
Qed.

Lemma run_restartAttempts sts s :
  run (withLocal sts (RetryOnConflict restartOnce)) s (λ out s' calls,
    op_rmq s' = op_rmq s ∧ ∃ err last, out = Returns (err, last) ∧
    attempts errIsConflict restartsOnce 5 (world s, sts) (Returns err) calls (world s', last)).
Proof.
  apply run_withLocal. eapply run_mono.
  { apply (run_again errIsConflict restartsOnce (λ sl, (world sl.1, sl.2))
      (λ sl, op_rmq sl.1 = op_rmq s)); [|done].
    intros sl Hsl. eapply run_mono; [apply run_restartOnce|]. intros out sl' c [E ?]. split; [congruence|done]. }
  intros out [s1 last] c [Hs1 Ha]. cbn [fst snd] in *. destruct out as [err|msg].
  { split; [done|]. by exists err, last. }
  exfalso. assert (∀ n x o c x', attempts errIsConflict restartsOnce n x o c x' → ∃ err, o = Returns err) as Hret.
  { induction 1 as [n [w y] o c' x' Ho _|]; [|done]. unfold restartsOnce in Ho.
    destruct (kGet _ _ w) as [[e|old] w1]; [naive_solver|]. destruct Ho as (new & _ & Ho).
    destruct (kUpdate _ _ _). naive_solver. }
  by apply Hret in Ha as [].
Qed.
End resources_lemmas.

(** ** Properties *)

Section resources_properties.
Context {W : Type} `{!Kube W, !Library, !GetLaw W, !CsGetLaw W}.
Abbreviation TW := (W * list Call)%type.
Implicit Types (s : Op TW) (b : ResourceBuilder).

(** C22: creating or updating an object sends at most one request, for an object
    with the kind and the key it was called with: a creation only when the
    object was not found, an update only of an object that was found and only
    with a change to it.  The result says which: it is
    Created or Updated exactly when that request was a creation or an update
    the server has carried out, it is None without an error when nothing was
    sent, and with every error it is None, so that the error branch of
    [logAndRecordOperationResult] is never taken: a failure to create or to
    update a child is not recorded as an event. *)
Theorem CreateOrUpdate_spec b o s :
  run (CreateOrUpdate b o) s (λ out s' calls,
    rmq_ObjectMeta (op_rmq s') = rmq_ObjectMeta (op_rmq s) ∧
    Forall (justified (fst (op_world s))) calls ∧ (length calls ≤ 1)%nat ∧
    Forall (λ c, target c = Some (objTarget o)) calls ∧
    match out with
    | Panics _ => calls = []
    | Returns (v, err) =>
        (v_result v = OperationResultCreated ↔ ∃ k obj, calls = [Created k obj true]) ∧
        (v_result v = OperationResultUpdated ↔ ∃ k obj, calls = [Updated k obj true]) ∧
        (err = None → v_result v = OperationResultNone → calls = []) ∧
        (err ≠ None → v_result v = OperationResultNone ∧
           logAndRecordOperationResult (v_object v) (v_result v) err = (mret tt : Run TW unit))
    end).
Proof.
  eapply run_mono; [apply run_CreateOrUpdate|]. intros out s' calls (Hs & Hj & HC). split; [done|]. split; [done|].
  destruct out as [[v err]|msg]; [|subst calls; split_and!; [simpl; lia|constructor|done]].
  destruct HC as [HC _]. destruct (objTarget o) as [k key]. unfold logAndRecordOperationResult.
  destruct (v_result v), err as [err|]; simpl in HC; try done.
  - assert (∀ c, calls = [c] → succeeded c = true → False) as Hno.
    { intros c -> Hc. destruct HC as [|(c' & [= ->] & _ & Hf)]; congruence. }
    assert (length calls ≤ 1 ∧ Forall (λ c, target c = Some (k, key)) calls)%nat as [? ?].
    { destruct HC as [->|(c & -> & Hc & _)]; simpl; [split; [lia|done]|]. split; [lia|by constructor]. }
    split_and!; try done; (split; [done|]); intros (k' & obj & E); exfalso; by eapply Hno.
  - subst calls. split_and!; simpl; try done; try lia; (split; [done|]); by intros (? & ? & ?).
  - destruct HC as (obj & -> & Hk). split_and!; try done.
    + constructor; [by rw /= Hk|done].
    + split; [|done]. intros _. by eexists _, _.
    + split; [done|]. by intros (? & ? & ?).
  - destruct HC as (obj & -> & Hk). split_and!; try done.
    + constructor; [by rw /= Hk|done].
    + split; [done|]. by intros (? & ? & ?).
    + split; [|done]. intros _. by eexists _, _.
Qed.

(** C5: one reconciliation creates or updates at most one child.  If the
    StatefulSets of the cluster cannot be listed, or not all of them are ready
    and updated, it makes no call at all and comes back with the error, or in
    five seconds.  Otherwise the builders of the cluster take their turns in
    order, and every write of a turn is one of three: the deletion, without the
    pods, of the builder's own StatefulSet, when its volumes grow, then writes
    of the claims of that StatefulSet, and then creations and updates of the
    builder's own object.  A turn after which the next builder gets its own has
    no creation or update that was carried out, so that those that were all
    concern one object, and there was none if the reconciliation can go on. *)
Theorem reconcileResources_one_child s replicas :
  rs_Replicas (rmq_Spec (op_rmq s)) = Some replicas →
  run reconcileResources s (λ out s' calls,
    rmq_ObjectMeta (op_rmq s') = rmq_ObjectMeta (op_rmq s) ∧
    match listed s with
    | inl err => out = Returns (ErrorResult err) ∧ calls = []
    | inr stss =>
        match allReplicasReadyAndUpdated stss with
        | Panics msg => out = Panics msg ∧ calls = []
        | Returns false => out = Returns (RequeueSoon (5 * Second)) ∧ calls = []
        | Returns true =>
            inTurn (op_rmq s) (ResourceBuilders replicas (op_rmq s)) out calls ∧
            (∃ t, Forall (λ c, succeeded c = true → target c = Some t) calls) ∧
            (out = Returns Continue → Forall (λ c, succeeded c = false) calls)
        end
    end).
Proof.
  intros Hrep. unfold reconcileResources, waitResourceReady. apply run_seq, run_seq, run_statefulSets.
  intros s1 Hs1. cbn beta iota. destruct (listed s) as [err|stss].
  { apply run_ret. cbn [app]. cbn beta iota. apply run_ret. by rw Hs1. }
  apply run_seq, run_lift. destruct (allReplicasReadyAndUpdated stss) as [[]|msg]; cbn beta iota;
    [|by apply run_ret; cbn beta iota; apply run_ret; rw Hs1|by rw Hs1].
  apply run_ret. cbn beta iota. cbn [Completed Continue app]. apply run_seq, run_rmq. rw Hs1 Hrep.
  cbn beta iota. apply run_seq, run_ret. cbn beta iota.
  eapply run_mono; [apply (run_reconcileBuilders (op_rmq s)); by rw Hs1|].
  intros out s2 calls [Hs2 Hturn]. cbn [app]. split; [done|]. split; [done|]. by eapply inTurn_one.
Qed.

(** A StatefulSet that has no restart annotation or one that is not later, as a
    string, than the annotation of the configuration. *)
Definition outdated (updatedAt : string) (sts : StatefulSet) : bool :=
  match gm_lookup (templateAnnotations sts) stsRestartAnnotation with
  | Some restartedAt => bool_decide (String.compare restartedAt updatedAt ≠ Gt)
  | None => true
  end.

Lemma outdated_restartedSince updatedAt sts : outdated updatedAt sts = negb (restartedSince updatedAt sts).
Proof.
  unfold outdated, restartedSince. destruct (gm_lookup _ _); [|done].
  by rw -bool_decide_not.
Qed.

(** At most five attempts, and one event. *)
Definition restartTrace (sts : StatefulSet) (w : W) (out : outcome ReconcileResult) (calls : list Call) : Prop :=
  ∃ updates err w' last,
  attempts errIsConflict restartsOnce 5 (w, sts) (Returns err) updates (w', last) ∧ (length updates ≤ 5)%nat ∧
  let name := om_Name (sts_ObjectMeta last) in
  match err with
  | None => out = Returns Done ∧
      (∃ refused new, updates = refused ++ [Updated KStatefulSet new true] ∧
         Forall (λ c, succeeded c = false) refused) ∧
      calls = updates ++ [Event "Normal" "SuccessfulUpdate" ("restarted StatefulSet " +:+ name)]
  | Some err => out = Returns (ErrorResult err) ∧ Forall (λ c, succeeded c = false) updates ∧
      calls = updates ++ [Event "Warning" "FailedUpdate" ("failed to restart StatefulSet " +:+ name +:+
                "; rabbitmq.conf configuration may be outdated")]
  end.

Definition restartOutcome (updatedAt : string) (stss : list StatefulSet) (w : W) (out : outcome ReconcileResult)
    (calls : list Call) : Prop :=
  match find (outdated updatedAt) stss with
  | None => out = Returns Continue ∧ calls = []
  | Some sts => restartTrace sts w out calls
  end.

(** The last attempt alone can have been carried out. *)
Lemma restarts_updates n x out updates x' :
  attempts errIsConflict restartsOnce n x out updates x' → (length updates ≤ n)%nat ∧
  ∀ err, out = Returns err → match err with
    | None => ∃ refused new, updates = refused ++ [Updated KStatefulSet new true] ∧
         Forall (λ c, succeeded c = false) refused
    | Some _ => Forall (λ c, succeeded c = false) updates
    end.
Proof.
  assert (∀ x out c x', restartsOnce x out c x' → (length c ≤ 1)%nat ∧ ∃ err, out = Returns err ∧
    match err with
    | None => ∃ new, c = [Updated KStatefulSet new true]
    | Some _ => Forall (λ c, succeeded c = false) c
    end) as Honce.
  { intros [w y] o c x2. unfold restartsOnce. destruct (kGet _ _ w) as [[e|old] w1].
    { intros (-> & -> & _). split; [simpl; lia|]. exists (Some e). by split. }
    intros (new & _ & Ho). destruct (kUpdate _ _ _) as [[e|stored] w2], Ho as (-> & -> & _); (split; [simpl; lia|]);
      eexists; (split; [done|]); [by constructor|by eexists]. }
  induction 1 as [n x o c x' Ho _|n x o1 c1 x1 o c x' Ho Hag _ [Hl IH]].
  - apply Honce in Ho as (Hl & err & -> & Hc). split; [lia|]. intros err' [= <-].
    destruct err; [done|]. destruct Hc as [new ->]. exists [], new. by split.
  - apply Honce in Ho as (Hl1 & err & -> & Hc). split; [rw length_app; lia|]. intros err' ->.
    destruct err as [e|]; [|done]. specialize (IH _ eq_refl). destruct err'; [by apply Forall_app|].
    destruct IH as (refused & new & -> & HF). exists (c1 ++ refused), new. split; [by rw app_assoc|]. by apply Forall_app.
Qed.

Lemma run_restartFirst updatedAt stss s :
  run (restartFirst updatedAt stss) s (λ out s' calls,
    op_rmq s' = op_rmq s ∧ restartOutcome updatedAt stss (world s) out calls).
Proof.
  unfold restartOutcome.
  induction stss as [|sts stss IH]; cbn [restartFirst find]; [by apply run_ret|].
  rw outdated_restartedSince. destruct (restartedSince updatedAt sts); [exact IH|]. cbn [negb]. clear IH.
  unfold restartStatefulSet. apply run_seq. eapply run_mono; [apply run_restartAttempts|].
  intros out s1 updates (Hs1 & err & last & -> & Ha). cbn beta iota.
  pose proof (restarts_updates _ _ _ _ _ Ha) as [Hl Hc]. specialize (Hc _ eq_refl).
  destruct err as [err|]; apply run_seq, run_event; intros s2 Hs2; cbn beta iota; apply run_ret; cbn [app];
    (split; [congruence|]); exists updates; by eexists _, (world s1), last.
Qed.

Lemma run_configMapServer s (Q : outcome (result ConfigMap) → Op TW → list Call → Prop) :
  (∀ res s1, configMapServer s = (Returns res, s1) → op_rmq s1 = op_rmq s → Q (Returns res) s1 []) →
  run configMapServer s Q.
Proof.
  intros HQ. destruct (configMapServer s) as [o s1] eqn:E. exists [].
  assert (o = Returns (kGet (W := W) KConfigMap (mkNamespacedName (rmq_Namespace (op_rmq s))
            (ChildResourceName (op_rmq s) ResourceServerConfigMapSuffix)) (fst (op_world s))).1 ∧
          op_rmq s1 = op_rmq s ∧ log s1 = log s) as (-> & Hr & Hl).
  { revert E. destruct s as [r [w l]]. unfold configMapServer, mbind, M_bind, rmq, ext, unlogged. simpl.
    destruct (kGet _ _ w) as [res w'] eqn:E2. unfold unlogged. cbn [fst snd]. rw E2. by intros [= <- <-]. }
  rw E Hl app_nil_r. split; [done|]. by eapply HQ.
Qed.

(** C25: after a change of the server configuration at most one StatefulSet is
    restarted: the first listed one that has no restart annotation or one that
    is not later, as a string, than the annotation of the configuration.  Each
    of the at most five attempts reads the object under its key and sends back
    what it has read, changed in nothing but that annotation of its pod
    template, which is the time read then; another attempt follows only a
    conflict.  The step is done exactly when the last update was carried out,
    and one event records which.  A configuration that is missing or was never
    updated restarts nothing, and an error of a read asks for another
    reconciliation after ten seconds without touching anything. *)
Theorem restartStatefulSetIfNeeded_spec s :
  run restartStatefulSetIfNeeded s (λ out s' calls,
    op_rmq s' = op_rmq s ∧
    let '(conf, s1) := configMapServer s in
    match conf with
    | Panics _ => False
    | Returns (inl err) => calls = [] ∧
        out = Returns (if errIsNotFound err then Continue else RequeueSoonError (10 * Second) err)
    | Returns (inr cm) =>
        match gm_lookup (annotations (k := KConfigMap) cm) serverConfAnnotation with
        | None => out = Returns Continue ∧ calls = []
        | Some updatedAt =>
            match listed s1 with
            | inl err => out = Returns (RequeueSoonError (10 * Second) err) ∧ calls = []
            | inr stss => restartOutcome updatedAt stss (afterList s1) out calls
            end
        end
    end).
Proof.
  unfold restartStatefulSetIfNeeded. apply run_seq, run_configMapServer. intros res s1 E Hs1. rw E.
  cbn beta iota. destruct res as [err|cm]; [by apply run_ret|].
  destruct (gm_lookup _ _) as [updatedAt|]; [|by apply run_ret].
  apply run_seq, run_statefulSets_at. intros s2 Hs2 Hw2. cbn beta iota.
  destruct (listed s1) as [err|stss]; [apply run_ret; split; [congruence|done]|].
  eapply run_mono; [apply run_restartFirst|]. rw Hw2. intros out s3 calls [Hs3 HQ]. split; [congruence|exact HQ].
Qed.
End resources_properties.
