(* ===== verification/Timestamps.v ===== *)
(** The order of timestamps: the operator compares the annotations it writes
    as strings, and the strings of RFC 3339 in UTC are ordered like the
    instants they name, to the second. *)

From S2P Require Import Prelude GoStd GoTime K8s Kube ControllerUtils.
From S2P Require Import Configurations Result Resources.
From Stdlib Require Import Ascii.

#[local] Open Scope Z_scope.

(** ** Comparing lists of characters *)

Fixpoint cmpChars (l l' : list ascii) : comparison :=
  match l, l' with
  | [], [] => Eq
  | [], _ :: _ => Lt
  | _ :: _, [] => Gt
  | c :: l, c' :: l' =>
      match Ascii.compare c c' with Eq => cmpChars l l' | o => o end
  end.

(** One comparison, then another. *)
Definition andThenCmp (o o' : comparison) : comparison := match o with Eq => o' | o => o end.

Lemma compare_chars l l' :
  String.compare (String.string_of_list_ascii l) (String.string_of_list_ascii l') = cmpChars l l'.
Proof.
  revert l'. induction l as [|c l IH]; intros [|c' l']; [done..|]. cbn.
  destruct (Ascii.compare c c'); [apply IH|done..].
Qed.

Lemma cmpChars_app p p' l l' :
  length p = length p' → cmpChars (p ++ l) (p' ++ l') = andThenCmp (cmpChars p p') (cmpChars l l').
Proof.
  revert p'. induction p as [|c p IH]; intros [|c' p']; try done. intros [= Hl]. cbn.
  destruct (Ascii.compare c c'); [by apply IH|done..].
Qed.

Lemma cmpChars_refl l : cmpChars l l = Eq.
Proof. induction l as [|c l IH]; [done|]. cbn. by rw (N.compare_refl (N_of_ascii c) : Ascii.compare c c = Eq). Qed.

Lemma andThenCmp_Eq_r o : andThenCmp o Eq = o.
Proof. by destruct o. Qed.

(** ** Digits *)

(** All pairs of one digit numbers, checked. *)
Lemma digitChar_compare m n :
  0 <= m <= 9 → 0 <= n <= 9 → Ascii.compare (digitChar m) (digitChar n) = Z.compare m n.
Proof.
  intros Hm Hn. assert (m ∈ seqZ 0 10 ∧ n ∈ seqZ 0 10) as [Hm' Hn'] by (rw !elem_of_seqZ; lia).
  enough (Forall (λ m, Forall (λ n, Ascii.compare (digitChar m) (digitChar n) = Z.compare m n) (seqZ 0 10))
    (seqZ 0 10)) as Hall.
  { rw Forall_forall in Hall. specialize (Hall m Hm'). rw Forall_forall in Hall. by apply Hall. }
  by apply (bool_decide_unpack _).
Qed.

(** Quotients are compared before remainders. *)
Lemma compare_div k m n :
  0 < k → Z.compare m n = andThenCmp (Z.compare (m / k) (n / k)) (Z.compare (m mod k) (n mod k)).
Proof.
  intros Hk. pose proof (Z.div_mod m k ltac:(lia)). pose proof (Z.div_mod n k ltac:(lia)).
  pose proof (Z.mod_pos_bound m k Hk). pose proof (Z.mod_pos_bound n k Hk).
  destruct (Z.compare_spec (m / k) (n / k)); cbn [andThenCmp].
  - destruct (Z.compare_spec (m mod k) (n mod k)); [apply Z.compare_eq_iff|apply Z.compare_lt_iff|apply Z.compare_gt_iff]; nia.
  - apply Z.compare_lt_iff. nia.
  - apply Z.compare_gt_iff. nia.
Qed.

(** Divisions by constants in [lia]. *)
#[local] Ltac Zify.zify_post_hook ::= Z.to_euclidean_division_equations.

Lemma cmp_digits2 m n :
  0 <= m <= 99 → 0 <= n <= 99 → cmpChars (digits2 m) (digits2 n) = Z.compare m n.
Proof.
  intros Hm Hn. rw (compare_div 10 m n); [done|]. cbn [digits2 cmpChars].
  rw !digitChar_compare; [lia..|]. destruct (m / 10 ?= n / 10); [|done..]. cbn. by destruct (_ ?= _).
Qed.

Lemma digits4_eq n : digits4 n = digits2 (n / 100) ++ digits2 (n mod 100).
Proof.
  unfold digits4, digits2. cbn [app].
  assert (n / 1000 = n / 100 / 10 ∧ n / 10 mod 10 = n mod 100 / 10 ∧ n mod 10 = (n mod 100) mod 10)
    as (-> & -> & ->) by lia. done.
Qed.

Lemma cmp_digits4 m n :
  0 <= m <= 9999 → 0 <= n <= 9999 → cmpChars (digits4 m) (digits4 n) = Z.compare m n.
Proof.
  intros Hm Hn. rw !digits4_eq cmpChars_app // !cmp_digits2; [lia..|]. by rw -compare_div.
Qed.

(** ** Dates *)

Definition validDate (d : Date) : Prop := 1 <= month d <= 12 ∧ 1 <= day d <= daysIn (month d) (year d).

(** Years, then months, then days. *)
Definition cmpDate (d d' : Date) : comparison :=
  andThenCmp (year d ?= year d') (andThenCmp (month d ?= month d') (day d ?= day d')).

(** A month ends before a later one begins, and December before the year does. *)
Lemma daysBefore_step (leap : bool) m m' :
  1 <= m <= 12 → 1 <= m' <= 12 →
  (m < m' → daysBefore leap m + daysIn m (if leap then 4 else 1) <= daysBefore leap m') ∧
  0 <= daysBefore leap m ∧
  daysBefore leap m + daysIn m (if leap then 4 else 1) <= (if leap then 366 else 365).
Proof.
  intros Hm Hm'. assert (m ∈ seqZ 1 12 ∧ m' ∈ seqZ 1 12) as [Hi Hi'] by (rw !elem_of_seqZ; lia).
  enough (Forall (λ m, Forall (λ m',
    (m < m' → daysBefore leap m + daysIn m (if leap then 4 else 1) <= daysBefore leap m') ∧
    0 <= daysBefore leap m ∧
    daysBefore leap m + daysIn m (if leap then 4 else 1) <= (if leap then 366 else 365))
    (seqZ 1 12)) (seqZ 1 12)) as Hall.
  { rw Forall_forall in Hall. specialize (Hall m Hi). rw Forall_forall in Hall. by apply Hall. }
  destruct leap; by apply (bool_decide_unpack _).
Qed.

Lemma daysIn_valid d : validDate d → day d <= daysIn (month d) (if isLeap (year d) then 4 else 1).
Proof.
  intros [_ Hd]. rw (daysIn_leap _ _ (year d)); [by destruct (isLeap (year d))|lia].
Qed.

(** The days before a year. *)
Definition yearStart (y : Z) : Z := 365 * (y - 1) + (y - 1) / 4 - (y - 1) / 100 + (y - 1) / 400.

Lemma yearStart_next y y' : y < y' → yearStart y + (if isLeap y then 366 else 365) <= yearStart y'.
Proof.
  intros Hy. unfold yearStart, isLeap.
  destruct (Z.eqb_spec (y mod 4) 0), (Z.eqb_spec (y mod 100) 0), (Z.eqb_spec (y mod 400) 0); cbn; lia.
Qed.

Lemma daysOfCivil_lt d d' : validDate d → validDate d' → cmpDate d d' = Lt → daysOfCivil d < daysOfCivil d'.
Proof.
  intros Hv Hv'. pose proof (daysIn_valid _ Hv) as Hd. destruct Hv as [Hm Hd1], Hv' as [Hm' Hd1'].
  destruct (daysBefore_step (isLeap (year d)) (month d) (month d') Hm Hm') as (Hnext & _ & Hend).
  destruct (daysBefore_step (isLeap (year d')) (month d') (month d) Hm' Hm) as (_ & Hnn & _).
  unfold cmpDate, daysOfCivil.
  change (365 * (year d - 1) + (year d - 1) / 4 - (year d - 1) / 100 + (year d - 1) / 400) with (yearStart (year d)).
  change (365 * (year d' - 1) + (year d' - 1) / 4 - (year d' - 1) / 100 + (year d' - 1) / 400) with (yearStart (year d')).
  destruct (Z.compare_spec (year d) (year d')) as [E|Hy|]; [|pose proof (yearStart_next _ _ Hy)|done]; cbn [andThenCmp].
  - rw -E. destruct (Z.compare_spec (month d) (month d')) as [E2|Hlt|]; [|specialize (Hnext Hlt)|done]; cbn [andThenCmp].
    + rw E2 Z.compare_lt_iff. lia.
    + intros _. lia.
  - intros _. destruct (isLeap (year d)); lia.
Qed.

Lemma cmpDate_opp d d' : cmpDate d' d = CompOpp (cmpDate d d').
Proof.
  unfold cmpDate. rw (Z.compare_antisym (year d)) (Z.compare_antisym (month d)) (Z.compare_antisym (day d)).
  by destruct (year d ?= year d'), (month d ?= month d').
Qed.

Lemma daysOfCivil_compare d d' :
  validDate d → validDate d' → (daysOfCivil d ?= daysOfCivil d') = cmpDate d d'.
Proof.
  intros Hv Hv'. destruct (cmpDate d d') eqn:E.
  - apply Z.compare_eq_iff. unfold cmpDate in E.
    destruct (Z.compare_spec (year d) (year d')); try done. destruct (Z.compare_spec (month d) (month d')); try done.
    apply Z.compare_eq_iff in E. destruct d, d'. simpl in *. congruence.
  - apply Z.compare_lt_iff. by apply daysOfCivil_lt.
  - apply Z.compare_gt_iff. apply daysOfCivil_lt; [done..|]. by rw cmpDate_opp E.
Qed.

(** ** Formatted instants *)

Lemma andThenCmp_assoc a b c : andThenCmp (andThenCmp a b) c = andThenCmp a (andThenCmp b c).
Proof. by destruct a. Qed.

(** The text of a date and a second of the day. *)
Definition stampChars (d : Date) (tod : Z) : list ascii :=
  digits4 (year d) ++ ["-"%char] ++ digits2 (month d) ++ ["-"%char] ++ digits2 (day d) ++
  ["T"%char] ++ digits2 (tod / 3600) ++ [":"%char] ++ digits2 (tod / 60 mod 60) ++ [":"%char] ++
  digits2 (tod mod 60) ++ ["Z"%char].

Lemma tod_compare s s' :
  (s ?= s') = andThenCmp (s / 3600 ?= s' / 3600)
    (andThenCmp (s / 60 mod 60 ?= s' / 60 mod 60) (s mod 60 ?= s' mod 60)).
Proof.
  rw (compare_div 3600 s s') // (compare_div 60 (s mod 3600)) //.
  assert (∀ x, x mod 3600 / 60 = x / 60 mod 60 ∧ (x mod 3600) mod 60 = x mod 60) as Hx by (intros x; lia).
  by rw !(proj1 (Hx _)) !(proj2 (Hx _)).
Qed.

Lemma stampChars_compare d d' s s' :
  validDate d → validDate d' → 0 <= year d <= 9999 → 0 <= year d' <= 9999 →
  0 <= s < 86400 → 0 <= s' < 86400 →
  cmpChars (stampChars d s) (stampChars d' s') = andThenCmp (cmpDate d d') (s ?= s').
Proof.
  intros [Hm Hd] [Hm' Hd'] Hy Hy' Hs Hs'.
  pose proof (daysIn_bound (month d) (year d)). pose proof (daysIn_bound (month d') (year d')).
  unfold stampChars, cmpDate. rw (tod_compare s s').
  rw !cmpChars_app // !cmpChars_refl. cbn [andThenCmp]. rw andThenCmp_Eq_r.
  rw cmp_digits4; [lia..|]. rw !cmp_digits2; [lia..|]. by rw !andThenCmp_assoc.
Qed.

(** The strings compare like the full seconds of the instants. *)
Lemma Format_compare t t' :
  inRange t → inRange t' → String.compare (Format t) (Format t') = (t / Second ?= t' / Second).
Proof.
  intros Ht Ht'. pose proof (civil_year t Ht) as Hy. pose proof (civil_year t' Ht') as Hy'.
  unfold Format. rw compare_chars.
  change (FormatChars t) with (stampChars (civil (t / Second / 86400)) ((t / Second) mod 86400)).
  change (FormatChars t') with (stampChars (civil (t' / Second / 86400)) ((t' / Second) mod 86400)).
  revert Hy Hy'. generalize (t / Second) (t' / Second). intros x x' Hy Hy'.
  pose proof (civil_spec (x / 86400)) as [Hc Hv]. pose proof (civil_spec (x' / 86400)) as [Hc' Hv'].
  rw stampChars_compare; [exact Hv|exact Hv'|exact Hy|exact Hy'|lia|lia|].
  rw -daysOfCivil_compare; [exact Hv|exact Hv'|]. rw Hc Hc'. by rw -(compare_div 86400 x x' eq_refl).
Qed.

(** ** Property *)

(** A StatefulSet with the instant of its last restart, if it has one. *)
Definition stamped (p : StatefulSet * option Z) : Prop :=
  gm_lookup (templateAnnotations p.1) stsRestartAnnotation = Format <$> p.2 ∧
  match p.2 with Some t => inRange t | None => True end.

(** The reference for the choice: never restarted, or not in a later second. *)
Definition dueAt (updated : Z) (p : StatefulSet * option Z) : bool :=
  match p.2 with None => true | Some restarted => restarted / Second <=? updated / Second end.

Lemma restartedSince_stamp updated p :
  inRange updated → stamped p → restartedSince (Format updated) p.1 = negb (dueAt updated p).
Proof.
  destruct p as [sts [t|]]; unfold stamped, restartedSince, dueAt; cbn [fst snd];
    intros Hu [-> Ht]; [|done]. change (Format <$> Some t) with (Some (Format t)). cbn beta iota.
  rw Format_compare // Z.leb_antisym negb_involutive. apply eq_true_iff_eq.
  by rw bool_decide_eq_true Z.ltb_lt Z.compare_gt_iff.
Qed.

Section restarts.
Context {W : Type} `{!Kube W}.

(** C26: the choice of the StatefulSet to restart compares strings, and is the
    one that comparing times would make: of StatefulSets that were never
    restarted or carry the stamp of an instant, the loop restarts the first that
    was never restarted or was restarted in the second in which the
    configuration was updated or before, and none if there is no such one. *)
Theorem restartFirst_chronological updated (stss : list (StatefulSet * option Z)) :
  inRange updated → Forall stamped stss →
  restartFirst (W := W) (Format updated) (fst <$> stss) =
  match List.find (dueAt updated) stss with
  | Some (sts, _) => restartStatefulSet sts
  | None => mret Continue
  end.
Proof.
  intros Hu. induction 1 as [|p stss Hp _ IH]; [done|]. cbn [fmap list_fmap restartFirst List.find].
  rw (restartedSince_stamp updated p Hu Hp). destruct p as [sts t]. by destruct (dueAt updated (sts, t)).
Qed.
End restarts.
