(* ===== verification/Hoare.v ===== *)
(** Triples for the computations of the development: a precondition, a
    postcondition for a value, and one for a panic.  [steady] is the case of an
    invariant, whose rules follow the structure of a computation. *)

From S2P Require Import Prelude GoStd Kube.

(** ** Triples *)

Section triple.
Context {S : Type}.
Implicit Types (P E : S → Prop).

Definition triple {A} P (m : M S A) (Q : A → S → Prop) E : Prop :=
  ∀ s, P s → match (m s).1 with Returns a => Q a (m s).2 | Panics _ => E (m s).2 end.

Lemma t_conseq {A} P P' (m : M S A) (Q Q' : A → S → Prop) E E' :
  triple P m Q E → (∀ s, P' s → P s) → (∀ a s, Q a s → Q' a s) → (∀ s, E s → E' s) → triple P' m Q' E'.
Proof. intros Hm HP HQ HE s Hs. specialize (Hm s (HP s Hs)). destruct (m s).1; eauto. Qed.

Lemma t_ret {A} P (a : A) (Q : A → S → Prop) E : (∀ s, P s → Q a s) → triple P (mret a) Q E.
Proof. intros HQ s Hs. exact (HQ s Hs). Qed.

Lemma t_bind {A B} P (m : M S A) (f : A → M S B) (Q1 : A → S → Prop) (Q : B → S → Prop) E :
  triple P m Q1 E → (∀ a, triple (Q1 a) (f a) Q E) → triple P (m ≫= f) Q E.
Proof.
  intros Hm Hf s Hs. specialize (Hm s Hs). unfold mbind, M_bind.
  destruct (m s) as [[a|e] s1]; cbn [fst snd] in *; [|done]. by apply Hf.
Qed.

(** The precondition can be split on a fact of the state. *)
Lemma t_exists {A X} (P : X → S → Prop) (m : M S A) (Q : A → S → Prop) E :
  (∀ x, triple (P x) m Q E) → triple (λ s, ∃ x, P x s) m Q E.
Proof. intros Hm s [x Hs]. exact (Hm x s Hs). Qed.

Lemma t_pure {A} (φ : Prop) P (m : M S A) (Q : A → S → Prop) E :
  (φ → triple P m Q E) → triple (λ s, P s ∧ φ) m Q E.
Proof. intros Hm s [Hs Hφ]. exact (Hm Hφ s Hs). Qed.

Lemma t_or {A} P1 P2 (m : M S A) (Q : A → S → Prop) E :
  triple P1 m Q E → triple P2 m Q E → triple (λ s, P1 s ∨ P2 s) m Q E.
Proof. intros H1 H2 s [Hs|Hs]; [exact (H1 s Hs)|exact (H2 s Hs)]. Qed.

Lemma t_false {A} (m : M S A) (Q : A → S → Prop) E : triple (λ _, False) m Q E.
Proof. by intros s []. Qed.

(** The usual case: the state satisfies the precondition again. *)
Lemma t_again {A B} P (m : M S A) (f : A → M S B) (R : A → Prop) (Q : B → S → Prop) E :
  triple P m (λ a s, P s ∧ R a) E → (∀ a, R a → triple P (f a) Q E) → triple P (m ≫= f) Q E.
Proof. intros Hm Hf. eapply t_bind; [exact Hm|]. intros a. by apply t_pure, Hf. Qed.

(** The retry loop: [I] holds before every attempt; an attempt that is not
    repeated establishes the postcondition. *)
Lemma t_retry n (retriable : error → bool) (fn : M S goerror) last (I : S → Prop) (Q : goerror → S → Prop) E :
  triple I fn (λ err s, match err with
                        | Some e => if retriable e then I s ∧ Q (Some e) s else Q (Some e) s
                        | None => Q None s
                        end) E →
  triple (λ s, I s ∧ Q last s) (OnErrorSteps n retriable fn last) Q E.
Proof.
  intros Hfn. revert last. induction n as [|n IH]; intros last; cbn [OnErrorSteps].
  { apply t_ret. by intros s []. }
  eapply t_bind; [eapply t_conseq; [exact Hfn|by intros s []|by intros a s|done]|]. intros [e|]; cbn beta iota.
  - destruct (retriable e); [apply IH|by apply t_ret].
  - by apply t_ret.
Qed.

(** With at least one attempt nothing is asked of the last error. *)
Lemma t_retries n (retriable : error → bool) (fn : M S goerror) last (I : S → Prop) (Q : goerror → S → Prop) E :
  triple I fn (λ err s, match err with
                        | Some e => if retriable e then I s ∧ Q (Some e) s else Q (Some e) s
                        | None => Q None s
                        end) E →
  triple I (OnErrorSteps (Datatypes.S n) retriable fn last) Q E.
Proof.
  intros Hfn. cbn [OnErrorSteps]. eapply t_bind; [exact Hfn|]. intros [e|]; cbn beta iota; [|by apply t_ret].
  destruct (retriable e); [by apply t_retry|by apply t_ret].
Qed.

Lemma t_retries_inv n (retriable : error → bool) (fn : M S goerror) last (I : S → Prop) E :
  triple I fn (λ _, I) E → triple I (OnErrorSteps (Datatypes.S n) retriable fn last) (λ _, I) E.
Proof.
  intros Hfn. apply t_retries. eapply t_conseq; [exact Hfn|done| |done].
  intros [e|] s Hs; [by destruct (retriable e)|done].
Qed.
End triple.

(** ** Invariants *)

Section steady.
Context {S : Type} (I : S → Prop).

(** [m] keeps [I], also when it panics, and its answers satisfy [R]. *)
Definition steady {A} (m : M S A) (R : A → Prop) : Prop := triple I m (λ a s, I s ∧ R a) I.

Lemma s_mono {A} (m : M S A) (R R' : A → Prop) : steady m R → (∀ a, R a → R' a) → steady m R'.
Proof. intros Hm HR. eapply t_conseq; [exact Hm|done|by intros a s [? ?%HR]|done]. Qed.

Lemma s_any {A} (m : M S A) (R : A → Prop) : steady m R → steady m (λ _, True).
Proof. intros Hm. by eapply s_mono. Qed.

Lemma s_ret {A} (a : A) (R : A → Prop) : R a → steady (mret a) R.
Proof. intros Ha. by apply t_ret. Qed.

Lemma s_lift {A} (o : outcome A) (R : A → Prop) : (∀ a, o = Returns a → R a) → steady (lift o) R.
Proof. intros HR s Hs. unfold lift. cbn. destruct o; [split; [exact Hs|by apply HR]|exact Hs]. Qed.

Lemma s_panic {A} msg (R : A → Prop) : steady (panic msg) R.
Proof. by intros s Hs. Qed.

Lemma s_deref {A} (p : option A) (R : A → Prop) : (∀ a, p = Some a → R a) → steady (deref p) R.
Proof. destruct p; intros HR; [by apply s_ret, HR|apply s_panic]. Qed.

Lemma s_bind {A B} (m : M S A) (f : A → M S B) (R1 : A → Prop) (R : B → Prop) :
  steady m R1 → (∀ a, R1 a → steady (f a) R) → steady (m ≫= f) R.
Proof. intros Hm Hf. eapply t_again; [exact Hm|exact Hf]. Qed.

(** A computation that keeps [I], then one that does not. *)
Lemma s_seq {A B} (m : M S A) (f : A → M S B) (R1 : A → Prop) (Q : B → S → Prop) (E : S → Prop) :
  steady m R1 → (∀ s, I s → E s) → (∀ a, R1 a → triple I (f a) Q E) → triple I (m ≫= f) Q E.
Proof.
  intros Hm HE Hf. eapply t_again; [eapply t_conseq; [exact Hm|done|by intros a s Ha; exact Ha|exact HE]|exact Hf].
Qed.

Lemma s_retry n (retriable : error → bool) (fn : M S goerror) last (R : goerror → Prop) :
  steady fn R → steady (OnErrorSteps n retriable fn last) (λ _, True).
Proof.
  intros Hfn. eapply t_conseq; [apply (t_retry n retriable fn last I (λ _ s, I s ∧ True))|by intros s Hs|done|done].
  eapply t_conseq; [exact Hfn|done| |done]. intros [e|] s [Hs _]; [by destruct (retriable e)|done].
Qed.
End steady.

(** ** Local variables of a closure *)

Section locals.
Context {S L : Type}.
Implicit Types (P E : S → Prop).

Lemma t_outer {A} P (J : L → Prop) (m : M S A) (Q : A → S → Prop) E :
  triple P m Q E →
  triple (λ sl, P sl.1 ∧ J sl.2) (outer m) (λ a sl, Q a sl.1 ∧ J sl.2) (λ sl, E sl.1).
Proof.
  intros Hm [s l] [Hs Hl]. specialize (Hm s Hs). unfold outer. cbn [fst snd].
  destruct (m s) as [[a|e] s1]; by cbn in *.
Qed.

Lemma t_outer_steady {A} P (J : L → Prop) (m : M S A) (R : A → Prop) :
  steady P m R → triple (λ sl, P sl.1 ∧ J sl.2) (outer m) (λ a sl, (P sl.1 ∧ J sl.2) ∧ R a) (λ sl, P sl.1).
Proof. intros Hm. eapply t_conseq; [exact (t_outer _ J _ _ _ Hm)|done| |done]. by intros a sl [[? ?] ?]. Qed.

Lemma t_local P (J : L → Prop) E :
  triple (λ sl, P sl.1 ∧ J sl.2) local (λ l sl, (P sl.1 ∧ J sl.2) ∧ J l) (λ sl, E sl.1).
Proof. intros [s l] [Hs Hl]. by cbn. Qed.

Lemma t_set_local P (J : L → Prop) l' E :
  triple (λ sl, P sl.1 ∧ J sl.2) (set_local l') (λ _ sl, P sl.1 ∧ sl.2 = l') (λ sl, E sl.1).
Proof. intros [s l] [Hs Hl]. by cbn. Qed.

Lemma t_withLocal {A} P (l : L) (m : M (S * L) A) (Q : A * L → S → Prop) E :
  triple (λ sl, P sl.1 ∧ sl.2 = l) m (λ a sl, Q (a, sl.2) sl.1) (λ sl, E sl.1) →
  triple P (withLocal l m) Q E.
Proof.
  intros Hm s Hs. specialize (Hm (s, l) (conj Hs eq_refl)). unfold withLocal.
  destruct (m (s, l)) as [[a|e] [s' l']]; by cbn in *.
Qed.
End locals.
