(* ===== verification/Store.v ===== *)
(** An API server that only the operator writes, as an interface: what is
    stored, what a read answers and what a write leaves.  Theorems about many
    reconciliations are proved against it; the simulated world satisfies it.
    The interface speaks of the objects that the operator's cache shows: Setup
    has the selector of the cache, Hidden says which objects pass it. *)

From S2P Require Import Prelude GoStd K8s V1beta1 Kube Trace ControllerUtils.

(** ** The interface *)

(** The object of a kind under a key. *)
Class Store (W : Type) := contents : W → ∀ k : Kind, NamespacedName → option (Obj k).

(** Two metadata that differ only in what the server assigns: the uid, the
    version, the generation and the time of a deletion. *)
Definition sameMeta (m m' : ObjectMeta) : Prop :=
  om_Name m' = om_Name m ∧ om_Namespace m' = om_Namespace m ∧ om_Labels m' = om_Labels m ∧
  om_Annotations m' = om_Annotations m ∧ om_Finalizers m' = om_Finalizers m ∧
  om_OwnerReferences m' = om_OwnerReferences m.

(** The object the server keeps and answers when it is sent [o]. *)
Definition served {k} (o o' : Obj k) : Prop := ∃ m', sameMeta (meta o) m' ∧ o' = set_meta m' o.

Definition sameStore {W} `{!Store W} (w w' : W) : Prop :=
  ∀ k key, contents w' k key = contents w k key.

(** [o] is put in its place and nothing else moves. *)
Definition stored {W} `{!Store W} {k} (o : Obj k) (w w' : W) : Prop :=
  contents w' k (ObjectKeyFromObject o) = Some o ∧
  ∀ k' key, (k', key) ≠ (k, ObjectKeyFromObject o) → contents w' k' key = contents w k' key.

(** The answer to a read. *)
Definition reads {A} (stored : option A) (answer : result A) : Prop :=
  match stored with
  | Some o => answer = inr o
  | None => ∃ err, answer = inl err ∧ errIsNotFound err = true
  end.

Class StoreLaws (W : Type) `{!Kube W, !Store W} : Prop := {
  store_key (w : W) k key o : contents w k key = Some o → ObjectKeyFromObject o = key;
  store_get k key w : reads (contents w k key) (kGet k key w).1 ∧ sameStore w (kGet k key w).2;
  store_csGet k key w : reads (contents w k key) (csGet k key w).1 ∧ sameStore w (csGet k key w).2;
  store_create k (o : Obj k) w : contents w k (ObjectKeyFromObject o) = None →
    ∃ o' w', kCreate k o w = (inr o', w') ∧ served o o' ∧ stored o' w w';
  store_update k (o : Obj k) w : is_Some (contents w k (ObjectKeyFromObject o)) →
    ∃ o' w', kUpdate k o w = (inr o', w') ∧ served o o' ∧ stored o' w w';
  store_event r ty reason msg w : sameStore w (kEvent r ty reason msg w).2;
  store_now w : sameStore w (kNow w).2;
  store_random n w : sameStore w (kRandRead n w).2 ∧
    ∃ bytes, (kRandRead n w).1 = inr bytes ∧ String.length bytes = n
}.

Lemma served_key {k} (o o' : Obj k) : served o o' → ObjectKeyFromObject o' = ObjectKeyFromObject o.
Proof.
  intros (m' & (Hn & Hns & _) & ->). rw /ObjectKeyFromObject meta_set_meta. congruence.
Qed.

Lemma sameMeta_refl m : sameMeta m m.
Proof. done. Qed.

Lemma served_refl {k} (o : Obj k) : served o o.
Proof. exists (meta o). by rw set_meta_meta. Qed.

Lemma sameStore_refl {W} `{!Store W} (w : W) : sameStore w w.
Proof. done. Qed.

Lemma sameStore_trans {W} `{!Store W} (w1 w2 w3 : W) :
  sameStore w1 w2 → sameStore w2 w3 → sameStore w1 w3.
Proof. intros H12 H23 k key. by rw H23 H12. Qed.

#[export] Instance store_get_law {W} `{!Kube W, !Store W, !StoreLaws W} : GetLaw W.
Proof.
  intros k key w o w' E. destruct (store_get k key w) as [Hr _]. rw E in Hr. unfold reads in Hr.
  destruct (contents w k key) as [o1|] eqn:Ec; [|by destruct Hr as (? & ? & _)].
  injection Hr as ->. by eapply store_key.
Qed.

(** ** Computations that keep the cluster object *)

Section wp.
Context {W : Type} `{!Kube W, !Store W, !StoreLaws W} (r : RabbitmqCluster).
Abbreviation TW := (W * list Call)%type.

(** From world [w] the computation returns a value, in a world and after calls
    that satisfy [Q], with the cluster object as it was. *)
Definition wp {A} (m : Run TW A) (w : W) (Q : A → W → list Call → Prop) : Prop :=
  ∀ l, ∃ a w' c, m (mkOp r (w, l)) = (Returns a, mkOp r (w', l ++ c)) ∧ Q a w' c.

Lemma wp_mono {A} (m : Run TW A) w (Q Q' : A → W → list Call → Prop) :
  wp m w Q → (∀ a w' c, Q a w' c → Q' a w' c) → wp m w Q'.
Proof. intros Hm HQ l. destruct (Hm l) as (a & w' & c & E & HQa). eauto 10. Qed.

Lemma wp_ret {A} (a : A) w (Q : A → W → list Call → Prop) : Q a w [] → wp (mret a) w Q.
Proof. intros HQ l. exists a, w, []. by rw app_nil_r. Qed.

Lemma wp_bind {A B} (m : Run TW A) (f : A → Run TW B) w (Q : B → W → list Call → Prop) :
  wp m w (λ a w1 c1, wp (f a) w1 (λ b w2 c2, Q b w2 (c1 ++ c2))) → wp (m ≫= f) w Q.
Proof.
  intros Hm l. destruct (Hm l) as (a & w1 & c1 & E1 & Hf). destruct (Hf (l ++ c1)) as (b & w2 & c2 & E2 & HQ).
  exists b, w2, (c1 ++ c2). rw (M_bind_eq _ _ _ _ _ E1) E2 app_assoc. done.
Qed.

Lemma wp_lift {A} (o : outcome A) a w (Q : A → W → list Call → Prop) : o = Returns a → Q a w [] → wp (lift o) w Q.
Proof. intros -> HQ l. exists a, w, []. by rw app_nil_r. Qed.

Lemma wp_rmq w (Q : RabbitmqCluster → W → list Call → Prop) : Q r w [] → wp rmq w Q.
Proof. intros HQ l. exists r, w, []. by rw app_nil_r. Qed.

Lemma wp_of_eq {A} (m : Run TW A) a w (Q : A → W → list Call → Prop) :
  (∀ s, op_rmq s = r → m s = (Returns a, s)) → Q a w [] → wp m w Q.
Proof. intros Hm HQ l. exists a, w, []. by rw Hm // app_nil_r. Qed.

Lemma wp_unlogged {A} (f : Ext W A) w (Q : A → W → list Call → Prop) :
  Q (f w).1 (f w).2 [] → wp (ext (unlogged f)) w Q.
Proof.
  intros HQ l. exists (f w).1, (f w).2, []. rw /ext /unlogged /= app_nil_r. by destruct (f w).
Qed.

Lemma wp_logged {A} (call : A → Call) (f : Ext W A) w (Q : A → W → list Call → Prop) :
  Q (f w).1 (f w).2 [call (f w).1] → wp (ext (logged call f)) w Q.
Proof.
  intros HQ l. exists (f w).1, (f w).2, [call (f w).1]. rw /ext /logged /=. by destruct (f w).
Qed.

Lemma wp_withLocal {A L} (m : M (Op TW * L) A) (loc : L) w (Q : A * L → W → list Call → Prop) :
  (∀ l, ∃ a loc' w' c, m (mkOp r (w, l), loc) = (Returns a, (mkOp r (w', l ++ c), loc')) ∧ Q (a, loc') w' c) →
  wp (withLocal loc m) w Q.
Proof.
  intros Hm l. destruct (Hm l) as (a & loc' & w' & c & E & HQ). exists (a, loc'), w', c.
  by rw /withLocal E.
Qed.

(** A retry loop whose first attempt succeeds. *)
Lemma wp_retry (n : nat) (retriable : error → bool) (fn : Run TW goerror) last w
    (Q : goerror → W → list Call → Prop) :
  wp fn w (λ e w' c, e = None ∧ Q None w' c) → wp (OnErrorSteps (S n) retriable fn last) w Q.
Proof.
  intros Hfn l. destruct (Hfn l) as (e & w' & c & E & -> & HQ). exists None, w', c.
  by rw (OnErrorSteps_ok _ _ _ _ _ _ E).
Qed.

(** *** Reads and writes *)

Lemma wp_get_some {k} key o w (Q : result (Obj k) → W → list Call → Prop) :
  contents w k key = Some o → (∀ w', sameStore w w' → Q (inr o) w' []) → wp (ext (kGet k key)) w Q.
Proof.
  intros Ec HQ. apply wp_unlogged. destruct (store_get k key w) as [Hr Hs]. rw Ec in Hr.
  simpl in Hr. rw Hr. by apply HQ.
Qed.

Lemma wp_get_none {k} key w (Q : result (Obj k) → W → list Call → Prop) :
  contents w k key = None →
  (∀ err w', errIsNotFound err = true → sameStore w w' → Q (inl err) w' []) → wp (ext (kGet k key)) w Q.
Proof.
  intros Ec HQ. apply wp_unlogged. destruct (store_get k key w) as [Hr Hs]. rw Ec in Hr.
  destruct Hr as (err & Hr & Hnf). rw Hr. by apply HQ.
Qed.

Lemma wp_csGet {k} key w (Q : result (Obj k) → W → list Call → Prop) :
  (∀ a w', reads (contents w k key) a → sameStore w w' → Q a w' []) → wp (ext (csGet k key)) w Q.
Proof. intros HQ. apply wp_unlogged. destruct (store_csGet k key w) as [Hr Hs]. by apply HQ. Qed.

Lemma wp_create {k} (o : Obj k) w (Q : result (Obj k) → W → list Call → Prop) :
  contents w k (ObjectKeyFromObject o) = None →
  (∀ o' w', served o o' → stored o' w w' → Q (inr o') w' [Created k o true]) → wp (ext (kCreate k o)) w Q.
Proof.
  intros Ec HQ. apply wp_logged. destruct (store_create k o w Ec) as (o' & w' & -> & Hs & Hst). by apply HQ.
Qed.

Lemma wp_update {k} (o : Obj k) w (Q : Obj k * goerror → W → list Call → Prop) :
  is_Some (contents w k (ObjectKeyFromObject o)) →
  (∀ o' w', served o o' → stored o' w w' → Q (o', None) w' [Updated k o true]) → wp (update o) w Q.
Proof.
  intros Ec HQ. unfold update. apply wp_bind, wp_logged.
  destruct (store_update k o w Ec) as (o' & w' & -> & Hs & Hst). apply wp_ret. by apply HQ.
Qed.

Lemma wp_event ty reason msg w (Q : unit → W → list Call → Prop) :
  (∀ w', sameStore w w' → Q tt w' [Event ty reason msg]) → wp (event ty reason msg) w Q.
Proof.
  intros HQ. unfold event. apply wp_bind, wp_rmq, wp_logged.
  destruct (kEvent r ty reason msg w) as [[] w'] eqn:E. apply HQ.
  pose proof (store_event r ty reason msg w) as Hs. by rw E in Hs.
Qed.

Lemma wp_now w (Q : Z → W → list Call → Prop) :
  (∀ now w', sameStore w w' → Q now w' []) → wp (ext kNow) w Q.
Proof. intros HQ. apply wp_unlogged, HQ, store_now. Qed.

Lemma wp_random n w (Q : result string → W → list Call → Prop) :
  (∀ bytes w', String.length bytes = n → sameStore w w' → Q (inr bytes) w' []) → wp (ext (kRandRead n)) w Q.
Proof.
  intros HQ. apply wp_unlogged. destruct (store_random n w) as (Hs & bytes & -> & Hl). by apply HQ.
Qed.
End wp.
