(* ===== verification/Behaviour.v ===== *)
(** What the builders of a cluster have in common, as far as bringing a child
    to its final state is concerned: the update of a builder is total on the
    children it accepts, reaches its result in one step, and leaves the result
    alone when the server or the operator has added to its metadata. *)

From S2P Require Import Prelude GoStd K8s V1beta1 Constant Metadata Merge Kube Controllerutil Builder.
From S2P Require Import Plugins Services Secrets Rbac ServerConf Sts Builders Trace Scaling.
From S2P Require Import ControllerUtils Configurations Resources Store.

(** ** Metadata that has grown *)

(** The annotations with which the operator marks its children. *)
Definition markers : list string := [pluginsUpdateAnnotation; serverConfAnnotation; stsCreateAnnotation].

(** Like [sameMeta], and perhaps one marker more or less. *)
Definition grown (m m' : ObjectMeta) : Prop :=
  om_Name m' = om_Name m ∧ om_Namespace m' = om_Namespace m ∧ om_Labels m' = om_Labels m ∧
  om_OwnerReferences m' = om_OwnerReferences m ∧
  (om_Annotations m' = om_Annotations m ∨ ∃ key, key ∈ markers ∧
     ((∃ v, om_Annotations m' = Some (<[key := v]> (gm (om_Annotations m)))) ∨
      om_Annotations m' = gm_delete key (om_Annotations m))).

Lemma sameMeta_grown m m' : sameMeta m m' → grown m m'.
Proof. intros (? & ? & ? & ? & _ & ?). split_and!; [done..|by left]. Qed.

Lemma annotate_grown {k} key v (o : Obj k) : key ∈ markers → grown (meta o) (meta (annotate key v o)).
Proof.
  intros Hk. rw /annotate meta_set_annotations. split_and!; [done..|]. right. exists key. split; [done|].
  left. by exists v.
Qed.

Lemma unmark_grown {k} key (o : Obj k) :
  key ∈ markers → grown (meta o) (meta (set_annotations (gm_delete key (annotations o)) o)).
Proof.
  intros Hk. rw meta_set_annotations. split_and!; [done..|]. right. exists key. split; [done|]. by right.
Qed.

(** A merge of annotations that leaves its results and the markers alone. *)
Record keepsMarkers (A : gomap string → gomap string) : Prop := {
  merge_again a : A (A a) = A a;
  merge_marker a key v : key ∈ markers → A a = a →
    A (Some (<[key := v]> (gm a))) = Some (<[key := v]> (gm a));
  merge_unmark a key : key ∈ markers → A a = a → A (gm_delete key a) = gm_delete key a;
  merge_lookup a key : key ∈ markers → gm_lookup (A a) key = gm_lookup a key
}.

(** A merge that gives some keys a value and leaves the others. *)
Definition overlays (g : string → option string) (A : gomap string → gomap string) : Prop :=
  ∀ a, is_Some (A a) ∧
  ∀ k, gm_lookup (A a) k = match g k with Some v => Some v | None => gm_lookup a k end.

Lemma gm_ext (a b : gomap string) :
  is_Some a → is_Some b → (∀ k, gm_lookup a k = gm_lookup b k) → a = b.
Proof. intros [m ->] [m' ->] H. f_equal. apply map_eq. exact H. Qed.

Lemma overlays_keepsMarkers g A :
  overlays g A → (∀ key, key ∈ markers → g key = None) → keepsMarkers A.
Proof.
  intros HA Hg. split.
  - intros a. apply gm_ext; [by apply HA..|]. intros k.
    destruct (HA (A a)) as [_ E1], (HA a) as [_ E2]. rw E1 E2. by destruct (g k).
  - intros a key v Hk Ha. apply gm_ext; [by apply HA|done|]. intros k.
    destruct (HA (Some (<[key:=v]> (gm a)))) as [_ ->], (HA a) as [_ Hak]. specialize (Hak k). rw Ha in Hak.
    destruct (decide (key = k)) as [<-|Hne].
    + by rw Hg.
    + assert (gm_lookup (Some (<[key:=v]> (gm a))) k = gm_lookup a k) as -> by by apply lookup_insert_ne.
      by symmetry.
  - intros a key Hk Ha. destruct (HA a) as [Hs Hak]. rw Ha in Hs. destruct Hs as [m Hm]. subst a.
    apply gm_ext; [by apply HA|done|]. intros k. destruct (HA (gm_delete key (Some m))) as [_ ->].
    specialize (Hak k). rw Ha in Hak. unfold gm_lookup in *. cbn in *. destruct (decide (key = k)) as [<-|Hne].
    + by rw Hg.
    + rw !lookup_delete_ne //.
  - intros a key Hk. destruct (HA a) as [_ ->]. by rw Hg.
Qed.

Lemma mergeWithFilter_overlays (f : string → bool) (maps : list (gomap string)) :
  overlays (λ k, if f k then lookup_last maps k else None) (λ a, mergeWithFilter f a maps).
Proof.
  intros a. split; [by eexists|]. intros k. rw mergeWithFilter_get. by destruct (f k).
Qed.

Lemma overlays_compose g1 g2 A1 A2 :
  overlays g1 A1 → overlays g2 A2 →
  overlays (λ k, match g2 k with Some v => Some v | None => g1 k end) (λ a, A2 (A1 a)).
Proof.
  intros H1 H2 a. split; [apply H2|]. intros k.
  destruct (H2 (A1 a)) as [_ ->], (H1 a) as [_ ->].
  by destruct (g2 k).
Qed.

(** ** Updates of the common shape *)

Section shape.
Context (r : RabbitmqCluster) {k : Kind} (A : gomap string → gomap string)
  (F : Obj k → outcome (Obj k)) (P : Obj k → Prop).
Context (HA : keepsMarkers A) (HF : restOnly F P).
Context (Htotal : ∀ o, P o → ∃ o', F o = Returns o' ∧ P o').

Definition relabel (m : ObjectMeta) : ObjectMeta :=
  set_om_Annotations (A (om_Annotations m))
    (set_om_Labels (Some (GetLabels (rmq_Name r) (rmq_Labels r))) m).

(** [controlled], with any merge of the annotations. *)
Definition shaped (o : Obj k) : fallible (Obj k) :=
  o ← F (set_meta (relabel (meta o)) o); Returns (setController r o).

(** The cluster can be made the controller. *)
Definition controllable (m : ObjectMeta) : Prop :=
  (om_Namespace (rmq_ObjectMeta r) = "" ∨ om_Namespace (rmq_ObjectMeta r) = om_Namespace m) ∧
  ∀ e, GetControllerOf m = Some e → referSameObject e (controllerRef (rmq_ObjectMeta r)) = true.

Lemma controllable_grown m m' : grown m m' → controllable m → controllable m'.
Proof. intros (_ & Hns & _ & Ho & _) [H1 H2]. split; [by rw Hns|]. unfold GetControllerOf. by rw Ho. Qed.

Lemma controllable_set m :
  controllable m → ∃ m', SetControllerReference (rmq_ObjectMeta r) m = inr m' ∧ controllable m'.
Proof.
  intros [Hns He]. assert (∃ m', SetControllerReference (rmq_ObjectMeta r) m = inr m') as [m' Em'].
  { apply validateOwner_None in Hns. rw /SetControllerReference Hns.
    destruct (GetControllerOf m) as [e|]; [|by eexists]. rw He //. by eexists. }
  exists m'. split; [done|]. apply SetControllerReference_inv in Em' as (-> & _ & _). split; [done|].
  rw GetControllerOf_upsert //. intros e [= <-]. apply controllerRef_same.
Qed.

Lemma rest_again o o1 m : P o → F o = Returns o1 → F (set_meta m o1) = Returns (set_meta m o1).
Proof. intros HP E. by rw (rest_meta _ _ HF) (rest_twice _ _ HF o o1 HP E). Qed.

(** What [shaped] gives, and that it is a fixed point. *)
Lemma shaped_spec o :
  controllable (meta o) → P o →
  ∃ o', shaped o = ok o' ∧ controllable (meta o') ∧ P o' ∧ shaped o' = ok o' ∧
        ObjectKeyFromObject o' = ObjectKeyFromObject o.
Proof.
  intros Hc HP. destruct (Htotal o HP) as (o1 & E1 & HP1).
  destruct (controllable_set (relabel (meta o)) Hc) as (m2 & E2 & Hc2).
  assert (E2' := E2). apply SetControllerReference_inv in E2' as (Em2 & _ & _).
  exists (set_meta m2 o1). split_and!.
  - unfold shaped. rw (rest_meta _ _ HF) E1 /mbind /outcome_bind /setController meta_set_meta E2.
    by rw set_meta_twice.
  - by rw meta_set_meta.
  - by apply (rest_ok_in _ _ HF).
  - unfold shaped. rw meta_set_meta. assert (relabel m2 = m2) as ->.
    { unfold relabel. rw Em2. cbn. by rw (merge_again _ HA). }
    rw set_meta_twice (rest_again o o1 m2 HP E1) /mbind /outcome_bind /setController meta_set_meta.
    by rw (SetControllerReference_again _ _ _ E2) set_meta_twice.
  - by rw /ObjectKeyFromObject meta_set_meta Em2.
Qed.

(** What the result consists of. *)
Lemma shaped_inv o o' :
  shaped o = ok o' →
  om_Annotations (meta o') = A (om_Annotations (meta o)) ∧
  om_Labels (meta o') = Some (GetLabels (rmq_Name r) (rmq_Labels r)) ∧
  ∃ o1, F o = Returns o1 ∧ o' = set_meta (meta o') o1.
Proof.
  unfold shaped. rw (rest_meta _ _ HF). destruct (F o) as [o1|]; [|done].
  unfold mbind, outcome_bind, setController. rw meta_set_meta.
  destruct (SetControllerReference _ _) as [|m2] eqn:E2; [done|]. intros [= <-].
  apply SetControllerReference_inv in E2 as (-> & _ & _). rw !meta_set_meta !set_meta_twice.
  split_and!; [done|done|]. by exists o1.
Qed.

(** Whether an object is a fixed point of both is a matter of its metadata. *)
Lemma shaped_at o o' :
  F o = Returns o → shaped o = ok o → F o' = Returns o' → meta o' = meta o → shaped o' = ok o'.
Proof.
  unfold shaped. rw !(rest_meta _ _ HF). intros -> Es -> Em. rw Em. unfold mbind, outcome_bind, setController in *.
  rw meta_set_meta in Es. rw meta_set_meta. destruct (SetControllerReference _ _) as [|m2]; [done|].
  injection Es as Es. rw set_meta_twice in Es. rw set_meta_twice. do 2 f_equal.
  assert (m2 = meta o) as -> by by rw -Es meta_set_meta. by rw -Em set_meta_meta.
Qed.

(** A fixed point stays one when its metadata grows. *)
Lemma shaped_grown o m' :
  controllable (meta o) → P o → shaped o = ok o → grown (meta o) m' → shaped (set_meta m' o) = ok (set_meta m' o).
Proof.
  intros Hc HP E (Hn & Hns & Hl & Ho & Ha). unfold shaped in *. rw (rest_meta _ _ HF) in E.
  destruct (F o) as [o1|] eqn:E1; [|done]. unfold mbind, outcome_bind, setController in E. rw meta_set_meta in E.
  destruct (SetControllerReference _ _) as [|m2] eqn:E2; [done|]. injection E as Eo. rw set_meta_twice in Eo.
  apply SetControllerReference_inv in E2 as (Em2 & Hv & Hr).
  assert (meta o = m2) as Hm by (rw -Eo; apply meta_set_meta).
  rw Em2 in Hm. pose proof (f_equal om_Labels Hm) as HL. pose proof (f_equal om_Annotations Hm) as HAn.
  pose proof (f_equal om_OwnerReferences Hm) as HO. cbn in HL, HAn, HO.
  assert (A (om_Annotations m') = om_Annotations m') as HA'.
  { destruct Ha as [->|(key & Hk & [[v ->]| ->])]; [done|by apply (merge_marker _ HA)|by apply (merge_unmark _ HA)]. }
  assert (relabel m' = m') as Hrel.
  { unfold relabel. rw HA' -HL -Hl. by destruct m'. }
  assert (F (set_meta m' o) = Returns (set_meta m' o)) as HFm.
  { rw -{1 2}Eo set_meta_twice. rw -(set_meta_twice _ m' m2). rw (rest_meta _ _ HF).
    rw (rest_again o o1 m2 HP E1) /mbind /outcome_bind. done. }
  rw meta_set_meta Hrel set_meta_twice HFm /mbind /outcome_bind /setController meta_set_meta.
  assert (SetControllerReference (rmq_ObjectMeta r) m' = inr m') as ->; [|by rw set_meta_twice].
  rw /SetControllerReference. rw (proj2 (validateOwner_None _ _)).
  { apply validateOwner_None in Hv. by rw Hns. }
  assert (set_om_OwnerReferences (upsertOwnerRef (controllerRef (rmq_ObjectMeta r)) (om_OwnerReferences m')) m' = m') as ->.
  { rw Ho -HO. rw -Ho. by destruct m'. }
  assert (GetControllerOf m' = GetControllerOf (relabel (meta o))) as -> by (unfold GetControllerOf; by rw Ho).
  destruct (GetControllerOf (relabel (meta o))) as [e|]; [|done]. by rw (Hr e eq_refl).
Qed.
End shape.
