(* ===== verification/Tame.v ===== *)
(** The builders of a cluster without overrides: each of them has the shape of
    file Behaviour, with a change of the rest of the object that is total. *)

From S2P Require Import Prelude GoStd K8s V1beta1 Constant Metadata Merge Kube Controllerutil Builder.
From S2P Require Import Plugins Services Secrets Rbac ServerConf Overrides Sts Builders Trace Scaling.
From S2P Require Import ControllerUtils Configurations Resources Store Behaviour.

(** ** Clusters and children that can be reconciled *)

Section tame.
Context `{!Library} (r : RabbitmqCluster) (n : Z).

(** A text of the operator's file that can be compared without its size hints. *)
Definition readable (text : string) : Prop :=
  text = "" ∨ ∃ conf text', iniLoad text = inr conf ∧
    iniWriteTo (foldl (λ conf key,
      if HasPrefix key "cluster_formation.target_cluster_size_hint"
      then iniDeleteKey key conf else conf) conf (iniKeyStrings conf)) = inr text'.

(** The cluster has its defaults, no override and no annotation that is a marker,
    and the ini library can write the file of its default user. *)
Record Tidy : Prop := {
  tidy_replicas : rs_Replicas (rmq_Spec r) = Some n;
  tidy_type : rss_Type (rs_Service (rmq_Spec r)) ≠ "";
  tidy_service : ros_Service (rs_Override (rmq_Spec r)) = None;
  tidy_statefulset : ros_StatefulSet (rs_Override (rmq_Spec r)) = None;
  tidy_resources : is_Some (rs_Resources (rmq_Spec r));
  tidy_grace : is_Some (rs_TerminationGracePeriodSeconds (rmq_Spec r));
  tidy_storage : is_Some (rps_Storage (rs_Persistence (rmq_Spec r)));
  tidy_annotations key : key ∈ markers →
    gm_lookup (rmq_Annotations r) key = None ∧
    match rss_Annotations (rs_Service (rmq_Spec r)) with Some a => a !! key = None | None => True end;
  tidy_user username password : ∃ conf, generateDefaultUserConf username password = inr conf
}.

(** ** The common merges of annotations *)

Definition mergeCluster (a : gomap string) : gomap string :=
  ReconcileAndFilterAnnotations a [rmq_Annotations r].

Definition mergeService (a : gomap string) : gomap string :=
  match rss_Annotations (rs_Service (rmq_Spec r)) with
  | Some b => ReconcileAnnotations (mergeCluster a) [Some b]
  | None => mergeCluster a
  end.

Context (HT : Tidy).

Lemma mergeCluster_markers : keepsMarkers mergeCluster.
Proof.
  eapply overlays_keepsMarkers; [apply mergeWithFilter_overlays|]. intros key Hk.
  destruct (tidy_annotations HT key Hk) as [Hn _]. rw /lookup_last /= Hn. by destruct (isNotKubernetesAnnotation key).
Qed.

Lemma mergeService_markers : keepsMarkers mergeService.
Proof.
  unfold mergeService. destruct (rss_Annotations _) as [b|] eqn:Eb; [|apply mergeCluster_markers].
  eapply overlays_keepsMarkers; [exact (overlays_compose _ _ _ _
    (mergeWithFilter_overlays isNotKubernetesAnnotation [rmq_Annotations r])
    (mergeWithFilter_overlays (λ _, true) [Some b]))|]. intros key Hk.
  destruct (tidy_annotations HT key Hk) as [Hn Hs]. rw Eb in Hs.
  rw /lookup_last /= {1}/gm_lookup /= Hs Hn. by destruct (isNotKubernetesAnnotation key).
Qed.

(** ** The updates have the shape *)

Lemma controlled_shaped {k} (F : Obj k → outcome (Obj k)) : controlled r F = shaped r mergeCluster F.
Proof. done. Qed.

(** *** The client service *)

Definition serviceRest (service : Service) : outcome Service :=
  ports ← Service_Ports r (svcs_Ports (svc_Spec service));
  let ty := rss_Type (rs_Service (rmq_Spec r)) in
  let ports := if (ty =? "ClusterIP")%string || (ty =? "")%string then clearNodePorts ports else ports in
  Returns (set_svc_Spec (set_svcs_Type ty (set_svcs_Selector (Some (LabelSelector (rmq_Name r)))
    (set_svcs_Ports ports (svc_Spec service)))) service).

Lemma defaultServiceType_id : defaultServiceType r = r.
Proof. rw /defaultServiceType. by rw (proj2 (String.eqb_neq _ _) (tidy_type HT)). Qed.

Lemma Service_Update_shaped service :
  Service_Update service r =
  (match shaped (k := KService) r mergeService serviceRest service with
   | Returns x => Returns x | Panics e => Panics e end, r).
Proof.
  unfold Service_Update, mbind, M_bind, get, lift, modify. cbv beta iota zeta.
  rw defaultServiceType_id. unfold Service_finish. rw (tidy_service HT).
  unfold shaped, serviceRest, mbind, outcome_bind.
  assert (annotateService r (updateMeta (k := KService) r service) =
    set_meta (k := KService) (relabel r mergeService (meta (k := KService) service)) service) as ->.
  { unfold annotateService, relabel, mergeService. by destruct (rss_Annotations _). }
  destruct (Service_Ports r _) as [ports|]; [|done]. cbn. by destruct (_ || _).
Qed.

Lemma clearNodePorts_twice ports : clearNodePorts (clearNodePorts ports) = clearNodePorts ports.
Proof. rw /clearNodePorts -list_fmap_compose. by apply list_fmap_ext. Qed.

Lemma findKey_clear k ports : findKey k (clearNodePorts ports) = set_sp_NodePort 0 <$> findKey k ports.
Proof.
  induction ports as [|p ports IH]; [done|]. cbn. destruct (decide (sp_Name p = k)); [done|exact IH].
Qed.

Lemma clearNodePorts_names ports : sp_Name <$> clearNodePorts ports = sp_Name <$> ports.
Proof. rw /clearNodePorts -list_fmap_compose. by apply list_fmap_ext. Qed.

(** Merging leaves merged ports alone, with and without their node ports. *)
Lemma mergePorts_cleared curr next ports :
  NoDup (sp_Name <$> curr) → NoDup (sp_Name <$> next) → mergePorts curr next = Returns ports →
  mergePorts (clearNodePorts ports) next = Returns (clearNodePorts ports) ∧ mergePorts ports next = Returns ports.
Proof.
  intros Hc Hn Hm. unfold mergePorts in *.
  change (NoDup (mkey <$> curr)) in Hc. change (NoDup (mkey <$> next)) in Hn.
  destruct (merge_settles _ _ _ Hc Hn (λ n _, f_equal Returns (updatePort_self n)) Hm) as [Hd Hs].
  split; (rw merge_mergeSpec; [|apply mergeSpec_id]); [|intros p Hp|done|done].
  - change (NoDup (sp_Name <$> clearNodePorts ports)). by rw clearNodePorts_names.
  - destruct (Hs p Hp) as (e & He & Hu). exists (set_sp_NodePort 0 e). rw findKey_clear He. split; [done|].
    injection Hu as Hu. cbn. f_equal. rw -{2}Hu. by destruct e.
Qed.

Lemma serviceRest_restOnly : restOnly (k := KService) serviceRest portsDistinct.
Proof.
  split.
  - intros m o. rw /serviceRest /mbind /outcome_bind /=. by destruct (Service_Ports _ _).
  - intros o o'. rw /serviceRest /mbind /outcome_bind. destruct (Service_Ports _ _); [|done]. by intros [= <-].
  - intros o o' Hd. rw /serviceRest /mbind /outcome_bind.
    destruct (Service_Ports r (svcs_Ports (svc_Spec o))) as [ports|] eqn:E; [|done]. intros [= <-].
    cbn [svc_Spec set_svc_Spec svcs_Ports set_svcs_Type set_svcs_Selector set_svcs_Ports].
    unfold Service_Ports in *. destruct (mergePorts_cleared _ _ _ Hd (ClientServicePorts_names _) E) as [E1 E2].
    destruct (_ || _); [by rw E1 clearNodePorts_twice|by rw E2].
  - done.
Qed.

Lemma serviceRest_total o : portsDistinct o → ∃ o', serviceRest o = Returns o' ∧ portsDistinct o'.
Proof.
  intros Hd. destruct (mergePorts_total (svcs_Ports (svc_Spec o)) (ClientServicePorts (NewPortManager r)))
    as [ports Hp]. eexists. rw /serviceRest /Service_Ports Hp /mbind /outcome_bind. split; [done|].
  pose proof (mergePorts_merged _ _ _ Hd (ClientServicePorts_names _) Hp) as [Hn _].
  unfold portsDistinct. cbn. destruct (_ || _); [by rw clearNodePorts_names|done].
Qed.

Lemma headlessRest_total o : portsDistinct o → ∃ o', headlessRest r o = Returns o' ∧ portsDistinct o'.
Proof.
  intros Hd. destruct (mergePorts_total (svcs_Ports (svc_Spec o)) (HeadlessServicePorts (NewPortManager r)))
    as [ports Hp]. eexists. rw /headlessRest /HeadlessService_Ports Hp /mbind /outcome_bind. split; [done|].
  eapply mergePorts_merged; [exact Hd| |exact Hp]. by apply (bool_decide_unpack _).
Qed.

(** *** The secrets *)

Lemma userSecretRest_total s : is_Some (sec_Data s) → ∃ s', userSecretRest r s = Returns s' ∧ is_Some (sec_Data s').
Proof.
  intros [data E]. rw /userSecretRest /mbind /outcome_bind E. eexists. split; [done|]. by eexists.
Qed.

Lemma restOnly_weaken {k} (F : Obj k → outcome (Obj k)) (P : Obj k → Prop) :
  restOnly F (λ _, True) → (∀ m o, P o → P (set_meta m o)) → restOnly F P.
Proof. intros [H1 H2 H3 _] HP. split; [done|done| |done]. intros o o' _. by apply H3. Qed.

(** *** The ConfigMaps *)

Definition pluginsRest (cm : ConfigMap) : outcome ConfigMap :=
  Returns (set_cm_Data (Some (<[fileNameRabbitmqPlugins :=
    desiredPluginsAsString (rcs_AdditionalPlugins (rs_Rabbitmq (rmq_Spec r)))]> (gm (cm_Data cm)))) cm).

Lemma Plugins_Update_shaped cm :
  RabbitmqPluginsConfigMap_Update r cm = shaped (k := KConfigMap) r mergeCluster pluginsRest cm.
Proof. done. Qed.

Lemma pluginsRest_restOnly : restOnly (k := KConfigMap) pluginsRest (λ _, True).
Proof.
  split; [done|by intros o o' [= <-]| |done]. intros o o' _ [= <-]. unfold pluginsRest. cbn.
  by rw insert_insert_eq.
Qed.

Definition serverRest (operatorText userText : string) (cm : ConfigMap) : outcome ConfigMap :=
  Returns (set_cm_Data (Some (confData r operatorText userText (gm (cm_Data cm)))) cm).

Lemma confData_twice op user data : confData r op user (confData r op user data) = confData r op user data.
Proof.
  apply map_eq. intros k. unfold confData. rw !updateProperty_lookup. do 3 (case_decide; [done|]).
  destruct (decide (fileNameRabbitmqConfdUserDefined = k)) as [<-|Hu]; [by rw !lookup_insert_eq|].
  rw !(lookup_insert_ne _ fileNameRabbitmqConfdUserDefined) //.
  destruct (decide (fileNameRabbitmqConfdDefault = k)) as [<-|Hd]; [by rw !lookup_insert_eq|].
  rw !lookup_insert_ne // !updateProperty_lookup. do 3 (case_decide; [done|]). by rw !lookup_insert_ne.
Qed.

Definition comparable (cm : ConfigMap) : Prop := readable (gm_get (cm_Data cm) fileNameRabbitmqConfdDefault).

Lemma serverRest_restOnly op user : restOnly (k := KConfigMap) (serverRest op user) comparable.
Proof.
  split; [done|by intros o o' [= <-]| |done]. intros o o' _ [= <-]. unfold serverRest. cbn.
  by rw confData_twice.
Qed.

Lemma confData_operator op user data : confData r op user data !! fileNameRabbitmqConfdDefault = Some op.
Proof.
  unfold confData. rw !updateProperty_lookup. decide_names. rw lookup_insert_ne //. by rw lookup_insert_eq.
Qed.

Lemma serverRest_total op user cm :
  readable op → ∃ cm', serverRest op user cm = Returns cm' ∧ comparable cm'.
Proof.
  intros Hop. eexists. split; [done|]. unfold comparable, gm_get, gm_lookup. cbn. by rw confData_operator.
Qed.

Lemma comparable_ok cm : comparable cm → ∃ cm', removeConfigNotRequiringNodeRestart cm = inr cm'.
Proof.
  unfold comparable, readable, removeConfigNotRequiringNodeRestart.
  set (text := gm_get _ _). intros [->|(conf & text' & -> & Hw)]; [by eexists|].
  destruct (text =? "")%string; [by eexists|]. cbn. rw Hw. by eexists.
Qed.

(** The flag apart, the update of the server configuration has the shape. *)
Lemma ServerConfigMap_Update_shaped op user flag cm cm' :
  renderConf r n = inr (op, user) → readable op → comparable cm →
  shaped (k := KConfigMap) r mergeCluster (serverRest op user) cm = ok cm' →
  ∃ flag', ServerConfigMap_Update r flag cm = ok (cm', flag').
Proof.
  intros Hr Hop Hcm Hs. unfold shaped, serverRest, mbind, outcome_bind in Hs.
  assert (comparable cm') as Hcm'.
  { injection Hs as Hs. apply (setController_meta (k := KConfigMap)) in Hs as ->. unfold comparable, gm_get, gm_lookup.
    cbn. by rw confData_operator. }
  destruct (comparable_ok _ Hcm) as [p Hp], (comparable_ok _ Hcm') as [u Hu].
  unfold ServerConfigMap_Update, mbind, outcome_bind. rw (tidy_replicas HT). cbn [derefO].
  assert (∃ f, iniLoad defaultRabbitmqConf = inr f) as [f ->].
  { unfold renderConf, operatorConfiguration in Hr. destruct (iniLoad defaultRabbitmqConf); [done|by eexists]. }
  rw Hr. cbn [tryr]. injection Hs as Hs. unfold ok.
  match goal with |- context [setController _ ?x] => assert (setController (k := KConfigMap) r x = inr cm') as -> end.
  { exact Hs. }
  cbn [tryr]. unfold restartRequired. rw Hp Hu. cbn [tryr]. by eexists.
Qed.

(** *** The StatefulSets *)

Definition storage : Quantity := default 0%Z (rps_Storage (rs_Persistence (rmq_Spec r))).

Lemma storage_eq : rps_Storage (rs_Persistence (rmq_Spec r)) = Some storage.
Proof. unfold storage. by destruct (tidy_storage HT) as [q ->]. Qed.

Lemma Cmp_zero q : (Cmp q 0 =? 0)%Z = bool_decide (q = 0%Z).
Proof.
  rw /Cmp. destruct (Z.compare_spec q 0) as [->|Hq|Hq]; [done| |]; rw bool_decide_eq_false_2 //; lia.
Qed.

Lemma desiredPVC_controlled q : ∃ pvc, setController (k := KPVC) r (desiredPVC r q) = inr pvc.
Proof.
  rw /setController /SetControllerReference /=. rw (proj2 (validateOwner_None _ _)); [by right|]. by eexists.
Qed.

Lemma templateCapacity_findKey name templates :
  templateCapacity name templates =
  match findKey name templates with Some p => pvcRequest p | None => 0%Z end.
Proof.
  induction templates as [|t ts IH]; [done|]. cbn. destruct (String.eqb_spec (om_Name (pvc_ObjectMeta t)) name).
  - by rw decide_True.
  - by rw decide_False.
Qed.

(** Claim templates of the right size stay as they are. *)
Lemma persistentVolumeClaims_same curr :
  claimsDistinct curr → templateCapacity c_PVCName curr = storage →
  persistentVolumeClaims r curr = Returns curr.
Proof.
  intros Hd Hq. rw /persistentVolumeClaims storage_eq /mbind /outcome_bind /= Cmp_zero.
  case_bool_decide as H0; [done|]. destruct (desiredPVC_controlled storage) as [pvc E]. rw E.
  destruct (desiredPVC_update _ _ _ E) as (_ & Hn & Hr). rw /mergePVCs merge_mergeSpec // (mergeSpec_id _ curr) //.
  intros x ->%list_elem_of_singleton. change (mkey (disableBlockOwnerDeletion pvc)) with
    (om_Name (pvc_ObjectMeta (disableBlockOwnerDeletion pvc))). rw Hn.
  rw templateCapacity_findKey in Hq. destruct (findKey c_PVCName curr) as [e|]; [|congruence].
  exists e. split; [done|]. cbn. rw /updatePVC Hr -Hq /mbind /outcome_bind.
  unfold pvcRequest in *. destruct e as [m [rq ?]]. cbn in *. destruct rq as [rq|]; [|done]. cbn in *.
  change (rq !! "storage") with (rq !! ResourceStorage) in Hq |- *.
  destruct (rq !! ResourceStorage) as [q|] eqn:Eq; [|by symmetry in Hq]. cbn. by rw insert_id.
Qed.

(** The claim templates of a new StatefulSet have the right size. *)
Lemma persistentVolumeClaims_new :
  ∃ pvcs, persistentVolumeClaims r [] = Returns pvcs ∧ claimsDistinct pvcs ∧
          templateCapacity c_PVCName pvcs = storage.
Proof.
  rw /persistentVolumeClaims storage_eq /mbind /outcome_bind /= Cmp_zero.
  case_bool_decide as H0; [exists []; split_and!; [done|constructor|done]|].
  destruct (desiredPVC_controlled storage) as [pvc E]. rw E.
  destruct (desiredPVC_update _ _ _ E) as (_ & Hn & Hr). exists [disableBlockOwnerDeletion pvc].
  split_and!; [done|apply NoDup_singleton|]. cbn. by rw Hn String.eqb_refl.
Qed.

(** Merges of entries that are replaced never fail and keep the names distinct. *)
Lemma merge_distinct {A} `{!Mergeable A, !MergeableLaws A} (curr next : list A) :
  (∀ c n, ∃ c', mupdate c n = Returns c') → NoDup (mkey <$> curr) →
  ∃ l, merge curr next = Returns l ∧ NoDup (mkey <$> l).
Proof.
  intros Hu Hd. destruct (merge_total curr next Hu) as [l Hl]. exists l. split; [done|].
  rw merge_mergeSpec // in Hl. by apply (mergeSpec_keys _ _ _ Hl Hd).
Qed.

Lemma generatedSpec_total spec :
  specDistinct spec → templateCapacity c_PVCName (stss_VolumeClaimTemplates spec) = storage →
  ∃ spec', generatedSpec r spec = Returns spec' ∧ specDistinct spec' ∧
    templateCapacity c_PVCName (stss_VolumeClaimTemplates spec') = storage.
Proof.
  intros (H1 & H2 & H3 & H4 & H5) Hq. set (pod := pts_Spec (stss_Template spec)) in *.
  assert (∃ l, volumes r (ps_Volumes pod) = Returns l ∧ NoDup (mkey <$> l)) as (vs & Ev & Dv).
  { rw /volumes /storageIsZero storage_eq /mbind /outcome_bind. apply merge_distinct; [by eexists|done]. }
  assert (∃ l, containers r (ps_Containers pod) = Returns l ∧ NoDup (mkey <$> l)) as (cs & Ec & Dc).
  { rw /containers /containerRabbitmq_. destruct (tidy_resources HT) as [res ->], (tidy_grace HT) as [g ->].
    rw /mbind /outcome_bind. apply merge_distinct; [by eexists|done]. }
  assert (∃ l, initContainers r (ps_InitContainers pod) = Returns l ∧ NoDup (mkey <$> l)) as (ics & Ei & Di).
  { apply merge_distinct; [by eexists|done]. }
  assert (∃ l, topologySpreadConstraints r (ps_TopologySpreadConstraints pod) = Returns l ∧ NoDup (mkey <$> l))
    as (ts & Et & Dt).
  { rw /topologySpreadConstraints. destruct (DisableDefaultTopologySpreadConstraints r); [by eexists|].
    apply merge_distinct; [by eexists|done]. }
  rw /generatedSpec /podTemplateSpec /mbind /outcome_bind Ev Ec Ei Et (persistentVolumeClaims_same _ H5 Hq).
  eexists. split; [done|]. by split_and!.
Qed.

Definition stsOk (s : StatefulSet) : Prop :=
  specDistinct (sts_Spec s) ∧ templateCapacity c_PVCName (stss_VolumeClaimTemplates (sts_Spec s)) = storage.

Definition stsRest (s : StatefulSet) : outcome StatefulSet :=
  spec ← generatedSpec r (sts_Spec s); Returns (set_sts_Spec spec s).

Lemma stsRest_tame : restOnly (k := KStatefulSet) stsRest stsOk.
Proof.
  destruct (stsRest_restOnly r) as [H1 H2 H3 H4]. split; [done|done| |done]. intros o o' [Hd _]. by apply H3.
Qed.

Lemma stsRest_total s : stsOk s → ∃ s', stsRest s = Returns s' ∧ stsOk s'.
Proof.
  intros [Hd Hq]. destruct (generatedSpec_total _ Hd Hq) as (spec' & E & Hd' & Hq').
  eexists. rw /stsRest E /mbind /outcome_bind. split; [done|]. by split.
Qed.

Lemma StatefulSet_Update_shaped s :
  StatefulSet_Update r s = shaped (k := KStatefulSet) r mergeCluster stsRest s.
Proof. apply (StatefulSet_Update_eq r s (tidy_statefulset HT)). Qed.

Lemma StatefulSet_Build_ok i :
  ∃ s, StatefulSet_Build r i = ok s ∧ stsOk s ∧
    templateCapacity c_PVCName (stss_VolumeClaimTemplates (sts_Spec s)) = storage.
Proof.
  destruct persistentVolumeClaims_new as (pvcs & E & Hd & Hq). eexists.
  rw /StatefulSet_Build E /mbind /outcome_bind. split; [done|]. split; [|done]. split; [|done].
  split_and!; [constructor..|done].
Qed.

End tame.
