(* ===== verification/Names.v ===== *)
(** The names of the children of a cluster: no two builders write the same
    object. *)

From S2P Require Import Prelude GoStd K8s V1beta1 Constant Kube Builders Resources.
From Stdlib Require Import Ascii.

(** ** Trimming and last characters *)

(** The text ends with a character other than a dash. *)
Definition endsPlain (s : string) : Prop := ∃ t c, s = t +:+ String c "" ∧ c ≠ "-"%char.

Lemma HasSuffix_dash s : endsPlain s → HasSuffix s "-" = false.
Proof.
  intros (t & c & -> & Hc). rw /HasSuffix string_length_app. cbn [String.length].
  replace (String.length t + 1 - 1)%nat with (String.length t) by lia.
  rw (substring_suffix t (String c "")); [done|].
  rw (proj2 (String.eqb_neq _ _)); [congruence|]. by rw andb_false_r.
Qed.

Lemma TrimSuffix_plain s : endsPlain s → TrimSuffix s "-" = s.
Proof. intros Hs. by rw /TrimSuffix HasSuffix_dash. Qed.

Lemma endsPlain_app a s : endsPlain s → endsPlain (a +:+ s).
Proof. intros (t & c & -> & Hc). exists (a +:+ t), c. by rw string_app_assoc. Qed.

(** *** Numbers *)

Lemma pretty_N_char_plain n : pretty_N_char n ≠ "-"%char.
Proof. unfold pretty_N_char. by repeat case_match. Qed.

Lemma pretty_N_go_plain n : ∀ s, (0 < n)%N → ∃ t c, pretty_N_go n s = t +:+ String c s ∧ c ≠ "-"%char.
Proof.
  induction (N.lt_wf_0 n) as [n _ IH]. intros s Hn. rw pretty_N_go_step //.
  destruct (decide (n `div` 10 = 0)%N) as [E|E].
  - rw E pretty_N_go_0. exists "", (pretty_N_char (n `mod` 10)). split; [done|apply pretty_N_char_plain].
  - destruct (IH (n `div` 10)%N (N.div_lt n 10 Hn ltac:(done)) (String (pretty_N_char (n `mod` 10)) s))
      as (t & c & -> & Hc); [by apply N.neq_0_lt_0|].
    exists (t +:+ String c ""), (pretty_N_char (n `mod` 10)). split; [|apply pretty_N_char_plain].
    by rw string_app_assoc.
Qed.

Lemma Itoa_plain i : (0 ≤ i)%Z → endsPlain (Itoa i).
Proof.
  intros Hi. destruct i as [|p|p]; [by exists "", "0"%char| |lia].
  change (Itoa (Z.pos p)) with (pretty_N_go (N.pos p) "").
  destruct (pretty_N_go_plain (N.pos p) "" ltac:(done)) as (t & c & -> & Hc). by exists t, c.
Qed.

(** ** The names *)

Section names.
Context (r : RabbitmqCluster).

Lemma ChildResourceName_plain suffix :
  endsPlain suffix → ChildResourceName r suffix = rmq_Name r +:+ "-" +:+ suffix.
Proof.
  intros Hs. unfold ChildResourceName. change (Join [rmq_Name r; suffix] "-") with (rmq_Name r +:+ "-" +:+ suffix).
  by apply TrimSuffix_plain, endsPlain_app, (endsPlain_app "-").
Qed.

(** The client service has the name of the cluster. *)
Lemma ChildResourceName_client : ChildResourceName r ResourceClientServiceSuffix = rmq_Name r.
Proof.
  unfold ChildResourceName. change (Join [rmq_Name r; ResourceClientServiceSuffix] "-") with (rmq_Name r +:+ "-").
  apply TrimSuffix_app.
Qed.

Lemma StatefulsetName_eq i :
  (0 ≤ i)%Z → StatefulsetName r ResourceStatefulsetSuffix i = rmq_Name r +:+ "-server-" +:+ Itoa i.
Proof.
  intros Hi. unfold StatefulsetName.
  rw ChildResourceName_plain; [by exists "serve", "r"%char|].
  change (Join [rmq_Name r +:+ "-" +:+ ResourceStatefulsetSuffix; Itoa i] "-") with
    ((rmq_Name r +:+ "-" +:+ ResourceStatefulsetSuffix) +:+ "-" +:+ Itoa i).
  rw TrimSuffix_plain; [by apply endsPlain_app, (endsPlain_app "-"), Itoa_plain|]. by rw !string_app_assoc.
Qed.

(** The builders other than those of the StatefulSets. *)
Definition sharedBuilders : list ResourceBuilder :=
  [HeadlessServiceBuilder; ServiceBuilder; ErlangCookieBuilder; DefaultUserSecretBuilder;
   RabbitmqPluginsConfigMapBuilder; ServerConfigMapBuilder true; ServiceAccountBuilder;
   RoleBuilder; RoleBindingBuilder].

Lemma ResourceBuilders_elem replicas b :
  b ∈ ResourceBuilders replicas r →
  b ∈ sharedBuilders ∨ ∃ i, b = StatefulSetBuilder i ∧ (0 ≤ i < replicas)%Z.
Proof.
  intros Hb. assert (b ∈ sharedBuilders ++ (StatefulSetBuilder <$> seqZ 0 replicas)) as [?|Hs]%elem_of_app.
  - unfold ResourceBuilders in Hb. destruct (_ || _); [|exact Hb]. cbn in Hb.
    rw !elem_of_cons in Hb. cbn. rw !elem_of_cons. tauto.
  - by left.
  - apply list_elem_of_fmap in Hs as (i & -> & Hi%elem_of_seqZ). right. exists i. split; [done|lia].
Qed.

Lemma sharedBuilders_kind b : b ∈ sharedBuilders → builderKind b ≠ KStatefulSet.
Proof. revert b. apply Forall_forall. by repeat constructor. Qed.

(** The name of a shared child after the name of the cluster. *)
Definition nameTail (b : ResourceBuilder) : string :=
  match b with
  | HeadlessServiceBuilder => "-nodes"
  | ServiceBuilder => ""
  | ErlangCookieBuilder => "-erlang-cookie"
  | DefaultUserSecretBuilder => "-default-user"
  | RabbitmqPluginsConfigMapBuilder => "-plugins-conf"
  | ServerConfigMapBuilder _ => "-server-conf"
  | ServiceAccountBuilder => "-server"
  | RoleBuilder => "-peer-discovery"
  | RoleBindingBuilder => "-server"
  | StatefulSetBuilder i => "-server-" +:+ Itoa i
  end.

Lemma builderName_tail b :
  match b with StatefulSetBuilder i => (0 ≤ i)%Z | _ => True end → builderName r b = rmq_Name r +:+ nameTail b.
Proof.
  destruct b; cbn [builderName nameTail]; intros Hb.
  2: { by rw ChildResourceName_client string_app_nil_r. }
  9: { by apply StatefulsetName_eq. }
  all: rw ChildResourceName_plain //.
  - by exists "node", "s"%char.
  - by exists "erlang-cooki", "e"%char.
  - by exists "default-use", "r"%char.
  - by exists "plugins-con", "f"%char.
  - by exists "server-con", "f"%char.
  - by exists "serve", "r"%char.
  - by exists "peer-discover", "y"%char.
  - by exists "serve", "r"%char.
Qed.

Lemma ResourceBuilders_targets_inj replicas b b' :
  b ∈ ResourceBuilders replicas r → b' ∈ ResourceBuilders replicas r →
  builderTarget r b = builderTarget r b' → b = b'.
Proof.
  intros Hb Hb' Ht.
  assert (∀ b, b ∈ ResourceBuilders replicas r → builderName r b = rmq_Name r +:+ nameTail b) as Hname.
  { intros b0 [H0|(i & -> & Hi)]%ResourceBuilders_elem; apply builderName_tail; [|lia].
    revert b0 H0. apply Forall_forall. by repeat constructor. }
  injection Ht as Hk Hn. rw !Hname // in Hn. apply string_app_inj_l in Hn.
  apply ResourceBuilders_elem in Hb as [Hb|(i & -> & _)], Hb' as [Hb'|(i' & -> & _)].
  - assert (Forall (λ b, Forall (λ b', builderKind b = builderKind b' → nameTail b = nameTail b' → b = b')
      sharedBuilders) sharedBuilders) as Hall by by apply (bool_decide_unpack _).
    rw Forall_forall in Hall. specialize (Hall b Hb). rw Forall_forall in Hall. by apply Hall.
  - by apply sharedBuilders_kind in Hb.
  - symmetry in Hk. by apply sharedBuilders_kind in Hb'.
  - cbn [nameTail] in Hn. apply (string_app_inj_l "-server-") in Hn. by apply Itoa_inj in Hn as ->.
Qed.

(** ** Property *)

(** No two builders of a cluster write the same object: two builders with
    the same kind, namespace and name are the same builder, so that the
    StatefulSets of different replicas, the two services, the two secrets and
    the two ConfigMaps never overwrite one another. *)
Theorem ResourceBuilders_targets replicas b b' :
  b ∈ ResourceBuilders replicas r → b' ∈ ResourceBuilders replicas r →
  builderTarget r b = builderTarget r b' → b = b'.
Proof. apply ResourceBuilders_targets_inj. Qed.
End names.
