(* ===== verification/Converge.v ===== *)
(** The children of a cluster converge: against an API server that nobody else
    writes (file Store), every reconciliation of the children that is not the
    last one settles exactly one more child. *)

From S2P Require Import Prelude GoStd GoTime K8s V1beta1 Constant Metadata Kube Controllerutil Builder.
From S2P Require Import Plugins Services Secrets Rbac ServerConf Sts Builders Trace Scaling Result.
From S2P Require Import ControllerUtils Configurations Resources Store Behaviour Tame Names.

(** ** One builder *)

Section builder.
Context `{!Library} (r : RabbitmqCluster) (n : Z) (HT : Tidy r n).
Context (op user : string) (Hconf : renderConf r n = inr (op, user)) (Hop : readable op).

Definition mergeOf (b : ResourceBuilder) : gomap string → gomap string :=
  match b with ServiceBuilder => mergeService r | _ => mergeCluster r end.

Definition restOf (b : ResourceBuilder) : Obj (builderKind b) → outcome (Obj (builderKind b)) :=
  match b with
  | HeadlessServiceBuilder => headlessRest r
  | ServiceBuilder => serviceRest r
  | ErlangCookieBuilder => Returns
  | DefaultUserSecretBuilder => userSecretRest r
  | RabbitmqPluginsConfigMapBuilder => pluginsRest r
  | ServerConfigMapBuilder _ => serverRest r op user
  | ServiceAccountBuilder => Returns
  | RoleBuilder => λ o, Returns (set_role_Rules peerDiscoveryRules o)
  | RoleBindingBuilder => λ o, Returns (set_rb_Subjects [mkSubject "ServiceAccount"
            (ChildResourceName r ResourceServiceAccountSuffix)]
          (set_rb_RoleRef (mkRoleRef "rbac.authorization.k8s.io" "Role"
            (ChildResourceName r ResourceRoleSuffix)) o))
  | StatefulSetBuilder _ => stsRest r
  end.

Definition okOf (b : ResourceBuilder) : Obj (builderKind b) → Prop :=
  match b with
  | HeadlessServiceBuilder | ServiceBuilder => portsDistinct
  | DefaultUserSecretBuilder => λ s, is_Some (sec_Data s)
  | ServerConfigMapBuilder _ => comparable
  | StatefulSetBuilder _ => stsOk r
  | ErlangCookieBuilder | RabbitmqPluginsConfigMapBuilder | ServiceAccountBuilder | RoleBuilder
  | RoleBindingBuilder => λ _, True
  end.

(** The update, without the builder's flag. *)
Definition shapeOf (b : ResourceBuilder) : Obj (builderKind b) → fallible (Obj (builderKind b)) :=
  shaped r (mergeOf b) (restOf b).

(** A child the builder can bring to its final state. *)
Definition acceptable (b : ResourceBuilder) (o : Obj (builderKind b)) : Prop :=
  controllable r (meta o) ∧ okOf b o.

Definition after (b : ResourceBuilder) (o : Obj (builderKind b)) : Obj (builderKind b) :=
  match shapeOf b o with Returns (inr o') => o' | _ => o end.

Lemma mergeOf_markers b : keepsMarkers (mergeOf b).
Proof. destruct b; first [by eapply mergeService_markers|by eapply mergeCluster_markers]. Qed.

Lemma restOf_rest b : restOnly (restOf b) (okOf b).
Proof.
  destruct b; cbn [restOf okOf].
  - apply headlessRest_restOnly.
  - by eapply serviceRest_restOnly.
  - apply restOnly_Returns.
  - apply restOnly_weaken; [apply userSecretRest_restOnly|done].
  - apply pluginsRest_restOnly.
  - apply serverRest_restOnly.
  - apply restOnly_Returns.
  - apply Role_restOnly.
  - apply RoleBinding_restOnly.
  - apply stsRest_tame.
Qed.

Lemma restOf_total b o : okOf b o → ∃ o', restOf b o = Returns o' ∧ okOf b o'.
Proof.
  destruct b; cbn [restOf okOf]; try (by eexists).
  - apply headlessRest_total.
  - apply serviceRest_total.
  - apply userSecretRest_total.
  - intros _. by apply serverRest_total.
  - by eapply stsRest_total.
Qed.

(** The update of an acceptable child. *)
Lemma after_spec b o :
  acceptable b o →
  shapeOf b o = ok (after b o) ∧ acceptable b (after b o) ∧ after b (after b o) = after b o ∧
  ObjectKeyFromObject (after b o) = ObjectKeyFromObject o.
Proof.
  intros [Hc Ho].
  destruct (shaped_spec r _ _ _ (mergeOf_markers b) (restOf_rest b) (restOf_total b) o Hc Ho)
    as (o' & E & Hc' & Ho' & E' & Hk).
  unfold acceptable, after, shapeOf. rw E E'. done.
Qed.

(** What the update makes of the metadata and of the rest. *)
Lemma after_inv b o :
  acceptable b o →
  om_Labels (meta (after b o)) = Some (GetLabels (rmq_Name r) (rmq_Labels r)) ∧
  (∀ key, key ∈ markers → gm_lookup (annotations (after b o)) key = gm_lookup (annotations o) key) ∧
  ∃ o1, restOf b o = Returns o1 ∧ after b o = set_meta (meta (after b o)) o1.
Proof.
  intros Ha. destruct (after_spec b o Ha) as (Es & _).
  destruct (shaped_inv r _ _ _ (restOf_rest b) o _ Es) as (HA & HL & Hr).
  split_and!; [exact HL| |exact Hr]. intros key Hk. unfold annotations. rw HA. by apply (merge_lookup _ (mergeOf_markers b)).
Qed.

Lemma after_grown b o m' :
  acceptable b o → after b o = o → grown (meta o) m' →
  acceptable b (set_meta m' o) ∧ after b (set_meta m' o) = set_meta m' o.
Proof.
  intros Ha E Hg. destruct (after_spec b o Ha) as (Es & _). rw E in Es. destruct Ha as [Hc Ho].
  pose proof (shaped_grown r _ _ _ (mergeOf_markers b) (restOf_rest b) o m' Hc Ho Es Hg) as Es'.
  split.
  - split; [rw meta_set_meta; by eapply controllable_grown|by apply (rest_ok_in _ _ (restOf_rest b))].
  - unfold after, shapeOf. by rw Es'.
Qed.

Lemma after_served b o o' :
  acceptable b o → after b o = o → served o o' → acceptable b o' ∧ after b o' = o'.
Proof. intros Ha E (m' & Hm & ->). apply after_grown; [done..|]. by apply sameMeta_grown. Qed.

Lemma after_unmark b o key :
  acceptable b o → after b o = o → key ∈ markers →
  let o' := set_annotations (gm_delete key (annotations o)) o in acceptable b o' ∧ after b o' = o'.
Proof.
  intros Ha E Hk. unfold set_annotations. apply after_grown; [done..|].
  rw -(meta_set_meta _ (set_om_Annotations _ (meta o)) o). by apply unmark_grown.
Qed.

Lemma after_annotate b o key v :
  acceptable b o → after b o = o → key ∈ markers →
  acceptable b (annotate key v o) ∧ after b (annotate key v o) = annotate key v o.
Proof.
  intros Ha E Hk. unfold annotate, set_annotations. apply after_grown; [done..|].
  rw -(meta_set_meta _ (set_om_Annotations _ (meta o)) o). by apply annotate_grown.
Qed.

Context {W : Type} `{!Kube W}.
Abbreviation TW := (W * list Call)%type.

Lemma pureUpdate_eq k f (o : Obj k) (s : Op TW) x (b : ResourceBuilder) :
  f (op_rmq s) o = ok x →
  (u ← pureUpdate k f (existT k o); mret (u, b)) s = (Returns (inr (existT k x), b), s).
Proof.
  intros E. unfold pureUpdate, mbind, M_bind. rw assertKind_self. unfold rmq, gets, lift. rw E. done.
Qed.

Lemma Update_shape b o o' (s : Op TW) :
  op_rmq s = r → acceptable b o → shapeOf b o = ok o' →
  ∃ b', Update b (existT (builderKind b) o) s = (Returns (inr (existT (builderKind b) o'), b'), s).
Proof.
  intros Hs [_ Hok] E. unfold shapeOf in E. destruct b; cbn [Update builderKind mergeOf restOf okOf] in *;
    try (eexists; apply pureUpdate_eq; rw Hs; first [exact E|by rw HeadlessService_Update_eq
      |by rw DefaultUserSecret_Update_eq|by rw (StatefulSet_Update_shaped r n HT)]).
  - eexists. unfold mbind, M_bind. rw (assertKind_self KService). unfold onInstance.
    rw Hs (Service_Update_shaped r n HT) E. destruct s as [r0 w]. simpl in Hs. by subst r0.
  - destruct (ServerConfigMap_Update_shaped r n HT op user UpdateRequiresStsRestart o o' Hconf Hop Hok E) as [f Ef].
    eexists. unfold mbind, M_bind. rw (assertKind_self KConfigMap). unfold rmq, gets, lift. rw Hs Ef. done.
Qed.

(** ** One reconciliation of a child *)

Context `{!Store W, !StoreLaws W} (Hrefl : ∀ k (o : Obj k), SemanticDeepEqual k o o = true).
Implicit Types (w : W) (b : ResourceBuilder).

(** The child of a builder. *)
Definition child b w : option (Obj (builderKind b)) := contents w (builderKind b) (builderTarget r b).2.

(** A child that its builder leaves alone. *)
Definition quiet w b : bool :=
  match child b w with
  | Some o => SemanticDeepEqual (builderKind b) o (after b o)
  | None => false
  end.

Definition good w b : Prop := ∀ o, child b w = Some o → acceptable b o.

Lemma child_same b w w' : sameStore w w' → child b w' = child b w.
Proof. intros Hs. apply Hs. Qed.

Lemma child_key b w o : child b w = Some o → ObjectKeyFromObject o = (builderTarget r b).2.
Proof. intros Hc. by eapply store_key. Qed.

(** An object as it is built. *)
Definition blank b : Obj (builderKind b) → Prop :=
  match b with
  | StatefulSetBuilder i => λ x, StatefulSet_Build r i = ok x
  | b => λ x, meta x = buildMeta r (builderName r b)
  end.

(** A built object, ready to be brought to its final state. *)
Definition freshFor b (o : Object) : Prop :=
  ∃ x : Obj (builderKind b), o = existT (builderKind b) x ∧ acceptable b x ∧
    ObjectKeyFromObject x = (builderTarget r b).2 ∧ blank b x.

Lemma buildMeta_controllable name : controllable r (buildMeta r name).
Proof. split; [by right|]. by intros e [=]. Qed.

(** What [Build] yields is under the key of its builder. *)
Lemma freshFor_intro b (x : Obj (builderKind b)) :
  okOf b x → meta x = buildMeta r (builderName r b) → blank b x → freshFor b (existT (builderKind b) x).
Proof.
  intros Hok Hm Hb. exists x. split; [done|]. split; [split; [|done]|split; [|done]].
  - rw Hm. apply buildMeta_controllable.
  - by rw /ObjectKeyFromObject Hm.
Qed.

Lemma Secret_random w nbytes (Q : result string → W → list Call → Prop) :
  (∀ bytes w', String.length bytes = nbytes → sameStore w w' → Q (inr (EncodeToString bytes)) w' []) →
  wp r (randomEncodedString nbytes) w Q.
Proof.
  intros HQ. unfold randomEncodedString. apply wp_bind, (wp_random r). intros bytes w' Hl Hs.
  apply wp_ret. by apply HQ.
Qed.

Lemma wp_Build b w :
  wp r (Build b) w (λ x w' c, ∃ o, x = inr o ∧ freshFor b o ∧ sameStore w w' ∧ c = []).
Proof.
  assert (∀ x : Obj (builderKind b), okOf b x → meta x = buildMeta r (builderName r b) → blank b x →
    ∀ w', sameStore w w' → ∃ o, (inr (existT (builderKind b) x) : result Object) = inr o ∧ freshFor b o ∧
      sameStore w w' ∧ ([] : list Call) = []) as Hdone.
  { intros x Hok Hm Hb w' Hs. eexists. split; [reflexivity|]. split; [by apply freshFor_intro|done]. }
  destruct b; cbn [Build]; try (apply wp_bind, wp_rmq, wp_ret; apply Hdone; [|done|done|done]);
    try exact I; try (by constructor); try (by left).
  - unfold ErlangCookie_Build. apply wp_bind, wp_bind, Secret_random. intros bytes w' _ Hs.
    apply wp_bind, wp_rmq, wp_ret, wp_ret. cbn [app]. by apply Hdone.
  - unfold DefaultUserSecret_Build, generateUsername. do 3 apply wp_bind. apply Secret_random.
    intros bytes w1 Hlen Hs1. cbn beta iota. apply wp_bind.
    assert (∃ u, usernameOf (EncodeToString bytes) = Returns u) as [u Eu].
    { unfold usernameOf, slicePrefix. rw EncodeToString_length Hlen. by eexists. }
    eapply wp_lift; [exact Eu|]. apply wp_ret. cbn beta iota. apply wp_bind, Secret_random.
    intros bytes2 w2 _ Hs2. cbn beta iota. destruct (tidy_user _ _ HT u (EncodeToString bytes2)) as [conf ->].
    cbn beta iota. apply wp_bind, wp_rmq, wp_bind. eapply wp_lift; [reflexivity|]. apply wp_ret, wp_ret. cbn [app].
    apply (Hdone (set_sec_Data _ (newUserSecret r u (EncodeToString bytes2) conf))); [by eexists|done|done|].
    by eapply sameStore_trans.
  - destruct (StatefulSet_Build_ok r n HT Index) as (s & Es & Hok & _).
    apply wp_bind, wp_rmq, wp_bind. eapply wp_lift; [exact Es|]. apply wp_ret. cbn [app].
    apply (Hdone s); [done| |exact Es|done]. unfold StatefulSet_Build, mbind, outcome_bind in Es.
    destruct (persistentVolumeClaims r []); [|done]. by injection Es as <-.
Qed.

(** *** The volumes *)

Lemma persistenceStorageCapacity_eq name templates :
  persistenceStorageCapacity name templates = templateCapacity name templates.
Proof. induction templates as [|t ts IH]; [done|]. cbn. by rw IH. Qed.

(** The volumes of a replica have their size. *)
Lemma wp_reconcilePVCOf b w o :
  good w b → freshFor b o → wp r (reconcilePVCOf o) w (λ res w' c, res = Continue ∧ sameStore w w' ∧ c = []).
Proof.
  intros Hg (x & -> & [_ Hok] & Hkey & _).
  assert (∀ w', sameStore w w' → Continue = Continue ∧ sameStore w w' ∧ ([] : list Call) = []) as Hdone by done.
  destruct b; cbn [builderKind] in *; try (apply wp_ret; by apply Hdone).
  cbn [reconcilePVCOf okOf] in *. destruct Hok as [_ Hq]. unfold reconcilePVC, Scale, existingCapacity, getStatefulset.
  do 3 apply wp_bind. apply (wp_csGet r (k := KStatefulSet)). intros a w' Ha Hs.
  unfold reads in Ha. change (contents w KStatefulSet (ObjectKeyFromObject (k := KStatefulSet) x)) with
    (contents w KStatefulSet (ObjectKeyFromObject x)) in Ha. rw Hkey in Ha.
  destruct (contents w KStatefulSet _) as [sts|] eqn:Ec.
  - subst a. cbn beta iota. apply wp_ret. cbn beta iota. destruct (Hg sts Ec) as [_ [_ Hq']].
    rw persistenceStorageCapacity_eq Hq Hq' /Cmp Z.compare_refl Z.eqb_refl. by apply wp_ret, wp_ret.
  - destruct Ha as (err & -> & Hnf). cbn beta iota. apply wp_ret. cbn beta iota. rw Hnf. by apply wp_ret, wp_ret.
Qed.

(** *** The child itself *)

(** The markers are as they were, or say what the clock showed. *)
Definition markedFrom (m m' : ObjectMeta) : Prop := ∀ key, key ∈ markers →
  gm_lookup (om_Annotations m') key = gm_lookup (om_Annotations m) key ∨
  ∃ w, gm_lookup (om_Annotations m') key = Some (Format (kNow w).1).

(** The child is the updated form of the one there was, or of a new one, but
    for what the server has assigned and the operator has marked. *)
Definition descends b w (o : Obj (builderKind b)) : Prop :=
  ∃ o0 m, match child b w with Some e => o0 = e | None => blank b o0 end ∧ acceptable b o0 ∧
    o = set_meta m (after b o0) ∧ om_Labels m = om_Labels (meta (after b o0)) ∧ markedFrom (meta o0) m.

(** [b] leaves its child, and has changed nothing else. *)
Definition settles b w w' : Prop :=
  (∃ o, child b w' = Some o ∧ acceptable b o ∧ after b o = o ∧ descends b w o) ∧
  ∀ k key, (k, key) ≠ builderTarget r b → contents w' k key = contents w k key.

Lemma settles_quiet b w w' : settles b w w' → quiet w' b = true.
Proof. intros [(o & Hc & _ & Ho & _) _]. unfold quiet. by rw Hc Ho. Qed.

(** The server's form of the updated child. *)
Lemma served_descends b w o0 o :
  match child b w with Some e => o0 = e | None => blank b o0 end → acceptable b o0 →
  served (after b o0) o → descends b w o.
Proof.
  intros Hc Ha (m & (_ & _ & Hl & Han & _) & ->). exists o0, m. split_and!; [done..|].
  intros key Hk. left. destruct (after_inv b o0 Ha) as (_ & Hm & _). rw Han. by apply Hm.
Qed.

(** And after it was marked. *)
Lemma annotate_descends b w o key w1 o' :
  descends b w o → key ∈ markers → served (annotate key (Format (kNow w1).1) o) o' → descends b w o'.
Proof.
  intros (o0 & m & Hc & Ha & -> & Hl & Hm) Hk (m' & (_ & _ & Hl' & Han & _) & ->). exists o0, m'.
  unfold annotate in *. rw meta_set_annotations in Hl', Han. unfold annotations in Han. cbn [om_Labels om_Annotations set_om_Annotations] in Hl', Han.
  rw meta_set_meta in Hl', Han. split_and!; [done|done|by rw /set_annotations !set_meta_twice|by rw Hl'|].
  intros key' Hk'. rw Han. destruct (decide (key = key')) as [<-|Hne].
  - right. exists w1. by apply lookup_insert_eq.
  - assert (gm_lookup (Some (<[key:=Format (kNow w1).1]> (gm (om_Annotations m)))) key' = gm_lookup (om_Annotations m) key')
      as -> by by apply lookup_insert_ne. by apply Hm.
Qed.

Lemma descends_same b w w1 o : sameStore w w1 → descends b w1 o → descends b w o.
Proof. intros Hs. unfold descends. by rw (child_same b w w1 Hs). Qed.

Lemma stored_settles b w w1 w' o :
  acceptable b o → after b o = o → descends b w o → ObjectKeyFromObject o = (builderTarget r b).2 →
  (∀ k key, (k, key) ≠ builderTarget r b → contents w1 k key = contents w k key) →
  stored o w1 w' → settles b w w'.
Proof.
  intros Ha Ho Hd Hk Hw [Hc Hother]. split.
  - exists o. unfold child. by rw -Hk.
  - intros k key Hne. rw Hother; [rw Hk; exact Hne|]. by apply Hw.
Qed.

Lemma settles_sameStore b w w1 w2 : settles b w w1 → sameStore w1 w2 → settles b w w2.
Proof.
  intros [(o & Hc & Ha) Hw] Hs. split; [|intros k key Hne; by rw Hs Hw].
  exists o. split; [by rw (child_same _ _ _ Hs)|done].
Qed.

Lemma settles_first b w w1 w2 : sameStore w w1 → settles b w1 w2 → settles b w w2.
Proof.
  intros Hs [(o & Hc & Ha & Ho & Hd) Hw]. split; [|intros k key Hne; by rw Hw // Hs].
  exists o. split_and!; [done..|by eapply descends_same].
Qed.

(** The update of an object and the check of its key. *)
Lemma wp_mutate b w (o : Obj (builderKind b)) (Q : _ → W → list Call → Prop) :
  acceptable b o →
  (∀ b', builderTarget r b' = builderTarget r b → Q (inr (after b o), b') w []) →
  wp r (mutate b (ObjectKeyFromObject o) o) w Q.
Proof.
  intros Ha HQ. destruct (after_spec b o Ha) as (Es & _ & _ & Hk). unfold mutate. apply wp_bind. intros l.
  destruct (Update_shape b o (after b o) (mkOp r (w, l)) eq_refl Ha Es) as [b' Eb'].
  eexists _, w, []. rw Eb' app_nil_r. split; [reflexivity|]. cbn [fst snd].
  apply wp_bind. eapply wp_of_eq; [intros s _; apply assertKind_self|].
  rw Hk bool_decide_eq_false_2; [by intros []|]. apply wp_ret. apply HQ. exact (Update_builder _ _ _ (_, b') _ r Eb').
Qed.

(** Creating or updating a child: nothing, or one write that settles it. *)
Lemma wp_CreateOrUpdate b w o :
  good w b → freshFor b o →
  wp r (CreateOrUpdate b o) w (λ x w' c, x.2 = None ∧ builderTarget r (v_builder x.1) = builderTarget r b ∧
    if quiet w b
    then v_result x.1 = OperationResultNone ∧ sameStore w w' ∧ c = []
    else v_result x.1 ≠ OperationResultNone ∧ settles b w w' ∧ length c = 1%nat).
Proof.
  intros Hg (x & -> & Hx & Hkey & Hblank). unfold CreateOrUpdate, CreateOrUpdateObj, quiet. cbn [projT1 projT2].
  apply wp_bind. destruct (child b w) as [e|] eqn:Ec.
  - pose proof (Hg e Ec) as He. pose proof (child_key b w e Ec) as Hek.
    destruct (after_spec b e He) as (_ & Ha' & Haa & Hk').
    eapply wp_get_some; [rw Hkey; exact Ec|]. intros w1 Hs1. cbn beta iota. apply wp_bind.
    rw Hkey -Hek. apply wp_mutate; [done|]. intros b' Hb'. cbn [fst snd app].
    destruct (SemanticDeepEqual _ e (after b e)) eqn:Eq; [by apply wp_ret|].
    apply wp_bind, (wp_update r). { rw Hk' Hek. exists e. by rw Hs1. }
    intros o' w2 Hsv Hst. cbn [fst snd]. apply wp_ret. cbn [v_builder v_result fst snd app].
    destruct (after_served b _ _ Ha' Haa Hsv) as [Hao Hoo]. split; [done|]. split; [done|]. split; [done|].
    split; [|done]. eapply stored_settles; [done|done| | |by intros; apply Hs1|exact Hst].
    + eapply served_descends; [|exact He|exact Hsv]. by rw Ec.
    + by rw (served_key _ _ Hsv) Hk' Hek.
  - destruct (after_spec b x Hx) as (_ & Ha' & Haa & Hk').
    eapply wp_get_none; [rw Hkey; exact Ec|]. intros err w1 Hnf Hs1. cbn beta iota. rw Hnf. cbn [negb].
    apply wp_bind, wp_mutate; [done|]. intros b' Hb'. cbn [fst snd app].
    apply wp_bind, (wp_create r). { rw Hk' Hkey. by rw Hs1. }
    intros o' w2 Hsv Hst. cbn beta iota. apply wp_ret. cbn [v_builder v_result fst snd app].
    destruct (after_served b _ _ Ha' Haa Hsv) as [Hao Hoo]. split; [done|]. split; [done|]. split; [done|].
    split; [|done]. eapply stored_settles; [done|done| | |by intros; apply Hs1|exact Hst].
    + eapply served_descends; [|exact Hx|exact Hsv]. by rw Ec.
    + by rw (served_key _ _ Hsv) Hk' Hkey.
Qed.

Lemma wp_attempts b o w (Q : _ → W → list Call → Prop) :
  wp r (CreateOrUpdate b o) w (λ x w' c, x.2 = None ∧ Q (None, x.1) w' c) →
  wp r (withLocal (mkVars o b OperationResultNone) (RetryOnConflict attempt)) w Q.
Proof.
  intros Hc. apply wp_withLocal. intros l. destruct (Hc l) as ([v err] & w' & c & E & Herr & HQ).
  simpl in Herr. subst err. exists None, v, w', c. split; [|done].
  unfold RetryOnConflict, OnError, DefaultRetrySteps. apply OnErrorSteps_ok.
  unfold attempt, mbind, M_bind, local, outer. cbn [fst snd v_builder v_object]. by rw E.
Qed.

(** What [annotateIfNeeded] annotates is the child of the builder. *)
Lemma annotationTarget_spec b res k name key :
  annotationTarget r b res = Some (k, name, key) →
  (k, mkNamespacedName (rmq_Namespace r) name) = builderTarget r b ∧ key ∈ markers ∧ res ≠ OperationResultNone.
Proof.
  assert (∀ key, key ∈ [pluginsUpdateAnnotation; serverConfAnnotation; stsCreateAnnotation] → key ∈ markers)
    as Hm by done.
  destruct b, res; cbn; try done; try (destruct UpdateRequiresStsRestart; cbn; try done);
    intros [= <- <- <-]; (split; [done|split; [|done]]); by apply Hm, (bool_decide_unpack _).
Qed.

Lemma annotationTarget_none_none b : annotationTarget r b OperationResultNone = None.
Proof.
  destruct (annotationTarget r b OperationResultNone) as [[[k name] key]|] eqn:E; [|done].
  by apply annotationTarget_spec in E as (_ & _ & ?).
Qed.

(** Annotating a settled child settles it again. *)
Lemma wp_updateAnnotation b w w0 key now (Q : goerror → W → list Call → Prop) :
  key ∈ markers → settles b w0 w →
  (∀ w' c, settles b w0 w' → length c = 1%nat → Q None w' c) →
  wp r (updateAnnotation (builderKind b) (rmq_Namespace r) (builderName r b) key (Format (kNow now).1)) w Q.
Proof.
  intros Hm Hset HQ. destruct Hset as [(o & Hc & Ha & Ho & Hd) Hother].
  unfold updateAnnotation, OnError, DefaultRetrySteps. apply wp_retry.
  unfold updateAnnotationOnce. apply wp_bind. eapply wp_get_some; [exact Hc|]. intros w1 Hs1. cbn beta iota.
  pose proof (child_key _ _ _ Hc) as Hk.
  destruct (after_annotate b o key (Format (kNow now).1) Ha Ho Hm) as [Haa Hao].
  apply wp_bind, (wp_update r). { rw annotate_key Hk. exists o. by rw Hs1. }
  intros o' w2 Hsv Hst. apply wp_ret. cbn [fst snd app]. split; [done|].
  destruct (after_served b _ _ Haa Hao Hsv) as [Hao2 Hoo]. apply HQ; [|done].
  eapply stored_settles; [done|done|by eapply annotate_descends| | |exact Hst].
  - by rw (served_key _ _ Hsv) annotate_key.
  - intros k' key' Hne. by rw Hs1 Hother.
Qed.

(** The end of a round for a child that was created or updated. *)
Lemma wp_annotateIfNeeded b b' res w w0 (Q : ReconcileResult → W → list Call → Prop) :
  builderTarget r b' = builderTarget r b → settles b w0 w →
  (∀ out w' c, out = Continue ∨ out = Done → settles b w0 w' → (length c ≤ 1)%nat → Q out w' c) →
  wp r (annotateIfNeeded b' res) w Q.
Proof.
  intros Hb Hset HQ. unfold annotateIfNeeded. apply wp_bind, wp_rmq.
  destruct (annotationTarget r b' res) as [[[k name] key]|] eqn:E.
  2: { apply wp_ret, HQ; [by left|done|]. cbn. lia. }
  apply annotationTarget_spec in E as (Ht & Hm & _). rw Hb in Ht. injection Ht as Hk Hname. subst k name.
  apply wp_bind, (wp_unlogged r kNow). pose proof (store_now w) as Hs1. cbn beta iota. apply wp_bind.
  eapply (wp_updateAnnotation b); [done|by eapply settles_sameStore|]. intros w2 c Hset2 Hl. cbn beta iota.
  apply wp_ret. apply HQ; [by right|done|]. rw app_nil_r /=. lia.
Qed.

(** One round of the loop: a child that its builder leaves alone is passed
    over; any other child is settled and ends the reconciliation. *)
Lemma wp_reconcileBuilder b w :
  good w b →
  wp r (reconcileBuilder b) w (λ res w' c,
    if quiet w b then res = Continue ∧ sameStore w w' ∧ c = []
    else res = Done ∧ settles b w w' ∧ (length c ≤ 3)%nat).
Proof.
  intros Hg. unfold reconcileBuilder. apply wp_bind. eapply wp_mono; [apply wp_Build|].
  intros x w1 c1 (o & -> & Hf & Hs1 & ->). cbn beta iota. cbn [app].
  assert (good w1 b) as Hg1 by (intros e; rw (child_same _ _ _ Hs1); apply Hg).
  apply wp_bind. eapply wp_mono; [by apply (wp_reconcilePVCOf b)|].
  intros res w2 c2 (-> & Hs2 & ->). cbn [Completed app].
  assert (sameStore w w2) as Hs by by eapply sameStore_trans.
  assert (good w2 b) as Hg2 by (intros e; rw (child_same _ _ _ Hs); apply Hg).
  assert (quiet w2 b = quiet w b) as Hq by (unfold quiet; by rw (child_same _ _ _ Hs)).
  apply wp_bind, wp_attempts. eapply wp_mono; [by apply (wp_CreateOrUpdate b)|].
  intros [v err] w3 c3 (Herr & Hb & HQ). cbn [fst snd] in *. subst err. split; [done|]. rw Hq in HQ.
  unfold logAndRecordOperationResult. destruct (quiet w b).
  - destruct HQ as (Hv & Hs3 & ->). rw Hv. apply wp_bind, wp_ret. cbn beta iota. apply wp_bind.
    unfold annotateIfNeeded. apply wp_bind, wp_rmq. rw annotationTarget_none_none. apply wp_ret. cbn [Completed app].
    apply wp_ret. split; [done|]. split; [by eapply sameStore_trans|done].
  - destruct HQ as (Hv & Hset & Hl). rw bool_decide_eq_false_2 //. apply wp_bind, wp_event.
    intros w4 Hs4. cbn beta iota. apply wp_bind.
    assert (settles b w w4) as Hset4.
    { eapply settles_sameStore; [|exact Hs4]. by eapply settles_first. }
    eapply wp_annotateIfNeeded; [exact Hb|exact Hset4|]. intros out w5 c5 Hout Hset5 Hl5.
    destruct Hout as [-> | ->]; cbn [Completed].
    + destruct (v_result v); [done| |]; apply wp_ret; (split_and!; [done|done|]); rw !length_app Hl /=; lia.
    + apply wp_ret. split_and!; [done|done|]. rw !length_app Hl /=. lia.
Qed.

(** ** All children *)

Definition all : list ResourceBuilder := ResourceBuilders n r.

Lemma quiet_same w w' b : sameStore w w' → quiet w' b = quiet w b.
Proof. intros Hs. unfold quiet. by rw (child_same _ _ _ Hs). Qed.

Lemma good_same w w' b : sameStore w w' → good w b → good w' b.
Proof. intros Hs Hg o. rw (child_same _ _ _ Hs). apply Hg. Qed.

(** Settling one child does not touch another one. *)
Lemma settles_other b b' w w' :
  b ∈ all → b' ∈ all → b' ≠ b → settles b w w' → child b' w' = child b' w.
Proof.
  intros Hb Hb' Hne [_ Hother]. apply Hother. intros Ht. apply Hne.
  exact (ResourceBuilders_targets_inj r n b' b Hb' Hb Ht).
Qed.

Lemma settles_good b w w' : b ∈ all → Forall (good w) all → settles b w w' → Forall (good w') all.
Proof.
  intros Hb Hg Hset. apply Forall_forall. intros b' Hb' o Hc. destruct (decide (b' = b)) as [->|Hne].
  - destruct Hset as [(o' & Hc' & Ha & _) _]. congruence.
  - rw (settles_other b b' w w') // in Hc. rw Forall_forall in Hg. by apply (Hg b').
Qed.

(** The children that a reconciliation has still to write. *)
Definition unsettled w : list ResourceBuilder := List.filter (λ b, negb (quiet w b)) all.

Lemma wp_reconcileBuilders bs w :
  Forall (good w) bs →
  wp r (reconcileBuilders bs) w (λ res w' c,
    match List.filter (λ b, negb (quiet w b)) bs with
    | [] => res = Continue ∧ sameStore w w' ∧ c = []
    | b :: _ => res = Done ∧ settles b w w' ∧ (length c ≤ 3)%nat
    end).
Proof.
  revert w. induction bs as [|b bs IH]; intros w Hg; [by apply wp_ret|].
  apply Forall_cons in Hg as [Hgb Hg]. cbn [reconcileBuilders List.filter]. apply wp_bind.
  eapply wp_mono; [by apply (wp_reconcileBuilder b)|]. intros res w1 c1 HQ. destruct (quiet w b) eqn:Eq; cbn [negb].
  - destruct HQ as (-> & Hs & ->). cbn [Completed].
    assert (List.filter (λ b, negb (quiet w1 b)) bs = List.filter (λ b, negb (quiet w b)) bs) as Hf.
    { apply List.filter_ext. intros b'. by rw (quiet_same w). }
    eapply wp_mono; [apply IH|].
    { eapply Forall_impl; [exact Hg|]. intros b'. by apply good_same. }
    intros res w2 c2. rw Hf. clear Hf. destruct (List.filter _ bs) as [|b' ?].
    + intros (-> & Hs2 & ->). split_and!; [done|by eapply sameStore_trans|done].
    + intros (-> & Hset & Hl). split_and!; [done|by eapply settles_first|done].
  - destruct HQ as (-> & Hset & Hl). cbn [Completed]. apply wp_ret. by rw app_nil_r.
Qed.

(** Taking away the first element that passes. *)
Lemma filter_one {A} `{!EqDecision A} (f g : A → bool) (x : A) l rest :
  NoDup l → List.filter f l = x :: rest → g x = false → (∀ y, y ∈ l → y ≠ x → g y = f y) →
  List.filter g l = rest.
Proof.
  induction l as [|y l IH]; [done|]. intros [Hy Hnd]%NoDup_cons. cbn.
  destruct (f y) eqn:Ef.
  - intros [= -> <-] Hg Hother. rw Hg. apply List.filter_ext_in. intros z Hz%list_elem_of_In.
    apply Hother; [by apply list_elem_of_further|]. by intros ->.
  - intros Hf Hg Hother. rw (Hother y); [apply list_elem_of_here| |].
    + intros ->. assert (x ∈ List.filter f l) as Hx by (rw Hf; apply list_elem_of_here).
      apply list_elem_of_In, filter_In in Hx as [_ Hx]. congruence.
    + rw Ef. apply IH; [done..|]. intros z Hz. apply Hother. by apply list_elem_of_further.
Qed.

Lemma settles_unsettled b w w' rest :
  NoDup all → unsettled w = b :: rest → settles b w w' → unsettled w' = rest.
Proof.
  intros Hnd Hu Hset. assert (b ∈ all) as Hb.
  { assert (b ∈ unsettled w) as Hx by (rw Hu; apply list_elem_of_here).
    apply list_elem_of_In, filter_In in Hx as [Hx _]. by apply list_elem_of_In. }
  eapply filter_one; [exact Hnd|exact Hu|by rw (settles_quiet _ _ _ Hset)|].
  intros b' Hb' Hne. unfold quiet. by rw (settles_other b b' w w').
Qed.

(** Nothing is unsettled: every child is as its builder leaves it. *)
Lemma unsettled_nil w : unsettled w = [] →
  Forall (λ b, ∃ o, child b w = Some o ∧ SemanticDeepEqual (builderKind b) o (after b o) = true) all.
Proof.
  intros Hu. apply Forall_forall. intros b Hb. assert (quiet w b = true) as Hq.
  { destruct (quiet w b) eqn:Eq; [done|]. exfalso.
    assert (b ∈ unsettled w) as Hx; [|by rw Hu in Hx; apply not_elem_of_nil in Hx].
    apply list_elem_of_In, filter_In. rw Eq. split; [by apply list_elem_of_In|done]. }
  unfold quiet in Hq. destruct (child b w) as [o|]; [|done]. by exists o.
Qed.

(** *** Rounds *)

(** Worlds with the same children. *)
Definition sameChildren w w' : Prop := Forall (λ b, child b w' = child b w) all.

(** [rounds k w w']: from [w] to [w'] with [k] reconciliations of the children
    that were not the last one, whatever their answers, and in between any
    steps of others that do not concern the children. *)
Inductive rounds : nat → W → W → Prop :=
  | rounds_none w : rounds 0 w w
  | rounds_others k w w1 w2 : rounds k w w1 → sameChildren w1 w2 → rounds k w w2
  | rounds_one k w w1 out s l : rounds k w w1 →
      reconcileBuilders all (mkOp r (w1, l)) = (out, s) → out ≠ Returns Continue →
      rounds (S k) w (op_world s).1.

Lemma sameChildren_good w w' : sameChildren w w' → Forall (good w) all → Forall (good w') all.
Proof.
  intros Hs Hg. apply Forall_forall. intros b Hb o Hc. unfold sameChildren in Hs. rw Forall_forall in Hs.
  rw Forall_forall in Hg. apply (Hg b Hb). by rw -(Hs b Hb).
Qed.

Lemma sameChildren_unsettled w w' : sameChildren w w' → unsettled w' = unsettled w.
Proof.
  intros Hs. apply List.filter_ext_in. intros b Hb%list_elem_of_In. unfold sameChildren in Hs. rw Forall_forall in Hs.
  unfold quiet. by rw (Hs b Hb).
Qed.

(** The answer in any world with acceptable children. *)
Lemma round_answer w l :
  Forall (good w) all → ∃ w' c, reconcileBuilders all (mkOp r (w, l)) =
    (Returns (match unsettled w with [] => Continue | _ => Done end), mkOp r (w', l ++ c)) ∧
    match unsettled w with
    | [] => sameStore w w' ∧ c = []
    | b :: _ => settles b w w' ∧ (length c ≤ 3)%nat
    end.
Proof.
  intros Hg. destruct (wp_reconcileBuilders all w Hg l) as (res & w' & c & E & HQ). exists w', c.
  unfold unsettled. destruct (List.filter _ all); destruct HQ as (-> & HQ); done.
Qed.

Lemma rounds_invariant k w w' :
  NoDup all → Forall (good w) all → rounds k w w' →
  Forall (good w') all ∧ (k + length (unsettled w') = length (unsettled w))%nat.
Proof.
  intros Hnd Hg. induction 1 as [w|k w w1 w2 _ IH Hs|k w w1 out s l _ IH E Hout].
  - done.
  - destruct (IH Hg) as [Hg1 Hk]. split; [by eapply sameChildren_good|]. by rw (sameChildren_unsettled _ _ Hs).
  - destruct (IH Hg) as [Hg1 Hk]. destruct (round_answer w1 l Hg1) as (w' & c & E' & HQ). rw E in E'.
    injection E' as -> ->. cbn [op_world fst]. destruct (unsettled w1) as [|b rest] eqn:Eu; [done|].
    destruct HQ as [Hset _]. pose proof (settles_unsettled _ _ _ _ Hnd Eu Hset) as Hu.
    split; [|rw Hu; cbn in Hk; lia]. eapply settles_good; [|exact Hg1|exact Hset].
    assert (b ∈ unsettled w1) as Hx by (rw Eu; apply list_elem_of_here).
    apply list_elem_of_In, filter_In in Hx as [Hx _]. by apply list_elem_of_In.
Qed.

(** As many rounds as there are unsettled children can be made. *)
Lemma rounds_enough m : ∀ w, NoDup all → Forall (good w) all → length (unsettled w) = m →
  ∃ w', rounds m w w' ∧ unsettled w' = [].
Proof.
  assert (∀ k w w1 w2, rounds 1 w w1 → rounds k w1 w2 → rounds (S k) w w2) as Hcons.
  { intros k w w1 w2 H1 H2. induction H2 as [w1|k w1 w3 w2 _ IH Hs|k w1 w3 out s l _ IH E Hout]; [done| |].
    - by eapply rounds_others; [apply IH|].
    - by eapply rounds_one; [apply IH|..]. }
  induction m as [|m IH]; intros w Hnd Hg Hl.
  - exists w. split; [constructor|by destruct (unsettled w)].
  - destruct (round_answer w [] Hg) as (w1 & c & E & HQ). destruct (unsettled w) as [|b rest] eqn:Eu; [done|].
    destruct HQ as [Hset _]. assert (rounds 1 w w1) as H1.
    { change w1 with (op_world (mkOp r (w1, [] ++ c))).1. eapply rounds_one; [constructor|exact E|done]. }
    destruct (rounds_invariant 1 w w1 Hnd Hg H1) as [Hg1 Hk]. rw Eu in Hk. cbn in Hk, Hl.
    destruct (IH w1 Hnd Hg1) as (w2 & H2 & Hu); [lia|]. exists w2. split; [by eapply Hcons|done].
Qed.
End builder.

(** ** Property *)

Section property.
Context `{!Library} {W : Type} `{!Kube W, !Store W, !StoreLaws W}.
Context (r : RabbitmqCluster) (n : Z) (op user : string).

(** C6: the reconciliation of the children terminates.  On an API server that
    stores what it is sent, for a cluster with its defaults and no override whose
    server configuration renders to a text that can be read again, and whatever
    acceptable children there are at first, every reconciliation of the children that is not the last one answers that it is done, never an error,
    and settles exactly one child with at most three calls (the write, an event
    and an annotation), while others may do anything that leaves the children
    alone; so the number of children that differ from what their builders want
    bounds the number of rounds, it is reached, and then all children are there
    as their builders leave them and a further round calls nothing. *)
Theorem children_converge (k : nat) (w w' : W) :
  Tidy r n → renderConf r n = inr (op, user) → readable op →
  (∀ k (o : Obj k), SemanticDeepEqual k o o = true) →
  Forall (good r w) (ResourceBuilders n r) → rounds r n k w w' →
  (k + length (unsettled r n op user w') = length (unsettled r n op user w))%nat ∧
  (length (unsettled r n op user w) ≤ length (ResourceBuilders n r))%nat ∧
  (∀ l, ∃ w'' c, reconcileBuilders (ResourceBuilders n r) (mkOp r (w', l)) =
     (Returns (match unsettled r n op user w' with [] => Continue | _ => Done end), mkOp r (w'', l ++ c)) ∧
     (length c ≤ 3)%nat ∧ (unsettled r n op user w' = [] → c = [])) ∧
  (unsettled r n op user w' = [] → Forall (λ b, ∃ o, child r b w' = Some o ∧
     SemanticDeepEqual (builderKind b) o (after r op user b o) = true) (ResourceBuilders n r)) ∧
  ∃ wn, rounds r n (length (unsettled r n op user w)) w wn ∧ unsettled r n op user wn = [].
Proof.
  intros HT Hconf Hop Hrefl Hg Hr. pose proof (ResourceBuilders_NoDup n r) as Hnd.
  destruct (rounds_invariant r n HT op user Hconf Hop Hrefl k w w' Hnd Hg Hr) as [Hg' Hk].
  split; [exact Hk|]. split; [apply List.filter_length_le|]. split; [|split].
  - intros l. destruct (round_answer r n HT op user Hconf Hop w' l Hg') as (w'' & c & E & HQ).
    exists w'', c. split; [exact E|]. destruct (unsettled r n op user w') as [|b rest].
    + destruct HQ as [_ ->]. split; [cbn; lia|done].
    + by destruct HQ as [_ Hl].
  - intros Hu. by apply unsettled_nil.
  - by apply (rounds_enough r n HT op user Hconf Hop Hrefl _ w Hnd Hg).
Qed.
End property.
