(* ===== verification/Overridden.v ===== *)
(** The scaler and the override of the claim templates: the scaler compares the
    stored StatefulSet, which has the override, with the StatefulSet that
    [Build] makes, which does not have it. *)

From S2P Require Import Prelude GoStd K8s V1beta1 Constant Metadata Kube Controllerutil Merge Builder.
From S2P Require Import Overrides Sts Builders Trace Scaling Result Status ControllerUtils Resources Tame Converge.

(** ** Definitions *)

(** The claim of an override, without its owner. *)
Definition claimOfOverride (o : PersistentVolumeClaimOverride) : PersistentVolumeClaim :=
  mkPersistentVolumeClaim (copyObjectMeta (newObjectMeta "" "" None None) (pvo_EmbeddedObjectMeta o)) (pvo_Spec o).

(** The capacity of the persistence volume that an override asks for. *)
Definition overrideCapacity (os : list PersistentVolumeClaimOverride) : Quantity :=
  templateCapacity c_PVCName (claimOfOverride <$> os).

Definition overriddenClaims (r : RabbitmqCluster) : list PersistentVolumeClaimOverride :=
  match ros_StatefulSet (rs_Override (rmq_Spec r)) ≫= sto_Spec with
  | Some o => sso_VolumeClaimTemplates o
  | None => []
  end.

(** How the scaler refuses a change from [current] to [desired]. *)
Definition refusal (current desired : Quantity) : option error :=
  if (desired <? current)%Z then Some (New "shrinking persistent volumes is not supported")
  else if (current =? 0)%Z && (0 <? desired)%Z
  then Some (New "changing from ephemeral to persistent storage is not supported") else None.

(** ** Lemmas *)

Section overridden.
Context `{!Library} (r : RabbitmqCluster).

Lemma overridePVCs_capacity ns os pvcs :
  overridePVCs r ns os = inr pvcs → templateCapacity c_PVCName pvcs = overrideCapacity os.
Proof.
  unfold overrideCapacity. revert pvcs. induction os as [|o os IH]; intros pvcs; cbn [overridePVCs fmap list_fmap].
  { by intros [= <-]. }
  unfold overridePVC. destruct (setController _ _) as [|pvc] eqn:E; [done|].
  destruct (overridePVCs r ns os) as [|rest]; [done|]. intros [= <-].
  apply (setController_meta (k := KPVC)) in E as ->. cbn [templateCapacity]. by rw (IH rest eq_refl).
Qed.

Lemma overrideTemplate_claims sts t sts' :
  overrideTemplate sts t = ok sts' →
  stss_VolumeClaimTemplates (sts_Spec sts') = stss_VolumeClaimTemplates (sts_Spec sts).
Proof.
  unfold overrideTemplate. destruct (pto_Spec t) as [p|]; [|by intros [= <-]].
  intros Ht. apply tryf_inv in Ht as (spec & _ & Ht). by injection Ht as <-.
Qed.

(** The updated StatefulSet has the claims of the override. *)
Lemma Update_overridden sts sts' q :
  overriddenClaims r ≠ [] → rps_Storage (rs_Persistence (rmq_Spec r)) = Some q → q ≠ 0%Z →
  StatefulSet_Update r sts = ok sts' →
  templateCapacity c_PVCName (stss_VolumeClaimTemplates (sts_Spec sts')) = overrideCapacity (overriddenClaims r).
Proof.
  intros Hos Hq H0. unfold StatefulSet_Update, mbind, outcome_bind.
  destruct (generatedSpec r _) as [spec|]; [|done]. unfold overriddenClaims in *.
  destruct (ros_StatefulSet _) as [o|]; [|done]. cbn in Hos |- *. intros Hu.
  apply tryf_inv in Hu as (sts1 & H1 & Hu). apply wrapf_inv in H1. unfold ok in Hu. injection Hu as Hu.
  apply (setController_meta (k := KStatefulSet)) in Hu as ->. cbn [sts_Spec set_meta set_sts_ObjectMeta].
  unfold applyStsOverride in H1. destruct (sto_Spec o) as [so|]; [|done].
  apply tryf_inv in H1 as (sts2 & H2 & H1).
  assert (stss_VolumeClaimTemplates (sts_Spec sts1) = stss_VolumeClaimTemplates (sts_Spec sts2)) as ->.
  { destruct (sso_Template so); [by apply overrideTemplate_claims in H1|by injection H1 as <-]. }
  unfold overrideClaims in H2. destruct (sso_VolumeClaimTemplates so) as [|c cs] eqn:Ec; [done|].
  unfold storageIsZero in H2. rw Hq in H2. unfold mbind, outcome_bind in H2. cbn [derefO] in H2.
  rw Cmp_zero bool_decide_eq_false_2 // in H2.
  destruct (overridePVCs r _ (c :: cs)) as [|pvcs] eqn:Ep; [done|]. injection H2 as <-.
  cbn [sts_Spec set_sts_Spec stss_VolumeClaimTemplates set_stss_VolumeClaimTemplates]. by eapply overridePVCs_capacity.
Qed.

(** The tests of the scaler come to the refusal. *)
Lemma refusal_tests {A} current desired err (none : A) (some : error → A) (go : A) :
  refusal current desired = Some err →
  (if (Cmp current desired =? 0)%Z then none else
   if (Cmp current desired =? 1)%Z then some (New "shrinking persistent volumes is not supported") else
   if (Cmp current 0 =? 0)%Z then some (New "changing from ephemeral to persistent storage is not supported") else go) =
  some err.
Proof.
  unfold refusal, Cmp. intros Hr. destruct (Z.compare_spec current desired) as [->|Hlt|Hgt].
  - rw Z.ltb_irrefl in Hr. destruct (Z.eqb_spec desired 0) as [->|]; done.
  - rw (proj2 (Z.ltb_ge desired current)) in Hr; [lia|]. destruct (Z.eqb_spec current 0) as [->|]; [|done].
    rw (proj2 (Z.ltb_lt 0 desired)) // in Hr. by injection Hr as <-.
  - rw (proj2 (Z.ltb_lt desired current)) // in Hr. by injection Hr as <-.
Qed.

(** The built StatefulSet has the size of the spec. *)
Lemma Build_capacity i q :
  rps_Storage (rs_Persistence (rmq_Spec r)) = Some q →
  ∃ s, StatefulSet_Build r i = ok s ∧
    persistenceStorageCapacity c_PVCName (stss_VolumeClaimTemplates (sts_Spec s)) = q ∧
    ObjectKeyFromObject (k := KStatefulSet) s = (builderTarget r (StatefulSetBuilder i)).2.
Proof.
  intros Hq. eassert (∃ pvcs, persistentVolumeClaims r [] = Returns pvcs ∧ templateCapacity c_PVCName pvcs = q)
    as (pvcs & E & Hp).
  { rw /persistentVolumeClaims Hq /mbind /outcome_bind /= Cmp_zero. case_bool_decide as H0; [by exists []|].
    destruct (desiredPVC_controlled r q) as [pvc E]. rw E. destruct (desiredPVC_update _ _ _ E) as (_ & Hn & Hr).
    exists [disableBlockOwnerDeletion pvc]. split; [done|]. cbn. by rw Hn String.eqb_refl. }
  rw /StatefulSet_Build E /mbind /outcome_bind. eexists. split; [done|]. split; [|done].
  by rw persistenceStorageCapacity_eq.
Qed.
End overridden.

(** ** Property *)

Section stuck.
Context `{!Library} {W : Type} `{!Kube W}.

(** C21: an override of the claim templates that asks for a larger persistence
    volume than the spec, or for none, ends every later reconciliation of the
    replica with an error.  The stored StatefulSet has the claims of the
    override, because updating it has put them there; the scaler compares them
    with the built StatefulSet, which has the size of the spec, and refuses: the
    round ends with the refusal, one event is all that is called, and the
    StatefulSet is not looked at. *)
Theorem overridden_claims_stuck r i q sts0 sts err (s : Op (W * list Call)) :
  rps_Storage (rs_Persistence (rmq_Spec r)) = Some q → q ≠ 0%Z → overriddenClaims r ≠ [] →
  refusal (overrideCapacity (overriddenClaims r)) q = Some err →
  StatefulSet_Update r sts0 = ok sts → op_rmq s = r →
  (csGet KStatefulSet (builderTarget r (StatefulSetBuilder i)).2 (op_world s).1).1 = inr sts →
  run (reconcileBuilder (StatefulSetBuilder i)) s (λ out _ calls,
    out = Returns (ErrorResult err) ∧
    calls = [Event "Warning" "FailedReconcilePersistence" ("failed to scale PVCs: " +:+ Error err)]).
Proof.
  intros Hq H0 Hos Herr Hu <- Hget. destruct (Build_capacity (op_rmq s) i q Hq) as (built & Eb & Hb & Hk).
  pose proof (Update_overridden (op_rmq s) sts0 sts q Hos Hq H0 Hu) as Hc.
  unfold reconcileBuilder. cbn [Build]. apply run_seq, run_seq, run_rmq. cbn beta iota.
  apply run_seq, run_lift. cbn beta iota. rw Eb. apply run_ret. cbn [pack app reconcilePVCOf].
  apply run_seq. unfold reconcilePVC. rw Hb Hk. unfold Scale, existingCapacity, getStatefulset.
  apply run_seq, run_seq, run_seq, run_unlogged_eq. intros s1 Hs1. rw Hget. cbn beta iota.
  apply run_ret. cbn beta iota. rw Hc. set (current := overrideCapacity (overriddenClaims (op_rmq s))) in *.
  lazymatch goal with |- run ?m _ _ =>
    assert (m = mret (Some err)) as -> by apply (refusal_tests current q err _ (λ e, mret (Some e)) _ Herr) end.
  apply run_ret. cbn beta iota.
  apply run_seq, run_event. intros s2 Hs2. cbn beta iota. apply run_seq, run_setCondition. intros now s3 _. cbn beta iota.
  apply run_ret. cbn [Completed app]. apply run_ret. split; [done|]. done.
Qed.
End stuck.
