(* ===== verification/Steps.v ===== *)
(** The reconcile steps that look at the cluster object itself: its status
    (controllers/reconcile_status.go), the pause label (reconcile_pause.go),
    scaling down (reconcile_scale_down.go), TLS (reconcile_tls.go) and the
    operator's defaults (reconcile_operator_defaults.go). *)

From S2P Require Import Prelude GoStd K8s V1beta1 Constant Metadata Kube Builder Trace Result.
From S2P Require Import Status ControllerUtils Resources Builders.
From Stdlib Require Import Ascii.

(** ** Definitions *)

(** *** reconcile_status.go *)

(** [for i := range items { res[i] = &items[i] }]. *)
Fixpoint placeStatefulSets (i : nat) (items : list StatefulSet) (res : list Resource)
    : outcome (list Resource) :=
  match items with
  | [] => Returns res
  | sts :: items =>
      if (i <? length res)%nat
      then placeStatefulSets (S i) items (<[i := RStatefulSet (Some sts)]> res)
      else Panics "index out of range"
  end.

(** A slot for each replica, the endpoints, then the StatefulSets in their slots. *)
Definition childResources (replicas : Z) (items : list StatefulSet) (endPoints : option Endpoints)
    : outcome (list Resource) :=
  placeStatefulSets 0 items (replicate (Z.to_nat replicas) (RStatefulSet None) ++ [REndpoints endPoints]).

Definition userKeys : gomap string := Some {["username" := "username"; "password" := "password"]}.

(** The assignments of [reconcileStatus]. *)
Definition statusOf (replicas : Z) (r : RabbitmqCluster) : RabbitmqClusterStatus :=
  let st := rmq_Status r in
  let st := if (rst_Replicas st <? replicas)%Z then set_rst_Replicas replicas st else st in
  let user := mkRabbitmqClusterDefaultUser None
    (Some (mkRabbitmqClusterServiceReference (ChildResourceName r ResourceClientServiceSuffix)
             (rmq_Namespace r))) in
  if VaultDefaultUserSecretEnabled r then set_rst_DefaultUser (Some user) st else
  let user := set_rdu_SecretReference
    (Some (mkRabbitmqClusterSecretReference (ChildResourceName r ResourceDefaultUserSuffix)
             (rmq_Namespace r) userKeys)) user in
  let binding :=
    if ExternalSecretEnabled r then sb_ExternalSecret (rs_SecretBackend (rmq_Spec r))
    else mkLocalObjectReference (ChildResourceName r ResourceDefaultUserSuffix) in
  set_rst_Binding (Some binding) (set_rst_DefaultUser (Some user) st).

Section steps.
Context {W : Type} `{!Kube W}.

Definition updateStatus : Run W ReconcileResult :=
  err ← RetryOnConflict statusUpdateRmq;
  mret (match err with None => Done | Some err => ErrorResult err end).

Definition getChildResources : Run W (result (list Resource)) :=
  sets ← statefulSets;
  match IgnoreNotFound (errorOf sets) with
  | Some err => mret (inl err)
  | None =>
      r ← rmq;
      got ← ext (kGet KEndpoints (mkNamespacedName (rmq_Namespace r)
                                    (ChildResourceName r ResourceClientServiceSuffix)));
      let found (endPoints : option Endpoints) : Run W (result (list Resource)) :=
        replicas ← deref (rs_Replicas (rmq_Spec r));
        res ← lift (childResources replicas (itemsOf sets) endPoints);
        mret (inr res) in
      match got with
      | inl err => if errIsNotFound err then found None else mret (inl err)
      | inr endPoints => found (Some endPoints)
      end
  end.

Definition reconcileStatusConditions : Run W ReconcileResult :=
  resources ← getChildResources;
  match resources with
  | inl err => mret (ErrorResult err)
  | inr resources =>
      r ← rmq;
      now ← ext kNow;
      status ← lift (SetConditions now resources (rmq_Status r));
      _ ← set_rmq (set_rmq_Status status r);
      if bool_decide (rst_Conditions (rmq_Status r) = rst_Conditions status)
      then mret Continue else updateStatus
  end.

Definition reconcileStatus : Run W ReconcileResult :=
  r ← rmq;
  replicas ← deref (rs_Replicas (rmq_Spec r));
  let old := rmq_Status r in
  let status := statusOf replicas r in
  _ ← set_rmq (set_rmq_Status status r);
  if (rst_Replicas old =? rst_Replicas status)%Z &&
     bool_decide (rst_Binding old = rst_Binding status) &&
     bool_decide (rst_DefaultUser old = rst_DefaultUser status)
  then mret Continue else updateStatus.

(** *** reconcile_pause.go *)

Definition pauseReconciliationLabel : string := "rabbitmq.com/pauseReconciliation".

Definition reconcilePaused : Run W ReconcileResult :=
  r ← rmq;
  match gm_lookup (rmq_Labels r) pauseReconciliationLabel with
  | None => mret Continue
  | Some v =>
      if negb (v =? "true")%string then mret Continue else
      _ ← event "Warning" "PausedReconciliation"
            ("label '" +:+ pauseReconciliationLabel +:+ "' is set to true");
      _ ← setCondition NoWarnings ConditionFalse "reconciliation paused" [];
      mret Done
  end.

(** *** reconcile_scale_down.go *)

Definition reconcileScaleDown : Run W ReconcileResult :=
  r ← rmq;
  next ← deref (rs_Replicas (rmq_Spec r));
  let curr := rst_Replicas (rmq_Status r) in
  if (curr <=? next)%Z then mret Continue else
  let reason := "UnsupportedOperation" in
  let msg := "cluster Scale down not supported; tried to scale cluster from " +:+ Itoa curr +:+
             " nodes to " +:+ Itoa next +:+ " nodes" in
  _ ← event "Warning" reason msg;
  _ ← setCondition ReconcileSuccess ConditionFalse reason [msg];
  mret Done.

(** *** reconcile_tls.go *)

Definition disableNonTLSConfigErr : error :=
  New "TLS must be enabled if disableNonTLSListeners is set to true".

Definition hasKey (secret : Secret) (key : string) : bool :=
  bool_decide (is_Some (gm_lookup (sec_Data secret) key)).

(** Report an error and return it. *)
Definition tlsError (msg : string) (err : error) : Run W goerror :=
  _ ← event "Warning" "TLSError" msg; mret (Some err).

Definition badSecret (secretName namespace fields : string) : error :=
  StatusError StatusReasonBadRequest
    ("TLS secret " +:+ secretName +:+ " in namespace " +:+ namespace +:+ " does not have the " +:+ fields).

Definition checkTLSSecrets : Run W goerror :=
  r ← rmq;
  let namespace := rmq_Namespace r in
  let secretName := tls_SecretName (rs_TLS (rmq_Spec r)) in
  let caSecretName := tls_CaSecretName (rs_TLS (rmq_Spec r)) in
  let checkCA (secret : Secret) : Run W goerror :=
    if hasKey secret "ca.crt" then mret None else
    let err := badSecret caSecretName namespace "field ca.crt" in
    tlsError (Error err) err in
  secret ← ext (kReaderGet KSecret (mkNamespacedName namespace secretName));
  match secret with
  | inl err =>
      tlsError ("Failed to get TLS secret " +:+ secretName +:+ " in namespace " +:+ namespace +:+ ": "
                +:+ Error err) err
  | inr secret =>
      if negb (hasKey secret "tls.crt") || negb (hasKey secret "tls.key") then
        let err := badSecret secretName namespace "fields tls.crt and tls.key" in
        tlsError (Error err) err
      else if negb (MutualTLSEnabled r) then mret None
      else if SingleTLSSecret r then checkCA secret
      else
        ca ← ext (kReaderGet KSecret (mkNamespacedName namespace caSecretName));
        match ca with
        | inl err =>
            tlsError ("Failed to get CA certificate secret " +:+ caSecretName +:+ " in namespace "
                      +:+ namespace +:+ ": " +:+ Error err) err
        | inr ca => checkCA ca
        end
  end.

Definition reconcileTLS : Run W ReconcileResult :=
  r ← rmq;
  if DisableNonTLSListeners r && negb (TLSEnabled r) then
    _ ← event "Warning" "TLSError" (Error disableNonTLSConfigErr);
    _ ← setCondition ReconcileSuccess ConditionFalse "TLSError" [Error disableNonTLSConfigErr];
    mret Done
  else if SecretTLSEnabled r then
    err ← checkTLSSecrets;
    match err with
    | Some err =>
        _ ← setCondition ReconcileSuccess ConditionFalse "TLSError" [Error err];
        mret (ErrorResult err)
    | None => mret Continue
    end
  else mret Continue.
End steps.

(** *** reconcile_operator_defaults.go *)

(** The defaults of a [RabbitmqClusterReconciler]. *)
Record Defaults := mkDefaults {
  DefaultRabbitmqImage : string;
  DefaultUserUpdaterImage : string;
  DefaultImagePullSecrets : string;
  ControlRabbitmqImage : bool
}.

Section defaults.
Context (d : Defaults).

Definition defaultImage (r : RabbitmqCluster) : RabbitmqCluster * string :=
  if ControlRabbitmqImage d || (rs_Image (rmq_Spec r) =? "")%string
  then (set_rmq_Spec (set_rs_Image (DefaultRabbitmqImage d) (rmq_Spec r)) r, " image ")
  else (r, "").

Definition defaultUpdaterImage (r : RabbitmqCluster) : RabbitmqCluster * string :=
  let backend := rs_SecretBackend (rmq_Spec r) in
  match sb_Vault backend with
  | None => (r, "")
  | Some vault =>
      if ControlRabbitmqImage d || bool_decide (vlt_DefaultUserUpdaterImage vault = None)
      then (set_rmq_Spec (set_rs_SecretBackend (set_sb_Vault (Some
              (set_vlt_DefaultUserUpdaterImage (Some (DefaultUserUpdaterImage d)) vault)) backend)
              (rmq_Spec r)) r, " vaultDefaultUserUpdaterImage ")
      else (r, "")
  end.

(** The non-empty entries of the comma separated list. *)
Definition pullSecrets : list LocalObjectReference :=
  mkLocalObjectReference <$>
    List.filter (λ s, 0 <? String.length s)%nat (Split (DefaultImagePullSecrets d) ","%char).

Definition defaultPullSecrets (r : RabbitmqCluster) : RabbitmqCluster * string :=
  match rs_ImagePullSecrets (rmq_Spec r), pullSecrets with
  | None, (_ :: _) as secrets =>
      (set_rmq_Spec (set_rs_ImagePullSecrets (Some secrets) (rmq_Spec r)) r,
       String.concat "" ((λ _, " imagePullSecret ") <$> secrets))
  | _, _ => (r, "")
  end.

(** All the defaults, and the text that says which were applied. *)
Definition applyDefaults (r : RabbitmqCluster) : RabbitmqCluster * string :=
  let '(r, t1) := defaultImage r in
  let '(r, t2) := defaultUpdaterImage r in
  let '(r, t3) := defaultPullSecrets r in
  (r, t1 +:+ t2 +:+ t3).

Context {W : Type} `{!Kube W}.

Definition updateRabbitmqCluster : Run W ReconcileResult :=
  err ← RetryOnConflict updateRmq;
  mret (match err with None => Done | Some err => ErrorResult err end).

Definition reconcileOperatorDefaults : Run W ReconcileResult :=
  r ← rmq;
  let '(r, updateType) := applyDefaults r in
  _ ← set_rmq r;
  if (updateType =? "")%string then mret Continue else updateRabbitmqCluster.
End defaults.

(** ** Lemmas *)

(** The resources, when the StatefulSets fit the slots. *)
Definition slots (replicas : nat) (items : list StatefulSet) (endPoints : option Endpoints) : list Resource :=
  (RStatefulSet ∘ Some <$> items) ++ replicate (replicas - length items) (RStatefulSet None) ++
  (if (length items <=? replicas)%nat then [REndpoints endPoints] else []).

Lemma placeStatefulSets_app i items pre rest :
  i = length pre →
  placeStatefulSets i items (pre ++ rest) =
  if (length items <=? length rest)%nat
  then Returns (pre ++ (RStatefulSet ∘ Some <$> items) ++ drop (length items) rest)
  else Panics "index out of range".
Proof.
  revert i pre rest. induction items as [|sts items IH]; intros i pre rest ->; [done|].
  cbn [placeStatefulSets length]. rw length_app.
  destruct rest as [|x rest]; cbn [length].
  { rw Nat.add_0_r Nat.ltb_irrefl. done. }
  rw (proj2 (Nat.ltb_lt _ _)); [lia|]. rw (insert_app_r_alt pre); [lia|].
  rw Nat.sub_diag /=. change (pre ++ RStatefulSet (Some sts) :: rest) with
    (pre ++ ([RStatefulSet (Some sts)] ++ rest)).
  rw app_assoc (IH _ (pre ++ [RStatefulSet (Some sts)]) rest); [by rw length_app Nat.add_1_r|].
  by rw -app_assoc.
Qed.

Lemma childResources_eq n items endPoints :
  childResources n items endPoints =
  if (length items <=? S (Z.to_nat n))%nat then Returns (slots (Z.to_nat n) items endPoints)
  else Panics "index out of range".
Proof.
  rw /childResources (placeStatefulSets_app 0 items []) // length_app length_replicate /= Nat.add_1_r.
  destruct (Nat.leb_spec (length items) (S (Z.to_nat n))) as [Hle|]; [|done].
  f_equal. rw /slots drop_app length_replicate drop_replicate.
  destruct (Nat.leb_spec (length items) (Z.to_nat n)).
  - by replace (length items - Z.to_nat n)%nat with 0%nat by lia.
  - by replace (length items - Z.to_nat n)%nat with 1%nat by lia.
Qed.

Section steps_lemmas.
Context {W : Type} `{!Kube W}.
Abbreviation TW := (W * list Call)%type.
Implicit Types (s : Op TW).

(** The status is sent as it is, at most five times, and the last time alone
    it is accepted. *)
Lemma run_updateStatus s (Q : outcome ReconcileResult → Op TW → list Call → Prop) :
  (∀ s' n, (1 ≤ n ≤ 5)%nat → Q (Returns Done) s' (replicate n (StatusUpdated (op_rmq s)))) →
  (∀ err s' n, (1 ≤ n ≤ 5)%nat → op_rmq s' = op_rmq s →
     Q (Returns (ErrorResult err)) s' (replicate n (StatusUpdated (op_rmq s)))) →
  run updateStatus s Q.
Proof.
  intros Hok Herr. unfold updateStatus. apply run_seq.
  apply (run_OnErrorSteps _ _ _ _ _ (λ n last s' c, op_rmq s' = op_rmq s ∧
    c = replicate n (StatusUpdated (op_rmq s)) ∧ (n = O ∨ is_Some last))).
  - split_and!; try done. by left.
  - intros n last s1 c1 Hn (Hs1 & -> & _). unfold DefaultRetrySteps in Hn.
    assert (replicate n (StatusUpdated (op_rmq s)) ++ [StatusUpdated (op_rmq s1)] =
            replicate (S n) (StatusUpdated (op_rmq s))) as Hrep.
    { rw Hs1. by rw replicate_S_end. }
    apply run_statusUpdateRmq.
    + intros s2. rw Hrep. apply run_ret. rw app_nil_r. apply Hok. lia.
    + intros err s2 Hs2. rw Hrep. destruct (errIsConflict err).
      * split_and!; [congruence|done|by right].
      * apply run_ret. rw app_nil_r. apply Herr; [lia|congruence].
  - intros last s1 c1 (Hs1 & -> & [|[err ->]]); [done|]. apply run_ret. rw app_nil_r.
    apply Herr; [unfold DefaultRetrySteps; lia|done].
Qed.

(** What the client finds under the name of the client Service. *)
Definition endpointsOf s (w : W) : result Endpoints :=
  (kGet (W := W) KEndpoints (mkNamespacedName (rmq_Namespace (op_rmq s))
     (ChildResourceName (op_rmq s) ResourceClientServiceSuffix)) w).1.

(** The children, when the two reads answer [sets] and [got]. *)
Definition childrenFrom (sets : result (list StatefulSet)) (got : result Endpoints) (replicas : option Z)
    : fallible (list Resource) :=
  match IgnoreNotFound (errorOf sets) with
  | Some err => Returns (inl err)
  | None =>
      let found endPoints :=
        n ← derefO replicas; res ← childResources n (itemsOf sets) endPoints; Returns (inr res) in
      match got with
      | inl err => if errIsNotFound err then found None else Returns (inl err)
      | inr endPoints => found (Some endPoints)
      end
  end.

Lemma run_getChildResources s :
  run getChildResources s (λ out s' calls, op_rmq s' = op_rmq s ∧ calls = [] ∧
    ∃ w, out = childrenFrom (listed s) (endpointsOf s w) (rs_Replicas (rmq_Spec (op_rmq s)))).
Proof.
  unfold getChildResources. apply run_seq, run_statefulSets. intros s1 Hs1. cbn beta iota.
  unfold childrenFrom. destruct (IgnoreNotFound (errorOf (listed s))) as [err|].
  { apply run_ret. cbn [app]. split_and!; [done|done|]. by exists (fst (op_world s)). }
  step. set (k := itemsOf (listed s)). apply run_seq, run_unlogged_eq. intros s2 Hs2. rw Hs1.
  cbn beta iota. cbn [app].
  assert (∀ endPoints, run (replicas ← deref (rs_Replicas (rmq_Spec (op_rmq s)));
         res ← lift (childResources replicas k endPoints); mret (inr res)) s2
      (λ out s' c, op_rmq s' = op_rmq s ∧ c = [] ∧
         out = (n ← derefO (rs_Replicas (rmq_Spec (op_rmq s)));
                res ← childResources n k endPoints; Returns (inr res) : fallible (list Resource)))) as Hfound.
  { intros ep. rw Hs1 in Hs2. destruct (rs_Replicas (rmq_Spec (op_rmq s))) as [n|].
    2: { apply run_seq, run_panic. by split_and!. }
    apply run_seq, run_ret. cbn beta iota. apply run_seq, run_lift.
    destruct (childResources n k ep) eqn:E; [apply run_ret|]; split_and!; try done;
      by rw /mbind /outcome_bind /= E. }
  match goal with
  | |- context [match ?got with inl _ => _ | inr _ => _ end] =>
      change got with (endpointsOf s (fst (op_world s1)))
  end.
  destruct (endpointsOf s (fst (op_world s1))) as [err|ep] eqn:Ee;
    [destruct (errIsNotFound err) eqn:E|].
  - eapply run_mono; [apply Hfound|]. intros o s3 c (? & ? & ->). split_and!; [done|done|].
    exists (fst (op_world s1)). by rw Ee E.
  - apply run_ret. split_and!; [congruence|done|]. exists (fst (op_world s1)). by rw Ee E.
  - eapply run_mono; [apply Hfound|]. intros o s3 c (? & ? & ->). split_and!; [done|done|].
    exists (fst (op_world s1)). by rw Ee.
Qed.

(** With two StatefulSets more than replicas there is no slot for the last. *)
Lemma run_scaled_down s stss replicas :
  listed s = inr stss → rs_Replicas (rmq_Spec (op_rmq s)) = Some replicas →
  (S (Z.to_nat replicas) < length stss)%nat →
  (∀ w err, endpointsOf s w = inl err → errIsNotFound err = true) →
  run reconcileStatusConditions s (λ out s' calls, op_rmq s' = op_rmq s ∧ calls = [] ∧
    out = Panics "index out of range").
Proof.
  intros Hlist Hrep Hlen Hep. unfold reconcileStatusConditions. apply run_seq.
  eapply run_mono; [apply run_getChildResources|]. intros out s1 c (Hs1 & -> & w & ->).
  rw Hlist Hrep. unfold childrenFrom. cbn [errorOf itemsOf IgnoreNotFound IsNotFound derefO].
  assert (∀ ep, childResources replicas stss ep = Panics "index out of range") as Hp.
  { intros ep. rw childResources_eq (proj2 (Nat.leb_gt _ _)) //. }
  rw /mbind /outcome_bind. destruct (endpointsOf s w) as [err|ep] eqn:E; [rw (Hep _ _ E)|]; by rw Hp.
Qed.
End steps_lemmas.

(** ** Properties *)

Section status_properties.
Context {W : Type} `{!Kube W}.
Abbreviation TW := (W * list Call)%type.
Implicit Types (s : Op TW).

(** The children from which the conditions are computed are one slot for
    each desired replica, filled with the listed StatefulSets in order, and the
    endpoints of the client Service in the last slot.  With one StatefulSet
    more than replicas that last slot is overwritten, so that the endpoints are
    not looked at; with two more the operator indexes out of range and panics. *)
Theorem childResources_slots replicas items endPoints :
  let n := Z.to_nat replicas in
  let sets : list Resource := RStatefulSet ∘ Some <$> items in
  ((length items ≤ n)%nat → childResources replicas items endPoints =
     Returns (sets ++ replicate (n - length items) (RStatefulSet None) ++ [REndpoints endPoints])) ∧
  (length items = S n → childResources replicas items endPoints = Returns sets) ∧
  ((S n < length items)%nat → childResources replicas items endPoints = Panics "index out of range").
Proof.
  cbv zeta. rw childResources_eq /slots. split_and!; intros Hl.
  - by rw !(proj2 (Nat.leb_le _ _)); try lia.
  - rw (proj2 (Nat.leb_le _ _)); [lia|]. rw (proj2 (Nat.leb_gt _ _)); [lia|].
    replace (Z.to_nat replicas - length items)%nat with 0%nat by lia. by rw /= app_nil_r.
  - rw (proj2 (Nat.leb_gt _ _)) //.
Qed.

(** The step that computes the conditions computes them from the listed
    StatefulSets and the endpoints, and changes nothing of the status but the
    conditions, which become the four known ones; it sends the status only if
    the conditions have changed, at most five times in all and every time the
    same object, and the reconciliation goes on only if they have not. *)
Theorem reconcileStatusConditions_spec s :
  run reconcileStatusConditions s (λ out s' calls,
    (calls = [] ∧ op_rmq s' = op_rmq s ∧ out ≠ Returns Done) ∨
    ∃ st n, rst_Conditions st ≠ rst_Conditions (rmq_Status (op_rmq s)) ∧
      (∃ now res w, SetConditions now res (rmq_Status (op_rmq s)) = Returns st ∧
         childrenFrom (listed s) (endpointsOf s w) (rs_Replicas (rmq_Spec (op_rmq s))) = Returns (inr res)) ∧
      cond_Type <$> sl (rst_Conditions st) =
        [AllReplicasReady; ClusterAvailable; NoWarnings; ReconcileSuccess] ∧
      st = set_rst_Conditions (rst_Conditions st) (rmq_Status (op_rmq s)) ∧
      (1 ≤ n ≤ 5)%nat ∧ calls = replicate n (StatusUpdated (set_rmq_Status st (op_rmq s))) ∧
      (out = Returns Done ∨ ∃ err, out = Returns (ErrorResult err) ∧
         op_rmq s' = set_rmq_Status st (op_rmq s))).
Proof.
  unfold reconcileStatusConditions. apply run_seq.
  eapply run_mono; [apply run_getChildResources|]. intros out s1 c (Hs1 & -> & w & ->).
  destruct (childrenFrom _ _ _) as [[err|res]|msg] eqn:Eres; [apply run_ret; by left| |by left].
  cbn [app]. step. step. apply run_seq, run_lift. rw Hs1.
  destruct (SetConditions a res (rmq_Status (op_rmq s))) as [st|msg] eqn:E; [|left; split_and!; [done|congruence|done]].
  cbn beta iota. step. cbn [app]. pose proof (SetConditions_inv _ _ _ _ E) as (nw & Hnw & Hc & Hr & Hu & Hb & Hg).
  apply NoWarningsCondition_inv in Hnw as (_ & Hnw & _).
  assert (st = set_rst_Conditions (rst_Conditions st) (rmq_Status (op_rmq s))) as Hst.
  { rw /set_rst_Conditions -Hr -Hu -Hb -Hg. by destruct st. }
  case_bool_decide as Hsame.
  { apply run_ret. left. split_and!; [done| |done]. cbn [op_rmq]. rw Hst -Hsame.
    by destruct (op_rmq s) as [m sp [????]]. }
  assert (cond_Type <$> sl (rst_Conditions st) =
        [AllReplicasReady; ClusterAvailable; NoWarnings; ReconcileSuccess]) as Hty.
  { rw Hc /=. rw (proj1 (AllReplicasReadyCondition_meta _ _ _)) (proj1 (ClusterAvailableCondition_meta _ _ _)) Hnw.
    destruct (oldCondition ReconcileSuccess _) as [c|] eqn:Eo; [|done].
    apply oldCondition_type in Eo as [Ht _]. by rw /= Ht. }
  apply run_updateStatus; cbn [op_rmq].
  - intros s2 n Hn. right. exists st, n. split_and!; try done; try lia; [by eauto|by left].
  - intros err s2 n Hn Hs2. right. exists st, n. split_and!; try done; try lia; [by eauto|right; by exists err].
Qed.

(** The status of a cluster after its resources are there: the recorded
    replicas are the maximum of the desired ones and those recorded before, the
    default user names the client Service, and unless the credentials come from
    Vault it also names the secret of the default user, which with an external
    secret is a secret no builder of the cluster makes; the status is sent, at
    most five times, exactly if one of these has changed. *)
Theorem reconcileStatus_spec s replicas :
  rs_Replicas (rmq_Spec (op_rmq s)) = Some replicas →
  let r := op_rmq s in let old := rmq_Status r in let st := statusOf replicas r in
  rst_Replicas st = Z.max replicas (rst_Replicas old) ∧ rst_Conditions st = rst_Conditions old ∧
  (∃ user, rst_DefaultUser st = Some user ∧
     rdu_ServiceReference user = Some (mkRabbitmqClusterServiceReference
       (ChildResourceName r ResourceClientServiceSuffix) (rmq_Namespace r)) ∧
     (is_Some (rdu_SecretReference user) ↔ VaultDefaultUserSecretEnabled r = false) ∧
     ∀ ref, rdu_SecretReference user = Some ref →
       rsr_Name ref = ChildResourceName r ResourceDefaultUserSuffix ∧
       (ExternalSecretEnabled r = true → ∀ n, DefaultUserSecretBuilder ∉ ResourceBuilders n r)) ∧
  run reconcileStatus s (λ out s' calls,
    if bool_decide (rst_Replicas st = rst_Replicas old ∧ rst_Binding st = rst_Binding old ∧
                    rst_DefaultUser st = rst_DefaultUser old)
    then out = Returns Continue ∧ calls = [] ∧ op_rmq s' = r
    else ∃ n, (1 ≤ n ≤ 5)%nat ∧ calls = replicate n (StatusUpdated (set_rmq_Status st r)) ∧
         out ≠ Returns Continue).
Proof.
  intros Hrep. cbv zeta. set (r := op_rmq s) in *. set (old := rmq_Status r). set (st := statusOf replicas r).
  split_and!.
  - rw /st /statusOf -/old. destruct (Z.ltb_spec (rst_Replicas old) replicas), (VaultDefaultUserSecretEnabled r);
      simpl; lia.
  - rw /st /statusOf. by destruct (_ <? _)%Z, (VaultDefaultUserSecretEnabled r).
  - assert (ExternalSecretEnabled r = true → ∀ n, DefaultUserSecretBuilder ∉ ResourceBuilders n r) as Hno.
    { intros He n. rw /ResourceBuilders He orb_true_r /=. rw !elem_of_cons list_elem_of_fmap. naive_solver. }
    rw /st /statusOf. destruct (_ <? _)%Z, (VaultDefaultUserSecretEnabled r) eqn:Ev; simpl; eexists;
      (split_and!; [done|done| |]); simpl; try naive_solver;
      (split; [intros [? ?]; done|done]).
  - unfold reconcileStatus. apply run_seq, run_rmq. fold r. rw Hrep. apply run_seq, run_ret. cbn beta iota zeta.
    fold st old. step. cbn [app].
    assert ((rst_Replicas old =? rst_Replicas st)%Z && bool_decide (rst_Binding old = rst_Binding st) &&
            bool_decide (rst_DefaultUser old = rst_DefaultUser st) =
            bool_decide (rst_Replicas st = rst_Replicas old ∧ rst_Binding st = rst_Binding old ∧
                    rst_DefaultUser st = rst_DefaultUser old)) as ->.
    { apply eq_true_iff_eq. rw !andb_true_iff !bool_decide_eq_true Z.eqb_eq. naive_solver. }
    case_bool_decide as Hsame.
    + apply run_ret. split_and!; [done|done|]. cbn [op_rmq]. destruct Hsame as (H1 & H2 & H3).
      assert (st = old) as ->.
      { assert (rst_Conditions st = rst_Conditions old ∧ rst_ObservedGeneration st = rst_ObservedGeneration old) as [H4 H5].
        { rw /st /statusOf. by destruct (_ <? _)%Z, (VaultDefaultUserSecretEnabled r). }
        destruct st, old. simpl in *. congruence. }
      rw /old. by destruct r.
    + apply run_updateStatus; cbn [op_rmq]; intros; exists n; split_and!; try done; lia.
Qed.
End status_properties.

Section step_properties.
Context {W : Type} `{!Kube W}.
Abbreviation TW := (W * list Call)%type.
Implicit Types (s : Op TW).

(** A cluster is paused exactly when its pause label is "true": then the
    step records one event, marks the NoWarnings condition if there is one, and
    ends the reconciliation; otherwise it does nothing. *)
Theorem reconcilePaused_spec s :
  run reconcilePaused s (λ out s' calls,
    if bool_decide (gm_lookup (rmq_Labels (op_rmq s)) pauseReconciliationLabel = Some "true")
    then out = Returns Done ∧ (∃ msg, calls = [Event "Warning" "PausedReconciliation" msg]) ∧
         ∃ now, op_rmq s' = set_rmq_Status
           (SetCondition now NoWarnings ConditionFalse "reconciliation paused" [] (rmq_Status (op_rmq s)))
           (op_rmq s)
    else out = Returns Continue ∧ calls = [] ∧ op_rmq s' = op_rmq s).
Proof.
  unfold reconcilePaused. step. destruct (gm_lookup _ _) as [v|].
  2: { rw bool_decide_eq_false_2 //. by apply run_ret. }
  destruct (String.eqb_spec v "true") as [->|Hv]; cbn [negb].
  - rw bool_decide_eq_true_2 //. apply run_seq, run_event. intros s1 Hs1. cbn beta iota.
    apply run_seq, run_setCondition. intros now s2 Hs2. cbn beta iota. apply run_ret.
    split_and!; [done|by eexists|]. exists now. by rw Hs2 Hs1.
  - rw bool_decide_eq_false_2; [congruence|]. by apply run_ret.
Qed.

(** Asking for fewer replicas than the status records is refused: the step
    records one event, sets ReconcileSuccess to False if it is there, and ends
    the reconciliation; otherwise it does nothing.  It never changes a child,
    and without a number of replicas it panics. *)
Theorem reconcileScaleDown_spec s :
  run reconcileScaleDown s (λ out s' calls,
    match rs_Replicas (rmq_Spec (op_rmq s)) with
    | None => (∃ msg, out = Panics msg) ∧ calls = [] ∧ op_rmq s' = op_rmq s
    | Some next =>
        if (next <? rst_Replicas (rmq_Status (op_rmq s)))%Z
        then out = Returns Done ∧ ∃ msg now, calls = [Event "Warning" "UnsupportedOperation" msg] ∧
             op_rmq s' = set_rmq_Status (SetCondition now ReconcileSuccess ConditionFalse
               "UnsupportedOperation" [msg] (rmq_Status (op_rmq s))) (op_rmq s)
        else out = Returns Continue ∧ calls = [] ∧ op_rmq s' = op_rmq s
    end).
Proof.
  unfold reconcileScaleDown. step. destruct (rs_Replicas (rmq_Spec (op_rmq s))) as [next|].
  2: { apply run_seq, run_panic. split_and!; [by eexists|done|done]. }
  apply run_seq, run_ret. cbn beta iota zeta. rw Z.ltb_antisym.
  destruct (rst_Replicas (rmq_Status (op_rmq s)) <=? next)%Z; cbn [negb]; [by apply run_ret|].
  apply run_seq, run_event. intros s1 Hs1. cbn beta iota.
  apply run_seq, run_setCondition. intros now s2 Hs2. cbn beta iota. apply run_ret.
  split; [done|]. eexists _, now. split; [done|]. by rw Hs2 Hs1.
Qed.

Lemma run_reader key s (Q : outcome (result Secret) → Op TW → list Call → Prop) :
  (∀ s' w, op_rmq s' = op_rmq s → fst (op_world s') = w →
     kReaderGet (W := W) KSecret key (fst (op_world s)) =
       ((kReaderGet KSecret key (fst (op_world s))).1, w) →
     Q (Returns (kReaderGet KSecret key (fst (op_world s))).1) s' []) →
  run (ext (kReaderGet KSecret key)) s Q.
Proof.
  intros HQ. exists []. rw /ext /= /unlogged. destruct s as [r [w l]]. simpl in *.
  destruct (kReaderGet KSecret key w) as [a w']; simpl in *. rw /log /= app_nil_r. split; [done|]. by apply (HQ _ w').
Qed.

Lemma run_tlsError msg err s (Q : outcome goerror → Op TW → list Call → Prop) :
  (∀ s', op_rmq s' = op_rmq s → Q (Returns (Some err)) s' [Event "Warning" "TLSError" msg]) →
  run (tlsError msg err) s Q.
Proof. intros HQ. unfold tlsError. apply run_seq, run_event. intros s1 Hs1. by apply run_ret, HQ. Qed.

(** The secrets TLS needs, read through the uncached reader. *)
Definition tlsSecretsPresent (r : RabbitmqCluster) (w : W) : Prop :=
  let read name := kReaderGet (W := W) KSecret (mkNamespacedName (rmq_Namespace r) name) in
  ∃ (secret : Secret) w1, read (tls_SecretName (rs_TLS (rmq_Spec r))) w = (inr secret, w1) ∧
  hasKey secret "tls.crt" = true ∧ hasKey secret "tls.key" = true ∧
  (MutualTLSEnabled r = true → ∃ ca : Secret,
     (if SingleTLSSecret r then ca = secret
      else (read (tls_CaSecretName (rs_TLS (rmq_Spec r))) w1).1 = inr ca) ∧
     hasKey ca "ca.crt" = true).

(** The postcondition of the check, by its error. *)
Definition tlsChecked s (err : goerror) (calls : list Call) : Prop :=
  (err = None ↔ tlsSecretsPresent (op_rmq s) (fst (op_world s))) ∧
  match err with
  | None => calls = []
  | Some _ => ∃ msg, calls = [Event "Warning" "TLSError" msg]
  end.

Lemma run_checkTLSSecrets s :
  run checkTLSSecrets s (λ out s' calls, op_rmq s' = op_rmq s ∧
    ∃ err, out = Returns err ∧ tlsChecked s err calls).
Proof.
  unfold checkTLSSecrets. step. set (r := op_rmq s).
  assert (∀ msg err s1, op_rmq s1 = r → ¬ tlsSecretsPresent r (fst (op_world s)) →
    run (tlsError msg err) s1 (λ out s' calls, op_rmq s' = r ∧
      ∃ err, out = Returns err ∧ tlsChecked s err calls)) as Hbad.
  { intros msg err s1 Hs1 Hno. apply run_tlsError. intros s2 Hs2. split; [congruence|].
    exists (Some err). split; [done|]. split; [done|]. by eexists. }
  apply run_seq, run_reader. intros s1 w1 Hs1 Hw1 Hread. cbn beta iota. cbn [app].
  destruct (kReaderGet KSecret _ _).1 as [err|secret].
  { apply Hbad; [done|]. intros (? & ? & E & _). congruence. }
  destruct (hasKey secret "tls.crt") eqn:Hcrt, (hasKey secret "tls.key") eqn:Hkey; cbn [negb orb];
    [|apply Hbad; [done|]; intros (? & ? & E & ? & ? & _); congruence..].
  destruct (MutualTLSEnabled r) eqn:Hm; cbn [negb].
  2: { apply run_ret. split; [done|]. exists None. split; [done|]. split; [|done]. split; [|done].
       intros _. exists secret, w1. split_and!; [done..|]. by rw Hm. }
  assert (∀ ca : Secret, (if SingleTLSSecret r then ca = secret
      else (kReaderGet (W := W) KSecret (mkNamespacedName (rmq_Namespace r)
              (tls_CaSecretName (rs_TLS (rmq_Spec r)))) w1).1 = inr ca) →
    ∀ msg err s2, op_rmq s2 = r → run (if hasKey ca "ca.crt" then mret None else tlsError msg err) s2
      (λ out s' calls, op_rmq s' = r ∧ ∃ err, out = Returns err ∧ tlsChecked s err calls)) as Hca.
  { intros ca Heq msg err s2 Hs2. destruct (hasKey ca "ca.crt") eqn:Hk.
    - apply run_ret. split; [done|]. exists None. split; [done|]. split; [|done]. split; [|done].
      intros _. exists secret, w1. split_and!; [done..|]. intros _. by exists ca.
    - apply Hbad; [done|]. intros (secret' & w' & E & _ & _ & Hmut).
      destruct (Hmut Hm) as (ca' & Heq' & Hk').
      assert (secret' = secret ∧ w' = w1) as [-> ->] by (split; congruence).
      destruct (SingleTLSSecret r); congruence. }
  destruct (SingleTLSSecret r) eqn:Hsingle; [by apply Hca|].
  apply run_seq, run_reader. intros s2 w2 Hs2 Hw2 Hread2. cbn beta iota. cbn [app]. rw Hw1.
  rw Hw1 in Hread2. destruct (kReaderGet KSecret _ w1).1 as [err|ca] eqn:Ec.
  - apply Hbad; [by rw Hs2 Hs1|]. intros (secret' & w' & E & _ & _ & Hmut).
    destruct (Hmut Hm) as (ca' & Heq' & Hk'). rw Hsingle in Heq'.
    assert (w' = w1) as -> by congruence. congruence.
  - apply Hca; [done|by rw Hs2 Hs1].
Qed.

(** C29: TLS from a secret is accepted exactly if the uncached reader finds the
    secret with a certificate and a key and, for mutual TLS, the CA certificate
    in that secret or in the secret named for it; otherwise exactly one event
    tells why and ReconcileSuccess becomes False.  Disabling the plain listeners
    without TLS is refused too, but as a step that is done, which is called
    again in 30 seconds.  No child is changed. *)
Theorem reconcileTLS_spec s :
  let r := op_rmq s in
  run reconcileTLS s (λ out s' calls,
    if DisableNonTLSListeners r && negb (TLSEnabled r)
    then out = Returns Done ∧ Output Done = Returns (mkCtrlResult true (30 * Second), None) ∧
         (∃ msg, calls = [Event "Warning" "TLSError" msg])
    else if SecretTLSEnabled r
    then (tlsSecretsPresent r (fst (op_world s)) ∧ out = Returns Continue ∧ calls = [] ∧ op_rmq s' = r) ∨
         (¬ tlsSecretsPresent r (fst (op_world s)) ∧ ∃ err msg now, out = Returns (ErrorResult err) ∧
            calls = [Event "Warning" "TLSError" msg] ∧
            op_rmq s' = set_rmq_Status (SetCondition now ReconcileSuccess ConditionFalse "TLSError"
              [Error err] (rmq_Status r)) r)
    else out = Returns Continue ∧ calls = [] ∧ op_rmq s' = r).
Proof.
  cbv zeta. unfold reconcileTLS. step. destruct (_ && _).
  - apply run_seq, run_event. intros s1 Hs1. cbn beta iota. apply run_seq, run_setCondition.
    intros now s2 Hs2. cbn beta iota. apply run_ret. split_and!; [done|done|by eexists].
  - destruct (SecretTLSEnabled (op_rmq s)); [|by apply run_ret].
    apply run_seq. eapply run_mono; [apply run_checkTLSSecrets|].
    intros out s1 calls (Hs1 & err & -> & Hiff & Hcalls). cbn [app]. destruct err as [err|].
    + apply run_seq, run_setCondition. intros now s2 Hs2. cbn beta iota. apply run_ret. right.
      split; [by intros ?%Hiff|]. destruct Hcalls as [msg ->]. exists err, msg, now.
      split_and!; [done|done|]. by rw Hs2 Hs1.
    + apply run_ret. left. subst calls. split_and!; [by apply Hiff|done|done|done].
Qed.
End step_properties.

(** *** The operator's defaults *)

Lemma applyDefaults_meta d r : rmq_ObjectMeta (applyDefaults d r).1 = rmq_ObjectMeta r.
Proof. unfold applyDefaults, defaultImage, defaultUpdaterImage, defaultPullSecrets. by_tests. Qed.

Section defaults_lemmas.
Context (d : Defaults).

Lemma pullSecrets_nonempty r : (defaultPullSecrets d r).2 = "" → (defaultPullSecrets d r).1 = r.
Proof.
  rw /defaultPullSecrets. destruct (rs_ImagePullSecrets (rmq_Spec r)); [done|].
  by destruct (pullSecrets d) as [|x [|y l]].
Qed.

Lemma string_app_empty (a b : string) : a +:+ b = "" → a = "" ∧ b = "".
Proof. by destruct a. Qed.

(** Without a text nothing was changed. *)
Lemma applyDefaults_none r : (applyDefaults d r).2 = "" → (applyDefaults d r).1 = r.
Proof.
  rw /applyDefaults. destruct (defaultImage d r) as [r1 t1] eqn:E1.
  destruct (defaultUpdaterImage d r1) as [r2 t2] eqn:E2.
  destruct (defaultPullSecrets d r2) as [r3 t3] eqn:E3. simpl.
  intros [-> [-> ->]%string_app_empty]%string_app_empty.
  pose proof (pullSecrets_nonempty r2) as H3. rw E3 /= in H3. rw (H3 eq_refl).
  unfold defaultUpdaterImage in E2. unfold defaultImage in E1.
  destruct (_ || _) in E1; [by injection E1|]. injection E1 as <-.
  destruct (sb_Vault _) in E2; [|by injection E2]. destruct (_ || _) in E2; [by injection E2|by injection E2].
Qed.

(** What the defaults set, field by field. *)
Lemma applyDefaults_fields r :
  let r' := (applyDefaults d r).1 in
  rmq_ObjectMeta r' = rmq_ObjectMeta r ∧ rmq_Status r' = rmq_Status r ∧
  rs_Image (rmq_Spec r') = (if ControlRabbitmqImage d || (rs_Image (rmq_Spec r) =? "")%string
                            then DefaultRabbitmqImage d else rs_Image (rmq_Spec r)) ∧
  rs_ImagePullSecrets (rmq_Spec r') = (match rs_ImagePullSecrets (rmq_Spec r), pullSecrets d with
                                       | None, _ :: _ => Some (pullSecrets d)
                                       | x, _ => x end) ∧
  (vlt_DefaultUserUpdaterImage <$> sb_Vault (rs_SecretBackend (rmq_Spec r'))) =
    ((λ v, if ControlRabbitmqImage d || bool_decide (vlt_DefaultUserUpdaterImage v = None)
           then Some (DefaultUserUpdaterImage d) else vlt_DefaultUserUpdaterImage v)
      <$> sb_Vault (rs_SecretBackend (rmq_Spec r))).
Proof.
  rw /applyDefaults /defaultImage /defaultUpdaterImage /defaultPullSecrets.
  destruct r as [m sp st]. simpl. destruct (ControlRabbitmqImage d || _); simpl;
    (destruct (sb_Vault (rs_SecretBackend sp)) as [v|] eqn:Ev; simpl;
     [destruct (ControlRabbitmqImage d || bool_decide (vlt_DefaultUserUpdaterImage v = None)) eqn:Eb; simpl|]);
    destruct (rs_ImagePullSecrets sp) eqn:Es, (pullSecrets d) eqn:Ep; simpl; rw ?Ev ?Es /= ?Eb; done.
Qed.

(** The image: the default where there is none, or whatever there is if the
    operator controls the images; likewise that of the updater of a Vault user,
    and the pull secrets only where there are none. *)
Definition imageOf (r : RabbitmqCluster) : string :=
  if ControlRabbitmqImage d || (rs_Image (rmq_Spec r) =? "")%string
  then DefaultRabbitmqImage d else rs_Image (rmq_Spec r).

Definition updaterOf (v : VaultSpec) : option string :=
  if ControlRabbitmqImage d then Some (DefaultUserUpdaterImage d) else
  match vlt_DefaultUserUpdaterImage v with Some image => Some image | None => Some (DefaultUserUpdaterImage d) end.

Definition pullSecretsOf (r : RabbitmqCluster) : option (list LocalObjectReference) :=
  match rs_ImagePullSecrets (rmq_Spec r) with
  | Some secrets => Some secrets
  | None => if bool_decide (pullSecrets d = []) then None else Some (pullSecrets d)
  end.

(** The cluster with those three and nothing else changed. *)
Definition defaulted (r : RabbitmqCluster) : RabbitmqCluster :=
  let spec := rmq_Spec r in
  let backend := rs_SecretBackend spec in
  set_rmq_Spec (set_rs_Image (imageOf r) (set_rs_ImagePullSecrets (pullSecretsOf r)
    (set_rs_SecretBackend (set_sb_Vault
       ((λ v, set_vlt_DefaultUserUpdaterImage (updaterOf v) v) <$> sb_Vault backend) backend) spec))) r.

(** Something is replaced, be it by the same. *)
Definition replaces (r : RabbitmqCluster) : bool :=
  ControlRabbitmqImage d || (rs_Image (rmq_Spec r) =? "")%string ||
  match sb_Vault (rs_SecretBackend (rmq_Spec r)) with
  | Some v => bool_decide (vlt_DefaultUserUpdaterImage v = None)
  | None => false
  end ||
  bool_decide (rs_ImagePullSecrets (rmq_Spec r) = None ∧ pullSecrets d ≠ []).

Lemma applyDefaults_defaulted r : (applyDefaults d r).1 = defaulted r.
Proof.
  destruct r as [m sp st], sp, rs_SecretBackend.
  rw /applyDefaults /defaultImage /defaultUpdaterImage /defaultPullSecrets /defaulted /imageOf /updaterOf /pullSecretsOf /=.
  destruct (ControlRabbitmqImage d); cbn [orb]; [|destruct (rs_Image =? "")%string];
    (destruct sb_Vault as [[]|]; cbn; [destruct vlt_DefaultUserUpdaterImage; cbn|]);
    (destruct rs_ImagePullSecrets; cbn; [|destruct (pullSecrets d); cbn]); done.
Qed.

Lemma applyDefaults_replaces r : ((applyDefaults d r).2 =? "")%string = negb (replaces r).
Proof.
  destruct r as [m sp st], sp, rs_SecretBackend.
  rw /applyDefaults /defaultImage /defaultUpdaterImage /defaultPullSecrets /replaces /=.
  destruct (ControlRabbitmqImage d); cbn [orb]; [|destruct (rs_Image =? "")%string];
    (destruct sb_Vault as [[]|]; cbn; [destruct vlt_DefaultUserUpdaterImage; cbn|]);
    (destruct rs_ImagePullSecrets; cbn; [|destruct (pullSecrets d) as [|? [|]]; cbn]);
    try done; case_bool_decide; naive_solver.
Qed.

(** What was filled in is not filled in again. *)
Lemma replaces_defaulted r :
  ControlRabbitmqImage d = false → DefaultRabbitmqImage d ≠ "" → replaces (defaulted r) = false.
Proof.
  intros Hc Hne. rw /replaces Hc. cbn [orb].
  assert ((rs_Image (rmq_Spec (defaulted r)) =? "")%string = false) as ->.
  { cbn. apply String.eqb_neq. rw /imageOf Hc. cbn [orb]. by destruct (String.eqb_spec (rs_Image (rmq_Spec r)) ""). }
  cbn [orb]. apply orb_false_iff. split.
  - cbn. destruct (sb_Vault _) as [v|]; [|done]. cbn. apply bool_decide_eq_false_2. rw /updaterOf Hc.
    by destruct (vlt_DefaultUserUpdaterImage v).
  - apply bool_decide_eq_false_2. cbn. rw /pullSecretsOf. intros [E Hp].
    destruct (rs_ImagePullSecrets _); [done|]. by rw bool_decide_eq_false_2 in E.
Qed.

Context {W : Type} `{!Kube W}.
Abbreviation TW := (W * list Call)%type.

Lemma run_updateRabbitmqCluster (s : Op TW) (Q : outcome ReconcileResult → Op TW → list Call → Prop) :
  (∀ s' n, (n < 5)%nat → Q (Returns Done) s'
     (replicate n (Updated KRabbitmqCluster (op_rmq s) false) ++ [Updated KRabbitmqCluster (op_rmq s) true])) →
  (∀ err s' n, (1 ≤ n ≤ 5)%nat → op_rmq s' = op_rmq s →
     Q (Returns (ErrorResult err)) s' (replicate n (Updated KRabbitmqCluster (op_rmq s) false))) →
  run updateRabbitmqCluster s Q.
Proof.
  intros Hok Herr. unfold updateRabbitmqCluster. apply run_seq.
  apply (run_OnErrorSteps _ _ _ _ _ (λ n last s' c, op_rmq s' = op_rmq s ∧
    c = replicate n (Updated KRabbitmqCluster (op_rmq s) false) ∧ (n = O ∨ is_Some last))).
  - split_and!; try done. by left.
  - intros n last s1 c1 Hn (Hs1 & -> & _). unfold DefaultRetrySteps in Hn. apply run_updateRmq; rw Hs1.
    + intros s2. apply run_ret. rw app_nil_r. by apply Hok.
    + intros err s2 Hs2. rw -replicate_S_end. destruct (errIsConflict err).
      * split_and!; [congruence|done|by right].
      * apply run_ret. rw app_nil_r. apply Herr; [lia|congruence].
  - intros last s1 c1 (Hs1 & -> & [|[err ->]]); [done|]. apply run_ret. rw app_nil_r.
    apply Herr; [unfold DefaultRetrySteps; lia|done].
Qed.

(** C28: the operator's defaults are the image where the cluster names none, the
    image of the user updater where its Vault backend names none, and the pull
    secrets where it has none and the operator has some; an operator told to
    control the images puts its own two in place of whatever is named; and
    nothing else of the cluster is changed.  If there is something to put in
    place, the cluster with all of it is sent, at most five times, and the step
    is done, not to be continued, when it is accepted; otherwise the
    reconciliation goes on without a call.  With a default image that is not
    empty there is nothing to put in place the next time, but an operator that
    controls the images always finds something: it sends an update in every
    reconciliation and never lets one go on. *)
Theorem reconcileOperatorDefaults_spec (s : Op TW) :
  let r := op_rmq s in
  (ControlRabbitmqImage d = false → DefaultRabbitmqImage d ≠ "" → replaces (defaulted r) = false) ∧
  (ControlRabbitmqImage d = true → replaces r = true) ∧
  run (reconcileOperatorDefaults d) s (λ out s' calls,
    let sent := Updated KRabbitmqCluster (defaulted r) in
    if replaces r
    then ∃ n, (n < 5)%nat ∧
         (out = Returns Done ∧ calls = replicate n (sent false) ++ [sent true] ∨
          (∃ err, out = Returns (ErrorResult err)) ∧ calls = replicate (S n) (sent false) ∧ op_rmq s' = defaulted r)
    else out = Returns Continue ∧ calls = [] ∧ op_rmq s' = r).
Proof.
  cbv zeta. set (r := op_rmq s). split_and!; [apply replaces_defaulted|by intros E; rw /replaces E|].
  unfold reconcileOperatorDefaults. step. fold r.
  pose proof (applyDefaults_none r) as Hnone. pose proof (applyDefaults_replaces r) as Hr.
  pose proof (applyDefaults_defaulted r) as Hd. destruct (applyDefaults d r) as [r' t]. cbn [fst snd] in *. subst r'.
  cbn beta iota. step. cbn [app]. rw Hr. destruct (replaces r); cbn [negb] in *.
  2: { apply run_ret. split_and!; [done|done|]. apply Hnone. by apply String.eqb_eq. }
  apply run_updateRabbitmqCluster; cbn [op_rmq].
  - intros s2 n Hn. exists n. split; [done|]. by left.
  - intros err s2 n Hn Hs2. exists (pred n). split; [lia|]. right. split; [by eexists|]. split; [|done].
    f_equal. lia.
Qed.
End defaults_lemmas.
