(* ===== verification/Deletion.v ===== *)
(** controllers/reconcile_finalizer.go: the finalizer of a cluster and what is
    done when the cluster is deleted: the pods are labelled, so that they may
    terminate at once, and the StatefulSets are deleted. *)

From S2P Require Import Prelude GoStd K8s V1beta1 Constant Metadata Kube Controllerutil Sts Trace.
From S2P Require Import Result ControllerUtils.

(** ** Definitions *)

Definition deletionFinalizer : string := "deletion.finalizers.rabbitmqclusters.rabbitmq.com".

(** [rmq.DeletionTimestamp.IsZero()], on a pointer. *)
Definition deletionIsZero (r : RabbitmqCluster) : bool :=
  match om_DeletionTimestamp (rmq_ObjectMeta r) with None => true | Some _ => false end.

Section deletion.
Context {W : Type} `{!Kube W}.

(** A change of the finalizers of the shared object, then its update. *)
Definition updateFinalizers (change : ObjectMeta → string → bool * ObjectMeta) : Run W ReconcileResult :=
  r ← rmq;
  let '(changed, m) := change (rmq_ObjectMeta r) deletionFinalizer in
  _ ← set_rmq (set_rmq_ObjectMeta m r);
  if negb changed then mret Continue else
  err ← updateRmq;
  mret (match err with None => Done | Some err => ErrorResult err end).

Definition addFinalizer : Run W ReconcileResult :=
  r ← rmq;
  if negb (deletionIsZero r) then mret Continue else updateFinalizers AddFinalizer.

Definition removeFinalizer : Run W ReconcileResult := updateFinalizers RemoveFinalizer.

(** [pod.Labels[resource.DeletionMarker] = "true"]. *)
Definition markPod (pod : Pod) : outcome Pod :=
  labels ← gm_insert DeletionMarker "true" (om_Labels (pod_ObjectMeta pod));
  Returns (set_pod_ObjectMeta (set_om_Labels labels (pod_ObjectMeta pod)) pod).

Fixpoint markPods (pods : list Pod) : Run W goerror :=
  match pods with
  | [] => mret None
  | pod :: pods =>
      pod ← lift (markPod pod);
      u ← update (k := KPod) pod;
      match IgnoreNotFound u.2 with
      | Some _ =>
          mret (WrapError ("cannot Update Pod " +:+ om_Name (pod_ObjectMeta u.1) +:+ " in Namespace "
                           +:+ om_Namespace (pod_ObjectMeta u.1) +:+ ": ") <$> u.2)
      | None => markPods pods
      end
  end.

(** The pods are listed by label in all namespaces. *)
Definition addRabbitmqDeletionLabel (sts : StatefulSet) : Run W goerror :=
  selector ← deref (stss_Selector (sts_Spec sts));
  pods ← ext (kList KPod None (gm (ls_MatchLabels selector)));
  match pods with
  | inl err =>
      mret (Some (WrapError ("list pods for sts " +:+ om_Name (sts_ObjectMeta sts) +:+ " failed: ") err))
  | inr pods => markPods pods
  end.

(** The closure of the retry loop. *)
Definition deleteOnce (sts : StatefulSet) : Run W goerror :=
  r ← rmq;
  match statefulSetUID sts r with
  | inl err => mret (Some err)
  | inr uid =>
      err ← addRabbitmqDeletionLabel sts;
      match err with
      | Some err => mret (Some err)
      | None =>
          err ← ext (kDelete KStatefulSet (Some uid) sts);
          mret (IgnoreNotFound err)
      end
  end.

(** An error is logged and dropped. *)
Fixpoint deleteStatefulSets (statefulsets : list StatefulSet) : Run W unit :=
  match statefulsets with
  | [] => mret tt
  | sts :: statefulsets =>
      _ ← RetryOnConflict (deleteOnce sts);
      deleteStatefulSets statefulsets
  end.

Definition reconcileDelete : Run W ReconcileResult :=
  r ← rmq;
  if deletionIsZero r then addFinalizer else
  sets ← statefulSets;
  match sets with
  | inl err => mret (ErrorResult (Errorf_v "list statefulsets failed: " err))
  | inr statefulsets =>
      _ ← deleteStatefulSets statefulsets;
      removeFinalizer
  end.
End deletion.

(** ** What a deletion does, call by call *)

(** The pod with the marker. *)
Definition marked (labels : gmap string string) (pod : Pod) : Pod :=
  set_pod_ObjectMeta (set_om_Labels (Some (<[DeletionMarker := "true"]> labels)) (pod_ObjectMeta pod)) pod.

(** The update that labels a pod. *)
Definition marks (pod : Pod) (c : Call) : Prop :=
  ∃ labels done, om_Labels (pod_ObjectMeta pod) = Some labels ∧ c = Updated KPod (marked labels pod) done.

Section relations.
Context {W : Type} `{!Kube W}.
Implicit Types (w : W).

(** From one world to another, all pods have been labelled in order, each by one
    update that was carried out, or refused because the pod is gone. *)
Inductive labelled : W → list Pod → list Call → W → Prop :=
  | labelled_nil w : labelled w [] [] w
  | labelled_pod w pod labels answer w1 pods calls w2 :
      om_Labels (pod_ObjectMeta pod) = Some labels →
      kUpdate KPod (marked labels pod) w = (answer, w1) →
      IgnoreNotFound (errorOf answer) = None →
      labelled w1 pods calls w2 →
      labelled w (pod :: pods) (Updated KPod (marked labels pod) (carriedOut answer) :: calls) w2.

(** The first pod that is neither labelled nor gone ends it. *)
Inductive unlabelled w (pods : list Pod) : outcome goerror → list Call → W → Prop :=
  | unlabelled_nil before pod after calls w1 :
      pods = before ++ pod :: after → labelled w before calls w1 →
      om_Labels (pod_ObjectMeta pod) = None →
      unlabelled w pods (Panics "assignment to entry in nil map") calls w1
  | unlabelled_refused before pod after labels err calls w1 w2 :
      pods = before ++ pod :: after → labelled w before calls w1 →
      om_Labels (pod_ObjectMeta pod) = Some labels →
      kUpdate KPod (marked labels pod) w1 = (inl err, w2) → errIsNotFound err = false →
      unlabelled w pods
        (Returns (Some (WrapError ("cannot Update Pod " +:+ om_Name (pod_ObjectMeta pod) +:+ " in Namespace "
                                   +:+ om_Namespace (pod_ObjectMeta pod) +:+ ": ") err)))
        (calls ++ [Updated KPod (marked labels pod) false]) w2.

(** An attempt to delete a StatefulSet that is the cluster's own. *)
Definition deletesOwn (sts : StatefulSet) w (out : outcome goerror) (calls : list Call) (w' : W) : Prop :=
  match stss_Selector (sts_Spec sts) with
  | None => out = Panics "invalid memory address or nil pointer dereference" ∧ calls = [] ∧ w' = w
  | Some selector =>
      let '(got, w1) := kList KPod None (gm (ls_MatchLabels selector)) w in
      match got with
      | inl err => calls = [] ∧ w' = w1 ∧
          out = Returns (Some (WrapError ("list pods for sts " +:+ om_Name (sts_ObjectMeta sts) +:+ " failed: ") err))
      | inr pods =>
          unlabelled w1 pods out calls w' ∨
          ∃ ms w2, labelled w1 pods ms w2 ∧
            let uid := om_UID (sts_ObjectMeta sts) in
            let '(err, w3) := kDelete KStatefulSet (Some uid) sts w2 in
            calls = ms ++ [Deleted KStatefulSet (Some uid) sts] ∧
            out = Returns (IgnoreNotFound err) ∧ w' = w3
      end
  end.

Definition deletes (r : RabbitmqCluster) (sts : StatefulSet) w (out : outcome goerror) (calls : list Call) (w' : W) : Prop :=
  match statefulSetUID sts r with
  | inl err => out = Returns (Some err) ∧ calls = [] ∧ w' = w
  | inr _ => deletesOwn sts w out calls w'
  end.

(** The StatefulSets one after the other, each with its retries; whatever error
    remains is dropped, but a panic ends it. *)
Inductive deletesAll (r : RabbitmqCluster) : W → list StatefulSet → outcome unit → list Call → W → Prop :=
  | deletesAll_nil w : deletesAll r w [] (Returns tt) [] w
  | deletesAll_next w sts stss err c1 w1 out c2 w2 :
      attempts errIsConflict (deletes r sts) 5 w (Returns err) c1 w1 → deletesAll r w1 stss out c2 w2 →
      deletesAll r w (sts :: stss) out (c1 ++ c2) w2
  | deletesAll_panic w sts stss msg c1 w1 :
      attempts errIsConflict (deletes r sts) 5 w (Panics msg) c1 w1 →
      deletesAll r w (sts :: stss) (Panics msg) c1 w1.

(** One update of the cluster, and the answer of the step. *)
Definition updatesCluster (r : RabbitmqCluster) w (out : outcome ReconcileResult) (r' : RabbitmqCluster)
    (calls : list Call) : Prop :=
  let answer := (kUpdate KRabbitmqCluster r w).1 in
  calls = [Updated KRabbitmqCluster r (carriedOut answer)] ∧
  match answer with
  | inl err => out = Returns (ErrorResult err) ∧ r' = r
  | inr stored => out = Returns Done ∧ r' = stored
  end.
End relations.

(** The cluster with other finalizers and nothing else changed. *)
Definition set_finalizers (fs : list string) (r : RabbitmqCluster) : RabbitmqCluster :=
  set_rmq_ObjectMeta (set_om_Finalizers fs (rmq_ObjectMeta r)) r.

(** ** Lemmas *)

Section deletion_lemmas.
Context {W : Type} `{!Kube W}.
Abbreviation TW := (W * list Call)%type.
Implicit Types (s : Op TW) (w : W).

Lemma labelled_unlabelled w pod labels answer w1 pods out calls w2 :
  om_Labels (pod_ObjectMeta pod) = Some labels → kUpdate KPod (marked labels pod) w = (answer, w1) →
  IgnoreNotFound (errorOf answer) = None → unlabelled w1 pods out calls w2 →
  unlabelled w (pod :: pods) out (Updated KPod (marked labels pod) (carriedOut answer) :: calls) w2.
Proof.
  intros Hl Hu Ha. destruct 1 as [before p after calls w2 -> Hb Hp|before p after ls err calls w2 w3 -> Hb Hp Hq He].
  - apply (unlabelled_nil _ _ (pod :: before) p after); [done|by econstructor|done].
  - by eapply (unlabelled_refused _ _ (pod :: before) p after ls err (_ :: calls)); [|by econstructor|..].
Qed.

Lemma run_markPods pods s :
  run (markPods pods) s (λ out s' calls, op_rmq s' = op_rmq s ∧
    (unlabelled (world s) pods out calls (world s') ∨
     out = Returns None ∧ labelled (world s) pods calls (world s'))).
Proof.
  revert s. induction pods as [|pod pods IH]; intros s; cbn [markPods].
  { apply run_ret. split; [done|]. right. split; [done|constructor]. }
  apply run_seq, run_lift. unfold markPod, gm_insert.
  destruct (om_Labels (pod_ObjectMeta pod)) as [labels|] eqn:El.
  2: { cbn. split; [done|]. left. by apply (unlabelled_nil _ _ [] pod pods); [|constructor|]. }
  cbn beta iota zeta delta [mbind outcome_bind]. cbn [app]. fold (marked labels pod).
  apply run_seq, (run_update_at (k := KPod)). intros s1 Hs1 Hw1.
  destruct (kUpdate KPod (marked labels pod) (world s)) as [answer w1] eqn:Eu. cbn [fst snd] in *. subst w1.
  assert (IgnoreNotFound (errorOf answer) = None →
    run (markPods pods) s1 (λ out s' calls, op_rmq s' = op_rmq s ∧
      (unlabelled (world s) (pod :: pods) out (Updated KPod (marked labels pod) (carriedOut answer) :: calls) (world s') ∨
       out = Returns None ∧
       labelled (world s) (pod :: pods) (Updated KPod (marked labels pod) (carriedOut answer) :: calls) (world s')))) as Hnext.
  { intros Ha. eapply run_mono; [apply IH|]. intros out s2 c [Hs2 Hc]. split; [congruence|].
    destruct Hc as [Hc|[-> Hc]]; [left; by eapply labelled_unlabelled|right; split; [done|by econstructor]]. }
  destruct answer as [err|pod']; cbn [fst snd errorOf] in *; [|by apply Hnext].
  destruct (IgnoreNotFound (Some err)) as [e|] eqn:Ei; [|by apply Hnext].
  apply run_ret. split; [done|]. left. unfold IgnoreNotFound, IsNotFound in Ei.
  destruct (errIsNotFound err) eqn:En; [done|]. rw app_nil_r.
  by apply (unlabelled_refused _ _ [] pod pods labels err [] (world s)); [|constructor|..].
Qed.

Lemma run_deleteOnce sts s :
  run (deleteOnce sts) s (λ out s' calls, op_rmq s' = op_rmq s ∧
    deletes (op_rmq s) sts (world s) out calls (world s')).
Proof.
  unfold deleteOnce, deletes, deletesOwn. step.
  destruct (statefulSetUID sts (op_rmq s)) as [err|uid] eqn:Eu; [by apply run_ret|].
  assert (uid = om_UID (sts_ObjectMeta sts)) as ->.
  { unfold statefulSetUID in Eu. destruct (GetControllerOf _); [|done].
    destruct (negb _); [done|]. by injection Eu. }
  unfold addRabbitmqDeletionLabel. apply run_seq, run_seq.
  destruct (stss_Selector (sts_Spec sts)) as [selector|]; [|by apply run_panic].
  apply run_ret. cbn beta iota. apply run_seq, run_ask. intros s1 Hs1 Hw1.
  destruct (kList KPod None (gm (ls_MatchLabels selector)) (world s)) as [got w1]. cbn [fst snd] in *. subst w1.
  cbn beta iota. destruct got as [err|pods].
  { apply run_ret. cbn beta iota. by apply run_ret. }
  eapply run_mono; [apply run_markPods|]. intros out s2 ms [Hs2 Hms]. cbn [app].
  destruct Hms as [Hms|[-> Hms]].
  - assert (∀ e, out = Returns e → is_Some e) as Hsome by (intros e ->; by inversion Hms).
    destruct out as [[err|]|msg]; [apply run_ret; rw app_nil_r|by destruct (Hsome _ eq_refl)|];
      (split; [congruence|]); by left.
  - apply run_seq, run_tell. intros s3 Hs3 Hw3. cbn beta iota. apply run_ret. rw app_nil_r.
    split; [congruence|]. right. exists ms, (world s2). split; [done|].
    destruct (kDelete KStatefulSet _ sts (world s2)) as [err w3]. by rw Hw3.
Qed.

Lemma run_deleteStatefulSets stss s :
  run (deleteStatefulSets stss) s (λ out s' calls, op_rmq s' = op_rmq s ∧
    deletesAll (op_rmq s) (world s) stss out calls (world s')).
Proof.
  revert s. induction stss as [|sts stss IH]; intros s; cbn [deleteStatefulSets].
  { apply run_ret. split; [done|constructor]. }
  apply run_seq. eapply run_mono.
  { apply (run_again errIsConflict (deletes (op_rmq s) sts) world (λ s', op_rmq s' = op_rmq s)); [|done].
    intros s1 Hs1. eapply run_mono; [apply run_deleteOnce|]. rw Hs1. done. }
  intros out s1 c1 [Hs1 H1]. destruct out as [err|msg]; [|split; [done|by constructor]].
  eapply run_mono; [apply IH|]. rw Hs1. intros out s2 c2 [Hs2 H2]. split; [done|]. by econstructor.
Qed.

(** The finalizer steps: one update if something changes, and a result that
    ends the reconciliation. *)
Lemma run_updateFinalizers change s :
  let '(changed, m) := change (rmq_ObjectMeta (op_rmq s)) deletionFinalizer in
  let r' := set_rmq_ObjectMeta m (op_rmq s) in
  run (updateFinalizers change) s (λ out s' calls,
    if (changed : bool) then updatesCluster r' (world s) out (op_rmq s') calls
    else out = Returns Continue ∧ calls = [] ∧ op_rmq s' = r').
Proof.
  unfold updateFinalizers. destruct (change _ _) as [changed m] eqn:E. apply run_seq, run_rmq. rw E.
  cbn beta iota. step. cbn [app]. destruct changed; cbn [negb]; [|by apply run_ret].
  apply run_seq, run_updateRmq_at. intros s1 Hw1 Hs1. cbn beta iota. apply run_ret. rw app_nil_r.
  unfold updatesCluster. change (world (mkOp _ _)) with (world s) in *. cbn [op_rmq] in *.
  split; [done|]. by destruct (kUpdate _ _ _).1.
Qed.
End deletion_lemmas.

(** ** Properties *)

Section deletion_properties.
Context {W : Type} `{!Kube W}.
Abbreviation TW := (W * list Call)%type.
Implicit Types (s : Op TW).

(** C17: an attempt to delete a StatefulSet does nothing at all unless the
    cluster's UID is that of its controller.  Otherwise it lists the pods of its
    selector and labels them in order, so that their pre-stop hooks let them go;
    the first update that is refused for another reason than that the pod is
    gone ends the attempt with that error, and a pod without labels with a
    panic, and nothing is deleted then.  Only when every listed pod is labelled
    or gone the StatefulSet is deleted, with its UID as a precondition, and the
    attempt answers what the server says, except that it is not found. *)
Theorem deleteOnce_spec sts s :
  run (deleteOnce sts) s (λ out s' calls, op_rmq s' = op_rmq s ∧
    match GetControllerOf (sts_ObjectMeta sts) with
    | Some ref =>
        if bool_decide (or_UID ref = om_UID (rmq_ObjectMeta (op_rmq s)))
        then deletesOwn sts (world s) out calls (world s')
        else (∃ err, out = Returns (Some err)) ∧ calls = []
    | None => (∃ err, out = Returns (Some err)) ∧ calls = []
    end).
Proof.
  eapply run_mono; [apply run_deleteOnce|]. intros out s' calls [Hs Hdel]. split; [done|].
  unfold deletes, statefulSetUID in Hdel. destruct (GetControllerOf _) as [ref|].
  2: { destruct Hdel as (-> & -> & _). split; [by eexists|done]. }
  destruct (String.eqb_spec (om_UID (rmq_ObjectMeta (op_rmq s))) (or_UID ref)) as [E|E]; cbn [negb] in Hdel.
  - by rw bool_decide_eq_true_2 //.
  - rw bool_decide_eq_false_2; [congruence|]. destruct Hdel as (-> & -> & _). split; [by eexists|done].
Qed.

(** C16: a cluster that is not being deleted gets the finalizer if it is
    missing, by one update of nothing but its finalizers, which ends the
    reconciliation, and keeps going otherwise.  For one that is being deleted
    every listed StatefulSet, in order, is given up to five attempts to label
    its pods and to delete it, another one only after a conflict, and whatever
    error remains is dropped; after the last of them, unless one panicked, the
    finalizer is taken off by one update of nothing but the finalizers, made in
    the state of the server they left.  A cluster that has no finalizer of the
    operator any more goes on as if it were alive. *)
Theorem reconcileDelete_spec s :
  let r := op_rmq s in
  let fs := om_Finalizers (rmq_ObjectMeta r) in
  let finalized := bool_decide (deletionFinalizer ∈ fs) in
  run reconcileDelete s (λ out s' calls,
    if deletionIsZero r then
      if finalized then out = Returns Continue ∧ calls = [] ∧ op_rmq s' = r
      else updatesCluster (set_finalizers (fs ++ [deletionFinalizer]) r) (world s) out (op_rmq s') calls
    else match listed s with
      | inl err => out = Returns (ErrorResult (Errorf_v "list statefulsets failed: " err)) ∧ calls = []
      | inr stss => ∃ deleted del w1, deletesAll r (afterList s) stss deleted del w1 ∧
          match deleted with
          | Panics msg => out = Panics msg ∧ calls = del
          | Returns _ =>
              if finalized then ∃ fin, calls = del ++ fin ∧
                updatesCluster (set_finalizers (filter (λ f, f ≠ deletionFinalizer) fs) r) w1 out (op_rmq s') fin
              else out = Returns Continue ∧ calls = del ∧ op_rmq s' = r
          end
      end).
Proof.
  cbv zeta. unfold reconcileDelete. step. destruct (deletionIsZero (op_rmq s)) eqn:Ez.
  - unfold addFinalizer. step. rw Ez. cbn [negb].
    pose proof (run_updateFinalizers AddFinalizer s) as Hu. unfold AddFinalizer in Hu.
    case_bool_decide as Hf; (eapply run_mono; [exact Hu|]); intros out s' calls; [|done].
    intros (-> & -> & ->). split_and!; [done|done|]. by destruct (op_rmq s).
  - apply run_seq, run_statefulSets_at. intros s1 Hs1 Hw1. cbn beta iota. destruct (listed s) as [err|stss].
    { by apply run_ret. }
    apply run_seq. eapply run_mono; [by apply (run_deleteStatefulSets stss)|].
    rw Hs1 Hw1. intros out s2 del [Hs2 Hdel]. cbn [app]. destruct out as [[]|msg].
    2: { exists (Panics msg), del, (world s2). split_and!; done. }
    unfold removeFinalizer. pose proof (run_updateFinalizers RemoveFinalizer s2) as Hu. rw Hs2 in Hu.
    pose proof (Finalizer_remove (rmq_ObjectMeta (op_rmq s)) deletionFinalizer) as (Hr1 & _ & Hr3).
    unfold RemoveFinalizer in *. cbn [fst snd] in *. rw Hr1 in Hu Hr3.
    eapply run_mono; [exact Hu|]. intros out s3 fin Hfin. exists (Returns tt), del, (world s2). split; [done|].
    case_bool_decide as Hf; [by exists fin|].
    destruct Hfin as (-> & -> & ->). rw app_nil_r Hr3 //. split_and!; [done|done|]. by destruct (op_rmq s).
Qed.
End deletion_properties.
