(* ===== verification/Cli.v ===== *)
(** controllers/reconcile_cli.go: the commands the operator runs in the pods
    once all replicas are up. *)

From S2P Require Import Prelude GoStd K8s V1beta1 Constant Metadata Kube Plugins Trace Result.
From S2P Require Import Status ControllerUtils Configurations.

(** ** Definitions *)

Section cli.
Context {W : Type} `{!Kube W}.

(** Run a command in the RabbitMQ container of a pod; a failure is recorded and
    wrapped. *)
Definition execOrFail (pod msg cmd : string) : Run W goerror :=
  r ← rmq;
  x ← exec (rmq_Namespace r) pod ContainerNameRabbitMQ ["sh"; "-c"; cmd];
  match snd x with
  | None => mret None
  | Some err =>
      _ ← event "Warning" "FailedReconcile" (msg +:+ " " +:+ pod);
      mret (Some (WrapError (msg +:+ " " +:+ pod +:+ ": ") err))
  end.

Fixpoint setPluginsLoop (r : RabbitmqCluster) (ords : list Z) : Run W goerror :=
  match ords with
  | [] => mret None
  | i :: ords =>
      let plugins := NewRabbitmqPlugins (rcs_AdditionalPlugins (rs_Rabbitmq (rmq_Spec r))) in
      err ← execOrFail (PodName r ResourceStatefulsetSuffix i) "failed to set plugins on pod"
              ("rabbitmq-plugins set " +:+ AsString plugins " ");
      match err with
      | Some err => mret (Some err)
      | None => setPluginsLoop r ords
      end
  end.

Definition runSetPluginsCommand : Run W goerror :=
  r ← rmq;
  replicas ← deref (rs_Replicas (rmq_Spec r));
  setPluginsLoop r (seqZ 0 replicas).

Definition runQueueRebalanceCommand : Run W goerror :=
  r ← rmq;
  execOrFail (PodName r ResourceStatefulsetSuffix 0) "failed to run queue rebalance on pod"
    "rabbitmq-queues rebalance all".

Definition runEnableFeatureFlagsCommand : Run W goerror :=
  r ← rmq;
  execOrFail (PodName r ResourceStatefulsetSuffix 0) "failed to enable all feature flags on pod"
    "rabbitmqctl enable_feature_flag all".

(** [if err = m; err != nil { return result.Error(fmt.Errorf("what failed: %v", err)) }; k]. *)
Definition orFail (what : string) (m : Run W goerror) (k : Run W ReconcileResult) : Run W ReconcileResult :=
  err ← m;
  match err with
  | Some err => mret (ErrorResult (Errorf_v (what +:+ " failed: ") err))
  | None => k
  end.

(** The loop over the StatefulSets. *)
Fixpoint enableFeatureFlags (statefulsets : list StatefulSet) (k : Run W ReconcileResult) : Run W ReconcileResult :=
  match statefulsets with
  | [] => k
  | sts :: statefulsets =>
      if statefulsetCreated sts then
        orFail "runEnableFeatureFlagsCommand" runEnableFeatureFlagsCommand
          (orFail "removeStatefulsetCreatedFlag" (removeStatefulsetCreatedFlag sts)
             (enableFeatureFlags statefulsets k))
      else enableFeatureFlags statefulsets k
  end.

(** The last step. *)
Definition rebalanceIfNeeded : Run W ReconcileResult :=
  r ← rmq;
  if needQueueRebalance r then
    orFail "runQueueRebalanceCommand" runQueueRebalanceCommand
      (orFail "removeQueueRebalanceFlag" removeQueueRebalanceFlag (mret Continue))
  else mret Continue.

Definition setPluginsIfNeeded (cm : ConfigMap) (k : Run W ReconcileResult) : Run W ReconcileResult :=
  if negb (pluginsConfigUpdated cm) then k else
  now ← ext kNow;
  if pluginsConfigUpdatedRecently now cm then mret (RequeueSoon (2 * Second)) else
  orFail "runSetPluginsCommand" runSetPluginsCommand
    (orFail "removePluginsConfigUpdatedFlag" (removePluginsConfigUpdatedFlag cm) k).

Definition reconcileRabbitmqCLI : Run W ReconcileResult :=
  sets ← statefulSets;
  match sets with
  | inl err => mret (ErrorResult err)
  | inr statefulsets =>
      ready ← lift (allReplicasReadyAndUpdated statefulsets);
      let notReady := mret (RequeueSoon (15 * Second)) in
      if negb ready then notReady else
      r ← rmq;
      replicas ← deref (rs_Replicas (rmq_Spec r));
      if negb (Z.of_nat (length statefulsets) =? replicas)%Z then notReady else
      cm ← configMapPlugins;
      match cm with
      | inl err => mret (ErrorResult (Errorf_v "get plugin configmap failed: " err))
      | inr cm => setPluginsIfNeeded cm (enableFeatureFlags statefulsets rebalanceIfNeeded)
      end
  end.
End cli.

(** ** The script of the commands *)

Definition podExec (r : RabbitmqCluster) (i : Z) (cmd : string) : Call :=
  Exec (rmq_Namespace r) (PodName r ResourceStatefulsetSuffix i) ContainerNameRabbitMQ ["sh"; "-c"; cmd].

Definition setPluginsCmd (r : RabbitmqCluster) : string :=
  "rabbitmq-plugins set " +:+
  AsString (NewRabbitmqPlugins (rcs_AdditionalPlugins (rs_Rabbitmq (rmq_Spec r)))) " ".

(** The update that removes an annotation. *)
Definition unflag {k} (o : Obj k) (annotation : string) : Call :=
  Updated k (set_annotations (gm_delete annotation (annotations o)) o) true.

Definition pluginsScript (r : RabbitmqCluster) (replicas : Z) : list Call :=
  (λ i, podExec r i (setPluginsCmd r)) <$> seqZ 0 replicas.

Definition featureFlagsScript (r : RabbitmqCluster) (stss : list StatefulSet) : list Call :=
  stss ≫= λ sts, if statefulsetCreated sts
    then [podExec r 0 "rabbitmqctl enable_feature_flag all";
          unflag (k := KStatefulSet) sts stsCreateAnnotation]
    else [].

(** Everything that is called when nothing fails. *)
Definition cliScript (r : RabbitmqCluster) (replicas : Z) (cm : ConfigMap) (stss : list StatefulSet) : list Call :=
  (if pluginsConfigUpdated cm
   then pluginsScript r replicas ++ [unflag (k := KConfigMap) cm pluginsUpdateAnnotation] else []) ++
  featureFlagsScript r stss ++
  (if needQueueRebalance r
   then [podExec r 0 "rabbitmq-queues rebalance all"; unflag (k := KRabbitmqCluster) r queueRebalanceAnnotation]
   else []).

(** ** Lemmas *)

(** The call, whether or not it was carried out. *)
Definition asked (c : Call) : Call :=
  match c with
  | Created k o _ => Created k o true
  | Updated k o _ => Updated k o true
  | c => c
  end.

(** The calls of a script that broke off: a part of it from the start, and an
    event if it was a command that failed. *)
Definition brokenOff (script calls : list Call) : Prop :=
  ∃ asked_ rest ev, script = asked_ ++ rest ∧ asked <$> calls = asked_ ++ ev ∧
  (ev = [] ∨ ∃ msg, ev = [Event "Warning" "FailedReconcile" msg]).

Section cli_lemmas.
Context {W : Type} `{!Kube W} (r : RabbitmqCluster).
Abbreviation TW := (W * list Call)%type.
Implicit Types (s : Op TW).

(** A computation that follows a script: to its end and without an error, or
    it breaks off with one. *)
Definition follows (script : list Call) (m : Run TW goerror) : Prop :=
  ∀ s, op_rmq s = r → run m s (λ out s' calls,
    out = Returns None ∧ op_rmq s' = r ∧ calls = script ∨
    ∃ err, out = Returns (Some err) ∧ brokenOff script calls).

Definition concludes (script : list Call) (m : Run TW ReconcileResult) : Prop :=
  ∀ s, op_rmq s = r → run m s (λ out s' calls,
    out = Returns Continue ∧ calls = script ∨
    ∃ err, out = Returns (ErrorResult err) ∧ brokenOff script calls).

Definition goodScript (script : list Call) : Prop := asked <$> script = script.

Lemma brokenOff_app script calls rest : brokenOff script calls → brokenOff (script ++ rest) calls.
Proof.
  intros (a & b & ev & -> & Hc & He). exists a, (b ++ rest), ev. by rw app_assoc.
Qed.

Lemma brokenOff_after done_ script calls :
  goodScript done_ → brokenOff script calls → brokenOff (done_ ++ script) (done_ ++ calls).
Proof.
  intros Hd (a & b & ev & -> & Hc & He). exists (done_ ++ a), b, ev. split_and!; [by rw app_assoc| |done].
  rw fmap_app Hd Hc app_assoc //.
Qed.

Lemma follows_nil : follows [] (mret None).
Proof. intros s Hs. apply run_ret. by left. Qed.

(** First one script, then another, as the loops and the steps chain them. *)
Lemma follows_bind script1 script2 m1 m2 :
  goodScript script1 → follows script1 m1 → follows script2 m2 →
  follows (script1 ++ script2)
    (err ← m1; match err with Some err => mret (Some err) | None => m2 end).
Proof.
  intros Hg H1 H2 s Hs. apply run_seq. eapply run_mono; [by apply H1|].
  intros out s1 calls [(-> & Hs1 & ->)|(err & -> & Hb)].
  - eapply run_mono; [by apply H2|]. intros out s2 c2 [(-> & Hs2 & ->)|(err & -> & Hb)]; [by left|].
    right. exists err. split; [done|]. by apply brokenOff_after.
  - apply run_ret. rw app_nil_r. right. exists err. split; [done|]. by apply brokenOff_app.
Qed.

Lemma concludes_orFail what script1 script2 m k :
  goodScript script1 → follows script1 m → concludes script2 k →
  concludes (script1 ++ script2) (orFail what m k).
Proof.
  intros Hg H1 H2 s Hs. unfold orFail. apply run_seq. eapply run_mono; [by apply H1|].
  intros out s1 calls [(-> & Hs1 & ->)|(err & -> & Hb)].
  - eapply run_mono; [by apply H2|]. intros out s2 c2 [(-> & ->)|(err & -> & Hb)]; [by left|].
    right. exists err. split; [done|]. by apply brokenOff_after.
  - apply run_ret. rw app_nil_r. right. eexists. split; [done|]. by apply brokenOff_app.
Qed.

Lemma follows_exec i msg cmd :
  follows [podExec r i cmd] (execOrFail (PodName r ResourceStatefulsetSuffix i) msg cmd).
Proof.
  intros s Hs. unfold execOrFail, exec. step. rw Hs. step. fold (podExec r i cmd).
  destruct (snd a) as [err|]; [|apply run_ret; left; split_and!; [done|congruence|done]].
  apply run_seq, run_event. intros s2 Hs2. cbn beta iota. apply run_ret. right. eexists. split; [done|].
  exists [podExec r i cmd], []. eexists. split; [done|]. split; [done|]. right. by eexists.
Qed.

Lemma follows_rmq (f : RabbitmqCluster → Run TW goerror) script :
  follows script (f r) → follows script (r' ← rmq; f r').
Proof. intros Hf s Hs. apply run_seq, run_rmq. rw Hs. by apply Hf. Qed.

Lemma follows_setPlugins ords :
  follows ((λ i, podExec r i (setPluginsCmd r)) <$> ords) (setPluginsLoop r ords).
Proof.
  induction ords as [|i ords IH]; [apply follows_nil|].
  apply (follows_bind [podExec r i (setPluginsCmd r)]); [done|apply follows_exec|exact IH].
Qed.

Lemma follows_runSetPlugins replicas :
  rs_Replicas (rmq_Spec r) = Some replicas → follows (pluginsScript r replicas) runSetPluginsCommand.
Proof.
  intros Hr. apply follows_rmq. rw Hr. intros s Hs. apply run_seq, run_ret.
  by apply follows_setPlugins.
Qed.

(** Removing a flag that is there. *)
Lemma follows_unflag {k} (o : Obj k) annotation :
  is_Some (annotations o) →
  follows [unflag o annotation] (u ← deleteAnnotation o annotation; mret u.2).
Proof.
  intros [a Ha] s Hs. unfold deleteAnnotation, unflag. rw Ha. apply run_seq, run_update.
  - intros o' s' Hs'. apply run_ret. left. split_and!; [done|congruence|done].
  - intros err s' Hs'. apply run_ret. right. exists err. split; [done|]. eexists [_], [], [].
    split; [done|]. split; [done|by left].
Qed.

Lemma hasFlag_annotations k (o : Obj k) key : hasFlag o key = true → is_Some (annotations o).
Proof. unfold hasFlag. destruct (annotations o); [by eexists|done]. Qed.

Lemma concludes_rebalance :
  concludes (if needQueueRebalance r
             then [podExec r 0 "rabbitmq-queues rebalance all";
                   unflag (k := KRabbitmqCluster) r queueRebalanceAnnotation] else []) rebalanceIfNeeded.
Proof.
  intros s Hs. unfold rebalanceIfNeeded. apply run_seq, run_rmq. rw Hs.
  destruct (needQueueRebalance r) eqn:En; [|by apply run_ret; left].
  revert s Hs. apply (concludes_orFail _ [podExec r 0 "rabbitmq-queues rebalance all"]); [done| |].
  { apply follows_rmq, follows_exec. }
  apply hasFlag_annotations in En as [a Ha].
  intros s Hs. unfold orFail, removeQueueRebalanceFlag, deleteAnnotation, unflag.
  apply run_seq, run_seq, run_rmq. rw Hs Ha. cbn beta iota. apply run_seq, (run_update (k := KRabbitmqCluster)).
  - intros o' s' Hs'. step. step. cbn beta iota. apply run_ret. by left.
  - intros err s' Hs'. step. step. cbn beta iota. apply run_ret. right. eexists. split; [done|].
    eexists [_], [], []. split; [done|]. split; [done|by left].
Qed.

Lemma goodScript_exec ords cmd : goodScript ((λ i, podExec r i cmd) <$> ords).
Proof. unfold goodScript. rw -list_fmap_compose. done. Qed.

Lemma concludes_featureFlags stss script k :
  concludes script k → concludes (featureFlagsScript r stss ++ script) (enableFeatureFlags stss k).
Proof.
  intros Hk. induction stss as [|sts stss IH]; [done|].
  unfold featureFlagsScript. cbn [enableFeatureFlags]. rw bind_cons -app_assoc.
  destruct (statefulsetCreated sts) eqn:Es; [|exact IH].
  apply (concludes_orFail _ [podExec r 0 "rabbitmqctl enable_feature_flag all"]); [done| |].
  { apply follows_rmq, follows_exec. }
  apply (concludes_orFail _ [unflag (k := KStatefulSet) sts stsCreateAnnotation]); [done| |exact IH].
  apply (follows_unflag (k := KStatefulSet)). by eapply hasFlag_annotations.
Qed.
End cli_lemmas.

(** ** Properties *)

Section cli_properties.
Context {W : Type} `{!Kube W}.
Abbreviation TW := (W * list Call)%type.
Implicit Types (s : Op TW).

(** Setting the plugins runs one and the same command in the pods of all
    replicas in order, and stops at the first that fails: the pods after it are
    not touched, one event names the failure, and the error is returned. *)
Theorem runSetPluginsCommand_spec s replicas :
  rs_Replicas (rmq_Spec (op_rmq s)) = Some replicas →
  run runSetPluginsCommand s (λ out s' calls,
    let script := pluginsScript (op_rmq s) replicas in
    out = Returns None ∧ calls = script ∨
    ∃ err, out = Returns (Some err) ∧ brokenOff script calls).
Proof.
  intros Hr. eapply run_mono; [by apply (follows_runSetPlugins (op_rmq s) replicas)|].
  intros out s' calls. naive_solver.
Qed.

(** What the client finds under the name of the plugins ConfigMap, after the
    StatefulSets were listed, and the time after that. *)
Definition pluginsGet (s : Op TW) : result ConfigMap * W :=
  kGet (W := W) KConfigMap (mkNamespacedName (rmq_Namespace (op_rmq s))
     (ChildResourceName (op_rmq s) ResourcePluginConfigMapSuffix)) (afterList s).
Definition pluginsRead (s : Op TW) : result ConfigMap := (pluginsGet s).1.
Definition pluginsTime (s : Op TW) := (kNow (pluginsGet s).2).1.

End cli_properties.
