(* ===== verification/Reconcile.v ===== *)
(** controllers/rabbitmqcluster_controller.go: one reconciliation, the steps in
    their order and the deferred update of the status. *)

From S2P Require Import Prelude GoStd K8s V1beta1 Constant Kube Controllerutil Trace Result Status.
From S2P Require Import ControllerUtils Configurations Resources Steps Deletion Cli.

(** ** Definitions *)

Section reconcile.
Context {W : Type} `{!Kube W, !Library} (d : Defaults).

Abbreviation Answer := (CtrlResult * goerror)%type.

(** [if res = step; res.Completed() { return res.Output() }]. *)
Definition andThen (step : Run W ReconcileResult) (k : Run W Answer) : Run W Answer :=
  res ← step;
  if Completed res then lift (Output res) else k.

(** The last step, whose error is written into the status. *)
Definition lastStep (k : Run W Answer) : Run W Answer :=
  res ← reconcileRabbitmqCLI;
  if Completed res then
    _ ← (if IsError res
         then match GetError res with
              | Some err => setCondition ReconcileSuccess ConditionFalse "FailedCLICommand" [Error err]
              | None => panic "invalid memory address or nil pointer dereference"
              end
         else mret tt);
    lift (Output res)
  else k.

Definition setObservedGeneration (r : RabbitmqCluster) : RabbitmqCluster :=
  set_rmq_Status (set_rst_ObservedGeneration (om_Generation (rmq_ObjectMeta r)) (rmq_Status r)) r.

Definition finish : Run W Answer :=
  _ ← mod_rmq setObservedGeneration;
  _ ← setCondition ReconcileSuccess ConditionTrue "Success" ["Finish reconciling"];
  mret (mkCtrlResult false 0, None).

Definition steps : Run W Answer :=
  andThen reconcileDelete
  (andThen reconcilePaused
  (andThen (reconcileOperatorDefaults d)
  (andThen reconcileStatusConditions
  (andThen reconcileTLS
  (andThen reconcileQueueRebalanced
  (andThen reconcileScaleDown
  (andThen reconcileResources
  (andThen restartStatefulSetIfNeeded
  (andThen reconcileStatus
  (lastStep finish)))))))))).

(** The deferred function; its error is logged. *)
Definition deferredOnce (before : RabbitmqClusterStatus) : Run W goerror :=
  r ← rmq;
  if bool_decide (before = rmq_Status r) then mret None else statusUpdateRmq.

Definition deferred (before : RabbitmqClusterStatus) : Run W unit :=
  _ ← RetryOnConflict (deferredOnce before);
  mret tt.

(** A body with a deferred function, which runs after a panic too. *)
Definition withDefer {A} (body : Run W A) (d : Run W unit) : Run W A := λ s,
  let '(o, s) := body s in
  let '(od, s) := d s in
  (match od with Returns _ => o | Panics e => Panics e end, s).

Definition reconcileFound : Run W Answer :=
  r ← rmq;
  withDefer steps (deferred (rmq_Status r)).

(** [Reconcile(ctx, req)]: the answer and the world afterwards. *)
Definition Reconcile (req : NamespacedName) : W → outcome Answer * W := λ w,
  let '(got, w) := kGet KRabbitmqCluster req w in
  match got with
  | inl err => (Returns (mkCtrlResult false 0, if errIsNotFound err then None else Some err), w)
  | inr r => let '(o, s) := reconcileFound (mkOp r w) in (o, op_world s)
  end.
End reconcile.

(** ** Lemmas *)

Section reconcile_lemmas.
Context {W : Type} `{!Kube W, !Library} (d : Defaults).

(** An answer that makes the controller runtime call again. *)
Definition comesBack (a : CtrlResult * goerror) : Prop := res_Requeue a.1 = true ∨ a.2 ≠ None.

Lemma Output_comesBack res a : Completed res = true → Output res = Returns a → comesBack a.
Proof. destruct res; simpl; intros _ Ho; simplify_eq; by (left; done) || (right; done). Qed.

Lemma andThen_inv (step : Run W ReconcileResult) k s a s' :
  andThen step k s = (Returns a, s') →
  comesBack a ∨ ∃ s1, step s = (Returns Continue, s1) ∧ k s1 = (Returns a, s').
Proof.
  intros Hs. unfold andThen in Hs. m_inv Hs. destruct (Completed a0) eqn:E0.
  - left. unfold lift in Hs. injection Hs as Ho _. by eapply Output_comesBack.
  - right. exists s0. split; [|done]. by destruct a0.
Qed.

Lemma andThen_continue (step : Run W ReconcileResult) k s s1 :
  step s = (Returns Continue, s1) → andThen step k s = k s1.
Proof. intros E. unfold andThen. by rw (M_bind_eq _ _ _ _ _ E). Qed.

Lemma andThen_panic (step : Run W ReconcileResult) k s msg s1 :
  step s = (Panics msg, s1) → andThen step k s = (Panics msg, s1).
Proof. intros E. unfold andThen. by apply M_bind_panic. Qed.

Lemma lastStep_inv k s a s' :
  lastStep k s = (Returns a, s') → comesBack a ∨ ∃ s1, k s1 = (Returns a, s').
Proof.
  intros Hs. unfold lastStep in Hs. m_inv Hs. destruct (Completed a0) eqn:E0; [|by eauto].
  left. m_inv Hs. unfold lift in Hs. injection Hs as Ho _. by eapply Output_comesBack.
Qed.

(** The first condition of the type, as [SetCondition] leaves it. *)
Lemma updateFirst_find now ty st reason msgs cs c :
  List.find (λ c, bool_decide (cond_Type c = ty)) (updateFirst now ty st reason msgs cs) = Some c →
  cond_Status c = st ∧ cond_Reason c = reason.
Proof.
  induction cs as [|c0 cs IH]; [done|]. simpl. destruct (decide (cond_Type c0 = ty)) as [E|E].
  - rw bool_decide_eq_true_2 //=. rw /UpdateState.
    assert (cond_Type (UpdateReason reason msgs (set_cond_Status st
      (if bool_decide (cond_Status c0 ≠ st) then set_cond_LastTransitionTime (Some now) c0 else c0))) = ty) as Ht
      by (by destruct (bool_decide _)).
    rw bool_decide_eq_true_2 //. intros [= <-]. by destruct (bool_decide _).
  - rw bool_decide_eq_false_2 //=. rw bool_decide_eq_false_2 //.
Qed.

Lemma finish_inv s a s' :
  finish s = (Returns a, s') →
  rst_ObservedGeneration (rmq_Status (op_rmq s')) = om_Generation (rmq_ObjectMeta (op_rmq s')) ∧
  ∀ c, List.find (λ c, bool_decide (cond_Type c = ReconcileSuccess))
         (sl (rst_Conditions (rmq_Status (op_rmq s')))) = Some c →
       cond_Status c = ConditionTrue ∧ cond_Reason c = "Success".
Proof.
  unfold finish, setCondition. intros Hf. m_inv Hf. injection E as _ <-. m_inv Hf. m_inv E. injection E as _ <-.
  injection Hf as _ <-.
  unfold ext in E0. cbn [op_rmq op_world] in E0. destruct (kNow _) as [now w]. injection E0 as <- <-.
  cbn [op_rmq op_world]. split; [done|]. intros c. simpl. destruct (rst_Conditions _) as [cs|]; [|done].
  apply updateFirst_find.
Qed.

(** The steps before the conditions, on a cluster that is neither deleted nor
    paused nor in want of a finalizer or of defaults, do nothing. *)
Definition settled (r : RabbitmqCluster) : Prop :=
  deletionIsZero r = true ∧ deletionFinalizer ∈ om_Finalizers (rmq_ObjectMeta r) ∧
  gm_lookup (rmq_Labels r) pauseReconciliationLabel ≠ Some "true" ∧ (applyDefaults d r).2 = "".

Lemma finalized_delete s :
  deletionIsZero (op_rmq s) = true → deletionFinalizer ∈ om_Finalizers (rmq_ObjectMeta (op_rmq s)) →
  reconcileDelete s = (Returns Continue, s).
Proof.
  intros Hz Hf. destruct s as [r w]. simpl in *. unfold reconcileDelete, addFinalizer, updateFinalizers.
  unfold mbind, M_bind, rmq, gets. cbn [op_rmq op_world]. rw Hz.
  cbn beta iota zeta delta [negb op_rmq op_world]. rw Hz.
  cbn beta iota zeta delta [negb op_rmq op_world]. rw /AddFinalizer bool_decide_eq_true_2 //. by destruct r.
Qed.

Lemma settled_delete s : settled (op_rmq s) → reconcileDelete s = (Returns Continue, s).
Proof. intros (? & ? & _). by apply finalized_delete. Qed.

Lemma settled_paused s : settled (op_rmq s) → reconcilePaused s = (Returns Continue, s).
Proof.
  intros (_ & _ & Hp & _). unfold reconcilePaused, mbind, M_bind, rmq, gets.
  destruct (gm_lookup _ _) as [v|]; [|done]. destruct (String.eqb_spec v "true") as [->|]; [done|].
  by destruct s.
Qed.

Lemma settled_defaults s : settled (op_rmq s) → reconcileOperatorDefaults d s = (Returns Continue, s).
Proof.
  intros (_ & _ & _ & Hd). pose proof (applyDefaults_none _ _ Hd) as Hr.
  unfold reconcileOperatorDefaults, mbind, M_bind, rmq, gets. destruct s as [r w]. cbn [op_rmq op_world] in *.
  destruct (applyDefaults d r) as [r' t]. simpl in *. subst r' t. done.
Qed.
End reconcile_lemmas.

Section deferred_lemmas.
Context {W : Type} `{!Kube W, !Library} (d : Defaults).
Abbreviation TW := (W * list Call)%type.
Implicit Types (s : Op TW).

(** The deferred function sends the status exactly if it has changed. *)
Lemma run_deferred before s (Q : outcome unit → Op TW → list Call → Prop) :
  (before = rmq_Status (op_rmq s) → Q (Returns tt) s []) →
  (∀ s' n, before ≠ rmq_Status (op_rmq s) → (1 ≤ n ≤ 5)%nat →
     Q (Returns tt) s' (replicate n (StatusUpdated (op_rmq s)))) →
  run (deferred before) s Q.
Proof.
  intros Hsame Hsent. unfold deferred. apply run_seq. destruct (decide (before = rmq_Status (op_rmq s))) as [E|E].
  - assert (deferredOnce before s = (Returns None, s)) as Hd.
    { unfold deferredOnce, mbind, M_bind, rmq, gets. rw bool_decide_eq_true_2 //. }
    exists []. rw /RetryOnConflict /OnError (OnErrorSteps_ok _ _ _ _ _ _ Hd) app_nil_r. split; [done|].
    cbn [fst snd]. apply run_ret. by apply Hsame.
  - apply (run_OnErrorSteps _ _ _ _ _ (λ n last s' c, op_rmq s' = op_rmq s ∧
      c = replicate n (StatusUpdated (op_rmq s)))); [done| |].
    + intros n last s1 c1 Hn (Hs1 & ->). unfold DefaultRetrySteps in Hn. unfold deferredOnce.
      apply run_seq, run_rmq. rw Hs1 bool_decide_eq_false_2 //. apply run_statusUpdateRmq; rw Hs1.
      * intros s2. apply run_ret. rw app_nil_r /= -replicate_S_end. apply Hsent; [done|lia].
      * intros err s2 Hs2. rw /= -replicate_S_end. destruct (errIsConflict err); [split; [congruence|done]|].
        apply run_ret. rw app_nil_r. apply Hsent; [done|lia].
    + intros last s1 c1 (Hs1 & ->). apply run_ret. rw app_nil_r. apply Hsent; [done|].
      unfold DefaultRetrySteps. lia.
Qed.

Lemma run_withDefer {A} (body : Run TW A) (df : Run TW unit) s (Q : outcome A → Op TW → list Call → Prop) :
  run body s (λ o s1 c1, run df s1 (λ od s2 c2, od = Returns tt ∧ Q o s2 (c1 ++ c2))) →
  run (withDefer body df) s Q.
Proof.
  intros (c1 & Hl & c2 & Hl2 & Hod & HQ). exists (c1 ++ c2). unfold withDefer.
  destruct (body s) as [o s1]. cbn [fst snd] in *. destruct (df s1) as [od s2]. cbn [fst snd] in *. subst od.
  cbn [fst snd]. split; [by rw Hl2 Hl app_assoc|done].
Qed.

(** [m] with its deferred function: its own calls, then the update of the
    status if it has changed. *)
Lemma run_deferring {A} (m : Run TW A) before s (Q : outcome A → Op TW → list Call → Prop) :
  run m s (λ o s1 c1,
    (before = rmq_Status (op_rmq s1) → Q o s1 c1) ∧
    (before ≠ rmq_Status (op_rmq s1) → ∀ s2 n, (1 ≤ n ≤ 5)%nat →
       Q o s2 (c1 ++ replicate n (StatusUpdated (op_rmq s1))))) →
  run (withDefer m (deferred before)) s Q.
Proof.
  intros Hm. apply run_withDefer. eapply run_mono; [exact Hm|]. intros o s1 c1 [Hsame Hsent].
  apply run_deferred.
  - intros E. rw app_nil_r. split; [done|by apply Hsame].
  - intros s2 n E Hn. split; [done|by apply Hsent].
Qed.
End deferred_lemmas.

(** ** Properties *)

Section reconcile_properties.
Context {W : Type} `{!Kube W, !Library} (d : Defaults).
Abbreviation TW := (W * list Call)%type.
Implicit Types (s : Op TW).

(** C13: the one answer of the steps that asks for no other call, no requeue and
    no error, is given only at the very end, with the observed generation set
    to the generation of the cluster and the condition ReconcileSuccess, if the
    cluster has it, True for the reason Success; every other answer makes the
    controller runtime call again. *)
Theorem steps_answer (s s' : Op W) a :
  steps d s = (Returns a, s') →
  comesBack a ∨
  rst_ObservedGeneration (rmq_Status (op_rmq s')) = om_Generation (rmq_ObjectMeta (op_rmq s')) ∧
  ∀ c, List.find (λ c, bool_decide (cond_Type c = ReconcileSuccess))
         (sl (rst_Conditions (rmq_Status (op_rmq s')))) = Some c →
       cond_Status c = ConditionTrue ∧ cond_Reason c = "Success".
Proof.
  unfold steps. intros Hs.
  do 10 (apply andThen_inv in Hs as [Hs|(? & _ & Hs)]; [by left|]).
  apply lastStep_inv in Hs as [Hs|(? & Hs)]; [by left|]. right. by eapply finish_inv.
Qed.

(** C12: whatever happens in a reconciliation, a panic included, its status is
    sent at the end exactly if it differs from the one it started with, at most
    five times and as the cluster object then is; that update decides nothing
    about the answer. *)
Theorem reconcileFound_deferred s :
  let '(out, s') := reconcileFound d s in
  ∃ s1 n, steps d s = (out, s1) ∧ log s' = log s1 ++ replicate n (StatusUpdated (op_rmq s1)) ∧
  (n ≤ 5)%nat ∧ (n = O ↔ rmq_Status (op_rmq s) = rmq_Status (op_rmq s1)).
Proof.
  change (reconcileFound d s) with (withDefer (steps d) (deferred (rmq_Status (op_rmq s))) s).
  unfold withDefer. destruct (steps d s) as [o s1].
  destruct (deferred (rmq_Status (op_rmq s)) s1) as [od s2] eqn:Ed.
  assert (run (deferred (rmq_Status (op_rmq s))) s1 (λ od _ c, od = Returns tt ∧ ∃ n,
    c = replicate n (StatusUpdated (op_rmq s1)) ∧ (n ≤ 5)%nat ∧
    (n = O ↔ rmq_Status (op_rmq s) = rmq_Status (op_rmq s1)))) as Hd.
  { apply run_deferred.
    - intros E. split; [done|]. exists O. split_and!; [done|lia|done].
    - intros s' n E Hn. split; [done|]. exists n. split_and!; [done|lia|]. split; [lia|done]. }
  eapply run_elim in Hd as (c & Hl & -> & n & -> & Hn & Hiff); [|exact Ed].
  exists s1, n. by split_and!.
Qed.

(** C27: pausing a cluster stops the operator: when the pause label is "true" on a
    cluster that is not deleted and has its finalizer, a reconciliation sends
    one event and at most five updates of the status, changes no child, and is
    called again in 30 seconds. *)
Theorem reconcileFound_paused s :
  deletionIsZero (op_rmq s) = true → deletionFinalizer ∈ om_Finalizers (rmq_ObjectMeta (op_rmq s)) →
  gm_lookup (rmq_Labels (op_rmq s)) pauseReconciliationLabel = Some "true" →
  run (reconcileFound d) s (λ out s' calls,
    out = Returns (mkCtrlResult true (30 * Second), None) ∧
    Forall (λ c, isChildWrite c = false) calls ∧
    ∃ msg n r', calls = Event "Warning" "PausedReconciliation" msg :: replicate n (StatusUpdated r') ∧
      (n ≤ 5)%nat).
Proof.
  intros Hz Hf Hp. unfold reconcileFound. apply run_seq, run_rmq. cbn beta iota. apply run_deferring.
  assert (run reconcilePaused s (λ out s' calls, out = Returns Done ∧
    ∃ msg, calls = [Event "Warning" "PausedReconciliation" msg])) as Hpaused.
  { unfold reconcilePaused. step. rw Hp /=. apply run_seq, run_event. intros s1 Hs1. cbn beta iota.
    apply run_seq, run_setCondition. intros now s2 Hs2. cbn beta iota. apply run_ret.
    split; [done|]. by eexists. }
  destruct Hpaused as (c & Hl & Hout & msg & ->).
  exists [Event "Warning" "PausedReconciliation" msg].
  assert (steps d s = (Returns (mkCtrlResult true (30 * Second), None), (reconcilePaused s).2)) as ->.
  { unfold steps. rw (andThen_continue _ _ _ s); [by apply finalized_delete|].
    unfold andThen, mbind, M_bind. destruct (reconcilePaused s) as [o s1]. cbn [fst snd] in *. by subst o. }
  split; [done|]. cbn [fst snd app]. split.
  - intros _. split_and!; [done|by repeat constructor|]. exists msg, O, (op_rmq s). split; [done|lia].
  - intros _ s2 n Hn. split_and!; [done| |].
    + constructor; [done|]. by apply Forall_replicate.
    + exists msg, n, (op_rmq (reconcilePaused s).2). split; [done|lia].
Qed.

(** C9: a cluster in normal operation whose replicas are lowered by two or more
    crashes the operator in every reconciliation: with the finalizer and the
    defaults in place, not paused and not deleted, and with at least two
    StatefulSets more than replicas listed, the reconciliation panics before it
    could refuse to scale down, and has sent nothing. *)
Theorem reconcileFound_scale_down s stss replicas :
  settled d (op_rmq s) → listed s = inr stss →
  rs_Replicas (rmq_Spec (op_rmq s)) = Some replicas → (S (Z.to_nat replicas) < length stss)%nat →
  (∀ w err, (kGet (W := W) KEndpoints (mkNamespacedName (rmq_Namespace (op_rmq s))
       (ChildResourceName (op_rmq s) ResourceClientServiceSuffix)) w).1 = inl err → errIsNotFound err = true) →
  run (reconcileFound d) s (λ out s' calls, out = Panics "index out of range" ∧ calls = []).
Proof.
  intros Hset Hlist Hrep Hlen Hep. unfold reconcileFound. apply run_seq, run_rmq. cbn beta iota. apply run_deferring.
  assert (run reconcileStatusConditions s (λ out s' calls, op_rmq s' = op_rmq s ∧ calls = [] ∧
    out = Panics "index out of range")) as (c & Hl & Hs1 & -> & Hout).
  { by eapply run_scaled_down. }
  exists []. assert (steps d s = (Panics "index out of range", (reconcileStatusConditions s).2)) as ->.
  { unfold steps. rw (andThen_continue _ _ _ s); [by eapply settled_delete|].
    rw (andThen_continue _ _ _ s); [by eapply settled_paused|].
    rw (andThen_continue _ _ _ s); [by apply settled_defaults|].
    rw (andThen_panic _ _ _ "index out of range" (reconcileStatusConditions s).2) //.
    destruct (reconcileStatusConditions s). simpl in *. by subst. }
  split; [done|]. cbn [fst snd app]. split; [done|]. by rw Hs1.
Qed.
End reconcile_properties.
