(* ===== verification/Recorded.v ===== *)
(** Which objects a computation has been shown.

    [recorded] turns the services of any world into services that also keep
    what the reads of children have answered, so that a theorem can say of a
    call that the object in it is one that was read before.  Nothing else of
    the services changes. *)

From S2P Require Import Prelude GoStd K8s V1beta1 Kube Trace.

(** An object that a get or a list has answered. *)
Inductive Note := Answered (k : Kind) (o : Obj k).

Definition answer {k} (got : result (Obj k)) : list Note :=
  match got with inl _ => [] | inr o => [Answered k o] end.

Definition answers {k} (got : result (list (Obj k))) : list Note :=
  match got with inl _ => [] | inr os => Answered k <$> os end.

Section recorded.
Context {W : Type} `{!Kube W}.

(** A service that leaves a note of its answer. *)
Definition noting {A} (note : A → list Note) (f : Ext W A) : Ext (W * list Note) A := λ wn,
  let '(a, w) := f (fst wn) in (a, (w, snd wn ++ note a)).
Definition noted {A} (f : Ext W A) : Ext (W * list Note) A := noting (λ _, []) f.

#[export] Instance recorded : Kube (W * list Note) | 100 := {
  kGet k key := noting answer (kGet k key);
  kList k ns labels := noting answers (kList k ns labels);
  kCreate k o := noted (kCreate k o);
  kUpdate k o := noted (kUpdate k o);
  kDelete k uid o := noted (kDelete k uid o);
  kStatusUpdate r := noted (kStatusUpdate r);
  kReaderGet k key := noting answer (kReaderGet k key);
  csGet k key := noting answer (csGet k key);
  csUpdate k ns o := noted (csUpdate k ns o);
  csDeleteOrphan k key := noted (csDeleteOrphan k key);
  kEvent r ty reason msg := noted (kEvent r ty reason msg);
  kNow := noted kNow;
  kRandRead n := noted (kRandRead n);
  kExec ns pod container command := noted (kExec ns pod container command)
}.
End recorded.

(** ** The notes of a state *)

Class HasNotes (S : Type) := notes : S → list Note.

#[export] Instance local_notes {S L} `{!HasNotes S} : HasNotes (S * L) := λ sl, notes (fst sl).
#[export] Instance op_notes {W} : HasNotes (Op (W * list Note * list Call)) := λ s, snd (fst (op_world s)).

(** ** Computations that are shown nothing *)

Section unshown.
Context {W : Type} `{!Kube W}.
Abbreviation TW := (W * list Note * list Call)%type.

Definition unshown {A} (m : Run TW A) : Prop := ∀ s, notes (m s).2 = notes s.

Lemma unshown_bind {A B} (m : Run TW A) (f : A → Run TW B) : unshown m → (∀ a, unshown (f a)) → unshown (m ≫= f).
Proof.
  intros Hm Hf s. rw -(Hm s) /mbind /M_bind. destruct (m s) as [[a|e] s1]; [apply Hf|done].
Qed.
Lemma unshown_ret {A} (a : A) : unshown (mret a).
Proof. done. Qed.
Lemma unshown_lift {A} (o : outcome A) : unshown (lift o).
Proof. done. Qed.
Lemma unshown_rmq : unshown rmq.
Proof. done. Qed.
Lemma unshown_deref {A} (p : option A) : unshown (deref p).
Proof. by destruct p. Qed.
Lemma unshown_panic {A} msg : unshown (panic msg : Run TW A).
Proof. done. Qed.
Lemma unshown_mod_rmq f : unshown (mod_rmq f).
Proof. done. Qed.
Lemma unshown_noted {A} (f : Ext W A) : unshown (ext (unlogged (noted f))).
Proof.
  intros [r [[w n] l]]. unfold ext, unlogged, noted, noting, notes, op_notes. cbn [op_world op_rmq fst snd].
  destruct (f w) as [a w']. cbn. by rw app_nil_r.
Qed.
Lemma unshown_rand n : unshown (ext (kRandRead n)).
Proof. apply (unshown_noted (kRandRead n)). Qed.
End unshown.

#[export] Hint Resolve unshown_ret unshown_lift unshown_rmq unshown_deref unshown_panic unshown_mod_rmq
  unshown_rand : trace.
#[export] Hint Extern 2 (unshown (_ ≫= _)) => apply unshown_bind; [|intros ?] : trace.
#[export] Hint Extern 3 (unshown (match ?x with _ => _ end)) => destruct x : trace.
