(* ===== verification/Authority.v ===== *)
(** What the operator has the authority to do: every call a reconciliation of a
    cluster makes is one of a few forms, on the objects of that cluster and on
    those it has read, whatever the API server answers.  The forms are the type
    [may]; a judgement with rules for the code's constructs shows that every
    step keeps to them.  The services are those of Recorded.v, which note what
    is read: [within_from F] starts where the objects [F] have been read, and
    [within] where it does not matter. *)

From S2P Require Import Prelude GoStd GoTime K8s V1beta1 Constant Metadata Kube Controllerutil.
From S2P Require Import Builder Plugins Services Secrets Rbac ServerConf Sts Builders Trace Recorded Result Status.
From S2P Require Import Scaling ControllerUtils Configurations Resources Steps Deletion Cli Reconcile.

(** ** What the API server promises *)

Definition carries (labels : gmap string string) (m : ObjectMeta) : Prop :=
  ∀ key v, labels !! key = Some v → gm_lookup (om_Labels m) key = Some v.

(** Name, namespace and uid of an object are never changed by a write; a read answers the
    object with the key, and a list objects of the namespace with the labels. *)
Class ServerLaws (W : Type) `{!Kube W} : Prop := {
  laws_get :: GetLaw W;
  laws_csGet k key (w : W) o : (csGet k key w).1 = inr o → ObjectKeyFromObject o = key;
  laws_list k ns labels (w : W) (os : list (Obj k)) : (kList k ns labels w).1 = inr os →
    Forall (λ o, carries labels (meta o) ∧ match ns with Some ns => om_Namespace (meta o) = ns | None => True end) os;
  laws_create k (o o' : Obj k) (w : W) : (kCreate k o w).1 = inr o' → ObjectKeyFromObject o' = ObjectKeyFromObject o;
  laws_update k (o o' : Obj k) (w : W) : (kUpdate k o w).1 = inr o' →
    ObjectKeyFromObject o' = ObjectKeyFromObject o ∧ om_UID (meta o') = om_UID (meta o);
  laws_status (r r' : RabbitmqCluster) (w : W) : (kStatusUpdate r w).1 = inr r' →
    ObjectKeyFromObject (k := KRabbitmqCluster) r' = ObjectKeyFromObject (k := KRabbitmqCluster) r ∧
    om_UID (rmq_ObjectMeta r') = om_UID (rmq_ObjectMeta r)
}.

(** ** The authority over a cluster *)

(** The same cluster, in whatever state. *)
Definition sameCluster (r r' : RabbitmqCluster) : Prop :=
  rmq_Namespace r' = rmq_Namespace r ∧ rmq_Name r' = rmq_Name r ∧
  om_UID (rmq_ObjectMeta r') = om_UID (rmq_ObjectMeta r).

Definition replicaIndex (b : ResourceBuilder) : Prop :=
  match b with StatefulSetBuilder i => (0 ≤ i)%Z | _ => True end.

(** A StatefulSet as it is listed: in the namespace, with the label. *)
Definition listedFor (r : RabbitmqCluster) (sts : StatefulSet) : Prop :=
  om_Namespace (sts_ObjectMeta sts) = rmq_Namespace r ∧
  carries (Metadata.LabelSelector (rmq_Name r)) (sts_ObjectMeta sts).

Definition controlledBy (r : RabbitmqCluster) (m : ObjectMeta) : Prop :=
  ∃ ref, GetControllerOf m = Some ref ∧ or_UID ref = om_UID (rmq_ObjectMeta r).

(** The scripts that are run in pods. *)
Definition command (cmd : string) : Prop :=
  cmd = "rabbitmqctl enable_feature_flag all" ∨ cmd = "rabbitmq-queues rebalance all" ∨
  ∃ plugins, cmd = "rabbitmq-plugins set " +:+ AsString (NewRabbitmqPlugins plugins) " ".

(** The object a builder makes of another one for the cluster, in some state of it. *)
Definition made {W} `{!Kube W, !Library} (r : RabbitmqCluster) {k} (key : NamespacedName) (old new : Obj k) : Prop :=
  ∃ b (s s' : Op W) b', (builderTarget r b) = (k, key) ∧ sameCluster r (op_rmq s) ∧
  Update b (existT k old) s = (Returns (inr (existT k new), b'), s').

(** A claim with another request for storage and nothing else changed. *)
Definition resized (old new : PersistentVolumeClaim) : Prop :=
  ∃ requests q, pvcs_Requests (pvc_Spec old) = Some requests ∧
  new = set_pvc_Spec (set_pvcs_Requests (Some (<[ResourceStorage := q]> requests)) (pvc_Spec old)) old.

(** What may be called for a cluster by one that has been shown the objects [F]. *)
Inductive may {W} `{!Kube W, !Library} (r : RabbitmqCluster) (F : list Note) : Call → Prop :=
  (* create a child, with the cluster as its controller *)
  | may_create b (o : Obj (builderKind b)) done :
      replicaIndex b → ObjectKeyFromObject o = (builderTarget r b).2 →
      GetControllerOf (meta o) = Some (controllerRef (rmq_ObjectMeta r)) → may r F (Created _ o done)
  (* update one that was read to what its builder makes of it *)
  | may_change b (old o : Obj (builderKind b)) done :
      replicaIndex b → Answered _ old ∈ F → ObjectKeyFromObject o = (builderTarget r b).2 →
      made (W := W) r (builderTarget r b).2 old o →
      GetControllerOf (meta o) = Some (controllerRef (rmq_ObjectMeta r)) → may r F (Updated _ o done)
  (* put a marker on a child that was read *)
  | may_mark b (o : Obj (builderKind b)) key v done :
      replicaIndex b → Answered _ o ∈ F → ObjectKeyFromObject o = (builderTarget r b).2 →
      key ∈ [pluginsUpdateAnnotation; serverConfAnnotation; stsCreateAnnotation] →
      may r F (Updated _ (annotate key v o) done)
  (* take a marker off the plugins ConfigMap and off a listed StatefulSet *)
  | may_unmarkPlugins (cm : ConfigMap) done :
      Answered KConfigMap cm ∈ F →
      ObjectKeyFromObject (k := KConfigMap) cm = (builderTarget r RabbitmqPluginsConfigMapBuilder).2 →
      may r F (Updated KConfigMap (set_annotations (k := KConfigMap)
               (gm_delete pluginsUpdateAnnotation (annotations (k := KConfigMap) cm)) cm) done)
  | may_unmarkSts (sts : StatefulSet) done :
      Answered KStatefulSet sts ∈ F → listedFor r sts →
      may r F (Updated KStatefulSet (set_annotations (k := KStatefulSet)
               (gm_delete stsCreateAnnotation (annotations (k := KStatefulSet) sts)) sts) done)
  (* stamp the pod template of what was read under the key of a listed StatefulSet *)
  | may_restart (sts0 sts : StatefulSet) now done :
      Answered KStatefulSet sts0 ∈ F → listedFor r sts0 → Answered KStatefulSet sts ∈ F →
      ObjectKeyFromObject (k := KStatefulSet) sts = ObjectKeyFromObject (k := KStatefulSet) sts0 →
      may r F (Updated KStatefulSet (set_templateAnnotations
               (Some (<[stsRestartAnnotation := Format now]> (gm (templateAnnotations sts)))) sts) done)
  (* update the cluster itself *)
  | may_cluster r' done : sameCluster r r' → may r F (Updated KRabbitmqCluster r' done)
  | may_status r' : sameCluster r r' → may r F (StatusUpdated r')
  (* delete the StatefulSet of a replica whose volumes grow, by name and without
     its pods, and resize claims of it that were read *)
  | may_orphan i (sts : StatefulSet) :
      (0 ≤ i)%Z → Answered KStatefulSet sts ∈ F →
      ObjectKeyFromObject (k := KStatefulSet) sts = (builderTarget r (StatefulSetBuilder i)).2 →
      templateCapacity c_PVCName (stss_VolumeClaimTemplates (sts_Spec sts)) ≠ 0%Z →
      may r F (CsDeleted KStatefulSet (builderTarget r (StatefulSetBuilder i)).2)
  | may_grow i (old pvc : PersistentVolumeClaim) :
      (0 ≤ i)%Z → Answered KPVC old ∈ F → claimOf c_PVCName (builderTarget r (StatefulSetBuilder i)).2 old →
      resized old pvc → may r F (CsUpdated KPVC (rmq_Namespace r) pvc)
  (* run a command in the first pod of a replica *)
  | may_exec i cmd :
      (0 ≤ i)%Z → command cmd →
      may r F (Exec (rmq_Namespace r) (PodName r ResourceStatefulsetSuffix i) ContainerNameRabbitMQ ["sh"; "-c"; cmd])
  | may_event ty reason msg : may r F (Event ty reason msg)
  (* label pods and delete StatefulSets, of a cluster that is being deleted *)
  | may_label (sts : StatefulSet) selector (pod : Pod) c :
      deletionIsZero r = false →
      Answered KStatefulSet sts ∈ F → listedFor r sts → controlledBy r (sts_ObjectMeta sts) →
      Answered KPod pod ∈ F →
      stss_Selector (sts_Spec sts) = Some selector → carries (gm (ls_MatchLabels selector)) (pod_ObjectMeta pod) →
      marks pod c → may r F c
  | may_delete (sts : StatefulSet) :
      deletionIsZero r = false → Answered KStatefulSet sts ∈ F → listedFor r sts → controlledBy r (sts_ObjectMeta sts) →
      may r F (Deleted KStatefulSet (Some (om_UID (sts_ObjectMeta sts))) sts).

Lemma may_shown {W} `{!Kube W, !Library} r F F' c : may (W := W) r F c → F ⊆ F' → may (W := W) r F' c.
Proof.
  intros Hc HF. destruct Hc;
    [by eapply may_create|eapply may_change; eauto|eapply may_mark; eauto|eapply may_unmarkPlugins; eauto
    |eapply may_unmarkSts; eauto|apply (may_restart r F' sts0); auto|by eapply may_cluster|by eapply may_status
    |eapply may_orphan; eauto|eapply may_grow; eauto|by eapply may_exec|by eapply may_event
    |eapply may_label; eauto|eapply may_delete; eauto].
Qed.

Lemma may_shown_all {W} `{!Kube W, !Library} r F F' cs :
  Forall (may (W := W) r F) cs → F ⊆ F' → Forall (may (W := W) r F') cs.
Proof. intros Hc HF. eapply Forall_impl; [exact Hc|]. intros c ?. by eapply may_shown. Qed.

(** ** The judgement *)

Section within.
Context {W0 : Type} `{!Kube W0, !Library} (r : RabbitmqCluster).
Abbreviation W := (W0 * list Note)%type.
Abbreviation may := (Authority.may (W := W * list Call) r).

Section rules.
Context {S : Type} `{!HasLog S, !HasNotes S} (I : S → Prop).

(** From any state that satisfies [I] and has been shown [F], the computation
    keeps to the authority over [r], ends in a state that satisfies [I], and an
    answer satisfies [R] of what has been shown by then. *)
Definition within_from (F : list Note) {A} (m : M S A) (R : list Note → A → Prop) : Prop :=
  ∀ s, I s → F ⊆ notes s → run m s (λ o s' c,
    notes s ⊆ notes s' ∧ Forall (may (notes s')) c ∧ I s' ∧ ∀ a, o = Returns a → R (notes s') a).

(** Where it does not matter what has been shown. *)
Definition within {A} (m : M S A) (R : A → Prop) : Prop := within_from [] m (λ _, R).

Lemma f_mono F {A} (m : M S A) (R R' : list Note → A → Prop) :
  within_from F m R → (∀ F' a, F ⊆ F' → R F' a → R' F' a) → within_from F m R'.
Proof.
  intros Hm HR s Hs HF. eapply run_mono; [by apply Hm|]. intros o s' c (? & ? & ? & Ha). split_and!; [done..|].
  intros a ->. apply HR; [by etrans|]. by apply Ha.
Qed.

Lemma f_shown F F' {A} (m : M S A) (R : list Note → A → Prop) :
  within_from F m R → F ⊆ F' → within_from F' m R.
Proof. intros Hm HF s Hs HF'. apply Hm; [done|by etrans]. Qed.

Lemma f_within F {A} (m : M S A) (R : A → Prop) : within m R → within_from F m (λ _, R).
Proof. intros Hm. eapply f_shown; [exact Hm|]. apply list_subseteq_nil. Qed.

Lemma f_ret F {A} (a : A) (R : list Note → A → Prop) : (∀ F', F ⊆ F' → R F' a) → within_from F (mret a) R.
Proof. intros Ha s Hs HF. apply run_ret. split_and!; [done..|]. intros ? [= <-]. by apply Ha. Qed.

Lemma f_lift F {A} (o : outcome A) (R : list Note → A → Prop) :
  (∀ F' a, o = Returns a → R F' a) → within_from F (lift o) R.
Proof. intros Ha s Hs HF. apply run_lift. split_and!; [done..|]. intros a Ho. by apply Ha. Qed.

Lemma f_bind F {A B} (m : M S A) (f : A → M S B) R1 (R : list Note → B → Prop) :
  within_from F m R1 → (∀ F' a, F ⊆ F' → R1 F' a → within_from F' (f a) R) → within_from F (m ≫= f) R.
Proof.
  intros Hm Hf s Hs HF. eapply run_bind; [by apply Hm| |].
  - intros a s1 c1 (G1 & H1 & I1 & HR). eapply run_mono; [eapply (Hf (notes s1) a); [by etrans|by apply HR|exact I1|done]|].
    intros o s2 c2 (G2 & ? & ? & ?). split_and!; [by etrans| |done..].
    apply Forall_app. split; [by eapply may_shown_all|done].
  - intros e s1 c1 (? & H1 & I1 & _). by split_and!.
Qed.

Lemma f_retry F n (retriable : error → bool) (fn : M S goerror) last :
  within_from F fn (λ _ _, True) → within_from F (OnErrorSteps n retriable fn last) (λ _ _, True).
Proof.
  intros Hfn s Hs HF. apply (run_OnErrorSteps _ _ _ _ _ (λ _ _ s1 c,
    notes s ⊆ notes s1 ∧ Forall (may (notes s1)) c ∧ I s1)); [by split_and!| |].
  - intros k last' s1 c1 _ (G1 & H1 & I1). eapply run_mono; [apply Hfn; [done|by etrans]|]. intros o s2 c2 (G2 & H2 & I2 & _).
    assert (notes s ⊆ notes s2) by by etrans.
    assert (Forall (may (notes s2)) (c1 ++ c2)) by (apply Forall_app; split; [by eapply may_shown_all|done]).
    by destruct o as [[e|]|]; [destruct (retriable e)| |].
  - intros last' s1 c1 (? & ? & ?). by split_and!.
Qed.

Lemma w_mono {A} (m : M S A) (R R' : A → Prop) : within m R → (∀ a, R a → R' a) → within m R'.
Proof. intros Hm HR. eapply f_mono; [exact Hm|]. auto. Qed.

Lemma w_any {A} (m : M S A) (R : A → Prop) : within m R → within m (λ _, True).
Proof. intros Hm. by eapply w_mono. Qed.

Lemma w_ret {A} (a : A) (R : A → Prop) : R a → within (mret a) R.
Proof. intros Ha. by apply f_ret. Qed.

Lemma w_lift {A} (o : outcome A) (R : A → Prop) : (∀ a, o = Returns a → R a) → within (lift o) R.
Proof. intros Ha. apply f_lift. auto. Qed.

Lemma w_panic {A} msg (R : A → Prop) : within (panic msg) R.
Proof. intros s Hs HF. by apply run_panic. Qed.

Lemma w_deref {A} (p : option A) (R : A → Prop) : (∀ a, p = Some a → R a) → within (deref p) R.
Proof. destruct p; intros Ha; [by apply w_ret, Ha|apply w_panic]. Qed.

Lemma w_bind {A B} (m : M S A) (f : A → M S B) (R1 : A → Prop) (R : B → Prop) :
  within m R1 → (∀ a, R1 a → within (f a) R) → within (m ≫= f) R.
Proof. intros Hm Hf. eapply f_bind; [exact Hm|]. intros F' a _ Ha. by apply f_within, Hf. Qed.

Lemma w_retry n (retriable : error → bool) (fn : M S goerror) last (R : goerror → Prop) :
  within fn R → within (OnErrorSteps n retriable fn last) (λ _, True).
Proof. intros Hfn. apply f_retry. by eapply f_mono. Qed.
End rules.

(** Local variables of a closure: [J] holds of them. *)
Section local_rules.
Context {S L : Type} `{!HasLog S, !HasNotes S} (I : S → Prop) (J : L → Prop).

Definition both (sl : S * L) : Prop := I sl.1 ∧ J sl.2.

Lemma f_outer F {A} (m : M S A) (R : list Note → A → Prop) : within_from I F m R → within_from both F (outer m) R.
Proof.
  intros Hm [s l] [Hs Hl] HF. apply run_outer. eapply run_mono; [by apply Hm|]. by intros o s' c (? & ? & ? & ?).
Qed.

Lemma w_outer {A} (m : M S A) (R : A → Prop) : within I m R → within both (outer m) R.
Proof. apply f_outer. Qed.

Lemma w_local : within both local J.
Proof. intros [s l] [Hs Hl] HF. apply run_local. split_and!; [done..|]. by intros ? [= <-]. Qed.

Lemma w_set_local l' (R : unit → Prop) : J l' → R tt → within both (set_local l') R.
Proof. intros Hl' HR [s l] [Hs Hl] HF. apply run_set_local. split_and!; [done..|]. by intros [] _. Qed.

Lemma f_withLocal F {A} (m : M (S * L) A) (l : L) (R : A → Prop) :
  J l → within_from both F m (λ _, R) → within_from I F (withLocal l m) (λ _ al, R al.1 ∧ J al.2).
Proof.
  intros Hl Hm s Hs HF. apply run_withLocal. eapply run_mono; [by apply Hm|].
  intros o [s' l'] c (G & Hc & [Hs' Hl'] & HR). cbn [fst snd] in *. destruct o as [a|e]; (split_and!; [done..|]); [|done].
  intros ? [= <-]. split; [by apply HR|done].
Qed.

Lemma w_withLocal {A} (m : M (S * L) A) (l : L) (R : A → Prop) :
  J l → within both m R → within I (withLocal l m) (λ al, R al.1 ∧ J al.2).
Proof. apply f_withLocal. Qed.
End local_rules.

(** ** The services *)

Section services.
Context `{!ServerLaws W0}.
Abbreviation TW := (W * list Call)%type.

Definition mine (s : Op TW) : Prop := sameCluster r (op_rmq s).

Lemma sameCluster_meta x y : rmq_ObjectMeta y = rmq_ObjectMeta x → sameCluster r x → sameCluster r y.
Proof. unfold sameCluster, rmq_Namespace, rmq_Name. by intros ->. Qed.

Lemma sameCluster_key x y :
  ObjectKeyFromObject (k := KRabbitmqCluster) y = ObjectKeyFromObject (k := KRabbitmqCluster) x ∧
  om_UID (rmq_ObjectMeta y) = om_UID (rmq_ObjectMeta x) → sameCluster r x → sameCluster r y.
Proof.
  unfold sameCluster, rmq_Namespace, rmq_Name. intros [[= Hns Hn] Hu] (? & ? & ?). split_and!; congruence.
Qed.

Lemma w_rmq : within mine rmq (sameCluster r).
Proof. intros s Hs HF. apply run_rmq. split_and!; [done..|]. by intros ? [= <-]. Qed.

Lemma w_set_rmq x (R : unit → Prop) : sameCluster r x → R tt → within mine (set_rmq x) R.
Proof. intros Hx HR s Hs HF. apply run_set_rmq. split_and!; [done..|]. by intros [] _. Qed.

Lemma w_mod_rmq f (R : unit → Prop) :
  (∀ x, sameCluster r x → sameCluster r (f x)) → R tt → within mine (mod_rmq f) R.
Proof.
  intros Hf HR s Hs HF. apply run_mod_rmq. split_and!; [done|done|by apply Hf|by intros [] _].
Qed.

(** A read shows its answer. *)
Lemma f_unlogged F {A} note (f : Ext W0 A) (R : A → Prop) : (∀ w, R (f w).1) →
  within_from mine F (ext (unlogged (noting note f))) (λ F' a, R a ∧ note a ⊆ F').
Proof.
  intros HR s Hs HF. exists []. destruct s as [x [[w n] l]]. specialize (HR w).
  unfold ext, unlogged, noting, notes, op_notes, log, op_log, mine in *. cbn [op_world op_rmq fst snd] in *.
  destruct (f w) as [a w']. cbn [op_world op_rmq fst snd] in *. split; [by rw app_nil_r|].
  split_and!; [set_solver|done|done|]. intros ? [= <-]. split; [done|set_solver].
Qed.

Lemma w_unlogged {A} note (f : Ext W0 A) (R : A → Prop) : (∀ w, R (f w).1) →
  within mine (ext (unlogged (noting note f))) R.
Proof. intros HR. eapply f_mono; [by apply (f_unlogged _ _ _ R)|]. by intros F' a _ []. Qed.

Lemma f_logged F {A} (call : A → Call) (f : Ext W0 A) (R : A → Prop) :
  (∀ a, may F (call a)) → (∀ w, R (f w).1) → within_from mine F (ext (logged call (noted f))) (λ _, R).
Proof.
  intros Hc HR s Hs HF. destruct s as [x [[w n] l]]. exists [call (f w).1]. specialize (HR w).
  unfold ext, logged, noted, noting, notes, op_notes, log, op_log, mine in *. cbn [op_world op_rmq fst snd] in *.
  destruct (f w) as [a w']. cbn [op_world op_rmq fst snd] in *. rw app_nil_r. split; [done|].
  split_and!; [done| |done|by intros ? [= <-]]. constructor; [by eapply may_shown|done].
Qed.

Lemma w_logged {A} (call : A → Call) (f : Ext W0 A) (R : A → Prop) :
  (∀ a, may [] (call a)) → (∀ w, R (f w).1) → within mine (ext (logged call (noted f))) R.
Proof. apply f_logged. Qed.

Lemma f_get F k key :
  within_from mine F (ext (kGet k key)) (λ F' got, ∀ o, got = inr o → ObjectKeyFromObject o = key ∧ Answered k o ∈ F').
Proof.
  eapply f_mono; [apply (f_unlogged _ _ _ (λ got, ∀ o, got = inr o → ObjectKeyFromObject o = key))|].
  - intros w o Ho. destruct (kGet k key w) as [got w'] eqn:E. cbn in Ho. subst got. by eapply laws_get.
  - intros F' got _ [Hk HF] o ->. split; [by apply Hk|]. apply HF. cbn. set_solver.
Qed.

Lemma w_get k key :
  within mine (ext (kGet k key)) (λ got, ∀ o, got = inr o → ObjectKeyFromObject o = key).
Proof. eapply f_mono; [apply f_get|]. intros F' got _ Hg o Ho. by apply Hg. Qed.

Lemma f_csGet F k key :
  within_from mine F (ext (csGet k key)) (λ F' got, ∀ o, got = inr o → ObjectKeyFromObject o = key ∧ Answered k o ∈ F').
Proof.
  eapply f_mono; [apply (f_unlogged _ _ _ (λ got, ∀ o, got = inr o → ObjectKeyFromObject o = key))|].
  - intros w o Ho. by eapply laws_csGet.
  - intros F' got _ [Hk HF] o ->. split; [by apply Hk|]. apply HF. cbn. set_solver.
Qed.

Lemma w_csGet k key :
  within mine (ext (csGet k key)) (λ got, ∀ o, got = inr o → ObjectKeyFromObject o = key).
Proof. eapply f_mono; [apply f_csGet|]. intros F' got _ Hg o Ho. by apply Hg. Qed.

Lemma f_update F {k} (o : Obj k) (J : Obj k → Prop) :
  (∀ done, may F (Updated k o done)) → J o →
  (∀ o', ObjectKeyFromObject o' = ObjectKeyFromObject o → om_UID (meta o') = om_UID (meta o) → J o') →
  within_from mine F (update o) (λ _ u, J u.1).
Proof.
  intros Hm Ho Ho'. unfold update.
  eapply (f_bind _ _ _ _ (λ _ a, match a with inl _ => True | inr o' => J o' end)).
  - apply f_logged; [intros a; apply Hm|]. intros w. destruct (kUpdate k o w).1 as [|o'] eqn:E; [done|].
    apply laws_update in E as [? ?]. by apply Ho'.
  - intros F' [err|o'] _ Ha; by apply f_ret.
Qed.

Lemma w_update {k} (o : Obj k) (J : Obj k → Prop) :
  (∀ done, may [] (Updated k o done)) → J o →
  (∀ o', ObjectKeyFromObject o' = ObjectKeyFromObject o → om_UID (meta o') = om_UID (meta o) → J o') →
  within mine (update o) (λ u, J u.1).
Proof. apply f_update. Qed.

Lemma w_updateRmq : within mine updateRmq (λ _, True).
Proof.
  unfold updateRmq. eapply w_bind; [apply w_rmq|]. intros x Hx. eapply w_bind.
  - apply (w_update (k := KRabbitmqCluster) x (sameCluster r)); [intros d; by apply may_cluster|done|].
    intros o' Hk Hu. by eapply sameCluster_key.
  - intros u Hu. eapply w_bind; [by apply (w_set_rmq _ (λ _, True))|]. intros _ _. by apply w_ret.
Qed.

Lemma w_statusUpdateRmq : within mine statusUpdateRmq (λ _, True).
Proof.
  unfold statusUpdateRmq. eapply w_bind; [apply w_rmq|]. intros x Hx.
  eapply (w_bind _ _ _ (λ a, match a with inl _ => True | inr x' => sameCluster r x' end)).
  - apply w_logged; [intros _; by apply may_status|]. intros w. destruct (kStatusUpdate x w).1 as [|x'] eqn:E; [done|].
    by eapply sameCluster_key; [eapply laws_status|].
  - intros [err|x'] Ha; [by apply w_ret|]. eapply w_bind; [by apply (w_set_rmq _ (λ _, True))|]. intros _ _. by apply w_ret.
Qed.

Lemma w_event ty reason msg : within mine (event ty reason msg) (λ _, True).
Proof.
  unfold event. eapply w_bind; [apply w_rmq|]. intros x _. apply w_logged; [intros _; apply may_event|done].
Qed.

Lemma w_setCondition ty st reason msgs : within mine (setCondition ty st reason msgs) (λ _, True).
Proof.
  unfold setCondition. eapply (w_bind _ _ _ (λ _, True)); [by apply w_unlogged|]. intros now _. by apply w_mod_rmq.
Qed.

Lemma w_now : within mine (ext kNow) (λ _, True).
Proof. by apply w_unlogged. Qed.

(** A StatefulSet that was listed for the cluster. *)
Definition shownFor (F : list Note) (sts : StatefulSet) : Prop :=
  listedFor r sts ∧ Answered KStatefulSet sts ∈ F.

Lemma shownFor_more F F' stss : F ⊆ F' → Forall (shownFor F) stss → Forall (shownFor F') stss.
Proof. intros HF Hs. eapply Forall_impl; [exact Hs|]. intros sts [? ?]. split; [done|by apply HF]. Qed.

Lemma f_statefulSets F :
  within_from mine F statefulSets (λ F' sets, ∀ stss, sets = inr stss → Forall (shownFor F') stss).
Proof.
  unfold statefulSets. eapply f_bind; [apply f_within, w_rmq|]. intros F' x _ (Hns & Hn & _).
  eapply f_mono; [apply (f_unlogged _ _ _ (λ sets, ∀ stss, sets = inr stss → Forall (listedFor r) stss))|].
  - intros w stss Hl. apply (laws_list KStatefulSet) in Hl. eapply Forall_impl; [exact Hl|]. intros sts [Hc Hk].
    unfold listedFor. by rw -Hns -Hn.
  - intros F2 sets _ [Hl Hsub] stss ->. specialize (Hl _ eq_refl). rw Forall_forall in Hl. apply Forall_forall.
    intros sts Hin. split; [by apply Hl|]. apply Hsub. by apply (list_elem_of_fmap_2 (Answered KStatefulSet)).
Qed.

Lemma w_statefulSets : within mine statefulSets (λ _, True).
Proof. by eapply f_mono; [apply f_statefulSets|]. Qed.

Lemma w_child_key suffix x : sameCluster r x → ChildResourceName x suffix = ChildResourceName r suffix.
Proof. intros (_ & Hn & _). unfold ChildResourceName. by rw Hn. Qed.

Lemma w_target x b : sameCluster r x → builderTarget x b = builderTarget r b.
Proof.
  intros Hx. pose proof Hx as (Hns & _). unfold builderTarget. rw Hns. do 2 f_equal.
  destruct b; cbn [builderName]; rw /StatefulsetName ?(w_child_key _ x Hx) //.
Qed.

(** One computation after another; the answers of the first by its lemma. *)
Ltac w_seq lem := eapply w_bind; [apply lem|]; intros ? ?; cbn beta in *.

(** Follow the tests of a computation to its ends. *)
Ltac w_ends :=
  repeat match goal with
  | |- within _ (mret _) _ => apply w_ret; try done
  | |- within _ (match ?x with _ => _ end) _ => destruct x eqn:?
  | |- within _ (if ?x then _ else _) _ => destruct x eqn:?
  | |- within _ (event _ _ _ ≫= _) _ => w_seq w_event
  | |- within _ (setCondition _ _ _ _ ≫= _) _ => w_seq w_setCondition
  | |- within _ (ext kNow ≫= _) _ => w_seq w_now
  | |- within _ (rmq ≫= _) _ => w_seq w_rmq
  | |- within _ (deref ?p ≫= _) _ => eapply (w_bind _ _ _ (λ a, p = Some a)); [by apply w_deref|intros ? ?]
  | |- within _ (lift ?o ≫= _) _ => eapply (w_bind _ _ _ (λ a, o = Returns a)); [by apply w_lift|intros ? ?]
  end.

(** ** Status, pause, scale down, TLS and defaults *)

Lemma w_RetryOnConflict fn : within mine fn (λ _, True) → within mine (RetryOnConflict fn) (λ _, True).
Proof. apply w_retry. Qed.

Lemma w_updateStatus : within mine updateStatus (λ _, True).
Proof. unfold updateStatus. w_seq (w_RetryOnConflict _ w_statusUpdateRmq). by apply w_ret. Qed.

Lemma w_getChildResources : within mine getChildResources (λ _, True).
Proof. unfold getChildResources. w_seq w_statefulSets. w_ends. w_seq (w_get KEndpoints). w_ends. Qed.

Lemma w_reconcileStatusConditions : within mine reconcileStatusConditions (λ _, True).
Proof.
  unfold reconcileStatusConditions. w_seq w_getChildResources. w_ends.
  eapply w_bind; [by apply (w_set_rmq _ (λ _, True))|]. intros _ _. w_ends. apply w_updateStatus.
Qed.

Lemma w_reconcileStatus : within mine reconcileStatus (λ _, True).
Proof.
  unfold reconcileStatus. w_ends. eapply w_bind; [by apply (w_set_rmq _ (λ _, True))|]. intros _ _. w_ends.
  apply w_updateStatus.
Qed.

Lemma w_reconcilePaused : within mine reconcilePaused (λ _, True).
Proof. unfold reconcilePaused. w_ends. Qed.

Lemma w_reconcileScaleDown : within mine reconcileScaleDown (λ _, True).
Proof. unfold reconcileScaleDown. w_ends. Qed.

Lemma w_checkTLSSecrets : within mine checkTLSSecrets (λ _, True).
Proof.
  unfold checkTLSSecrets, tlsError. w_ends. eapply (w_bind _ _ _ (λ _, True)); [by apply w_unlogged|]. intros ? _.
  w_ends. eapply (w_bind _ _ _ (λ _, True)); [by apply w_unlogged|]. intros ? _. w_ends.
Qed.

Lemma w_reconcileTLS : within mine reconcileTLS (λ _, True).
Proof. unfold reconcileTLS. w_ends. w_seq w_checkTLSSecrets. w_ends. Qed.

Lemma w_reconcileOperatorDefaults d : within mine (reconcileOperatorDefaults d) (λ _, True).
Proof.
  unfold reconcileOperatorDefaults. w_seq w_rmq. pose proof (applyDefaults_meta d a) as Hm.
  destruct (applyDefaults d a) as [x t]. cbn in Hm.
  eapply w_bind; [apply (w_set_rmq _ (λ _, True)); [by eapply sameCluster_meta|done]|]. intros _ _. w_ends.
  unfold updateRabbitmqCluster. w_seq (w_RetryOnConflict _ w_updateRmq). by apply w_ret.
Qed.

(** ** The marker annotations *)

Lemma w_reconcileQueueRebalanced : within mine reconcileQueueRebalanced (λ _, True).
Proof.
  unfold reconcileQueueRebalanced. w_seq w_statefulSets. w_ends. unfold markForQueueRebalance.
  eapply w_bind; [by apply (w_mod_rmq _ (λ _, True))|]. intros _ _. w_ends.
  eapply w_bind; [by apply (w_set_rmq _ (λ _, True))|]. intros _ _. w_seq w_updateRmq. w_ends.
Qed.

Lemma w_updateAnnotation k ns name key v :
  (∀ F (o : Obj k) done, ObjectKeyFromObject o = mkNamespacedName ns name → Answered k o ∈ F →
     may F (Updated k (annotate key v o) done)) →
  within mine (updateAnnotation k ns name key v) (λ _, True).
Proof.
  intros Hm. unfold updateAnnotation, OnError. apply f_retry. unfold updateAnnotationOnce.
  eapply f_bind; [apply f_get|]. intros F [err|o] _ Ho; [by apply f_ret|]. destruct (Ho _ eq_refl) as [Hk HF].
  eapply f_bind; [apply (f_update _ _ (λ _, True)); [intros done; by apply Hm|done..]|]. intros F' u _ _. by apply f_ret.
Qed.

Lemma w_annotateIfNeeded b res : replicaIndex b → within mine (annotateIfNeeded b res) (λ _, True).
Proof.
  intros Hb. unfold annotateIfNeeded. eapply w_bind; [apply w_rmq|]. intros x Hx. destruct (annotationTarget x b res) as [[[k name] key]|] eqn:E;
    [|by apply w_ret]. w_ends. eapply w_bind; [apply w_updateAnnotation|intros ? _; w_ends].
  intros F o done Ho HF. rw (proj1 Hx) in Ho.
  assert ((k, mkNamespacedName (rmq_Namespace r) name) = builderTarget r b ∧
    key ∈ [pluginsUpdateAnnotation; serverConfAnnotation; stsCreateAnnotation]) as [Ht Hk].
  { rw -(w_target x b Hx) /builderTarget (proj1 Hx).
    destruct b; try done; cbn in E; try case_match; try (case_bool_decide; try done); simplify_eq/=;
      (split; [done|set_solver]). }
  injection Ht as -> ->. by apply may_mark.
Qed.

(** ** The commands *)

Lemma w_pod x i : sameCluster r x → PodName x ResourceStatefulsetSuffix i = PodName r ResourceStatefulsetSuffix i.
Proof. intros Hx. unfold PodName, StatefulsetName. by rw (w_child_key _ x Hx). Qed.

Lemma w_execOrFail i msg cmd :
  (0 ≤ i)%Z → command cmd →
  within mine (execOrFail (PodName r ResourceStatefulsetSuffix i) msg cmd) (λ _, True).
Proof.
  intros Hi Hc. unfold execOrFail. eapply w_bind; [apply w_rmq|]. intros x (Hns & _).
  eapply (w_bind _ _ _ (λ _, True)); [|intros ? _; w_ends].
  unfold exec. apply w_logged; [|done]. intros _. rw Hns. by apply may_exec.
Qed.

Lemma w_setPluginsLoop x ords :
  sameCluster r x → Forall (λ i, 0 ≤ i)%Z ords → within mine (setPluginsLoop x ords) (λ _, True).
Proof.
  intros Hx. induction 1 as [|i ords Hi _ IH]; cbn [setPluginsLoop]; [by apply w_ret|].
  eapply w_bind; [|intros ? _; w_ends; exact IH]. rw w_pod //. apply w_execOrFail; [done|].
  right. right. by eexists.
Qed.

Lemma w_runSetPluginsCommand : within mine runSetPluginsCommand (λ _, True).
Proof.
  unfold runSetPluginsCommand. eapply w_bind; [apply w_rmq|]. intros x Hx. w_ends. apply w_setPluginsLoop; [done|].
  apply Forall_forall. intros i. rw elem_of_seqZ. lia.
Qed.

Lemma w_runEnableFeatureFlagsCommand : within mine runEnableFeatureFlagsCommand (λ _, True).
Proof.
  unfold runEnableFeatureFlagsCommand. eapply w_bind; [apply w_rmq|]. intros x Hx. rw w_pod //.
  apply w_execOrFail; [done|by left].
Qed.

Lemma w_runQueueRebalanceCommand : within mine runQueueRebalanceCommand (λ _, True).
Proof.
  unfold runQueueRebalanceCommand. eapply w_bind; [apply w_rmq|]. intros x Hx. rw w_pod //.
  apply w_execOrFail; [done|by right; left].
Qed.

Lemma f_orFail F what m k :
  within mine m (λ _, True) → (∀ F', F ⊆ F' → within_from mine F' k (λ _ _, True)) →
  within_from mine F (orFail what m k) (λ _ _, True).
Proof.
  intros Hm Hk. unfold orFail. eapply f_bind; [apply f_within, Hm|]. intros F' [err|] HF _; [by apply f_ret|].
  by apply Hk.
Qed.

Lemma f_orFail_from F what m k :
  within_from mine F m (λ _ _, True) → within mine k (λ _, True) →
  within_from mine F (orFail what m k) (λ _ _, True).
Proof.
  intros Hm Hk. unfold orFail. eapply f_bind; [exact Hm|]. intros F' [err|] HF _; [by apply f_ret|].
  by apply f_within.
Qed.

Lemma w_orFail what m k :
  within mine m (λ _, True) → within mine k (λ _, True) → within mine (orFail what m k) (λ _, True).
Proof. intros Hm Hk. apply f_orFail; [exact Hm|]. intros F' _. by apply f_within. Qed.

Lemma f_deleteAnnotation F {k} (o : Obj k) key (J : Obj k → Prop) :
  (∀ done, may F (Updated k (set_annotations (gm_delete key (annotations o)) o) done)) → J o →
  J (set_annotations (gm_delete key (annotations o)) o) →
  (∀ o', ObjectKeyFromObject o' = ObjectKeyFromObject o → om_UID (meta o') = om_UID (meta o) → J o') →
  within_from mine F (deleteAnnotation o key) (λ _ u, J u.1).
Proof.
  intros Hm Ho Ho1 Ho'. unfold deleteAnnotation. destruct (annotations o) eqn:E; [|by apply f_ret].
  apply f_update; [exact Hm|exact Ho1|]. intros o'. unfold ObjectKeyFromObject, set_annotations. rw !meta_set_meta.
  apply Ho'.
Qed.

Lemma f_enableFeatureFlags F stss k :
  Forall (shownFor F) stss → within mine k (λ _, True) → within_from mine F (enableFeatureFlags stss k) (λ _ _, True).
Proof.
  intros Hs Hk. revert F Hs. induction stss as [|sts stss IH]; intros F Hs; cbn [enableFeatureFlags]; [by apply f_within|].
  inversion_clear Hs as [|? ? [Hl Hin] Hstss]. destruct (statefulsetCreated sts); [|by apply IH].
  apply f_orFail; [apply w_runEnableFeatureFlagsCommand|]. intros F1 HF1.
  unfold orFail, removeStatefulsetCreatedFlag. eapply f_bind.
  - eapply f_bind; [apply (f_deleteAnnotation F1 (k := KStatefulSet) sts _ (λ _, True)); [|done..]|
      intros F2 u _ _; by apply (f_ret _ _ _ (λ _ _, True))].
    intros d. apply may_unmarkSts; [by apply HF1|done].
  - intros F2 [err|] HF2 _; [by apply f_ret|]. apply IH. eapply shownFor_more; [|exact Hstss]. by etrans.
Qed.

Lemma w_rebalanceIfNeeded : within mine rebalanceIfNeeded (λ _, True).
Proof.
  unfold rebalanceIfNeeded. w_ends. apply w_orFail; [apply w_runQueueRebalanceCommand|].
  apply w_orFail; [|by apply w_ret]. unfold removeQueueRebalanceFlag.
  eapply w_bind; [apply w_rmq|]. intros x Hx. eapply w_bind.
  - apply (f_deleteAnnotation _ (k := KRabbitmqCluster) x _ (sameCluster r)); [|done|done|].
    + intros d. by apply may_cluster.
    + intros o' Hk Hu. by eapply sameCluster_key.
  - intros u Hu. eapply w_bind; [by apply (w_set_rmq _ (λ _, True))|]. intros _ _. by apply w_ret.
Qed.

Lemma f_configMapPlugins F : within_from mine F configMapPlugins (λ F' got, ∀ cm, got = inr cm →
  ObjectKeyFromObject (k := KConfigMap) cm = (builderTarget r RabbitmqPluginsConfigMapBuilder).2 ∧
  Answered KConfigMap cm ∈ F').
Proof.
  unfold configMapPlugins. eapply f_bind; [apply f_within, w_rmq|]. intros F' x _ Hx.
  rw -(w_target x RabbitmqPluginsConfigMapBuilder Hx). apply (f_get _ KConfigMap).
Qed.

Lemma f_setPluginsIfNeeded F cm k :
  ObjectKeyFromObject (k := KConfigMap) cm = (builderTarget r RabbitmqPluginsConfigMapBuilder).2 →
  Answered KConfigMap cm ∈ F →
  (∀ F', F ⊆ F' → within_from mine F' k (λ _ _, True)) →
  within_from mine F (setPluginsIfNeeded cm k) (λ _ _, True).
Proof.
  intros Hcm Hin Hk. unfold setPluginsIfNeeded. destruct (negb _); [by apply Hk|].
  eapply f_bind; [apply f_within, w_now|]. intros F1 now HF1 _. destruct (pluginsConfigUpdatedRecently now cm); [by apply f_ret|].
  apply f_orFail; [apply w_runSetPluginsCommand|]. intros F2 HF2. unfold orFail, removePluginsConfigUpdatedFlag.
  eapply f_bind.
  - eapply f_bind; [apply (f_deleteAnnotation F2 (k := KConfigMap) cm _ (λ _, True)); [|done..]|
      intros F3 u _ _; by apply (f_ret _ _ _ (λ _ _, True))].
    intros d. apply may_unmarkPlugins; [by apply HF2, HF1|done].
  - intros F3 [err|] HF3 _; [by apply f_ret|]. apply Hk. by do 2 (etrans; [eassumption|]).
Qed.

Lemma w_reconcileRabbitmqCLI : within mine reconcileRabbitmqCLI (λ _, True).
Proof.
  unfold reconcileRabbitmqCLI. eapply f_bind; [apply f_statefulSets|]. intros F [err|stss] _ Hs; [by apply f_ret|].
  specialize (Hs _ eq_refl). eapply f_bind; [by apply f_within, (w_lift _ _ (λ _, True))|]. intros F1 ready HF1 _.
  destruct (negb ready); [by apply f_ret|]. eapply f_bind; [apply f_within, w_rmq|]. intros F2 x HF2 _.
  eapply f_bind; [by apply f_within, (w_deref _ _ (λ _, True))|]. intros F3 replicas HF3 _.
  destruct (negb _); [by apply f_ret|].
  eapply f_bind; [apply f_configMapPlugins|]. intros F4 [err|cm] HF4 Hcm; [by apply f_ret|].
  destruct (Hcm _ eq_refl) as [Hk Hin]. apply f_setPluginsIfNeeded; [done|done|]. intros F5 HF5.
  apply f_enableFeatureFlags; [|apply w_rebalanceIfNeeded].
  eapply shownFor_more; [|exact Hs]. by repeat (etrans; [eassumption|]).
Qed.

(** ** Growing the volumes *)

Section scale.
Context (i : Z) (Hi : (0 ≤ i)%Z).

(** The key of the StatefulSet of a replica. *)
Definition stsKey : NamespacedName := (builderTarget r (StatefulSetBuilder i)).2.

Lemma w_getPVCsLoop sts ords :
  ObjectKeyFromObject (k := KStatefulSet) sts = stsKey → Forall (λ j, 0 ≤ j)%Z ords →
  within mine (getPVCsLoop c_PVCName sts (nn_Namespace stsKey) ords)
    (λ got, ∀ pvcs, got = inr pvcs → Forall (claimOf c_PVCName stsKey) pvcs).
Proof.
  intros Hsts. induction 1 as [|j ords Hj _ IH]; cbn [getPVCsLoop].
  { apply w_ret. intros pvcs [= <-]. constructor. }
  eapply w_bind; [apply (w_csGet KPVC)|]. intros [err|pvc] Hp; [w_ends; exact IH|].
  eapply w_bind; [exact IH|]. intros [err|pvcs] Hps; apply w_ret; [done|]. intros ? [= <-].
  constructor; [|by apply Hps]. exists j. split; [done|]. rw (Hp _ eq_refl). unfold pvcKey, claimKey. by rw -Hsts.
Qed.

Lemma w_getPVCs :
  within mine (getPVCs c_PVCName stsKey) (λ got, ∀ pvcs, got = inr pvcs → Forall (claimOf c_PVCName stsKey) pvcs).
Proof.
  unfold getPVCs, getStatefulset. eapply w_bind; [apply (w_csGet KStatefulSet)|]. intros [err|sts] Hs.
  - destruct (errIsNotFound err); apply w_ret; [|done]. intros pvcs [= <-]. constructor.
  - w_ends. apply w_getPVCsLoop; [by apply Hs|]. apply Forall_forall. intros j Hj%elem_of_seqZ. lia.
Qed.

Lemma w_retryWithInterval msg total n (f : Run TW bool) :
  within mine f (λ _, True) → within mine (retryWithInterval msg total n f) (λ _, True).
Proof.
  intros Hf. induction n as [|n IH]; cbn [retryWithInterval]; [by apply w_ret|].
  eapply w_bind; [exact Hf|]. intros ok _. w_ends. exact IH.
Qed.

Lemma f_deleteStatefulset F sts :
  Answered KStatefulSet sts ∈ F → ObjectKeyFromObject (k := KStatefulSet) sts = stsKey →
  templateCapacity c_PVCName (stss_VolumeClaimTemplates (sts_Spec sts)) ≠ 0%Z →
  within_from mine F (deleteStatefulset stsKey) (λ _ _, True).
Proof.
  intros HF Hk Hc. unfold deleteStatefulset. eapply (f_bind _ _ _ _ (λ _ _, True)).
  { apply f_logged; [intros _; by apply (may_orphan r _ i sts)|done]. }
  intros F' [err|] _ _; [by apply f_ret|]. apply f_within.
  eapply w_bind; [apply w_retryWithInterval|intros ? _; w_ends].
  unfold statefulSetGone. eapply w_bind; [apply (w_csGet KStatefulSet)|]. intros ? _. by apply w_ret.
Qed.

Lemma w_scaleUpPVCs pvcs desired :
  Forall (claimOf c_PVCName stsKey) pvcs → within mine (scaleUpPVCs (nn_Namespace stsKey) pvcs desired) (λ _, True).
Proof.
  induction 1 as [|p pvcs (j & Hj & Hp) _ IH]; cbn [scaleUpPVCs]; [by apply w_ret|].
  eapply f_bind; [apply (f_csGet _ KPVC)|]. intros F [err|pvc] _ Hpvc; [by apply f_ret|].
  destruct (Hpvc _ eq_refl) as [Hk HF].
  eapply (f_bind _ _ _ _ (λ F' rq, F ⊆ F' ∧ gm_insert ResourceStorage desired (pvcs_Requests (pvc_Spec pvc)) = Returns rq)).
  { intros s Hs Hsub. apply run_lift. split_and!; [done..|]. intros rq Hrq. by split. }
  intros F1 rq HF1 [_ Hrq]. unfold gm_insert in Hrq.
  destruct (pvcs_Requests (pvc_Spec pvc)) as [old|] eqn:Eold; [|done]. injection Hrq as <-.
  eapply (f_bind _ _ _ _ (λ _ _, True)); [apply f_logged; [|done]|intros F2 [err|] _ _; [by apply f_ret|by apply f_within]].
  intros _. apply (may_grow r F1 i pvc); [done|by apply HF1| |by exists old, desired].
  exists j. split; [done|]. by rw Hk.
Qed.

Lemma w_Scale desired : within mine (Scale c_PVCName stsKey desired) (λ _, True).
Proof.
  unfold Scale, existingCapacity, getStatefulset.
  eapply (f_bind _ _ _ _ (λ F a, ∀ capacity, a = inr capacity → ∃ sts, Answered KStatefulSet sts ∈ F ∧
    ObjectKeyFromObject (k := KStatefulSet) sts = stsKey ∧
    templateCapacity c_PVCName (stss_VolumeClaimTemplates (sts_Spec sts)) = capacity)).
  { eapply f_bind; [apply (f_csGet _ KStatefulSet)|]. intros F [err|sts] _ Hs; apply f_ret; [done|].
    intros F' HF' capacity [= <-]. destruct (Hs _ eq_refl). exists sts. split_and!; [by apply HF'|done|done]. }
  intros F [err|capacity] _ Hcap; [destruct (errIsNotFound err); by apply f_ret|].
  destruct (Hcap _ eq_refl) as (sts & Hin & Hk & <-). set (capacity := templateCapacity _ _) in *.
  do 2 (destruct (Z.eqb _ _); [by apply f_ret|]). destruct (Cmp_spec capacity 0) as (Z0 & _).
  destruct (Z.eqb_spec (Cmp capacity 0) 0) as [|Hz]; [by apply f_ret|].
  eapply f_bind; [apply f_within, w_getPVCs|]. intros F1 [err|pvcs] HF1 Hp; [by apply f_ret|].
  specialize (Hp _ eq_refl). destruct (pvcsNeedingScaling pvcs desired) as [|p ps] eqn:E; [by apply f_ret|].
  eapply f_bind; [apply (f_deleteStatefulset _ sts); [by apply HF1|done|tauto]|].
  intros F2 [err|] _ _; [by apply f_ret|]. rw -E. apply f_within, w_scaleUpPVCs.
  apply Forall_forall. intros q [Hq _]%pvcsNeedingScaling_elem. rw Forall_forall in Hp. by apply Hp.
Qed.
End scale.

(** ** The children *)

(** Computations that call nothing and leave the metadata of the cluster. *)
Lemma w_silent {A} (m : Run TW A) (R : A → Prop) :
  frames (λ _, False) m → unshown m → (∀ s a s', mine s → m s = (Returns a, s') → R a) → within mine m R.
Proof.
  intros Hf Hu HR s Hs HF. eapply run_mono; [eapply (run_with _ _ _ (λ o s', notes s' = notes s ∧ ∀ a, o = Returns a → R a)); [apply Hf|]|].
  - intros o s' E. split; [by rw -(Hu s) E|]. intros a ->. by eapply HR.
  - intros o s' c [[->%silent_nil Hm] [Hn Ha]]. rw Hn. split_and!; [done|done| |done]. by eapply sameCluster_meta.
Qed.

Lemma setController_controls {k} x (o o' : Obj k) :
  setController x o = inr o' → GetControllerOf (meta o') = Some (controllerRef (rmq_ObjectMeta x)).
Proof.
  unfold setController. destruct (SetControllerReference _ _) as [?|m] eqn:E; [done|]. intros [= <-].
  rw meta_set_meta. apply SetControllerReference_inv in E as (-> & _ & He). by apply GetControllerOf_upsert.
Qed.
(** The update of a builder leaves the cluster as the controller of the object. *)
Section updates.

(** Case analysis down to the last step of an update. *)
Ltac last_step H :=
  unfold mbind, outcome_bind, tryf, wrapf, ok in H;
  repeat match type of H with
  | Returns (@setController _ _ _) = _ => fail 1
  | context [match ?x with _ => _ end] => destruct x; try done
  end;
  injection H as H;
  lazymatch type of H with @setController ?k _ _ = _ => by apply (setController_controls (k := k)) in H end.

Definition controls {k} (x : RabbitmqCluster) (o : Obj k) : Prop :=
  GetControllerOf (meta o) = Some (controllerRef (rmq_ObjectMeta x)).

Definition takesControl k (f : RabbitmqCluster → Obj k → fallible (Obj k)) : Prop :=
  ∀ i x x', f i x = ok x' → controls i x'.

Lemma HeadlessService_control : takesControl KService HeadlessService_Update.
Proof. intros i x x' Hx. unfold HeadlessService_Update in Hx. last_step Hx. Qed.
Lemma ErlangCookie_control : takesControl KSecret ErlangCookie_Update.
Proof. intros i x x' Hx. unfold ErlangCookie_Update in Hx. last_step Hx. Qed.
Lemma DefaultUserSecret_control : takesControl KSecret DefaultUserSecret_Update.
Proof. intros i x x' Hx. unfold DefaultUserSecret_Update in Hx. last_step Hx. Qed.
Lemma Plugins_control : takesControl KConfigMap RabbitmqPluginsConfigMap_Update.
Proof. intros i x x' Hx. unfold RabbitmqPluginsConfigMap_Update in Hx. last_step Hx. Qed.
Lemma ServiceAccount_control : takesControl KServiceAccount ServiceAccount_Update.
Proof. intros i x x' Hx. unfold ServiceAccount_Update in Hx. last_step Hx. Qed.
Lemma Role_control : takesControl KRole Role_Update.
Proof. intros i x x' Hx. unfold Role_Update in Hx. last_step Hx. Qed.
Lemma RoleBinding_control : takesControl KRoleBinding RoleBinding_Update.
Proof. intros i x x' Hx. unfold RoleBinding_Update in Hx. last_step Hx. Qed.
Lemma StatefulSet_control : takesControl KStatefulSet (λ i, StatefulSet_Update i).
Proof. intros i x x' Hx. unfold StatefulSet_Update in Hx. last_step Hx. Qed.

Hint Resolve HeadlessService_control ErlangCookie_control DefaultUserSecret_control Plugins_control
  ServiceAccount_control Role_control RoleBinding_control StatefulSet_control : op.

Lemma Service_control x (i : RabbitmqCluster) x' i' :
  Service_Update x i = (Returns (inr x'), i') → controls (k := KService) i x'.
Proof.
  intros Hu. unfold Service_Update in Hu. m_inv Hu. m_inv Hu. m_inv Hu. m_inv Hu.
  assert (rmq_ObjectMeta s1 = rmq_ObjectMeta i) as Hm.
  { injection E as <- <-. injection E0 as _ <-. injection E1 as _ <-. unfold defaultServiceType. by_tests. }
  injection E2 as <- <-. injection Hu as Hu _. unfold controls. rw -Hm.
  unfold Service_finish in Hu.
  repeat match type of Hu with context [match ?x with _ => _ end] => destruct x; try done end;
    by apply (setController_controls (k := KService)) in Hu.
Qed.

Lemma ServerConfigMap_control i flag x x' flag' :
  ServerConfigMap_Update i flag x = ok (x', flag') → controls (k := KConfigMap) i x'.
Proof.
  unfold ServerConfigMap_Update. destruct (iniLoad _); [done|]. destruct (rs_Replicas _); [|done].
  unfold ok. cbn. intros [= Hu]. apply tryr_inv in Hu as ([op user] & _ & Hu). apply tryr_inv in Hu as (cm & Hcm & Hu).
  apply tryr_inv in Hu as (fl & _ & [= <- <-]). by apply (setController_controls (k := KConfigMap)) in Hcm.
Qed.

Lemma assertKind_inv k o (x : Obj k) (s s' : Op TW) : assertKind k o s = (Returns x, s') → s' = s.
Proof. unfold assertKind. destruct (decide _); [|done]. by intros [= _ <-]. Qed.

Lemma pureUpdate_controls k f o (s : Op TW) o' s' :
  takesControl k f → pureUpdate k f o s = (Returns (inr o'), s') → controls (op_rmq s) (projT2 o').
Proof.
  intros Hf Hu. unfold pureUpdate in Hu. m_inv Hu. m_inv Hu. m_inv Hu. injection E0 as <- <-.
  apply assertKind_inv in E as ->. unfold lift in E1. injection E1 as E1 <-. injection Hu as Hp _.
  apply pack_inv in Hp as (x & -> & ->). by eapply Hf.
Qed.

Lemma Update_controls b o (s : Op TW) o' b' s' :
  Update b o s = (Returns (inr o', b'), s') → controls (op_rmq s) (projT2 o').
Proof.
  intros Hu. destruct b; cbn [Update] in Hu;
    try (m_inv Hu; injection Hu as -> <- <-; eapply pureUpdate_controls; [|exact E]; auto with op).
  - m_inv Hu. m_inv Hu. apply (assertKind_inv KService) in E as ->. injection Hu as Hp _ _.
    apply pack_inv in Hp as (x & -> & ->). unfold onInstance in E0.
    destruct (Service_Update a (op_rmq s)) as [out i] eqn:Es. injection E0 as -> _. by eapply Service_control.
  - m_inv Hu. m_inv Hu. m_inv Hu. apply (assertKind_inv KConfigMap) in E as ->. injection E0 as <- <-.
    unfold lift in E1. injection E1 as E1 <-. destruct a1 as [err|[x flag]]; [done|]. injection Hu as <- _ _.
    by eapply ServerConfigMap_control.
Qed.

(** A builder reads nothing. *)
Lemma assertKind_unshown k o : unshown (assertKind k o : Run TW _).
Proof. unfold assertKind. destruct (decide _); auto with trace. Qed.
Hint Extern 1 (unshown (assertKind ?k ?o)) => exact (assertKind_unshown k o) : trace.

Lemma Update_unshown b o : unshown (Update b o : Run TW _).
Proof.
  assert (∀ k f o, unshown (pureUpdate k f o : Run TW _)) by (intros; unfold pureUpdate; auto 10 with trace).
  destruct b; cbn [Update]; try solve [auto 20 with trace].
  apply unshown_bind; [auto with trace|]. intros obj. apply unshown_bind; [|auto with trace].
  intros s. unfold onInstance. by destruct (Service_Update obj (op_rmq s)).
Qed.

Lemma Build_unshown b : unshown (Build b : Run TW _).
Proof.
  assert (∀ n, unshown (randomEncodedString n : Run TW _)) by (intros; unfold randomEncodedString; auto 10 with trace).
  assert (∀ n, unshown (generateUsername n : Run TW _)) by (intros; unfold generateUsername; auto 10 with trace).
  destruct b; cbn [Build]; auto 10 with trace.
  - unfold ErlangCookie_Build. auto 20 with trace.
  - unfold DefaultUserSecret_Build. auto 30 with trace.
Qed.

(** *** Creating and updating *)

(** An object of the builder's kind under its key. *)
Definition childOf (b : ResourceBuilder) (k : Kind) (key : NamespacedName) : Prop :=
  k = builderKind b ∧ key = (builderTarget r b).2 ∧ replicaIndex b.

Lemma childOf_same b b' k key :
  builderTarget r b' = builderTarget r b → (replicaIndex b → replicaIndex b') → childOf b k key → childOf b' k key.
Proof.
  intros Ht Hi (-> & -> & Hb). split_and!; [|by rw Ht|by apply Hi].
  pose proof (f_equal fst Ht) as Hk. by cbn in Hk.
Qed.

Lemma may_createChild F b k (o : Obj k) done :
  childOf b k (ObjectKeyFromObject o) → controls r o → may F (Created k o done).
Proof. intros (-> & Hk & Hb) Ho. by apply may_create. Qed.

Lemma may_updateChild F b k (old o : Obj k) done :
  childOf b k (ObjectKeyFromObject o) → Answered k old ∈ F → made (W := TW) r (ObjectKeyFromObject o) old o →
  controls r o → may F (Updated k o done).
Proof. intros (-> & Hk & Hb) Hin Hm Ho. rw Hk in Hm. by eapply may_change. Qed.

Lemma Build_child b s o s' :
  mine s → Build b s = (Returns (inr o), s') → projT1 o = builderKind b ∧
  ObjectKeyFromObject (projT2 o) = (builderTarget r b).2.
Proof.
  intros Hs Hb. apply Build_built in Hb as [[Hk Hm] _]. split; [done|].
  rw -(w_target _ b Hs). unfold ObjectKeyFromObject. by rw Hm.
Qed.

Lemma w_Build b :
  replicaIndex b → within mine (Build b) (λ a, ∀ o, a = inr o → childOf b (projT1 o) (ObjectKeyFromObject (projT2 o))).
Proof.
  intros Hb. apply w_silent; [apply Build_frames|apply Build_unshown|]. intros s a s' Hs E o ->.
  apply Build_child in E as [??]; [|done]. by split_and!.
Qed.

Lemma Update_index b o (s : Op TW) u s' : Update b o s = (Returns u, s') → replicaIndex b → replicaIndex u.2.
Proof.
  intros Hu. destruct b; cbn [Update] in Hu; try (m_inv Hu; by injection Hu as <- <-).
  - m_inv Hu. m_inv Hu. by injection Hu as <- <-.
  - m_inv Hu. m_inv Hu. m_inv Hu. destruct a1 as [err|[obj flag]]; by injection Hu as <- <-.
Qed.

(** What an update and its check leave: an object under the same key that the
    cluster controls, and a builder with the same target. *)
Definition mutated {k} key (old : Obj k) (a : result (Obj k) * ResourceBuilder) : Prop :=
  childOf a.2 k key ∧ ∀ o, a.1 = inr o → ObjectKeyFromObject o = key ∧ controls r o ∧ made (W := TW) r key old o.

Lemma controls_same {k} x (o : Obj k) : sameCluster r x → controls x o → controls r o.
Proof.
  intros (_ & Hn & Hu). unfold controls, controllerRef. unfold rmq_Name in Hn. by rw Hn Hu.
Qed.

Lemma run_assertKind k o s : run (assertKind k o : Run TW _) s (λ out s' c, c = [] ∧ s' = s ∧
  ∀ x, out = Returns x → o = existT k x).
Proof.
  unfold assertKind. destruct (decide _) as [E|]; [|by apply run_panic]. apply run_ret. split_and!; [done|done|].
  intros x [= <-]. destruct o as [k' y]. cbn in *. by destruct E.
Qed.

Lemma w_mutate {k} b key (o : Obj k) : childOf b k key → within mine (mutate b key o) (mutated key o).
Proof.
  intros Hc. unfold mutate. eapply (w_bind _ _ _ (λ u, childOf u.2 k key ∧ ∀ o', u.1 = inr o' → controls r (projT2 o') ∧
    ∃ (s s' : Op TW), sameCluster r (op_rmq s) ∧ Update b (existT k o) s = (Returns (inr o', u.2), s'))).
  - apply w_silent; [apply Update_frames|apply Update_unshown|]. intros s u s' Hs E. split.
    + eapply childOf_same; [by eapply Update_builder|by eapply Update_index|done].
    + intros o' Ho. destruct u as [u1 b']. cbn in Ho. subst u1. split; [|by eauto].
      eapply controls_same; [exact Hs|]. by eapply Update_controls.
  - intros [[err|o'] b'] [Hc' Ho]; cbn [fst snd] in *; [by apply w_ret|].
    destruct (Ho _ eq_refl) as [Hctl (s & s' & Hs & Hu)].
    eapply (w_bind _ _ _ (λ x, o' = existT k x)).
    + apply w_silent; [apply assertKind_frames|apply assertKind_unshown|]. intros s1 x s2 _ E.
      pose proof (run_assertKind k o' s1) as (? & _ & _ & _ & Hx). apply Hx. by rw E.
    + intros x ->. case_bool_decide as Hkey; apply w_ret; split; cbn; try done.
      intros y [= <-]. split_and!; [done|done|].
      exists b, s, s', b'. destruct Hc as (-> & -> & _). by split_and!.
Qed.

(** The variables of the retry loop stay on one child. *)
Definition onChild (v : Vars) : Prop :=
  childOf (v_builder v) (projT1 (v_object v)) (ObjectKeyFromObject (projT2 (v_object v))).

Lemma w_CreateOrUpdate b o :
  childOf b (projT1 o) (ObjectKeyFromObject (projT2 o)) → within mine (CreateOrUpdate b o) (λ a, onChild a.1).
Proof.
  destruct o as [k o]. cbn [projT1 projT2]. intros Hc. unfold CreateOrUpdate, CreateOrUpdateObj. cbn [projT1 projT2].
  eapply f_bind; [apply (f_get _ k)|]. intros F [err|existing] _ He.
  - apply f_within. destruct (negb _); [by apply w_ret|]. eapply w_bind; [by apply w_mutate|].
    intros [[e|o1] b1] [Hc1 Ho1]; cbn [fst snd] in *; [by apply w_ret|].
    destruct (Ho1 _ eq_refl) as (Hk & Ho & _). rw -Hk in Hc1.
    eapply (w_bind _ _ _ (λ a, ∀ o2, a = inr o2 → ObjectKeyFromObject o2 = ObjectKeyFromObject o1)).
    + apply w_logged; [intros a; by apply (may_createChild _ b1)|]. intros w o2. apply laws_create.
    + intros [e|o2] H2; apply w_ret; [done|]. unfold onChild. cbn. by rw (H2 _ eq_refl).
  - destruct (He _ eq_refl) as [Hkey Hin]. eapply f_bind; [by apply f_within, w_mutate|].
    intros F1 [[e|o1] b1] HF1 [Hc1 Ho1]; cbn [fst snd] in *; [apply f_ret; intros; unfold onChild; cbn; by rw Hkey|].
    destruct (Ho1 _ eq_refl) as (Hk & Ho & Hm). rw -Hk in Hc1 Hm.
    destruct (SemanticDeepEqual k existing o1); [by apply f_ret|]. eapply f_bind.
    + apply (f_update _ o1 (λ o2, ObjectKeyFromObject o2 = ObjectKeyFromObject o1)); [|done|done].
      intros d. apply (may_updateChild _ b1 _ existing); [done|by apply HF1|done|done].
    + intros F2 [o2 [e|]] _ H2; cbn [fst snd] in *; apply f_ret; intros; unfold onChild; cbn; by rw H2.
Qed.

Lemma w_attempt : within (both mine onChild) attempt (λ _, True).
Proof.
  unfold attempt. eapply w_bind; [apply w_local|]. intros v Hv.
  eapply w_bind; [apply w_outer; by apply w_CreateOrUpdate|]. intros a Ha.
  eapply w_bind; [by apply (w_set_local _ _ _ (λ _, True))|]. intros _ _. by apply w_ret.
Qed.

Lemma w_logAndRecord o res err : within mine (logAndRecordOperationResult o res err) (λ _, True).
Proof.
  unfold logAndRecordOperationResult. destruct (bool_decide _); [by apply w_ret|]. destruct err; apply w_event.
Qed.

Lemma w_reconcilePVCOf b o :
  childOf b (projT1 o) (ObjectKeyFromObject (projT2 o)) → within mine (reconcilePVCOf o) (λ _, True).
Proof.
  intros Hc. unfold reconcilePVCOf. destruct o as [[] o]; try by apply w_ret. unfold reconcilePVC.
  destruct Hc as (Hk & Hkey & Hb). destruct b as [| | | | | | | | |i]; try done. cbn [projT1 projT2] in Hkey. rw Hkey.
  eapply w_bind; [by apply (w_Scale i)|]. intros ? _. w_ends.
Qed.

Lemma w_reconcileBuilder b : replicaIndex b → within mine (reconcileBuilder b) (λ _, True).
Proof.
  intros Hb. unfold reconcileBuilder. eapply w_bind; [by apply w_Build|]. intros [err|o] Ho; [by apply w_ret|].
  specialize (Ho _ eq_refl). eapply w_bind; [by eapply w_reconcilePVCOf|]. intros res _.
  destruct (Completed res); [by apply w_ret|].
  eapply w_bind; [apply (w_withLocal mine onChild _ _ (λ _, True)); [exact Ho|]|].
  { eapply w_retry, w_attempt. }
  intros [err v] [_ Hv]. cbn [snd] in Hv. eapply w_bind; [apply w_logAndRecord|]. intros _ _. w_ends.
  eapply w_bind; [apply w_annotateIfNeeded, Hv|]. intros ? _. w_ends.
Qed.

Lemma w_reconcileBuilders bs :
  Forall replicaIndex bs → within mine (reconcileBuilders bs) (λ _, True).
Proof.
  induction 1 as [|b bs Hb _ IH]; cbn [reconcileBuilders]; [by apply w_ret|].
  eapply w_bind; [by apply w_reconcileBuilder|]. intros ? _. w_ends. exact IH.
Qed.

Lemma ResourceBuilders_index n x : Forall replicaIndex (ResourceBuilders n x).
Proof.
  rw ResourceBuilders_eq. repeat (apply Forall_app; split); [by repeat constructor| |by repeat constructor|].
  - destruct (_ || _); by repeat constructor.
  - apply Forall_forall. intros b (i & -> & Hi%elem_of_seqZ)%list_elem_of_fmap. cbn. lia.
Qed.

Lemma w_waitResourceReady : within mine waitResourceReady (λ _, True).
Proof. unfold waitResourceReady. w_seq w_statefulSets. w_ends. Qed.

Lemma w_reconcileResources : within mine reconcileResources (λ _, True).
Proof.
  unfold reconcileResources. w_seq w_waitResourceReady. w_ends. apply w_reconcileBuilders, ResourceBuilders_index.
Qed.
End updates.

(** *** Restarting *)

Lemma f_restartStatefulSet F sts : shownFor F sts → within_from mine F (restartStatefulSet sts) (λ _ _, True).
Proof.
  intros [Hsts Hin]. unfold restartStatefulSet.
  set (J x := ObjectKeyFromObject (k := KStatefulSet) x = ObjectKeyFromObject (k := KStatefulSet) sts).
  eapply f_bind; [apply (f_withLocal mine J _ _ _ (λ _, True)); [done|]|intros F' [[err|] sts'] _ _; apply f_within; w_ends].
  apply f_retry. unfold restartOnce. eapply f_bind; [apply f_within, w_local|]. intros F1 x HF1 Hx.
  eapply f_bind; [apply f_outer, (f_get _ KStatefulSet)|]. intros F2 [err|y] HF2 Hy; [by apply f_ret|].
  destruct (Hy _ eq_refl) as [Hk Hiny]. eapply f_bind; [apply f_outer, f_within, w_now|]. intros F3 now HF3 _.
  assert (J y) as HJ by (unfold J; rw -Hx; exact Hk).
  eapply f_bind; [apply f_outer, (f_update _ (k := KStatefulSet) _ J)|].
  - intros d. apply (may_restart r _ sts y); [by apply HF3, HF2, HF1|done|by apply HF3|done].
  - exact HJ.
  - intros o' Ho' _. unfold J. by rw Ho'.
  - intros F4 u _ Hu. apply f_within. eapply w_bind; [by apply (w_set_local _ _ _ (λ _, True))|]. intros _ _. by apply w_ret.
Qed.

Lemma w_configMapServer : within mine configMapServer (λ _, True).
Proof. unfold configMapServer. w_seq w_rmq. eapply w_any, (w_get KConfigMap). Qed.

Lemma w_restartStatefulSetIfNeeded : within mine restartStatefulSetIfNeeded (λ _, True).
Proof.
  unfold restartStatefulSetIfNeeded. w_seq w_configMapServer. w_ends.
  eapply f_bind; [apply f_statefulSets|]. intros F [err|stss] _ Hs; [by apply f_ret|]. specialize (Hs _ eq_refl).
  induction Hs as [|sts stss Hsts _ IH]; cbn [restartFirst]; [by apply f_ret|].
  destruct (restartedSince _ _); [exact IH|]. by apply f_restartStatefulSet.
Qed.

(** *** Deletion *)

Section deletion.
Context (Hdeleting : deletionIsZero r = false).

Lemma f_markPods F sts selector pods :
  shownFor F sts → controlledBy r (sts_ObjectMeta sts) → stss_Selector (sts_Spec sts) = Some selector →
  Forall (λ pod, carries (gm (ls_MatchLabels selector)) (pod_ObjectMeta pod) ∧ Answered KPod pod ∈ F) pods →
  within_from mine F (markPods pods) (λ _ _, True).
Proof.
  intros [Hl Hin] Hc Hsel. induction 1 as [|pod pods [Hpod Hinp] _ IH]; cbn [markPods]; [by apply f_ret|].
  eapply (f_bind _ _ _ _ (λ _ p, markPod pod = Returns p)); [by apply f_lift|]. intros F1 p HF1 Hp.
  eapply f_bind; [apply (f_update _ (k := KPod) p (λ _, True)); [|done..]|
    intros F2 u HF2 _; destruct (IgnoreNotFound _); [by apply f_ret|eapply f_shown; [exact IH|by etrans]]].
  intros d. apply (may_label r _ sts selector pod); [done|by apply HF1|done|done|by apply HF1|done|done|].
  unfold markPod, gm_insert in Hp.
  destruct (om_Labels (pod_ObjectMeta pod)) as [labels|] eqn:El; [|done]. injection Hp as <-. by exists labels, d.
Qed.

Lemma f_deleteOnce F sts : shownFor F sts → within_from mine F (deleteOnce sts) (λ _ _, True).
Proof.
  intros [Hl Hin]. unfold deleteOnce. eapply f_bind; [apply f_within, w_rmq|]. intros F1 x HF1 (_ & _ & Hu).
  destruct (statefulSetUID sts x) as [err|uid] eqn:Eu; [by apply f_ret|].
  assert (uid = om_UID (sts_ObjectMeta sts) ∧ controlledBy r (sts_ObjectMeta sts)) as [-> Hc].
  { unfold statefulSetUID in Eu. destruct (GetControllerOf _) as [ref|] eqn:Er; [|done].
    destruct (String.eqb_spec (om_UID (rmq_ObjectMeta x)) (or_UID ref)) as [E|]; [|done]. injection Eu as <-.
    split; [done|]. exists ref. split; [exact Er|]. by rw -E. }
  eapply (f_bind _ _ _ _ (λ _ _, True)).
  - unfold addRabbitmqDeletionLabel. eapply f_bind; [apply f_within, (w_deref _ _ (λ a, stss_Selector (sts_Spec sts) = Some a)); done|].
    intros F2 selector HF2 Hsel.
    eapply f_bind; [apply (f_unlogged _ _ _ (λ got, ∀ pods, got = inr pods →
      Forall (λ pod, carries (gm (ls_MatchLabels selector)) (pod_ObjectMeta pod)) pods))|].
    + intros w pods Hp. apply (laws_list KPod) in Hp.
      eapply Forall_impl; [exact Hp|]. by intros pod [? _].
    + intros F3 [err|pods] HF3 [Hp Hsub]; [by apply f_ret|]. specialize (Hp _ eq_refl).
      apply (f_markPods _ sts selector); [split; [done|by apply HF3, HF2, HF1]|done|done|].
      rw Forall_forall in Hp. apply Forall_forall. intros pod Hpod. split; [by apply Hp|]. apply Hsub.
      by apply (list_elem_of_fmap_2 (Answered KPod)).
  - intros F2 [err|] HF2 _; [by apply f_ret|]. eapply (f_bind _ _ _ _ (λ _ _, True)); [|intros ? ? _ _; by apply f_ret].
    apply f_logged; [|done]. intros _. apply may_delete; [done|by apply HF2, HF1|done|done].
Qed.

Lemma f_deleteStatefulSets F stss :
  Forall (shownFor F) stss → within_from mine F (deleteStatefulSets stss) (λ _ _, True).
Proof.
  revert F. induction stss as [|sts stss IH]; intros F Hs; cbn [deleteStatefulSets]; [by apply f_ret|].
  inversion_clear Hs. eapply f_bind; [by apply f_retry, f_deleteOnce|]. intros F1 _ HF1 _. apply IH.
  by eapply shownFor_more.
Qed.
End deletion.

Lemma w_updateFinalizers change :
  (∀ m f, om_Namespace (change m f).2 = om_Namespace m ∧ om_Name (change m f).2 = om_Name m ∧
          om_UID (change m f).2 = om_UID m) →
  within mine (updateFinalizers change) (λ _, True).
Proof.
  intros Hch. unfold updateFinalizers. eapply w_bind; [apply w_rmq|]. intros x Hx.
  specialize (Hch (rmq_ObjectMeta x) deletionFinalizer). destruct (change _ _) as [changed m]. cbn in Hch.
  destruct Hch as (Hns & Hn & Hu). eapply w_bind.
  - apply (w_set_rmq _ (λ _, True)); [|done]. unfold sameCluster, rmq_Namespace, rmq_Name in *. cbn. by rw Hns Hn Hu.
  - intros _ _. w_ends. w_seq w_updateRmq. w_ends.
Qed.

(** What [within] says of one state. *)
Definition keeps {A} (m : Run TW A) (s : Op TW) : Prop :=
  run m s (λ _ s' c, notes s ⊆ notes s' ∧ Forall (may (notes s')) c ∧ mine s').

Lemma within_keeps {A} (m : Run TW A) (R : A → Prop) s : within mine m R → mine s → keeps m s.
Proof. intros Hm Hs. eapply run_mono; [apply Hm; [done|apply list_subseteq_nil]|]. by intros o s' c (? & ? & ? & _). Qed.

Lemma keeps_bind {A B} (m : Run TW A) (f : A → Run TW B) s :
  keeps m s → (∀ a, within mine (f a) (λ _, True)) → keeps (m ≫= f) s.
Proof.
  intros Hm Hf. eapply run_bind; [exact Hm| |by intros e s1 c1].
  intros a s1 c1 (G1 & H1 & I1). eapply run_mono; [eapply within_keeps; [apply Hf|done]|]. intros o s2 c2 (G2 & H2 & I2).
  split_and!; [by etrans| |done]. apply Forall_app. split; [by eapply may_shown_all|done].
Qed.

Lemma w_addFinalizer : within mine addFinalizer (λ _, True).
Proof.
  unfold addFinalizer. w_ends. apply w_updateFinalizers. intros m f. unfold AddFinalizer. by destruct (bool_decide _).
Qed.

Lemma w_removeFinalizer : within mine removeFinalizer (λ _, True).
Proof. apply w_updateFinalizers. intros m f. unfold RemoveFinalizer. by_tests. Qed.

(** Whether the cluster is being deleted is decided on the object that was read. *)
Lemma keeps_reconcileDelete s : op_rmq s = r → keeps reconcileDelete s.
Proof.
  intros Hs. assert (mine s) as Hm by (unfold mine; by rw Hs). unfold keeps, reconcileDelete.
  apply run_seq, run_rmq. cbn beta iota. rw Hs. cbn [app].
  destruct (deletionIsZero r) eqn:Hz; [by eapply within_keeps; [apply w_addFinalizer|]|].
  eapply (within_keeps _ (λ _, True)); [|exact Hm]. eapply f_bind; [apply f_statefulSets|].
  intros F [err|stss] _ Hl; [by apply f_ret|].
  eapply f_bind; [apply f_deleteStatefulSets; [done|by apply Hl]|]. intros F1 _ _ _. apply f_within, w_removeFinalizer.
Qed.

(** ** A reconciliation *)

Section reconciliation.
Context (d : Defaults).

Lemma w_andThen step k : within mine step (λ _, True) → within mine k (λ _, True) → within mine (andThen step k) (λ _, True).
Proof.
  intros Hs Hk. unfold andThen. eapply w_bind; [exact Hs|]. intros res _.
  destruct (Completed res); [by apply w_lift|exact Hk].
Qed.

Lemma w_lastStep k : within mine k (λ _, True) → within mine (lastStep k) (λ _, True).
Proof.
  intros Hk. unfold lastStep. eapply w_bind; [apply w_reconcileRabbitmqCLI|]. intros res _.
  destruct (Completed res); [|exact Hk]. eapply (w_bind _ _ _ (λ _, True)); [|intros _ _; by apply w_lift].
  destruct (IsError res); [|by apply w_ret]. destruct (GetError res); [apply w_setCondition|apply w_panic].
Qed.

Lemma w_finish : within mine finish (λ _, True).
Proof.
  unfold finish. eapply w_bind; [by apply (w_mod_rmq _ (λ _, True))|]. intros _ _. w_seq w_setCondition. by apply w_ret.
Qed.

Lemma keeps_steps s : op_rmq s = r → keeps (steps d) s.
Proof.
  intros Hs. unfold steps. apply keeps_bind; [by apply keeps_reconcileDelete|]. intros res.
  destruct (Completed res); [by apply w_lift|].
  apply w_andThen; [apply w_reconcilePaused|]. apply w_andThen; [apply w_reconcileOperatorDefaults|].
  apply w_andThen; [apply w_reconcileStatusConditions|]. apply w_andThen; [apply w_reconcileTLS|].
  apply w_andThen; [apply w_reconcileQueueRebalanced|]. apply w_andThen; [apply w_reconcileScaleDown|].
  apply w_andThen; [apply w_reconcileResources|]. apply w_andThen; [apply w_restartStatefulSetIfNeeded|].
  apply w_andThen; [apply w_reconcileStatus|]. apply w_lastStep, w_finish.
Qed.

Lemma w_deferred before : within mine (deferred before) (λ _, True).
Proof.
  unfold deferred. eapply w_bind; [|intros ? _; by apply w_ret]. apply w_RetryOnConflict. unfold deferredOnce.
  w_ends. apply w_statusUpdateRmq.
Qed.

Lemma keeps_reconcileFound s : op_rmq s = r → keeps (reconcileFound d) s.
Proof.
  intros Hs. unfold keeps, reconcileFound. apply run_seq, run_rmq. cbn beta iota. cbn [app].
  destruct (keeps_steps s Hs) as (c1 & Hl1 & G1 & H1 & I1). unfold run, withDefer.
  destruct (steps d s) as [o s1]. cbn [fst snd] in *.
  destruct (within_keeps _ _ s1 (w_deferred (rmq_Status (op_rmq s))) I1) as (c2 & Hl2 & G2 & H2 & I2).
  destruct (deferred _ s1) as [o2 s2]. cbn [fst snd] in *. exists (c1 ++ c2).
  split; [by rw Hl2 Hl1 app_assoc|]. split_and!; [by etrans| |done].
  apply Forall_app. split; [by eapply may_shown_all|done].
Qed.
End reconciliation.
End services.
End within.

(** ** Property *)

Section authority.
Context {W : Type} `{!Kube W, !ServerLaws W, !Library}.

(** C1: the authority of the operator.  Whatever the API server answers, as long
    as writes keep the identity of objects and reads answer what was asked for,
    and whatever the reconciliation comes to, an error and a panic included,
    every call of it is one that [may] allows for the cluster that was read and
    for the objects that its gets and lists have answered.  Children are only
    created under the names of the cluster, with the cluster as their
    controller, and an update of one sends back an object that was read, either
    as its builder changes it, with the cluster as the controller, or with one
    marker put on or taken off, or with the pod template stamped.  Pods are
    labelled, and StatefulSets deleted by their uid, only for a cluster that is
    being deleted, and only those it controls by its uid.  The one other
    deletion is that of the StatefulSet of a replica that was read and has a
    volume, by its name and without its pods, for a cluster in any state and
    whoever controls it; and of claims of a replica that were read nothing but
    the request for storage is changed.  Commands are three scripts in the pods
    of the cluster, and of clusters only the one that was read is written.
    Without a cluster there is no call at all. *)
Theorem Reconcile_authority d req (w : W) l :
  let '(_, (_, shown, log')) := Reconcile d req (w, [], l) in
  ∃ calls, log' = l ++ calls ∧
  match (kGet KRabbitmqCluster req w).1 with
  | inl _ => calls = []
  | inr r => ObjectKeyFromObject r = req ∧ Forall (may (W := W * list Note * list Call) r shown) calls
  end.
Proof.
  unfold Reconcile. cbn [kGet traced unlogged recorded]. unfold unlogged, noting. cbn [fst snd].
  destruct (kGet KRabbitmqCluster req w) as [[err|r] w1] eqn:E; cbn [fst snd answer app].
  { exists []. by rw app_nil_r. }
  destruct (keeps_reconcileFound r d (mkOp r (w1, [Answered KRabbitmqCluster r], l)) eq_refl) as (calls & Hl & _ & Hc & _).
  destruct (reconcileFound d (mkOp r (w1, [Answered KRabbitmqCluster r], l))) as [o [x [[w2 shown] l2]]].
  cbn [fst snd] in *. exists calls. split; [exact Hl|]. split; [by eapply laws_get|done].
Qed.
End authority.
