(* ===== verification/Quiet.v ===== *)
(** Computations that leave alone what an invariant is about.  Most of a
    reconciliation does not touch the objects of one given kind; an invariant
    about them is kept by the silent calls, and so by every step that makes no
    other.  The rules follow the structure of a computation. *)

From S2P Require Import Prelude GoStd K8s V1beta1 Constant Metadata Kube Controllerutil Builder Services Secrets Builders.
From S2P Require Import Hoare Trace Result Status Scaling ControllerUtils Configurations Resources Store Steps.
From S2P Require Import Deletion Cli Reconcile.

(** ** The interface *)

(** The calls that write no object of the kind. *)
Inductive silent {W : Type} `{!Kube W} (K : Kind) : ∀ A, Ext W A → Prop :=
  | silent_get k key : silent K _ (kGet k key)
  | silent_list k ns labels : silent K _ (kList k ns labels)
  | silent_readerGet k key : silent K _ (kReaderGet k key)
  | silent_csGet k key : silent K _ (csGet k key)
  | silent_event r ty reason msg : silent K _ (kEvent r ty reason msg)
  | silent_now : silent K _ kNow
  | silent_random n : silent K _ (kRandRead n)
  | silent_exec ns pod container cmd : silent K _ (kExec ns pod container cmd)
  | silent_create k o : k ≠ K → silent K _ (kCreate k o)
  | silent_update k o : k ≠ K → silent K _ (kUpdate k o)
  | silent_status r : KRabbitmqCluster ≠ K → silent K _ (kStatusUpdate r)
  | silent_delete k uid o : k ≠ K → silent K _ (kDelete k uid o)
  | silent_csUpdate k ns o : k ≠ K → silent K _ (csUpdate k ns o)
  | silent_orphan k key : k ≠ K → silent K _ (csDeleteOrphan k key).

(** The same cluster as far as its name goes. *)
Definition named (r x : RabbitmqCluster) : Prop := rmq_Namespace x = rmq_Namespace r ∧ rmq_Name x = rmq_Name r.

Lemma named_meta r x y : rmq_ObjectMeta y = rmq_ObjectMeta x → named r x → named r y.
Proof. unfold named, rmq_Namespace, rmq_Name. by intros ->. Qed.

Lemma named_key r x y :
  ObjectKeyFromObject (k := KRabbitmqCluster) y = ObjectKeyFromObject (k := KRabbitmqCluster) x → named r x → named r y.
Proof. unfold named, rmq_Namespace, rmq_Name. intros [= Hns Hn] [? ?]. split; congruence. Qed.

(** An invariant about objects of the kind and the name of the cluster; and the
    writes of the cluster keep its name. *)
Class About {W : Type} `{!Kube W} (r : RabbitmqCluster) (K : Kind) (I : Op W → Prop) : Prop := {
  about_kind : KRabbitmqCluster ≠ K;
  about_named s : I s → named r (op_rmq s);
  about_rmq s x : I s → named r x → I (mkOp x (op_world s));
  about_silent {A} (f : Ext W A) s : silent K A f → I s → I (mkOp (op_rmq s) (f (op_world s)).2);
  about_update s x y : I s → (kUpdate KRabbitmqCluster x (op_world s)).1 = inr y →
    ObjectKeyFromObject (k := KRabbitmqCluster) y = ObjectKeyFromObject (k := KRabbitmqCluster) x;
  about_status s x y : I s → (kStatusUpdate x (op_world s)).1 = inr y →
    ObjectKeyFromObject (k := KRabbitmqCluster) y = ObjectKeyFromObject (k := KRabbitmqCluster) x
}.

(** ** The rules *)

Section rules.
Context {W : Type} `{!Kube W} {r : RabbitmqCluster} {K : Kind} {I : Op W → Prop} `{!About r K I}.
Implicit Types (s : Op W).

Lemma q_silent {A} (f : Ext W A) : silent K A f → steady I (ext f) (λ _, True).
Proof.
  intros Hf s Hs. pose proof (about_silent f s Hf Hs) as H. unfold ext. by destruct (f (op_world s)).
Qed.

Lemma q_rmq : steady I rmq (named r).
Proof. intros s Hs. split; [exact Hs|]. by apply (about_named (K := K)). Qed.

Lemma q_set_rmq x : named r x → steady I (set_rmq x) (λ _, True).
Proof. intros Hx s Hs. split; [|done]. by apply (about_rmq (K := K)). Qed.

Lemma q_mod_rmq f : (∀ x, named r x → named r (f x)) → steady I (mod_rmq f) (λ _, True).
Proof.
  intros Hf s Hs. split; [|done]. apply (about_rmq (K := K)); [exact Hs|]. by apply Hf, (about_named (K := K)).
Qed.

Lemma q_statefulSets : steady I statefulSets (λ _, True).
Proof. unfold statefulSets. eapply s_bind; [apply q_rmq|]. intros x _. apply q_silent. constructor. Qed.

Lemma q_event ty reason msg : steady I (event ty reason msg) (λ _, True).
Proof. unfold event. eapply s_bind; [apply q_rmq|]. intros x _. apply q_silent. constructor. Qed.

Lemma q_setCondition ty st reason msgs : steady I (setCondition ty st reason msgs) (λ _, True).
Proof.
  unfold setCondition. eapply s_bind; [apply q_silent; constructor|]. intros now _. by apply q_mod_rmq.
Qed.

Lemma q_update {k} (o : Obj k) : k ≠ K → steady I (update o) (λ _, True).
Proof.
  intros Hk. unfold update. eapply s_bind; [apply q_silent; by constructor|]. intros [err|o'] _; by apply s_ret.
Qed.

Lemma q_updateNamed x : named r x → steady I (update (k := KRabbitmqCluster) x) (λ u, named r u.1).
Proof.
  intros Hx. unfold update. eapply (s_bind _ _ _ (λ a, ∀ y, a = inr y → named r y)).
  - intros s Hs. pose proof (q_silent _ (silent_update K KRabbitmqCluster x about_kind) s Hs) as H.
    pose proof (about_update (K := K) s x) as Hu. unfold ext in *.
    destruct (kUpdate KRabbitmqCluster x (op_world s)) as [a w]. cbn in *. split; [apply H|].
    intros y ->. eapply named_key; [by apply Hu|exact Hx].
  - intros [err|y] Hy; apply s_ret; [done|]. by apply Hy.
Qed.

Lemma q_updateRmq : steady I updateRmq (λ _, True).
Proof.
  unfold updateRmq. eapply s_bind; [apply q_rmq|]. intros x Hx.
  eapply s_bind; [by apply q_updateNamed|]. intros u Hu.
  eapply s_bind; [by apply q_set_rmq|]. intros _ _. by apply s_ret.
Qed.

Lemma q_statusUpdateRmq : steady I statusUpdateRmq (λ _, True).
Proof.
  unfold statusUpdateRmq. eapply s_bind; [apply q_rmq|]. intros x Hx.
  eapply (s_bind _ _ _ (λ a, ∀ y, a = inr y → named r y)).
  - intros s Hs. pose proof (q_silent _ (silent_status K x about_kind) s Hs) as H.
    pose proof (about_status (K := K) s x) as Hu. unfold ext in *.
    destruct (kStatusUpdate x (op_world s)) as [a w]. cbn in *. split; [apply H|].
    intros y ->. eapply named_key; [by apply Hu|exact Hx].
  - intros [err|y] Hy; [by apply s_ret|]. eapply s_bind; [apply q_set_rmq; by apply Hy|]. intros _ _. by apply s_ret.
Qed.

Lemma q_retry n retriable fn last : steady I fn (λ _, True) → steady I (OnErrorSteps n retriable fn last) (λ _, True).
Proof. apply s_retry. Qed.

Lemma q_onInstance {A} (m : M RabbitmqCluster A) :
  (∀ x, rmq_ObjectMeta (m x).2 = rmq_ObjectMeta x) → steady I (onInstance m) (λ _, True).
Proof.
  intros Hm s Hs. unfold onInstance. specialize (Hm (op_rmq s)). destruct (m (op_rmq s)) as [o x]. cbn in *.
  assert (I (mkOp x (op_world s))) as Hx.
  { apply (about_rmq (K := K)); [exact Hs|]. eapply named_meta; [exact Hm|]. by apply (about_named (K := K)). }
  by destruct o.
Qed.
End rules.

(** A silent call. *)
Ltac silent f :=
  lazymatch f with
  | kGet ?k ?key => exact (q_silent _ (silent_get _ k key))
  | kReaderGet ?k ?key => exact (q_silent _ (silent_readerGet _ k key))
  | csGet ?k ?key => exact (q_silent _ (silent_csGet _ k key))
  | csUpdate ?k ?ns ?o => refine (q_silent _ (silent_csUpdate _ k ns o _)); congruence
  | csDeleteOrphan ?k ?key => refine (q_silent _ (silent_orphan _ k key _)); congruence
  | kDelete ?k ?uid ?o => refine (q_silent _ (silent_delete _ k uid o _)); congruence
  | kList ?k ?ns ?labels => exact (q_silent _ (silent_list _ k ns labels))
  | _ => apply q_silent; constructor; congruence
  end.

(** Follow the structure of a computation that does not look at its answers. *)
Ltac quiet :=
  repeat match goal with
  | |- steady _ (mret _) _ => by apply s_ret
  | |- steady _ (panic _) _ => apply s_panic
  | |- steady _ (lift _) _ => by apply s_lift
  | |- steady _ (deref _) _ => by apply s_deref
  | |- steady _ rmq (λ _, True) => eapply s_any, q_rmq
  | |- steady _ (set_rmq _) _ => apply q_set_rmq; first [eassumption|eapply named_meta; eassumption]
  | |- steady _ (mod_rmq _) _ => apply q_mod_rmq; intros ? Hnamed; exact Hnamed
  | |- steady _ (ext ?f) _ => silent f
  | |- steady _ (exec _ _ _ _) _ => apply q_silent; constructor
  | |- steady _ (event _ _ _) _ => apply q_event
  | |- steady _ (setCondition _ _ _ _) _ => apply q_setCondition
  | |- steady _ statefulSets _ => apply q_statefulSets
  | |- steady _ statusUpdateRmq _ => apply q_statusUpdateRmq
  | |- steady _ updateRmq _ => apply q_updateRmq
  | |- steady _ (OnErrorSteps _ _ _ _) _ => apply q_retry
  | |- steady _ (RetryOnConflict _) _ => apply q_retry
  | |- steady _ (OnError _ _) _ => apply q_retry
  | |- steady _ (rmq ≫= _) _ => eapply s_bind; [apply q_rmq|intros ? ?]
  | |- steady _ (_ ≫= _) _ => eapply (s_bind _ _ _ (λ _, True)); [|intros ? _]
  | |- steady _ (match ?x with _ => _ end) _ => destruct x eqn:?
  | |- steady _ (let _ := _ in _) _ => cbv zeta
  end.

(** ** The steps on the cluster object *)

Section steps.
Context {W : Type} `{!Kube W} {r : RabbitmqCluster} {K : Kind} {I : Op W → Prop} `{!About r K I}.
Implicit Types (s : Op W).

Lemma q_updateStatus : steady I updateStatus (λ _, True).
Proof. unfold updateStatus. quiet. Qed.

Lemma q_reconcileStatusConditions : steady I reconcileStatusConditions (λ _, True).
Proof. unfold reconcileStatusConditions, getChildResources. quiet. apply q_updateStatus. Qed.

Lemma q_reconcileStatus : steady I reconcileStatus (λ _, True).
Proof. unfold reconcileStatus. quiet. apply q_updateStatus. Qed.

Lemma q_reconcilePaused : steady I reconcilePaused (λ _, True).
Proof. unfold reconcilePaused. quiet. Qed.

Lemma q_reconcileScaleDown : steady I reconcileScaleDown (λ _, True).
Proof. unfold reconcileScaleDown. quiet. Qed.

Lemma q_reconcileTLS : steady I reconcileTLS (λ _, True).
Proof. unfold reconcileTLS, checkTLSSecrets, tlsError. quiet. Qed.

Lemma q_reconcileOperatorDefaults d : steady I (reconcileOperatorDefaults d) (λ _, True).
Proof.
  unfold reconcileOperatorDefaults, updateRabbitmqCluster. eapply s_bind; [apply q_rmq|]. intros x Hx.
  pose proof (applyDefaults_meta d x) as Hm. destruct (applyDefaults d x) as [y t]. cbn in Hm. quiet.
Qed.

Lemma q_reconcileQueueRebalanced : steady I reconcileQueueRebalanced (λ _, True).
Proof. unfold reconcileQueueRebalanced, markForQueueRebalance. quiet. Qed.

Lemma AddFinalizer_named x f : named r x → named r (set_rmq_ObjectMeta (AddFinalizer (rmq_ObjectMeta x) f).2 x).
Proof. unfold AddFinalizer. by case_bool_decide. Qed.

Lemma q_addFinalizer : steady I addFinalizer (λ _, True).
Proof.
  unfold addFinalizer, updateFinalizers. eapply s_bind; [apply q_rmq|]. intros x _.
  destruct (negb (deletionIsZero x)); [by apply s_ret|]. eapply s_bind; [apply q_rmq|]. intros y Hy.
  pose proof (AddFinalizer_named y deletionFinalizer Hy) as Hm.
  destruct (AddFinalizer _ _) as [changed m]. quiet.
Qed.

Lemma q_deferred before : steady I (deferred before) (λ _, True).
Proof. unfold deferred, deferredOnce. quiet. Qed.

(** *** Building and updating in memory *)

Lemma q_assertKind k o : steady I (assertKind k o) (λ _, True).
Proof. unfold assertKind. quiet. Qed.

Section memory.
Context `{!Library}.

Lemma q_logAndRecord o res err : steady I (logAndRecordOperationResult o res err) (λ _, True).
Proof. unfold logAndRecordOperationResult. quiet. Qed.

Lemma q_Build b : steady I (Build b) (λ _, True).
Proof.
  destruct b; cbn [Build]; unfold ErlangCookie_Build, DefaultUserSecret_Build, generateUsername, randomEncodedString; quiet.
Qed.

Lemma q_pureUpdate k f o : steady I (pureUpdate k f o) (λ _, True).
Proof. unfold pureUpdate. quiet. apply q_assertKind. Qed.

Lemma q_Update b o : steady I (Update b o) (λ _, True).
Proof.
  destruct b; cbn [Update]; quiet; try apply q_pureUpdate; try exact (q_assertKind _ o).
  apply q_onInstance. intros x. apply Service_Update_meta.
Qed.

Lemma q_mutate {k} b key (obj : Obj k) :
  steady I (mutate b key obj) (λ m, ∀ o, m.1 = inr o → ObjectKeyFromObject o = key).
Proof.
  unfold mutate. eapply s_bind; [apply q_Update|]. intros [[err|o] b'] _; cbn [fst snd]; [by apply s_ret|].
  eapply s_bind; [apply q_assertKind|]. intros x _. case_bool_decide as Hk; apply s_ret; [done|].
  intros o' [= <-]. by destruct (decide (key = ObjectKeyFromObject x)).
Qed.
End memory.

(** *** Markers and commands *)

Lemma q_updateAnnotation k ns name key v : k ≠ K → steady I (updateAnnotation k ns name key v) (λ _, True).
Proof. intros Hk. unfold updateAnnotation, updateAnnotationOnce. quiet. by apply q_update. Qed.

Lemma q_annotateIfNeeded b res :
  (∀ k ns name key v, k ∈ [KConfigMap; KStatefulSet] → steady I (updateAnnotation k ns name key v) (λ _, True)) →
  steady I (annotateIfNeeded b res) (λ _, True).
Proof.
  intros Hmark. unfold annotateIfNeeded. quiet. apply Hmark.
  match goal with H : annotationTarget _ _ _ = _ |- _ => revert H end.
  unfold annotationTarget. repeat case_match; intros [= <- _ _]; rw !elem_of_cons; auto.
Qed.

Lemma q_execOrFail pod msg cmd : steady I (execOrFail pod msg cmd) (λ _, True).
Proof. unfold execOrFail. quiet. Qed.

Lemma q_orFail what m k :
  steady I m (λ _, True) → steady I k (λ _, True) → steady I (orFail what m k) (λ _, True).
Proof. intros Hm Hk. unfold orFail. quiet; [exact Hm|exact Hk]. Qed.

Lemma q_setPluginsLoop x ords : steady I (setPluginsLoop x ords) (λ _, True).
Proof. induction ords as [|i ords IH]; cbn [setPluginsLoop]; quiet; [apply q_execOrFail|exact IH]. Qed.

Lemma q_deleteAnnotation {k} (o : Obj k) key : k ≠ K → steady I (deleteAnnotation o key) (λ _, True).
Proof. intros Hk. unfold deleteAnnotation. quiet. by apply q_update. Qed.

Lemma q_enableFeatureFlags stss k :
  (∀ sts, sts ∈ stss → steady I (removeStatefulsetCreatedFlag sts) (λ _, True)) →
  steady I k (λ _, True) → steady I (enableFeatureFlags stss k) (λ _, True).
Proof.
  intros Hs Hk. induction stss as [|sts stss IH]; cbn [enableFeatureFlags]; [exact Hk|].
  assert (steady I (enableFeatureFlags stss k) (λ _, True)) as Hrest.
  { apply IH. intros x Hx. by apply Hs, list_elem_of_further. }
  destruct (statefulsetCreated sts); [|exact Hrest]. apply q_orFail; [|apply q_orFail; [|exact Hrest]].
  - unfold runEnableFeatureFlagsCommand. quiet. apply q_execOrFail.
  - apply Hs, list_elem_of_here.
Qed.

Lemma q_rebalanceIfNeeded : steady I rebalanceIfNeeded (λ _, True).
Proof.
  unfold rebalanceIfNeeded. quiet. apply q_orFail; [|apply q_orFail; [|by apply s_ret]].
  - unfold runQueueRebalanceCommand. quiet. apply q_execOrFail.
  - unfold removeQueueRebalanceFlag. eapply s_bind; [apply q_rmq|]. intros x Hx.
    eapply (s_bind _ _ _ (λ u, named r u.1)); [|intros u Hu; quiet].
    unfold deleteAnnotation. destruct (annotations _) eqn:E; [|by apply s_ret]. by apply q_updateNamed.
Qed.

(** [R] holds for the StatefulSets as they are listed. *)
Lemma q_reconcileRabbitmqCLI (R : StatefulSet → Prop) :
  KConfigMap ≠ K → steady I statefulSets (λ got, ∀ stss, got = inr stss → ∀ sts, sts ∈ stss → R sts) →
  (∀ sts, R sts → steady I (removeStatefulsetCreatedFlag sts) (λ _, True)) →
  steady I reconcileRabbitmqCLI (λ _, True).
Proof.
  intros Hk Hl Hsts. unfold reconcileRabbitmqCLI. eapply s_bind; [exact Hl|]. intros [err|stss] Hs; [by apply s_ret|].
  unfold configMapPlugins. quiet.
  assert (steady I (enableFeatureFlags stss rebalanceIfNeeded) (λ _, True)) as Hrest.
  { apply q_enableFeatureFlags; [|apply q_rebalanceIfNeeded]. intros sts Hin. by apply Hsts, (Hs stss). }
  unfold setPluginsIfNeeded. quiet; [exact Hrest|]. apply q_orFail; [|apply q_orFail; [|exact Hrest]].
  - unfold runSetPluginsCommand. quiet. apply q_setPluginsLoop.
  - unfold removePluginsConfigUpdatedFlag. quiet. by apply (q_deleteAnnotation (k := KConfigMap)).
Qed.

(** *** The volumes *)

Lemma q_scaleUpPVCs ns pvcs desired : KPVC ≠ K → steady I (scaleUpPVCs ns pvcs desired) (λ _, True).
Proof. intros Hk. induction pvcs as [|p pvcs IH]; cbn [scaleUpPVCs]; quiet. exact IH. Qed.

Lemma q_getPVCs pvcName key : steady I (getPVCs pvcName key) (λ _, True).
Proof.
  unfold getPVCs, getStatefulset. quiet.
  match goal with |- steady _ (getPVCsLoop _ _ _ ?l) _ => induction l as [|i ords IH] end; cbn [getPVCsLoop]; quiet; exact IH.
Qed.
End steps.

(** ** A whole reconciliation *)

(** For a kind whose objects are only written as children, all is silent but
    the attempts to create or update a child. *)
Section elsewhere.
Context {W : Type} `{!Kube W, !Library} {r : RabbitmqCluster} {K : Kind} {I : Op W → Prop} `{!About r K I}.
Context (Hsts : KStatefulSet ≠ K) (Hcm : KConfigMap ≠ K) (Hpod : KPod ≠ K) (Hpvc : KPVC ≠ K).

Lemma q_poll msg total n m : steady I m (λ _, True) → steady I (retryWithInterval msg total n m) (λ _, True).
Proof. intros Hm. induction n as [|n IH]; cbn [retryWithInterval]; quiet; [exact Hm|exact IH]. Qed.

Lemma q_deleteStatefulset key : steady I (deleteStatefulset key) (λ _, True).
Proof using All. unfold deleteStatefulset. quiet. apply q_poll. unfold statefulSetGone. quiet. Qed.

Lemma q_reconcilePVCOf o : steady I (reconcilePVCOf o) (λ _, True).
Proof using All.
  destruct o as [[] o]; cbn [reconcilePVCOf]; quiet. unfold reconcilePVC, Scale, existingCapacity, getStatefulset. quiet.
  - apply q_getPVCs.
  - apply q_deleteStatefulset.
  - by apply q_scaleUpPVCs.
Qed.

(** A closure that assigns a local variable. *)
Lemma q_local {L A} (l : L) (m : M (Op W * L) A) :
  steady (λ sl, I sl.1) m (λ _, True) → steady I (withLocal l m) (λ _, True).
Proof.
  intros Hm. apply t_withLocal. eapply t_conseq; [exact Hm|by intros sl []|by intros a sl|done].
Qed.

Lemma q_outer {L A} (m : M (Op W) A) :
  steady I m (λ _, True) → steady (λ sl : Op W * L, I sl.1) (outer m) (λ _, True).
Proof.
  intros Hm. eapply t_conseq; [exact (t_outer_steady I (λ _ : L, True) m _ Hm)|done|by intros a sl [[]]|done].
Qed.

Lemma q_restartFirst upd stss : steady I (restartFirst upd stss) (λ _, True).
Proof using All.
  induction stss as [|sts stss IH]; cbn [restartFirst]; [by apply s_ret|].
  destruct (restartedSince upd sts); [exact IH|]. unfold restartStatefulSet.
  eapply (s_bind _ _ _ (λ _, True)); [|intros [[err|] v] _; quiet]. apply q_local, (s_retry _ _ _ _ _ (λ _, True)). unfold restartOnce.
  eapply (s_bind _ _ _ (λ _, True)); [by intros sl Hs|]. intros v _.
  eapply (s_bind _ _ _ (λ _, True)); [apply q_outer; quiet|]. intros [err|x] _; [by apply s_ret|].
  eapply (s_bind _ _ _ (λ _, True)); [apply q_outer; quiet|]. intros now _. cbv zeta.
  eapply (s_bind _ _ _ (λ _, True)); [by apply q_outer, q_update|]. intros u _.
  eapply (s_bind _ _ _ (λ _, True)); [by intros sl Hs|]. intros [] _. by apply s_ret.
Qed.

Lemma q_restartStatefulSetIfNeeded : steady I restartStatefulSetIfNeeded (λ _, True).
Proof using All. unfold restartStatefulSetIfNeeded, configMapServer. quiet. apply q_restartFirst. Qed.

Lemma RemoveFinalizer_named x f :
  named r x → named r (set_rmq_ObjectMeta (RemoveFinalizer (rmq_ObjectMeta x) f).2 x).
Proof. done. Qed.

Lemma q_markPods pods : steady I (markPods pods) (λ _, True).
Proof using All. induction pods as [|pod pods IH]; cbn [markPods]; quiet; [by apply (q_update (k := KPod))|exact IH]. Qed.

Lemma q_deleteStatefulSets stss : steady I (deleteStatefulSets stss) (λ _, True).
Proof using All.
  induction stss as [|sts stss IH]; cbn [deleteStatefulSets]; quiet; [|exact IH].
  unfold deleteOnce, addRabbitmqDeletionLabel. quiet. apply q_markPods.
Qed.

Lemma q_reconcileDelete : steady I reconcileDelete (λ _, True).
Proof using All.
  unfold reconcileDelete. quiet; [apply q_addFinalizer| |].
  - apply q_deleteStatefulSets.
  - unfold removeFinalizer, updateFinalizers. eapply s_bind; [apply q_rmq|]. intros y Hy.
    pose proof (RemoveFinalizer_named y deletionFinalizer Hy) as Hm.
    destruct (RemoveFinalizer _ _) as [changed m]. quiet.
Qed.

(** The attempts keep the invariant too. *)
Hypothesis attempts : ∀ b o, steady I (withLocal (mkVars o b OperationResultNone) (RetryOnConflict attempt)) (λ _, True).

Lemma q_reconcileBuilders bs : steady I (reconcileBuilders bs) (λ _, True).
Proof using All.
  induction bs as [|b bs IH]; cbn [reconcileBuilders]; [by apply s_ret|].
  eapply (s_bind _ _ _ (λ _, True)); [|intros res _; destruct (Completed res); [by apply s_ret|exact IH]].
  unfold reconcileBuilder. eapply (s_bind _ _ _ (λ _, True)); [apply q_Build|]. intros [err|o] _; [by apply s_ret|].
  eapply (s_bind _ _ _ (λ _, True)); [apply q_reconcilePVCOf|]. intros res _.
  destruct (Completed res); [by apply s_ret|].
  eapply (s_bind _ _ _ (λ _, True)); [apply attempts|]. intros [err v] _.
  eapply (s_bind _ _ _ (λ _, True)); [apply q_logAndRecord|]. intros _ _. destruct err as [err|]; [quiet|].
  eapply (s_bind _ _ _ (λ _, True)); [|intros res' _; quiet].
  apply q_annotateIfNeeded. intros k ns name key v' Hk. apply q_updateAnnotation.
  apply elem_of_cons in Hk as [->|[->|[]%not_elem_of_nil]%elem_of_cons]; done.
Qed.

Lemma q_reconcileResources : steady I reconcileResources (λ _, True).
Proof using All. unfold reconcileResources, waitResourceReady. quiet. apply q_reconcileBuilders. Qed.

Lemma q_andThen (step : Run W ReconcileResult) k :
  steady I step (λ _, True) → steady I k (λ _, True) → steady I (andThen step k) (λ _, True).
Proof.
  intros Hs Hk. unfold andThen. eapply (s_bind _ _ _ (λ _, True)); [exact Hs|]. intros res _.
  destruct (Completed res); [by apply s_lift|exact Hk].
Qed.

Lemma q_steps d : steady I (steps d) (λ _, True).
Proof using All.
  unfold steps.
  apply q_andThen; [apply q_reconcileDelete|].
  apply q_andThen; [apply q_reconcilePaused|].
  apply q_andThen; [apply q_reconcileOperatorDefaults|].
  apply q_andThen; [apply q_reconcileStatusConditions|].
  apply q_andThen; [apply q_reconcileTLS|].
  apply q_andThen; [apply q_reconcileQueueRebalanced|].
  apply q_andThen; [apply q_reconcileScaleDown|].
  apply q_andThen; [apply q_reconcileResources|].
  apply q_andThen; [apply q_restartStatefulSetIfNeeded|].
  apply q_andThen; [apply q_reconcileStatus|].
  unfold lastStep, finish. eapply (s_bind _ _ _ (λ _, True)); [|intros res _; quiet].
  apply (q_reconcileRabbitmqCLI (λ _, True)); [done| |].
  - eapply s_mono; [apply q_statefulSets|done].
  - intros sts _. unfold removeStatefulsetCreatedFlag. quiet. by apply (q_deleteAnnotation (k := KStatefulSet)).
Qed.

Lemma q_reconcileFound d s : I s → I (reconcileFound d s).2.
Proof using All.
  intros Hs. change (reconcileFound d s) with (withDefer (steps d) (deferred (rmq_Status (op_rmq s))) s).
  unfold withDefer. pose proof (q_steps d s Hs) as H1. destruct (steps d s) as [o s1].
  assert (I s1) as Hs1 by by destruct o; [destruct H1|]. clear H1.
  pose proof (q_deferred (rmq_Status (op_rmq s)) s1 Hs1) as H2. destruct (deferred _ s1) as [od s2].
  destruct od; cbn in *; [by destruct H2|exact H2].
Qed.
End elsewhere.
