(* ===== verification/Rollout.v ===== *)
(** The operator rolls a change out one replica at a time: one reconciliation
    disturbs at most one StatefulSet, and none while a replica is not ready.
    The API server may refuse any call or fail; only the operator writes while
    a reconciliation runs, and others do what they like between two of them. *)

From S2P Require Import Prelude GoStd K8s V1beta1 Constant Metadata Merge Kube Controllerutil Builder Secrets Builders.
From S2P Require Import Hoare Trace Result Status Scaling ControllerUtils Configurations Resources Store Steps.
From S2P Require Import Deletion Cli Reconcile Authority Quiet.

(** ** The API server *)

Section frame.
Context {W : Type} `{!Kube W, !Store W}.

(** A read answers the truth, or fails. *)
Definition truthful {A} (stored : option A) (answer : result A) : Prop :=
  match answer with
  | inr o => stored = Some o
  | inl err => errIsNotFound err = true → stored = None
  end.

(** A write of [o] changes the object with its key only.  It leaves the object
    as the server keeps it; with an error it may or may not have been carried
    out, but one that is answered by a conflict has not. *)
Definition writes {k} (o : Obj k) (w : W) (aw : result (Obj k) * W) : Prop :=
  let key := ObjectKeyFromObject o in
  (∀ k' key', (k', key') ≠ (k, key) → contents aw.2 k' key' = contents w k' key') ∧
  match aw.1 with
  | inr o' => served o o' ∧ contents aw.2 k key = Some o'
  | inl err => contents aw.2 k key = contents w k key ∨
               errIsConflict err = false ∧ ∃ o', served o o' ∧ contents aw.2 k key = Some o'
  end.
End frame.

Class FrameLaws (W : Type) `{!Kube W, !Store W} : Prop := {
  frame_get k key (w : W) : truthful (contents w k key) (kGet k key w).1 ∧ sameStore w (kGet k key w).2;
  frame_csGet k key (w : W) : truthful (contents w k key) (csGet k key w).1 ∧ sameStore w (csGet k key w).2;
  frame_key (w : W) k key o : contents w k key = Some o → ObjectKeyFromObject o = key;
  frame_list k ns labels (w : W) : sameStore w (kList k ns labels w).2 ∧
    ∀ os, (kList k ns labels w).1 = inr os → ∀ o : Obj k, o ∈ os ↔
      contents w k (ObjectKeyFromObject o) = Some o ∧ carries labels (meta o) ∧
      match ns with Some ns => om_Namespace (meta o) = ns | None => True end;
  frame_create k (o : Obj k) (w : W) : writes o w (kCreate k o w);
  frame_update k (o : Obj k) (w : W) : writes o w (kUpdate k o w);
  frame_csUpdate k ns (o : Obj k) (w : W) : writes o w (csUpdate k ns o w);
  frame_orphan k key (w : W) :
    (∀ k' key', (k', key') ≠ (k, key) → contents (csDeleteOrphan k key w).2 k' key' = contents w k' key') ∧
    (contents (csDeleteOrphan k key w).2 k key = contents w k key ∨ contents (csDeleteOrphan k key w).2 k key = None);
  frame_delete k uid (o : Obj k) (w : W) :
    ∀ k' key', (k', key') ≠ (k, ObjectKeyFromObject o) → contents (kDelete k uid o w).2 k' key' = contents w k' key';
  frame_status (r : RabbitmqCluster) (w : W) :
    (∀ k key, k ≠ KRabbitmqCluster → contents (kStatusUpdate r w).2 k key = contents w k key) ∧
    ∀ r', (kStatusUpdate r w).1 = inr r' →
      ObjectKeyFromObject (k := KRabbitmqCluster) r' = ObjectKeyFromObject (k := KRabbitmqCluster) r;
  frame_readerGet k key (w : W) : sameStore w (kReaderGet k key w).2;
  frame_event r ty reason msg (w : W) : sameStore w (kEvent r ty reason msg w).2;
  frame_now (w : W) : sameStore w (kNow w).2;
  frame_random n (w : W) : sameStore w (kRandRead n w).2;
  frame_exec ns pod container cmd (w : W) : sameStore w (kExec ns pod container cmd w).2
}.

(** ** What matters of a StatefulSet *)

(** Its spec, its status and its labels: the rest is metadata, such as the
    annotations with which the operator marks it. *)
Definition view (sts : StatefulSet) : StatefulSetSpec * StatefulSetStatus * gomap string :=
  (sts_Spec sts, sts_Status sts, om_Labels (sts_ObjectMeta sts)).

Section views.
Context {W : Type} `{!Kube W, !Store W, !FrameLaws W}.
Implicit Types (w : W) (key : NamespacedName).

Definition viewAt w key := view <$> contents w KStatefulSet key.

Definition sameViews w w' : Prop := ∀ key, viewAt w' key = viewAt w key.

(** All StatefulSets but the one with the key, if the kind is that of one. *)
Definition otherViews (t : Kind * NamespacedName) w w' : Prop :=
  ∀ key, (KStatefulSet, key) ≠ t → viewAt w' key = viewAt w key.

Lemma sameViews_refl w : sameViews w w.
Proof. done. Qed.

Lemma sameViews_trans w1 w2 w3 : sameViews w1 w2 → sameViews w2 w3 → sameViews w1 w3.
Proof. intros H1 H2 key. by rw H2 H1. Qed.

Lemma sameStore_views w w' : sameStore w w' → sameViews w w'.
Proof. intros Hs key. unfold viewAt. by rw Hs. Qed.

Lemma served_view (o o' : StatefulSet) : served (k := KStatefulSet) o o' → view o' = view o.
Proof. intros (m & (_ & _ & Hl & _) & ->). unfold view. cbn in *. by rw Hl. Qed.

Lemma writes_other {k} (o : Obj k) w aw : writes o w aw → otherViews (k, ObjectKeyFromObject o) w aw.2.
Proof. intros [Ho _] key Hne. unfold viewAt. by rw Ho. Qed.

Lemma writes_conflict {k} (o : Obj k) w aw err :
  writes o w aw → aw.1 = inl err → errIsConflict err = true → sameViews w aw.2.
Proof.
  intros [Ho Hc] E Hconf. rw E in Hc. destruct Hc as [Hc|[Hf _]]; [|congruence]. apply sameStore_views. intros k' key'.
  destruct (decide ((k', key') = (k, ObjectKeyFromObject o))) as [[= -> ->]|Hne]; [exact Hc|by apply Ho].
Qed.

Lemma writes_child {k} (o : Obj k) w aw : k ≠ KStatefulSet → writes o w aw → sameViews w aw.2.
Proof. intros Hk Hw key. eapply writes_other; [exact Hw|]. intros [=]. done. Qed.

(** A write that leaves the view. *)
Lemma writes_view (o : StatefulSet) w aw :
  writes (k := KStatefulSet) o w aw →
  viewAt w (ObjectKeyFromObject (k := KStatefulSet) o) = Some (view o) → sameViews w aw.2.
Proof.
  intros Hw Hv key. destruct (decide (key = ObjectKeyFromObject (k := KStatefulSet) o)) as [->|Hne].
  - rw Hv. destruct Hw as [_ Hw]. unfold viewAt in *.
    destruct aw.1 as [err|o']; [destruct Hw as [->|(_ & o' & Hs & ->)]; [exact Hv|]|destruct Hw as [Hs ->]];
      cbn; by rw (served_view _ _ Hs).
  - eapply writes_other; [exact Hw|]. intros [= ?]. done.
Qed.
End views.

(** ** Computations that disturb nothing *)

Section quiet.
Context {W : Type} `{!Kube W, !Store W, !FrameLaws W} (r : RabbitmqCluster).
Implicit Types (s : Op W).

(** An invariant that depends on the views and the name of the cluster only. *)
Class Stable (I : Op W → Prop) : Prop := {
  stable_named s : I s → named r (op_rmq s);
  stable_views s s' : I s → named r (op_rmq s') → sameViews (op_world s) (op_world s') → I s'
}.

Section rules.
Context (I : Op W → Prop) `{!Stable I}.

Lemma silent_views {A} (f : Ext W A) w : silent KStatefulSet A f → sameViews w (f w).2.
Proof.
  intros Hf. destruct Hf as [k key|k ns labels|k key|k key| | | | |k o Hk|k o Hk|x _|k uid o Hk|k ns o Hk|k key Hk].
  - by apply sameStore_views, frame_get.
  - by apply sameStore_views, frame_list.
  - by apply sameStore_views, frame_readerGet.
  - by apply sameStore_views, frame_csGet.
  - by apply sameStore_views, frame_event.
  - by apply sameStore_views, frame_now.
  - by apply sameStore_views, frame_random.
  - by apply sameStore_views, frame_exec.
  - eapply writes_child; [exact Hk|apply frame_create].
  - eapply writes_child; [exact Hk|apply frame_update].
  - intros key. unfold viewAt. by rw (proj1 (frame_status x w)).
  - intros key. unfold viewAt. rw frame_delete //. congruence.
  - eapply writes_child; [exact Hk|apply frame_csUpdate].
  - intros key'. unfold viewAt. rw (proj1 (frame_orphan k key w)) //. congruence.
Qed.

#[export] Instance stable_about : About r KStatefulSet I.
Proof.
  split; [done|apply stable_named| | | |].
  - intros s x Hs Hx. by eapply stable_views.
  - intros A f s Hf Hs. eapply stable_views; [exact Hs|exact (stable_named (I := I) s Hs)|by apply silent_views].
  - intros s x y _ E. destruct (frame_update KRabbitmqCluster x (op_world s)) as [_ Hw]. rw E in Hw.
    by apply served_key, (proj1 Hw).
  - intros s x y _ E. by apply (frame_status x (op_world s)).
Qed.

Lemma q_ext {A} (f : Ext W A) (R : A → Prop) :
  (∀ s, I s → sameViews (op_world s) (f (op_world s)).2 ∧ R (f (op_world s)).1) → steady I (ext f) R.
Proof.
  intros Hf s Hs. specialize (Hf s Hs) as [Hv HR]. unfold ext. destruct (f (op_world s)) as [a w]. cbn in *.
  split; [|done]. eapply (stable_views (I := I)); [exact Hs|exact (stable_named (I := I) _ Hs)|done].
Qed.
End rules.

Section steps.
Context (I : Op W → Prop) `{!Stable I}.

(** *** Marker annotations *)

(** A write of [o] leaves the views: that of its StatefulSet, if it is one, is stored. *)
Definition keepsView {k} : Obj k → W → Prop :=
  match k with
  | KStatefulSet => λ o w, viewAt w (ObjectKeyFromObject (k := KStatefulSet) o) = Some (view o)
  | _ => λ _ _, True
  end.

Lemma keepsView_writes {k} (o : Obj k) w aw : keepsView o w → writes o w aw → sameViews w aw.2.
Proof. destruct k; intros Hv Hw; solve [by eapply writes_child|by eapply writes_view]. Qed.

Lemma keepsView_annotations {k} (o : Obj k) key w m :
  contents w k key = Some o → keepsView (set_annotations m o) w.
Proof.
  intros Hc. pose proof (frame_key _ _ _ _ Hc) as <-. destruct k; try done.
  unfold keepsView, viewAt. change (ObjectKeyFromObject (set_annotations m o))
    with (ObjectKeyFromObject (k := KStatefulSet) o). by rw Hc.
Qed.

Lemma t_update_view {k} (o : Obj k) :
  triple (λ s, I s ∧ keepsView o (op_world s)) (update o) (λ _ s, I s) I.
Proof.
  intros s [Hs Hv]. unfold update, mbind, M_bind, ext. pose proof (frame_update k o (op_world s)) as Hw.
  apply keepsView_writes in Hw; [|exact Hv]. destruct (kUpdate k o (op_world s)) as [a w]. cbn in *.
  eapply (stable_views (I := I)); [exact Hs|exact (stable_named (I := I) _ Hs)|exact Hw].
Qed.

Lemma q_mark k ns name key v : steady I (updateAnnotation k ns name key v) (λ _, True).
Proof.
  unfold updateAnnotation, OnError. apply q_retry. unfold updateAnnotationOnce.
  eapply (t_bind _ _ _ (λ got s, I s ∧ match got with inr o => contents (op_world s) k (mkNamespacedName ns name) = Some o | inl _ => True end)).
  - intros s Hs. destruct (frame_get k (mkNamespacedName ns name) (op_world s)) as [Ht Hsame].
    unfold ext. destruct (kGet k _ (op_world s)) as [got w]. cbn in *. split.
    + eapply (stable_views (I := I)); [exact Hs|exact (stable_named (I := I) _ Hs)|by apply sameStore_views].
    + destruct got as [|o]; [done|]. by rw Hsame.
  - intros [err|o].
    + apply t_ret. by intros s [? _].
    + eapply t_bind; [eapply t_conseq; [apply (t_update_view (annotate key v o))| |done|done]|].
      * intros s [Hs Hc]. split; [exact Hs|]. by eapply keepsView_annotations.
      * intros u. by apply t_ret.
Qed.

End steps.

(** ** Relative to the world in which a reconciliation starts *)

Section start.
Context (w0 : W).

(** No StatefulSet was disturbed; none but the one; and that one was deleted. *)
Definition near s : Prop := named r (op_rmq s) ∧ sameViews w0 (op_world s).
Definition apart (t : Kind * NamespacedName) s : Prop := named r (op_rmq s) ∧ otherViews t w0 (op_world s).
Definition gone (key : NamespacedName) s : Prop :=
  apart (KStatefulSet, key) s ∧ viewAt (op_world s) key = None.

#[local] Instance near_stable : Stable near.
Proof.
  split; [by intros s []|]. intros s s' [_ Hv] Hn Hs. split; [done|]. by eapply sameViews_trans.
Qed.

#[local] Instance apart_stable t : Stable (apart t).
Proof.
  split; [by intros s []|]. intros s s' [_ Hv] Hn Hs. split; [done|]. intros key Hne. by rw Hs Hv.
Qed.

#[local] Instance gone_stable key : Stable (gone key).
Proof.
  split; [by intros s [[] _]|]. intros s s' [Ha Hv] Hn Hs. split; [|by rw Hs].
  by eapply (stable_views (I := apart (KStatefulSet, key))).
Qed.

Lemma near_apart t s : near s → apart t s.
Proof. intros [Hn Hv]. split; [done|]. intros key _. apply Hv. Qed.

Lemma gone_apart key s : gone key s → apart (KStatefulSet, key) s.
Proof. by intros []. Qed.

(** The StatefulSets of the cluster, as they were at the start. *)
Definition clusterView (key : NamespacedName) (v : StatefulSetSpec * StatefulSetStatus * gomap string) : Prop :=
  viewAt w0 key = Some v ∧ nn_Namespace key = rmq_Namespace r ∧
  ∀ l x, Metadata.LabelSelector (rmq_Name r) !! l = Some x → gm_lookup v.2 l = Some x.

Lemma q_listed :
  steady near statefulSets (λ got, ∀ stss, got = inr stss →
    (∀ sts, sts ∈ stss → clusterView (ObjectKeyFromObject (k := KStatefulSet) sts) (view sts)) ∧
    (∀ key v, clusterView key v → ∃ sts, sts ∈ stss ∧ view sts = v)).
Proof.
  unfold statefulSets. eapply s_bind; [apply q_rmq|]. intros x [Hns Hn]. apply q_ext; [exact _|]. intros s [_ Hv].
  rw Hns Hn. destruct (frame_list KStatefulSet (Some (rmq_Namespace r)) (Metadata.LabelSelector (rmq_Name r)) (op_world s))
    as [Hs Hl]. split; [by apply sameStore_views|]. intros stss E. specialize (Hl stss E). split.
  - intros sts (Hc & Hlab & Hin)%Hl. split_and!; [|exact Hin|exact Hlab]. rw -Hv. unfold viewAt. by rw Hc.
  - intros key v (Hk & Hin & Hlab). rw -Hv in Hk. unfold viewAt in Hk.
    destruct (contents (op_world s) KStatefulSet key) as [sts|] eqn:Hc; [|done]. injection Hk as <-.
    exists sts. split; [|done]. pose proof (frame_key _ _ _ _ Hc) as E'. apply Hl. split_and!; [by rw E'|exact Hlab|].
    rw -Hin. exact (f_equal nn_Namespace E').
Qed.

(** *** The commands *)

(** Taking an annotation off an object whose view is as at the start. *)
Lemma q_unmark {k} (o : Obj k) key :
  (∀ s m, near s → keepsView (set_annotations m o) (op_world s)) →
  steady near (deleteAnnotation o key) (λ _, True).
Proof.
  intros Hv. unfold deleteAnnotation. destruct (annotations o); [|by apply s_ret].
  eapply t_conseq; [apply (t_update_view near (set_annotations _ o))| |by intros ? ? ?|done].
  intros s Hs. split; [exact Hs|]. by apply Hv.
Qed.

Lemma q_removeStatefulsetCreatedFlag sts :
  viewAt w0 (ObjectKeyFromObject (k := KStatefulSet) sts) = Some (view sts) →
  steady near (removeStatefulsetCreatedFlag sts) (λ _, True).
Proof.
  intros Hsts. unfold removeStatefulsetCreatedFlag. quiet. apply (q_unmark (k := KStatefulSet)).
  intros s m [_ Hs]. unfold keepsView. by rw Hs.
Qed.

Lemma q_commands : steady near reconcileRabbitmqCLI (λ _, True).
Proof.
  apply (q_reconcileRabbitmqCLI (λ sts, viewAt w0 (ObjectKeyFromObject (k := KStatefulSet) sts) = Some (view sts))).
  - done.
  - eapply s_mono; [apply q_listed|]. intros got Hl stss E. destruct (Hl stss E) as [Hs _]. by intros sts [? _]%Hs.
  - apply q_removeStatefulsetCreatedFlag.
Qed.

(** *** Creating or updating one object *)

Section one_object.
Context (t : Kind * NamespacedName) (I0 : Op W → Prop) `{!Stable I0} (I0_apart : ∀ s, I0 s → apart t s).

(** The same, and the StatefulSet exists, if the object is one. *)
Definition present s : Prop := I0 s ∧ (t.1 = KStatefulSet → viewAt (op_world s) t.2 ≠ None).

#[local] Instance present_stable : Stable present.
Proof.
  split; [intros s [Hs _]; exact (stable_named s Hs)|]. intros s s' [Hs Hp] Hn Hv. split.
  - by eapply (stable_views (I := I0)).
  - intros Hk. rw Hv. by apply Hp.
Qed.

(** A write of the object. *)
Lemma t_write {k} (o : Obj k) (f : Ext W (result (Obj k))) :
  t = (k, ObjectKeyFromObject o) → (∀ w, writes o w (f w)) →
  triple I0 (ext f) (λ a s, apart t s ∧ match a with
    | inl err => errIsConflict err = true → I0 s
    | inr o' => ObjectKeyFromObject o' = ObjectKeyFromObject o
    end) (apart t).
Proof.
  intros Ht Hw s Hs. specialize (Hw (op_world s)). unfold ext.
  pose proof (writes_other _ _ _ Hw) as Ho. destruct (I0_apart s Hs) as [Hn Hv].
  pose proof (writes_conflict o (op_world s) (f (op_world s))) as Hc.
  destruct (f (op_world s)) as [a w]. cbn in *. split.
  - split; [exact Hn|]. intros key Hne. rw Ho; [by rw -Ht|]. by apply Hv.
  - destruct a as [err|o'].
    + intros Hconf. eapply (stable_views (I := I0)); [exact Hs|exact Hn|]. by eapply Hc.
    + destruct Hw as [_ [Hs' _]]. by apply served_key.
Qed.

Lemma t_update_at {k} (o : Obj k) :
  t = (k, ObjectKeyFromObject o) →
  triple I0 (update o) (λ u s, apart t s ∧ ObjectKeyFromObject u.1 = ObjectKeyFromObject o ∧
    ∀ err, u.2 = Some err → errIsConflict err = true → I0 s) (apart t).
Proof.
  intros Ht. unfold update. eapply t_bind; [apply (t_write o _ Ht), frame_update|]. intros [err|o']; apply t_ret.
  - intros s [Ha Hc]. split_and!; [done|done|]. intros e [= <-]. exact Hc.
  - intros s [Ha Hk]. by split_and!.
Qed.

Context `{!Library}.

(** What an attempt leaves: without an error and a result nothing was disturbed;
    after a conflict nothing was either, and the object is still the one. *)
Definition attempted (err : goerror) (v : Vars) s : Prop :=
  apart t s ∧ match err with
  | None => v_result v = OperationResultNone → present s
  | Some e => v_result v = OperationResultNone ∧ objTarget (v_object v) = t ∧ (errIsConflict e = true → I0 s)
  end.

Lemma t_CreateOrUpdateObj {k} b (obj : Obj k) :
  t = (k, ObjectKeyFromObject obj) →
  triple I0 (CreateOrUpdateObj b obj) (λ r, attempted r.2 r.1) (apart t).
Proof.
  intros Ht. unfold CreateOrUpdateObj. cbv zeta.
  eapply (t_bind _ _ _ (λ got s, match got with
    | inl _ => I0 s
    | inr o => present s ∧ ObjectKeyFromObject o = ObjectKeyFromObject obj
    end)).
  { intros s Hs. destruct (frame_get k (ObjectKeyFromObject obj) (op_world s)) as [Htr Hsame]. unfold ext.
    destruct (kGet k _ (op_world s)) as [got w]. cbn in *.
    assert (I0 (mkOp (op_rmq s) w)) as Hs'.
    { eapply (stable_views (I := I0)); [exact Hs|exact (stable_named s Hs)|by apply sameStore_views]. }
    destruct got as [err|o]; [exact Hs'|]. split; [split; [exact Hs'|]|by eapply frame_key].
    rw Ht. cbn. intros ->. unfold viewAt. by rw Hsame Htr. }
  intros [err|existing]; cbn beta iota.
  - destruct (negb (errIsNotFound err)).
    { apply t_ret. intros s Hs. split; [by apply I0_apart|]. by split_and!. }
    eapply s_seq; [apply q_mutate|exact I0_apart|]. intros [[e|o] b'] Ho; cbn [fst snd] in *.
    { apply t_ret. intros s Hs. split; [by apply I0_apart|]. by split_and!. }
    specialize (Ho o eq_refl). rw -Ho in Ht.
    eapply t_bind; [apply (t_write o _ Ht), frame_create|]. intros [e|o']; apply t_ret; intros s [Ha Hc].
    + split; [done|]. by split_and!.
    + split; [done|]. by cbn.
  - apply t_pure. intros Hex. rw -Hex in Ht.
    eapply s_seq; [apply q_mutate|by intros s [? _]; apply I0_apart|]. intros [[e|o] b'] Ho; cbn [fst snd] in *.
    { apply t_ret. intros s [Hs _]. split; [by apply I0_apart|]. by split_and!. }
    specialize (Ho o eq_refl). destruct (SemanticDeepEqual k existing o).
    { apply t_ret. intros s Hs. split; [by apply I0_apart, Hs|]. by intros _. }
    rw Hex -Ho in Ht. eapply t_bind; [eapply t_conseq; [apply (t_update_at o Ht)|by intros s []|done|done]|].
    intros [o' [e|]]; cbn [fst snd]; apply t_ret; intros s (Ha & Hk & Hc).
    + split; [done|]. split_and!; [done| |by apply Hc]. by rw Ht -Hk.
    + split; [done|]. by cbn.
Qed.

Lemma t_attempts b o :
  t = objTarget o →
  triple I0 (withLocal (mkVars o b OperationResultNone) (RetryOnConflict attempt))
    (λ r, attempted r.1 r.2) (apart t).
Proof.
  intros Ht. apply t_withLocal. unfold RetryOnConflict, OnError.
  eapply t_conseq; [apply (t_retries 4 errIsConflict attempt None
    (λ sl, I0 sl.1 ∧ objTarget (v_object sl.2) = t ∧ v_result sl.2 = OperationResultNone)
    (λ err sl, attempted err sl.2 sl.1) (λ sl, apart t sl.1))| |done|done].
  - intros [s v] (Hs & Hv & Hr). cbn [fst snd] in *. unfold attempt, mbind, M_bind, local, outer, set_local, mret, M_ret.
    cbn [fst snd]. unfold CreateOrUpdate. symmetry in Hv.
    pose proof (t_CreateOrUpdateObj (v_builder v) (projT2 (v_object v)) Hv s Hs) as Hc.
    destruct (CreateOrUpdateObj _ _ s) as [[[v' err]|msg] s']; cbn [fst snd] in *; [|exact Hc].
    destruct err as [e|]; [|exact Hc]. destruct (errIsConflict e) eqn:E; [|exact Hc].
    split; [|exact Hc]. destruct Hc as (Ha & Hn & Ho & Hi). split_and!; [by apply Hi|done|done].
  - intros [s v] [Hs Hv]. cbn [fst snd] in *. subst v. by split_and!.
Qed.
End one_object.

(** *** Growing the volumes *)

Section scaling.
Context (key : NamespacedName).
Abbreviation apartSts := (apart (KStatefulSet, key)).

Lemma t_statefulSetGone :
  triple apartSts (statefulSetGone key) (λ b s, apartSts s ∧ (b = true → gone key s)) apartSts.
Proof.
  intros s Hs. unfold statefulSetGone, mbind, M_bind, ext.
  destruct (frame_csGet KStatefulSet key (op_world s)) as [Ht Hsame].
  destruct (csGet KStatefulSet key (op_world s)) as [got w]. cbn in *.
  assert (apartSts (mkOp (op_rmq s) w)) as Ha.
  { eapply (stable_views (I := apartSts)); [exact Hs|exact (stable_named (I := apartSts) s Hs)|by apply sameStore_views]. }
  split; [exact Ha|]. intros E. split; [exact Ha|]. destruct got as [err|]; [|done].
  unfold viewAt. cbn. by rw Hsame Ht.
Qed.

Lemma t_retryWithInterval msg total n :
  triple apartSts (retryWithInterval msg total n (statefulSetGone key))
    (λ err s, apartSts s ∧ (err = None → gone key s)) apartSts.
Proof.
  induction n as [|n IH]; cbn [retryWithInterval]; [by apply t_ret|].
  eapply t_bind; [apply t_statefulSetGone|]. intros [].
  - apply t_ret. intros s [Ha Hg]. split; [done|]. intros _. by apply Hg.
  - eapply t_conseq; [exact IH|by intros s []|done|done].
Qed.

Lemma t_deleteStatefulset :
  triple near (deleteStatefulset key) (λ err s, match err with None => gone key s | Some _ => apartSts s end) apartSts.
Proof.
  unfold deleteStatefulset. eapply (t_bind _ _ _ (λ _, apartSts)).
  - intros s [Hn Hv]. unfold ext. destruct (frame_orphan KStatefulSet key (op_world s)) as [Ho _].
    destruct (csDeleteOrphan KStatefulSet key (op_world s)) as [err w]. cbn in *. split; [exact Hn|].
    intros key' Hne. unfold viewAt. cbn. rw Ho //. apply Hv.
  - intros [err|]; [by apply t_ret|]. eapply t_bind; [apply t_retryWithInterval|].
    intros [err|]; apply t_ret; intros s [Ha Hg]; [done|by apply Hg].
Qed.

(** The operator goes on after the scaler only if the StatefulSet is as it was
    or gone. *)
Lemma t_Scale pvcName desired :
  triple near (Scale pvcName key desired)
    (λ err s, match err with None => near s ∨ gone key s | Some _ => apartSts s end) apartSts.
Proof.
  pose proof (near_apart (KStatefulSet, key)) as Hna. unfold Scale, existingCapacity, getStatefulset.
  eapply (s_seq _ _ _ (λ _, True)); [quiet|exact Hna|]. intros [err|capacity] _.
  { destruct (errIsNotFound err); apply t_ret; auto. }
  destruct (Cmp capacity desired =? 0)%Z; [apply t_ret; auto|].
  destruct (Cmp capacity desired =? 1)%Z; [apply t_ret; auto|].
  destruct (Cmp capacity 0 =? 0)%Z; [apply t_ret; auto|].
  eapply s_seq; [apply q_getPVCs|exact Hna|]. intros [err|pvcs] _; [apply t_ret; auto|].
  destruct (pvcsNeedingScaling pvcs desired) as [|p ps]; [apply t_ret; auto|].
  eapply t_bind; [apply t_deleteStatefulset|]. intros [err|]; [by apply t_ret|].
  eapply t_conseq; [by apply (q_scaleUpPVCs (I := gone key))|done| |apply gone_apart].
  intros [err|] s [Hs _]; [by apply gone_apart|by right].
Qed.
End scaling.

(** *** The children *)

Section children.
Context `{!Library}.

(** At most one StatefulSet was disturbed. *)
Definition one s : Prop := ∃ t, apart t s.

Lemma near_one s : near s → one s.
Proof. exists (KStatefulSet, mkNamespacedName "" ""). by apply near_apart. Qed.

(** The operator goes on only if nothing was disturbed. *)
Definition progress (res : ReconcileResult) s : Prop := one s ∧ (Completed res = false → near s).

Lemma near_progress s res : near s → progress res s.
Proof. intros Hs. split; [by apply near_one|done]. Qed.

Lemma apart_progress t s res : Completed res = true → apart t s → progress res s.
Proof. intros Hc Hs. split; [by exists t|]. by rw Hc. Qed.

(** A step that disturbs nothing. *)
Lemma steady_progress (m : Run W ReconcileResult) : steady near m (λ _, True) → triple near m progress one.
Proof.
  intros Hm. eapply t_conseq; [exact Hm|done|intros res s [Hs _]; by apply near_progress|by apply near_one].
Qed.

Lemma t_reconcilePVCOf o :
  triple near (reconcilePVCOf o) (λ res s, apart (objTarget o) s ∧
    (Completed res = false → near s ∨ (objTarget o).1 = KStatefulSet ∧ gone (objTarget o).2 s)) (apart (objTarget o)).
Proof.
  assert (triple near (mret Continue : Run W ReconcileResult) (λ res s, apart (objTarget o) s ∧
    (Completed res = false → near s ∨ (objTarget o).1 = KStatefulSet ∧ gone (objTarget o).2 s)) (apart (objTarget o))) as Hnone.
  { apply t_ret. intros s Hs. split; [by apply near_apart|by left]. }
  destruct o as [[] o]; try exact Hnone. cbn [reconcilePVCOf]. unfold reconcilePVC. cbv zeta.
  set (key := ObjectKeyFromObject (k := KStatefulSet) o). change (objTarget (existT KStatefulSet o)) with (KStatefulSet, key).
  cbn [fst snd]. eapply t_bind; [apply t_Scale|]. intros [err|].
  - eapply t_conseq; [apply (s_bind (apart (KStatefulSet, key)) _ _ (λ _, True) (λ res, Completed res = true))|done| |done].
    + quiet.
    + intros _ _. eapply (s_bind _ _ _ (λ _, True)); [quiet|]. intros _ _. by apply s_ret.
    + intros res s [Ha Hc]. split; [done|]. by rw Hc.
  - apply t_ret. intros s Hs. split; [|intros _; destruct Hs; auto].
    destruct Hs as [Hs|Hs]; [by apply near_apart|by apply gone_apart].
Qed.

(** What is done after the attempts. *)
Definition afterAttempts (err : goerror) (v : Vars) : Run W ReconcileResult :=
  _ ← logAndRecordOperationResult (v_object v) (v_result v) err;
  match err with
  | Some err =>
      _ ← setCondition ReconcileSuccess ConditionFalse "Error" [Error err];
      mret (ErrorResult err)
  | None =>
      res ← annotateIfNeeded (v_builder v) (v_result v);
      if Completed res then mret res else
      match v_result v with
      | OperationResultCreated | OperationResultUpdated => mret Done
      | OperationResultNone => mret Continue
      end
  end.

Lemma t_afterAttempts t err v :
  triple (λ s, apart t s ∧ (err = None → v_result v = OperationResultNone → near s)) (afterAttempts err v) progress one.
Proof.
  assert (∀ res, steady (apart t) (mret res : Run W ReconcileResult) (λ r, r = res)) as Hr by by intros; apply s_ret.
  assert (err ≠ None ∨ v_result v ≠ OperationResultNone → triple (apart t) (afterAttempts err v) progress one) as Hsome.
  { intros Hv. apply (t_conseq (apart t) _ _ (λ res s, apart t s ∧ Completed res = true) _ (apart t));
      [|done|by intros res s [Ha Hc]; apply (apart_progress t)|by exists t].
    apply (s_bind (apart t) _ _ (λ _, True) (λ res, Completed res = true)); [apply q_logAndRecord|]. intros _ _.
    destruct err as [err|].
    - eapply (s_bind _ _ _ (λ _, True)); [quiet|]. intros _ _. by apply s_ret.
    - eapply (s_bind _ _ _ (λ _, True)); [apply q_annotateIfNeeded; intros; apply q_mark; exact _|]. intros res _.
      destruct (Completed res) eqn:Ec; [by apply s_ret|]. destruct Hv as [|Hv]; [done|].
      destruct (v_result v); [done|by apply s_ret..]. }
  destruct err as [err|]; [eapply t_conseq; [apply Hsome; by left|by intros s []|done|done]|].
  destruct (v_result v) eqn:Ev.
  2, 3: eapply t_conseq; [apply Hsome; by right|by intros s []|done|done].
  eapply t_conseq; [apply (steady_progress (afterAttempts None v))| |done|done].
  - unfold afterAttempts. eapply (s_bind _ _ _ (λ _, True)); [apply q_logAndRecord|]. intros _ _.
    eapply (s_bind _ _ _ (λ _, True)); [apply q_annotateIfNeeded; intros; apply q_mark; exact _|]. intros res _. quiet.
  - intros s [_ Hs]. by apply Hs.
Qed.

Lemma t_reconcileBuilder b : triple near (reconcileBuilder b) progress one.
Proof.
  unfold reconcileBuilder. eapply s_seq; [apply q_Build|apply near_one|]. intros [err|o] _.
  { apply t_ret. intros s Hs. by apply near_progress. }
  eapply t_bind; [eapply t_conseq; [apply t_reconcilePVCOf|done|done|by exists (objTarget o)]|]. intros res.
  destruct (Completed res) eqn:Ec.
  { apply t_ret. intros s [Ha _]. by eapply apart_progress. }
  set (t := objTarget o).
  eapply (t_bind _ _ _ (λ r s, apart t s ∧ (r.1 = None → v_result r.2 = OperationResultNone → near s))).
  - apply (t_conseq (λ s, near s ∨ t.1 = KStatefulSet ∧ gone t.2 s) _ _ (λ r s,
      apart t s ∧ (r.1 = None → v_result r.2 = OperationResultNone → near s)) _ (apart t));
      [apply t_or| |done|by exists t].
    + eapply t_conseq; [apply (t_attempts t near (near_apart t) b o eq_refl)|done| |done].
      intros [err v] s [Ha Hv]. split; [exact Ha|]. cbn. intros -> Hn. by apply Hv.
    + intros s [Hk Hg]. assert (t = (KStatefulSet, t.2)) as Et by by rw -Hk; destruct t.
      assert (∀ s, gone t.2 s → apart t s) as Hsub by (rw {2}Et; apply gone_apart).
      pose proof (t_attempts t (gone t.2) Hsub b o eq_refl s Hg) as Hm.
      destruct (withLocal _ _ s).1 as [[err v]|msg]; [|exact Hm]. destruct Hm as [Ha Hv]. split; [exact Ha|]. cbn.
      intros -> Hn. destruct (Hv Hn) as [[_ Hgone] Hp]. by apply Hp in Hk.
    + intros s [_ Hs]. by apply Hs.
  - intros [err v]. apply (t_afterAttempts t err v).
Qed.

Lemma t_reconcileBuilders bs : triple near (reconcileBuilders bs) progress one.
Proof.
  induction bs as [|b bs IH]; cbn [reconcileBuilders].
  { apply t_ret. intros s Hs. by apply near_progress. }
  eapply t_bind; [apply t_reconcileBuilder|]. intros res. destruct (Completed res) eqn:Ec.
  - apply t_ret. intros s [Ho _]. split; [exact Ho|]. by rw Ec.
  - eapply t_conseq; [exact IH| |done|done]. intros s [_ Hs]. by apply Hs.
Qed.

(** *** Waiting, and restarting *)

(** The StatefulSet reports that all its replicas are ready and updated. *)
Definition readyView (v : StatefulSetSpec * StatefulSetStatus * gomap string) : Prop :=
  stst_CurrentRevision v.1.2 = stst_UpdateRevision v.1.2 ∧ stss_Replicas v.1.1 = Some (stst_ReadyReplicas v.1.2).

(** All StatefulSets of the cluster did at the start. *)
Definition allReady : Prop := ∀ key v, clusterView key v → readyView v.

Lemma q_waitResourceReady : steady near waitResourceReady (λ res, Completed res = false → allReady).
Proof.
  unfold waitResourceReady. eapply s_bind; [apply q_listed|]. intros [err|stss] Hs; [by apply s_ret|].
  eapply (s_bind _ _ _ (λ ready, ready = true → allReady)); [|intros [] Hr; apply s_ret; auto].
  apply s_lift. intros ready E ->. apply allReplicasReadyAndUpdated_true in E. rw Forall_forall in E.
  intros key v Hv. destruct (Hs stss eq_refl) as [_ Hall]. destruct (Hall key v Hv) as (sts & Hin & <-).
  by apply E.
Qed.

Section restart.
Context (key : NamespacedName).
Abbreviation apartSts := (apart (KStatefulSet, key)).

Definition keyed (sts : StatefulSet) : Prop := ObjectKeyFromObject (k := KStatefulSet) sts = key.

Lemma t_restartOnce :
  triple (λ sl, apartSts sl.1 ∧ keyed sl.2) restartOnce (λ _ sl, apartSts sl.1 ∧ keyed sl.2) (λ sl, apartSts sl.1).
Proof.
  unfold restartOnce. eapply t_again; [apply t_local|]. intros sts0 Hk0.
  eapply t_again; [apply (t_outer_steady _ _ _ (λ got, ∀ sts, got = inr sts → keyed sts))|].
  { apply q_ext; [exact _|]. intros s _. destruct (frame_get KStatefulSet (mkNamespacedName (om_Namespace (sts_ObjectMeta sts0))
      (om_Name (sts_ObjectMeta sts0))) (op_world s)) as [Ht Hs]. split; [by apply sameStore_views|].
    intros sts E. rw E in Ht. unfold keyed. rw -Hk0. by eapply (frame_key _ KStatefulSet). }
  intros [err|sts] Hk; [by apply t_ret|]. specialize (Hk sts eq_refl).
  eapply t_again; [apply t_outer_steady, (q_silent _ (silent_now _)); exact _|]. intros now _. cbv zeta.
  set (sts' := set_templateAnnotations _ sts). change (keyed sts') in Hk.
  assert ((KStatefulSet, key) = (KStatefulSet, ObjectKeyFromObject (k := KStatefulSet) sts')) as Ht by by rw -Hk.
  eapply t_bind; [exact (t_outer _ keyed _ _ _ (t_update_at (KStatefulSet, key) apartSts (λ s Hs, Hs) (k := KStatefulSet) sts' Ht))|].
  intros u. apply (t_conseq (λ sl, (apartSts sl.1 ∧ keyed sl.2) ∧ keyed u.1) _ _
    (λ _ sl, apartSts sl.1 ∧ keyed sl.2) _ (λ sl, apartSts sl.1)); [|by intros sl [(? & Hu & _) ?]; rw /keyed Hu|done|done].
  apply t_pure. intros Hu. eapply t_bind; [apply t_set_local|]. intros []. apply t_ret. by intros sl [Ha ->].
Qed.

Lemma t_restartStatefulSet sts :
  keyed sts →
  triple near (restartStatefulSet sts) (λ res s, apartSts s ∧ Completed res = true) apartSts.
Proof.
  intros Hk. unfold restartStatefulSet. eapply (t_bind _ _ _ (λ _, apartSts)).
  - apply t_withLocal. eapply t_conseq; [apply (t_retries_inv 4), t_restartOnce| |by intros a sl []|done].
    intros [s v] [Hs Hv]. cbn in *. subst v. split; [by apply near_apart|done].
  - intros [[err|] v].
    + eapply (s_bind _ _ _ (λ _, True)); [quiet|]. intros _ _. by apply s_ret.
    + eapply (s_bind _ _ _ (λ _, True)); [quiet|]. intros _ _. by apply s_ret.
Qed.
End restart.

Lemma t_restartFirst upd stss : triple near (restartFirst upd stss) progress one.
Proof.
  induction stss as [|sts stss IH]; cbn [restartFirst].
  { apply t_ret. intros s Hs. by apply near_progress. }
  destruct (restartedSince upd sts); [exact IH|].
  eapply t_conseq; [by apply (t_restartStatefulSet (ObjectKeyFromObject (k := KStatefulSet) sts))|done| |].
  - intros res s [Ha Hc]. by eapply apart_progress.
  - intros s Hs. by eexists.
Qed.

Lemma t_restartStatefulSetIfNeeded : triple near restartStatefulSetIfNeeded progress one.
Proof.
  unfold restartStatefulSetIfNeeded, configMapServer.
  eapply (s_seq _ _ _ (λ _, True)); [quiet|apply near_one|]. intros [err|cm] _.
  { apply t_ret. intros s Hs. by apply near_progress. }
  destruct (gm_lookup _ _) as [upd|]; [|apply t_ret; intros s Hs; by apply near_progress].
  eapply (s_seq _ _ _ (λ _, True)); [quiet|apply near_one|]. intros [err|stss] _; [|apply t_restartFirst].
  apply t_ret. intros s Hs. by apply near_progress.
Qed.

(** *** One reconciliation *)

(** If a StatefulSet was disturbed, it is one, and all were ready. *)
Definition serial s : Prop := near s ∨ allReady ∧ one s.

Lemma t_reconcileResources :
  triple near reconcileResources (λ res s, serial s ∧ (Completed res = false → near s ∧ allReady)) serial.
Proof.
  assert (∀ s, near s → serial s) as Hns by by left.
  unfold reconcileResources. eapply s_seq; [apply q_waitResourceReady|exact Hns|]. intros res Hres.
  destruct (Completed res) eqn:Ec; [apply t_ret; intros s Hs; split; [by left|by rw Ec]|]. specialize (Hres Ec).
  eapply (s_seq _ _ _ (λ _, True)); [quiet|exact Hns|]. intros x _.
  eapply (s_seq _ _ _ (λ _, True)); [quiet|exact Hns|]. intros replicas _.
  eapply t_conseq; [apply t_reconcileBuilders|done| |by right].
  intros res' s [Ho Hc]. split; [by right|]. intros E. split; [by apply Hc|done].
Qed.

(** A step that disturbs nothing, then the rest. *)
Lemma t_andThen (step : Run W ReconcileResult) k :
  steady near step (λ _, True) → triple near k (λ _, serial) serial → triple near (andThen step k) (λ _, serial) serial.
Proof.
  intros Hm Hk. unfold andThen. eapply s_seq; [exact Hm|by left|]. intros res _.
  destruct (Completed res); [|exact Hk].
  eapply t_conseq; [by apply (s_lift near _ (λ _, True))|done|by intros a s [? _]; left|by left].
Qed.

Lemma t_andThen_progress (step : Run W ReconcileResult) k :
  allReady → triple near step progress one → triple near k (λ _, serial) serial →
  triple near (andThen step k) (λ _, serial) serial.
Proof.
  intros Hr Hm Hk. unfold andThen. eapply t_bind; [eapply t_conseq; [exact Hm|done|by intros a s Ha; exact Ha|by right]|].
  intros res. destruct (Completed res) eqn:Ec.
  - apply (t_conseq one _ _ (λ _, one) _ one); [|by intros s []|by intros a s Hs; right|by intros s Hs; right].
    intros s Hs. unfold lift. cbn. by destruct (Output res).
  - eapply t_conseq; [exact Hk| |by intros a s|done]. intros s [_ Hs]. by apply Hs.
Qed.

Lemma t_lastStep : triple near (lastStep finish) (λ _, serial) serial.
Proof.
  assert (steady near (lastStep finish) (λ _, True)) as Hl.
  { unfold lastStep, finish. eapply s_bind; [apply q_commands|]. intros res _. quiet. }
  eapply t_conseq; [exact Hl|done|by intros a s [? _]; left|by left].
Qed.

Lemma t_afterResources : allReady →
  triple near (andThen restartStatefulSetIfNeeded (andThen reconcileStatus (lastStep finish))) (λ _, serial) serial.
Proof.
  intros Hr. apply t_andThen_progress; [done|apply t_restartStatefulSetIfNeeded|].
  apply t_andThen; [apply q_reconcileStatus|apply t_lastStep].
Qed.

Lemma t_resourcesThen :
  triple near (andThen reconcileResources (andThen restartStatefulSetIfNeeded (andThen reconcileStatus (lastStep finish))))
    (λ _, serial) serial.
Proof.
  unfold andThen at 1. eapply t_bind; [apply t_reconcileResources|]. intros res. destruct (Completed res) eqn:Ec.
  - intros s [Hs _]. unfold lift. cbn. by destruct (Output res).
  - intros s [_ Hs]. destruct (Hs Ec) as [Hn Hr]. exact (t_afterResources Hr s Hn).
Qed.

Lemma t_steps d : triple (λ s, near s ∧ deletionIsZero (op_rmq s) = true) (steps d) (λ _, serial) serial.
Proof.
  intros s [Hs Hz]. unfold steps.
  assert (steady near addFinalizer (λ _, True)) as Hf by (apply q_addFinalizer).
  assert (∀ k, andThen reconcileDelete k s = andThen addFinalizer k s) as ->.
  { intros k. unfold andThen, reconcileDelete, mbind, M_bind, rmq at 1, gets. by rw Hz. }
  revert s Hs Hz. intros s Hs _. revert s Hs.
  apply t_andThen; [exact Hf|].
  apply t_andThen; [apply q_reconcilePaused|].
  apply t_andThen; [apply q_reconcileOperatorDefaults|].
  apply t_andThen; [apply q_reconcileStatusConditions|].
  apply t_andThen; [apply q_reconcileTLS|].
  apply t_andThen; [apply q_reconcileQueueRebalanced|].
  apply t_andThen; [apply q_reconcileScaleDown|].
  apply t_resourcesThen.
Qed.

Lemma reconcileFound_serial d s :
  near s → deletionIsZero (op_rmq s) = true → serial (reconcileFound d s).2.
Proof.
  intros Hs Hz. change (reconcileFound d s) with (withDefer (steps d) (deferred (rmq_Status (op_rmq s))) s).
  unfold withDefer. pose proof (t_steps d s (conj Hs Hz)) as H1. destruct (steps d s) as [o s1].
  assert (serial s1) as Hs1 by by destruct o. clear H1.
  assert (∀ I, Stable I → I s1 → I (deferred (rmq_Status (op_rmq s)) s1).2) as Hd.
  { intros I HI Hi. pose proof (q_deferred (I := I) (rmq_Status (op_rmq s)) s1 Hi) as Hq.
    destruct (deferred _ s1) as [[a|msg] s2]; [by destruct Hq|exact Hq]. }
  destruct (deferred _ s1) as [od s2]. cbn in *.
  destruct Hs1 as [Hn|(Hr & t & Ht)]; [left; by apply (Hd near _)|]. right. split; [done|]. exists t. by apply (Hd (apart t) _).
Qed.
End children.
End start.
End quiet.

(** ** A cluster over many reconciliations *)

Section rollout.
Context {W : Type} `{!Kube W, !Store W, !FrameLaws W, !Library} (r : RabbitmqCluster) (d : Defaults).
Implicit Types (w : W) (key : NamespacedName).

(** The StatefulSet is new or has another spec: its pods are started or replaced. *)
Definition disturbed w w' key : Prop :=
  ∃ sts, contents w' KStatefulSet key = Some sts ∧ sts_Spec <$> contents w KStatefulSet key ≠ Some (sts_Spec sts).

(** The StatefulSet is listed for the cluster and says that a replica is not
    ready or not updated. *)
Definition reportsDown w key : Prop := ∃ v, clusterView r w key v ∧ ¬ readyView v.

(** The worlds a cluster goes through, with the StatefulSets that the operator
    has disturbed and that are not back.  Others change the world as they like
    and bring StatefulSets back; the operator reconciles the cluster, in
    whatever state it is but not deleted, when the disturbed StatefulSets say so. *)
Inductive rollout : W → (NamespacedName → Prop) → Prop :=
  | rollout_start w : rollout w (λ _, False)
  | rollout_others w w' D D' : rollout w D → (∀ key, D' key → D key) → rollout w' D'
  | rollout_operator w D x out s' :
      rollout w D → named r x → deletionIsZero x = true → (∀ key, D key → reportsDown w key) →
      reconcileFound d (mkOp x w) = (out, s') →
      rollout (op_world s') (λ key, D key ∨ disturbed w (op_world s') key).

Lemma same_disturbed w w' key : viewAt w' key = viewAt w key → ¬ disturbed w w' key.
Proof.
  unfold viewAt. intros Hv (sts & Hc & Hne). rw Hc in Hv. apply Hne.
  destruct (contents w KStatefulSet key) as [sts0|]; [|done]. injection Hv as Hspec _ _. cbn. by rw Hspec.
Qed.

(** One reconciliation. *)
Lemma one_disturbed w x out s' key :
  named r x → deletionIsZero x = true → reconcileFound d (mkOp x w) = (out, s') → disturbed w (op_world s') key →
  allReady r w ∧ ∀ key', disturbed w (op_world s') key' → key' = key.
Proof.
  intros Hx Hz E Hd. assert (near r w (mkOp x w)) as Hn by by split.
  pose proof (reconcileFound_serial r w d (mkOp x w) Hn Hz) as Hs. rw E in Hs. cbn in Hs.
  destruct Hs as [[_ Hv]|(Hr & t & _ & Ht)]; [by apply same_disturbed in Hd|]. split; [done|].
  assert (∀ k, disturbed w (op_world s') k → (KStatefulSet, k) = t) as Hk.
  { intros k Hk. destruct (decide ((KStatefulSet, k) = t)) as [|Hne]; [done|]. by apply same_disturbed in Hk; [|apply Ht]. }
  intros key' Hd'. apply Hk in Hd, Hd'. congruence.
Qed.
End rollout.

(** ** Property *)

Section property.
Context {W : Type} `{!Kube W, !Store W, !FrameLaws W, !Library} (r : RabbitmqCluster) (d : Defaults).

(** C3: changes are rolled out one replica at a time.  Whatever calls the API
    server refuses or fails, whatever others do between two reconciliations, and
    however a reconciliation ends: as long as the operator is not called before
    the StatefulSet it last disturbed says that a replica is down, at most one
    StatefulSet of the cluster is disturbed at any time, where a StatefulSet is
    disturbed from the moment the operator creates it or gives it another spec
    until its replica is back. *)
Theorem rollout_serial (w : W) (D : NamespacedName → Prop) :
  rollout r d w D → ∀ key key', D key → D key' → key' = key.
Proof.
  induction 1 as [w|w w' D D' _ IH HD|w D x out s' _ IH Hx Hz Hdown E]; intros key key'; [done| |].
  - intros ?%HD ?%HD. by apply IH.
  - assert (∀ k k', D k → disturbed w (op_world s') k' → False) as Hno.
    { intros k k' Hk Hk'. destruct (Hdown k Hk) as (v & Hv & Hnr). apply Hnr.
      by apply (one_disturbed r d w x out s' k' Hx Hz E Hk') in Hv. }
    intros [Hk|Hk] [Hk'|Hk']; [by apply IH|by destruct (Hno _ _ Hk Hk')|by destruct (Hno _ _ Hk' Hk)|].
    by apply (one_disturbed r d w x out s' key Hx Hz E Hk).
Qed.
End property.
