(* ===== verification/Credentials.v ===== *)
(** The credentials of a cluster are chosen once.  The API server is shared:
    others write to it at any time, and the operator reads it through a cache
    that may be out of date.  What protects the Erlang cookie and the password
    of the default user is that a creation does not replace an object and that
    an update is refused unless it is based on the version that is stored. *)

From S2P Require Import Prelude GoStd K8s V1beta1 Constant Metadata Kube Controllerutil Builder Secrets Builders.
From S2P Require Import Hoare Trace Status ControllerUtils Configurations Resources Store Reconcile Quiet.

(** ** Credentials *)

(** The keys of the default user's Secret that say how to connect: they follow
    the cluster. *)
Definition connectionKeys : list string :=
  "port" :: "connection_string" :: ((λ e : Plugin * string * Z * Z, e.1.1.2) <$> portNames).

(** The type and all data but the connection keys. *)
Definition sameCredentials (s s' : Secret) : Prop :=
  sec_Type s' = sec_Type s ∧
  ∀ key, key ∉ connectionKeys → gm_lookup (sec_Data s') key = gm_lookup (sec_Data s) key.

#[export] Instance sameCredentials_preorder : PreOrder sameCredentials.
Proof.
  split; [by intros s; split|]. intros s1 s2 s3 [Ht Hd] [Ht' Hd']. split; [congruence|].
  intros key Hk. by rw Hd' // Hd.
Qed.

(** What the operator makes of a stored Secret. *)
Definition amends (s s' : Secret) : Prop :=
  om_ResourceVersion (sec_ObjectMeta s') = om_ResourceVersion (sec_ObjectMeta s) ∧ sameCredentials s s'.

Lemma ErlangCookie_Update_amends instance s s' : ErlangCookie_Update instance s = ok s' → amends s s'.
Proof.
  intros [= E]. pose proof (setController_meta (k := KSecret) _ _ _ E) as Hs.
  pose proof (setController_ok (k := KSecret) instance _ _ (sec_ObjectMeta s) E) as Hm. split.
  - by apply Hm.
  - rw Hs. by split.
Qed.

Lemma DefaultUserSecret_Update_amends instance s s' : DefaultUserSecret_Update instance s = ok s' → amends s s'.
Proof.
  unfold DefaultUserSecret_Update, mbind, outcome_bind. cbn [sec_Data updateMeta set_meta].
  destruct (updateData instance _) as [data|] eqn:Eu; [|done]. intros [= E].
  pose proof (setController_meta (k := KSecret) _ _ _ E) as Hs.
  pose proof (setController_ok (k := KSecret) instance _ _ (sec_ObjectMeta s) E) as Hm. split.
  - by apply Hm.
  - destruct (updateData_inv _ _ _ Eu) as (_ & _ & _ & _ & Ho & _). rw Hs. split; [done|]. exact Ho.
Qed.

(** ** The shared server *)

(** The states of Secrets that were stored once, as far as the operator may
    have been told. *)
Class Seen (W : Type) := seen : W → Secret → Prop.

Section moves.
Context {W : Type} `{!Store W, !Seen W}.
Implicit Types (w : W).

(** The stored Secrets have kept their credentials. *)
Definition kept w w' : Prop := ∀ key s, contents w KSecret key = Some s →
  ∃ s', contents w' KSecret key = Some s' ∧ sameCredentials s s'.

(** Time passes: what is done to Secrets keeps their credentials, and what was
    seen stays seen. *)
Definition moves w w' : Prop := kept w w' ∧ ∀ s, seen w s → seen w' s.

#[export] Instance kept_preorder : PreOrder kept.
Proof.
  split; [intros w key s Hs; by exists s|]. intros w1 w2 w3 H12 H23 key s1 H1.
  destruct (H12 key s1 H1) as (s2 & H2 & Hc). destruct (H23 key s2 H2) as (s3 & H3 & Hc').
  exists s3. split; [exact H3|]. by etrans.
Qed.

#[export] Instance moves_preorder : PreOrder moves.
Proof.
  split; [by intros w; split|]. intros w1 w2 w3 [K1 S1] [K2 S2]. split; [by etrans|]. auto.
Qed.

(** The Secret is stored in the place of the one that was there. *)
Definition placed (s : Secret) w w' : Prop :=
  let at_key := ObjectKeyFromObject (k := KSecret) s in
  contents w' KSecret at_key = Some s ∧
  (∀ key, key ≠ at_key → contents w' KSecret key = contents w KSecret key) ∧
  ∀ x, seen w x → seen w' x.
End moves.

(** A server that others write too, with credentials that others keep. *)
Class SharedLaws (W : Type) `{!Kube W, !Store W, !Seen W} : Prop := {
  shared_getLaw :: GetLaw W;
  (* a write answers the cluster it was sent *)
  shared_cluster (x y : RabbitmqCluster) (w : W) :
    (kUpdate KRabbitmqCluster x w).1 = inr y ∨ (kStatusUpdate x w).1 = inr y →
    ObjectKeyFromObject (k := KRabbitmqCluster) y = ObjectKeyFromObject (k := KRabbitmqCluster) x;
  (* a read answers a Secret as it was stored once *)
  shared_get key (w : W) s : (kGet KSecret key w).1 = inr s → seen (kGet KSecret key w).2 s;
  (* a version names one state of a Secret *)
  shared_version (w : W) s cur : seen w s → contents w KSecret (ObjectKeyFromObject (k := KSecret) s) = Some cur →
    om_ResourceVersion (sec_ObjectMeta cur) = om_ResourceVersion (sec_ObjectMeta s) → cur = s;
  (* others may write while any call is made *)
  shared_silent {A} (f : Ext W A) (w : W) : silent KSecret A f → moves w (f w).2;
  (* a creation replaces nothing *)
  shared_create (s : Secret) (w : W) : moves w (kCreate KSecret s w).2;
  (* an update is refused, or is carried out on the version it is based on *)
  shared_update (s : Secret) (w : W) : let w' := (kUpdate KSecret s w).2 in
    moves w w' ∨
    ∃ w1 w2 cur s', moves w w1 ∧ contents w1 KSecret (ObjectKeyFromObject (k := KSecret) s) = Some cur ∧
      om_ResourceVersion (sec_ObjectMeta cur) = om_ResourceVersion (sec_ObjectMeta s) ∧
      served (k := KSecret) s s' ∧ placed s' w1 w2 ∧ moves w2 w'
}.

(** ** The operator keeps credentials *)

Section guarantee.
Context {W : Type} `{!Kube W, !Store W, !Seen W, !SharedLaws W, !Library} (r : RabbitmqCluster) (w0 : W).

(** An update based on a state that was seen. *)
Lemma update_moves (s s' : Secret) (w : W) :
  seen w s → amends s s' → ObjectKeyFromObject (k := KSecret) s' = ObjectKeyFromObject (k := KSecret) s →
  moves w (kUpdate KSecret s' w).2.
Proof.
  intros Hs [Hv Hc] Hk. destruct (shared_update s' w) as [Hm|(w1 & w2 & cur & s2 & [K1 S1] & Hcur & Hver & Hsv & Hput & [K2 S2])].
  { exact Hm. }
  assert (cur = s) as -> by (eapply shared_version; [by apply S1|by rw -Hk|congruence]).
  destruct Hput as (Hat & Hother & S12). split; [|auto]. etrans; [exact K1|]. etrans; [|exact K2].
  pose proof (served_key (k := KSecret) _ _ Hsv) as Hsk. intros key x Hx.
  destruct (decide (key = ObjectKeyFromObject (k := KSecret) s2)) as [->|Hne].
  - exists s2. split; [exact Hat|]. rw Hsk Hcur in Hx. injection Hx as <-.
    destruct Hsv as (m & _ & ->). exact Hc.
  - exists x. split; [by rw Hother|done].
Qed.

(** The invariant of a reconciliation that starts in [w0]. *)
Definition safe (s : Op W) : Prop := named r (op_rmq s) ∧ moves w0 (op_world s).

(** The same, and the Secret has been seen. *)
Definition safeSeen (x : Secret) (s : Op W) : Prop := safe s ∧ seen (op_world s) x.

#[export] Instance safe_about : About r KSecret safe.
Proof.
  split; [done|by intros s []|by intros s x [_ Hm] Hx| | |].
  - intros A f s Hf [Hn Hm]. split; [exact Hn|]. cbn. etrans; [exact Hm|]. by apply shared_silent.
  - intros s x y _ E. eapply shared_cluster. by left.
  - intros s x y _ E. eapply shared_cluster. by right.
Qed.

#[export] Instance safeSeen_about x : About r KSecret (safeSeen x).
Proof.
  split; [done|by intros s [[] _]|by intros s y [[_ Hm] Hx] Hy| | |].
  - intros A f s Hf [Hs Hx]. split; [by apply (about_silent (K := KSecret))|]. by apply (shared_silent f).
  - intros s y z _ E. eapply shared_cluster. by left.
  - intros s y z _ E. eapply shared_cluster. by right.
Qed.

Section memory.
Context {I : Op W → Prop} `{!About r KSecret I} (s : Secret).

Lemma q_isSecret : steady I (assertKind KSecret (existT KSecret s)) (λ o, o = s).
Proof. unfold assertKind. cbn [projT1]. rw decide_True_pi. by apply s_ret. Qed.

Lemma q_notSecret k : k ≠ KSecret → steady I (assertKind k (existT KSecret s)) (λ _, False).
Proof. intros Hk. unfold assertKind. cbn [projT1]. destruct (decide (KSecret = k)) as [E|_]; [congruence|]. apply s_panic. Qed.

(** The updates of the builders, on a Secret. *)
Definition amended (u : result Object) : Prop := ∀ o, u = inr o → ∃ s', o = existT KSecret s' ∧ amends s s'.

Lemma q_pureAmends (f : RabbitmqCluster → Secret → fallible Secret) :
  (∀ i x x', f i x = ok x' → amends x x') → steady I (pureUpdate KSecret f (existT KSecret s)) amended.
Proof.
  intros Hf. unfold pureUpdate. eapply s_bind; [apply q_isSecret|]. intros ? ->.
  eapply s_bind; [apply q_rmq|]. intros i _. eapply s_bind; [apply (s_lift _ _ (λ a, f i s = Returns a)); auto|].
  intros [err|s'] E; apply s_ret; [done|]. intros o [= <-]. exists s'. split; [done|]. by apply (Hf i).
Qed.

Lemma q_pureOther k f : k ≠ KSecret → steady I (pureUpdate k f (existT KSecret s)) amended.
Proof. intros Hk. unfold pureUpdate. eapply s_bind; [by apply q_notSecret|]. by intros ? []. Qed.

Lemma q_Update_amends b : steady I (Update b (existT KSecret s)) (λ u, amended u.1).
Proof.
  destruct b; cbn [Update];
    lazymatch goal with
    | |- steady _ (assertKind ?k _ ≫= _) _ => eapply s_bind; [by apply (q_notSecret k)|by intros ? []]
    | |- steady _ (pureUpdate KSecret ?f _ ≫= _) _ => eapply s_bind; [apply (q_pureAmends f)|by intros u Hu; apply s_ret]
    | |- steady _ (pureUpdate ?k ?f _ ≫= _) _ => eapply s_bind; [by apply (q_pureOther k f)|by intros u Hu; apply s_ret]
    end.
  - apply ErlangCookie_Update_amends.
  - apply DefaultUserSecret_Update_amends.
Qed.

Lemma q_mutate_amends b key :
  steady I (mutate (k := KSecret) b key s)
    (λ m, ∀ s', m.1 = inr s' → amends s s' ∧ ObjectKeyFromObject (k := KSecret) s' = key).
Proof.
  unfold mutate. eapply s_bind; [apply q_Update_amends|]. intros [[err|o] b'] Hu; cbn [fst snd]; [by apply s_ret|].
  destruct (Hu o eq_refl) as (s' & -> & Ha).
  unfold assertKind. cbn [projT1]. rw decide_True_pi.
  eapply s_bind; [by apply (s_ret _ _ (λ o, o = s'))|]. intros ? ->.
  case_bool_decide as Hk; apply s_ret; [done|]. intros ? [= <-]. split; [exact Ha|].
  by destruct (decide (key = ObjectKeyFromObject (k := KSecret) s')).
Qed.
End memory.

(** *** Creating or updating a child *)

Lemma q_CreateOrUpdateObj {k} b (obj : Obj k) : steady safe (CreateOrUpdateObj b obj) (λ _, True).
Proof.
  unfold CreateOrUpdateObj. destruct (decide (k = KSecret)) as [->|Hk].
  2:{ cbv zeta. quiet; first [by apply q_update|eapply s_any, q_mutate]. }
  cbv zeta. eapply (t_bind _ _ _ (λ got s, safe s ∧ match got with
    | inr x => seen (op_world s) x ∧ ObjectKeyFromObject (k := KSecret) x = ObjectKeyFromObject obj
    | inl _ => True end)).
  { intros s [Hn Hm]. pose proof (shared_get (ObjectKeyFromObject obj) (op_world s)) as Hg.
    pose proof (shared_silent _ (op_world s) (silent_get KSecret KSecret (ObjectKeyFromObject obj))) as Hs.
    unfold ext. destruct (kGet KSecret _ (op_world s)) as [got w] eqn:E. cbn in *. split.
    - split; [exact Hn|]. by etrans.
    - destruct got as [|x]; [done|]. split; [by apply Hg|]. by eapply get_key. }
  intros [err|x]; cbn beta iota.
  - apply (t_conseq safe _ _ (λ _ s, safe s ∧ True) _ safe); [|by intros s []|done|done].
    destruct (negb (errIsNotFound err)); [by apply s_ret|].
    eapply (s_bind _ _ _ (λ _, True)); [eapply s_any, q_mutate|]. intros [[e|o] b'] _; cbn [fst snd]; [by apply s_ret|].
    eapply (s_bind _ _ _ (λ _, True)); [|intros [] _; by apply s_ret].
    intros s [Hn Hm]. pose proof (shared_create o (op_world s)) as Hc. unfold ext.
    destruct (kCreate KSecret o (op_world s)) as [a w]. split; [|done]. split; [exact Hn|]. by etrans.
  - apply (t_conseq (λ s, safeSeen x s ∧ ObjectKeyFromObject (k := KSecret) x = ObjectKeyFromObject obj) _ _
      (λ _ s, safe s ∧ True) _ safe); [|by intros s (? & ? & ?)|done|done].
    apply t_pure. intros Hkx.
    eapply (s_seq _ _ _ _ _ _ (q_mutate_amends x b _)); [by intros s []|]. intros [[e|o] b'] Ho; cbn [fst snd] in *.
    { apply t_ret. by intros s []. }
    destruct (Ho o eq_refl) as [Ha Hk]. destruct (SemanticDeepEqual KSecret x o); [apply t_ret; by intros s []|].
    eapply (t_bind _ _ _ (λ _, safe)); [|intros [y [e|]]; by apply t_ret].
    intros s [[Hn Hm] Hx]. unfold update, mbind, M_bind, ext.
    assert (ObjectKeyFromObject (k := KSecret) o = ObjectKeyFromObject (k := KSecret) x) as Hox by by rw Hk Hkx.
    pose proof (update_moves x o (op_world s) Hx Ha Hox) as Hu.
    destruct (kUpdate KSecret o (op_world s)) as [[e|y] w]; (split; [exact Hn|]; by etrans).
Qed.

Lemma q_attempts b o :
  steady safe (withLocal (mkVars o b OperationResultNone) (RetryOnConflict attempt)) (λ _, True).
Proof.
  apply q_local, (s_retry _ _ _ _ _ (λ _, True)). unfold attempt.
  eapply (s_bind _ _ _ (λ _, True)); [by intros sl Hs|]. intros v _.
  eapply (s_bind _ _ _ (λ _, True)); [apply q_outer, q_CreateOrUpdateObj|]. intros x _.
  eapply (s_bind _ _ _ (λ _, True)); [by intros sl Hs|]. intros [] _. by apply s_ret.
Qed.
End guarantee.

(** ** Property *)

Section property.
Context {W : Type} `{!Kube W, !Store W, !Seen W, !SharedLaws W, !Library}.

(** C4: the credentials of a cluster are chosen once.  Whatever state the
    cluster is in, whether the reconciliation succeeds, fails or panics, however
    out of date the cache is and whatever else is written meanwhile: as long as
    others keep them, the Erlang cookie, the user name, the password and all else
    that a stored Secret holds, but the keys that say how to connect, are after
    the reconciliation what they were before. *)
Theorem Reconcile_keeps_credentials d req (w : W) : kept w (Reconcile d req w).2.
Proof.
  unfold Reconcile. pose proof (shared_silent _ w (silent_get KSecret KRabbitmqCluster req)) as Hg.
  destruct (kGet KRabbitmqCluster req w) as [[err|r] w1]; cbn in Hg; [by apply Hg|].
  assert (safe r w (mkOp r w1)) as Hs by by split.
  pose proof (q_reconcileFound (I := safe r w) (K := KSecret) ltac:(done) ltac:(done) ltac:(done) ltac:(done)
    (q_attempts r w) d _ Hs) as [_ Hm].
  destruct (reconcileFound d (mkOp r w1)) as [o s]. exact (proj1 Hm).
Qed.
End property.
