(* ===== verification/Cleanup.v ===== *)
(** Deleting a cluster on an API server that only the operator writes: one
    reconciliation labels the pods, deletes the StatefulSets and gives the
    cluster free. *)

From S2P Require Import Prelude GoStd K8s V1beta1 Constant Metadata Kube Controllerutil Sts Trace.
From S2P Require Import Result ControllerUtils Store Deletion Authority.

(** ** Lists and deletions of such a server *)

Definition inNamespace (ns : option string) (m : ObjectMeta) : Prop :=
  match ns with Some ns => om_Namespace m = ns | None => True end.

(** A list has every stored object of the namespace with the labels once, and
    a deletion with the uid of the stored object removes that object. *)
Class RemovalLaws (W : Type) `{!Kube W, !Store W} : Prop := {
  removal_list k ns labels (w : W) : sameStore w (kList k ns labels w).2 ∧
    ∃ os, (kList k ns labels w).1 = inr os ∧ NoDup os ∧
    ∀ o, o ∈ os ↔ contents w k (ObjectKeyFromObject o) = Some o ∧ carries labels (meta o) ∧ inNamespace ns (meta o);
  removal_delete k (o o' : Obj k) (w : W) : contents w k (ObjectKeyFromObject o) = Some o' →
    ∃ w', kDelete k (Some (om_UID (meta o'))) o w = (None, w') ∧ contents w' k (ObjectKeyFromObject o) = None ∧
    ∀ k' key, (k', key) ≠ (k, ObjectKeyFromObject o) → contents w' k' key = contents w k' key
}.

(** ** Definitions *)

(** A pod that may terminate at once. *)
Definition marked (pod : Pod) : Prop := gm_lookup (om_Labels (pod_ObjectMeta pod)) DeletionMarker = Some "true".

Section cleanup.
Context {W : Type} `{!Kube W, !Store W, !StoreLaws W, !RemovalLaws W} (r : RabbitmqCluster).
Abbreviation TW := (W * list Call)%type.
Implicit Types (w : W).

Definition markedAt w key : Prop := ∃ pod, contents w KPod key = Some pod ∧ marked pod.

(** Only pods have changed: every one is as it was or is marked now. *)
Record podsGrow w w' : Prop := {
  grow_others k key : k ≠ KPod → contents w' k key = contents w k key;
  grow_pods key : contents w' KPod key = contents w KPod key ∨ markedAt w' key;
  grow_marked key : markedAt w key → markedAt w' key
}.

Lemma podsGrow_same w w' : sameStore w w' → podsGrow w w'.
Proof. intros Hs. split; intros; unfold markedAt in *; rw ?Hs; auto. Qed.

Lemma podsGrow_trans w1 w2 w3 : podsGrow w1 w2 → podsGrow w2 w3 → podsGrow w1 w3.
Proof.
  intros [A1 A2 A3] [B1 B2 B3]. split; auto.
  - intros k key Hk. by rw B1 // A1.
  - intros key. destruct (B2 key) as [->|]; [|by right]. destruct (A2 key) as [|Hm]; [by left|]. right. by apply B3.
Qed.

Lemma podsGrow_is_Some w w' key : podsGrow w w' → is_Some (contents w KPod key) → is_Some (contents w' KPod key).
Proof. intros [_ Hp _] Hs. destruct (Hp key) as [->|(pod & -> & _)]; [done|by eexists]. Qed.

(** Writing a marked pod where there is one. *)
Lemma podsGrow_stored (pod : Pod) w w' :
  stored (k := KPod) pod w w' → marked pod → podsGrow w w' ∧ markedAt w' (ObjectKeyFromObject (k := KPod) pod).
Proof.
  intros [Hk Hother] Hm. assert (markedAt w' (ObjectKeyFromObject (k := KPod) pod)) as Ha by by exists pod.
  assert (∀ key, key ≠ ObjectKeyFromObject (k := KPod) pod → contents w' KPod key = contents w KPod key) as Hne.
  { intros key Hne. apply Hother. by intros [= ?]. }
  split; [|done]. split.
  - intros k key Hkind. apply Hother. by intros [= ?].
  - intros key. destruct (decide (key = ObjectKeyFromObject (k := KPod) pod)) as [->|]; [by right|left; by apply Hne].
  - intros key [p [Hp Hpm]]. destruct (decide (key = ObjectKeyFromObject (k := KPod) pod)) as [->|]; [done|].
    exists p. by rw Hne.
Qed.

(** ** Labelling the pods *)

Lemma wp_markPods pods w :
  Forall (λ pod : Pod, is_Some (om_Labels (pod_ObjectMeta pod)) ∧
    is_Some (contents w KPod (ObjectKeyFromObject (k := KPod) pod))) pods →
  wp r (markPods pods) w (λ err w' _, err = None ∧ podsGrow w w' ∧
    Forall (λ pod : Pod, markedAt w' (ObjectKeyFromObject (k := KPod) pod)) pods).
Proof.
  revert w. induction pods as [|pod pods IH]; intros w Hall; cbn [markPods].
  { apply wp_ret. split_and!; [done|by apply podsGrow_same|constructor]. }
  apply Forall_cons in Hall as [[[labels Hl] Hin] Hall]. unfold markPod, gm_insert. rw Hl.
  apply wp_bind. eapply wp_lift; [done|]. set (pod' := set_pod_ObjectMeta _ pod).
  apply wp_bind, (wp_update r (k := KPod)); [exact Hin|]. intros p w1 Hsv Hst. cbn [fst snd IgnoreNotFound].
  assert (marked p) as Hm.
  { destruct Hsv as (m & (_ & _ & Hm & _) & ->). unfold marked. cbn. rw Hm /=. by rw lookup_insert_eq. }
  destruct (podsGrow_stored p w w1 Hst Hm) as [Hg Hmk].
  rw (served_key (k := KPod) _ _ Hsv) in Hmk. change (ObjectKeyFromObject (k := KPod) pod') with
    (ObjectKeyFromObject (k := KPod) pod) in Hmk.
  eapply wp_mono; [apply IH|].
  - eapply Forall_impl; [exact Hall|]. intros q [? Hq]. split; [done|]. by eapply podsGrow_is_Some.
  - intros err w2 c (-> & Hg2 & Hall2). split_and!; [done|by eapply podsGrow_trans|].
    constructor; [by apply (grow_marked _ _ Hg2)|done].
Qed.

(** ** Deleting a StatefulSet *)

(** The selector of a StatefulSet of the cluster. *)
Definition selects (sts : StatefulSet) (labels : gmap string string) : Prop :=
  ∃ selector, stss_Selector (sts_Spec sts) = Some selector ∧ gm (ls_MatchLabels selector) = labels ∧ labels ≠ ∅.

Lemma carries_labels labels m : labels ≠ ∅ → carries labels m → is_Some (om_Labels m).
Proof.
  intros Hne Hc. apply map_choose in Hne as (key & v & Hk). specialize (Hc key v Hk).
  unfold gm_lookup in Hc. by destruct (om_Labels m).
Qed.

(** Deletable: the cluster controls it and it selects by labels. *)
Definition deletable (sts : StatefulSet) : Prop :=
  controlledBy r (sts_ObjectMeta sts) ∧ ∃ labels, selects sts labels.

(** All the pods with the labels are marked. *)
Definition podsMarked w w' labels : Prop :=
  ∀ pod : Pod, contents w KPod (ObjectKeyFromObject (k := KPod) pod) = Some pod → carries labels (pod_ObjectMeta pod) →
    markedAt w' (ObjectKeyFromObject (k := KPod) pod).

Lemma wp_addRabbitmqDeletionLabel sts labels w :
  selects sts labels →
  wp r (addRabbitmqDeletionLabel sts) w (λ err w' _, err = None ∧ podsGrow w w' ∧ podsMarked w w' labels).
Proof.
  intros (selector & Hsel & <- & Hne). unfold addRabbitmqDeletionLabel. rw Hsel. apply wp_bind, wp_ret. cbn beta iota.
  destruct (removal_list KPod None (gm (ls_MatchLabels selector)) w) as (Hs & pods & Hp & _ & Hpods).
  apply wp_bind, (wp_unlogged r (kList KPod None (gm (ls_MatchLabels selector)))). rw Hp. cbn beta iota.
  eapply wp_mono; [apply wp_markPods|].
  - apply Forall_forall. intros pod (Hin & Hc & _)%Hpods. split; [by eapply carries_labels|]. by rw Hs Hin.
  - intros err w' c (-> & Hg & Hall). split_and!; [done|eapply podsGrow_trans; [by apply podsGrow_same|exact Hg]|].
    intros pod Hin Hc. rw Forall_forall in Hall. by apply Hall, Hpods.
Qed.

Lemma statefulSetUID_controlled sts :
  controlledBy r (sts_ObjectMeta sts) → statefulSetUID sts r = inr (om_UID (sts_ObjectMeta sts)).
Proof. intros (ref & Hr & Hu). unfold statefulSetUID. by rw Hr Hu String.eqb_refl. Qed.

(** [sts] goes, pods may be marked, all else stays. *)
Record removed (sts : StatefulSet) w w' : Prop := {
  removed_gone : contents w' KStatefulSet (ObjectKeyFromObject (k := KStatefulSet) sts) = None;
  removed_others k key : k ≠ KPod → (k, key) ≠ (KStatefulSet, ObjectKeyFromObject (k := KStatefulSet) sts) →
    contents w' k key = contents w k key;
  removed_pods key : contents w' KPod key = contents w KPod key ∨ markedAt w' key;
  removed_marked key : markedAt w key → markedAt w' key
}.

Lemma wp_deleteOnce sts labels w :
  controlledBy r (sts_ObjectMeta sts) → selects sts labels →
  contents w KStatefulSet (ObjectKeyFromObject (k := KStatefulSet) sts) = Some sts →
  wp r (deleteOnce sts) w (λ err w' _, err = None ∧ removed sts w w' ∧ podsMarked w w' labels).
Proof.
  intros Hc Hsel Hin. unfold deleteOnce. apply wp_bind, wp_rmq. rw (statefulSetUID_controlled sts Hc).
  apply wp_bind. eapply wp_mono; [by apply wp_addRabbitmqDeletionLabel|]. intros err w1 c1 (-> & Hg & Hm). cbn beta iota.
  assert (contents w1 KStatefulSet (ObjectKeyFromObject (k := KStatefulSet) sts) = Some sts) as Hin1
    by by rw (grow_others _ _ Hg).
  destruct (removal_delete KStatefulSet sts sts w1 Hin1) as (w2 & Hd & Hgone & Hother).
  apply wp_bind, (wp_logged r (λ _, Deleted KStatefulSet (Some (om_UID (sts_ObjectMeta sts))) sts)
    (kDelete KStatefulSet (Some (om_UID (sts_ObjectMeta sts))) sts)). rw Hd. cbn [fst snd].
  apply wp_ret. assert (∀ key, contents w2 KPod key = contents w1 KPod key) as Hpod by (intros key; by apply Hother).
  assert (∀ key, markedAt w1 key → markedAt w2 key) as Hmk by (intros key [p ?]; exists p; by rw Hpod).
  split; [done|]. split; [split|].
  - done.
  - intros k key Hk Hne. rw Hother //. by apply (grow_others _ _ Hg).
  - intros key. rw Hpod. destruct (grow_pods _ _ Hg key) as [|Hx]; [by left|right; by apply Hmk].
  - intros key Hs. by apply Hmk, (grow_marked _ _ Hg).
  - intros pod Hp Hcar. by apply Hmk, Hm.
Qed.

(** ** All the StatefulSets *)

Definition stsKeyOf (sts : StatefulSet) : NamespacedName := ObjectKeyFromObject (k := KStatefulSet) sts.

Record cleaned (stss : list StatefulSet) w w' : Prop := {
  cleaned_sts key : contents w' KStatefulSet key =
    if decide (key ∈ stsKeyOf <$> stss) then None else contents w KStatefulSet key;
  cleaned_others k key : k ≠ KPod → k ≠ KStatefulSet → contents w' k key = contents w k key;
  cleaned_pods key : contents w' KPod key = contents w KPod key ∨ markedAt w' key;
  cleaned_marked key : markedAt w key → markedAt w' key;
  cleaned_selected sts labels : sts ∈ stss → selects sts labels → podsMarked w w' labels
}.

Lemma selects_inj sts labels labels' : selects sts labels → selects sts labels' → labels' = labels.
Proof. intros (? & E & <- & _) (? & E' & <- & _). congruence. Qed.

Lemma cleaned_nil w w' : sameStore w w' → cleaned [] w w'.
Proof.
  intros Hs. split.
  - intros key. destruct (decide _) as [Hin|_]; [by apply elem_of_nil in Hin|apply Hs].
  - intros k key _ _. apply Hs.
  - intros key. left. apply Hs.
  - intros key [pod ?]. exists pod. by rw Hs.
  - by intros sts labels ?%elem_of_nil.
Qed.

Lemma cleaned_cons sts stss labels w w1 w2 :
  removed sts w w1 → podsMarked w w1 labels → selects sts labels → cleaned stss w1 w2 → cleaned (sts :: stss) w w2.
Proof.
  intros [R1 R2 R3 R4] Hm Hsel [C1 C2 C3 C4 C5].
  assert (∀ key, contents w1 KPod key = contents w KPod key ∨ markedAt w2 key) as Hpod.
  { intros key. destruct (R3 key) as [|Hx]; [by left|right; by apply C4]. }
  split.
  - intros key. rw C1 fmap_cons. destruct (decide (key ∈ stsKeyOf <$> stss)) as [Hin|Hin].
    + rw decide_True //. by apply list_elem_of_further.
    + destruct (decide (key = stsKeyOf sts)) as [->|Hne].
      * rw decide_True; [by apply list_elem_of_here|exact R1].
      * rw decide_False; [by apply not_elem_of_cons|]. apply R2; [done|]. by intros [= ?].
  - intros k key Hk1 Hk2. rw C2 // R2 //. by intros [= ?].
  - intros key. destruct (C3 key) as [->|]; [apply Hpod|by right].
  - intros key Hk. by apply C4, R4.
  - intros x labels' [->|Hx]%elem_of_cons Hsel' pod Hp Hc.
    + rw (selects_inj _ _ _ Hsel Hsel') in Hc. by apply C4, Hm.
    + destruct (Hpod (ObjectKeyFromObject (k := KPod) pod)) as [E|]; [|done].
      eapply (C5 x labels'); [done|done| |exact Hc]. by rw E.
Qed.

Lemma wp_deleteStatefulSets stss w :
  NoDup (stsKeyOf <$> stss) → Forall deletable stss →
  Forall (λ sts, contents w KStatefulSet (stsKeyOf sts) = Some sts) stss →
  wp r (deleteStatefulSets stss) w (λ _ w' _, cleaned stss w w').
Proof.
  intros Hnd Hdel. revert w. induction Hdel as [|sts stss [Hc [labels Hsel]] _ IH]; intros w Hin; cbn [deleteStatefulSets].
  { apply wp_ret. by apply cleaned_nil. }
  cbn [fmap list_fmap] in Hnd. apply NoDup_cons in Hnd as [Hni Hnd]. apply Forall_cons in Hin as [Hsts Hin].
  apply wp_bind. unfold RetryOnConflict, OnError, DefaultRetrySteps. apply wp_retry.
  eapply wp_mono; [by apply (wp_deleteOnce sts labels)|]. intros err w1 c1 (-> & Hrem & Hm). split; [done|].
  eapply wp_mono; [apply IH; [done|]|intros [] w2 c2 Hcl; by eapply cleaned_cons].
  rw Forall_forall in Hin. apply Forall_forall. intros x Hx. rw (removed_others _ _ _ Hrem) //; [|by apply Hin].
  intros Heq. apply Hni. assert (stsKeyOf x = stsKeyOf sts) as <- by exact (f_equal snd Heq).
  by apply list_elem_of_fmap_2.
Qed.

(** ** The finalizer *)

Lemma removeFinalizer_removes w l :
  deletionFinalizer ∈ om_Finalizers (rmq_ObjectMeta r) →
  is_Some (contents w KRabbitmqCluster (ObjectKeyFromObject (k := KRabbitmqCluster) r)) →
  ∃ r' w' calls, removeFinalizer (mkOp r (w, l)) = (Returns Done, mkOp r' (w', l ++ calls)) ∧
    contents w' KRabbitmqCluster (ObjectKeyFromObject (k := KRabbitmqCluster) r) = Some r' ∧
    deletionFinalizer ∉ om_Finalizers (rmq_ObjectMeta r') ∧
    ∀ k key, (k, key) ≠ (KRabbitmqCluster, ObjectKeyFromObject (k := KRabbitmqCluster) r) →
      contents w' k key = contents w k key.
Proof.
  intros Hf Hr. destruct (Finalizer_remove (rmq_ObjectMeta r) deletionFinalizer) as (Hch & Hgone & _).
  rw (bool_decide_eq_true_2 _ Hf) in Hch. unfold removeFinalizer, updateFinalizers, updateRmq.
  set (r1 := set_rmq_ObjectMeta (RemoveFinalizer (rmq_ObjectMeta r) deletionFinalizer).2 r).
  destruct (wp_update r1 (k := KRabbitmqCluster) r1 w (λ u w' _, ∃ r', u = (r', None) ∧
    served (k := KRabbitmqCluster) r1 r' ∧ stored (k := KRabbitmqCluster) r' w w') Hr (λ o' w' Hs Hst,
      ex_intro _ o' (conj eq_refl (conj Hs Hst))) l) as (u & w' & calls & E & r' & -> & Hsv & Hst).
  exists r', w', calls. pose proof (served_key (k := KRabbitmqCluster) _ _ Hsv) as Hk.
  destruct Hst as [Hst Hother]. rw Hk in Hst Hother. split_and!; [|exact Hst| |exact Hother].
  - unfold mbind, M_bind, rmq, gets, set_rmq, modify. cbn [op_rmq op_world].
    destruct (RemoveFinalizer (rmq_ObjectMeta r) deletionFinalizer) as [changed m] eqn:Er. cbn in Hch. subst changed.
    cbn beta iota zeta delta [negb op_rmq op_world]. subst r1. cbn [snd] in E. by rw E.
  - destruct Hsv as (m & (_ & _ & _ & _ & Hfin & _) & ->). cbn. by rw Hfin.
Qed.

(** The listed StatefulSets have different keys. *)
Lemma listed_keys w stss :
  NoDup stss → (∀ sts, sts ∈ stss → contents w KStatefulSet (stsKeyOf sts) = Some sts) → NoDup (stsKeyOf <$> stss).
Proof.
  intros Hnd Hin. apply NoDup_fmap_2_strong; [|done]. intros x y Hx Hy E.
  pose proof (Hin x Hx) as H1. rw E (Hin y Hy) in H1. by injection H1.
Qed.

Lemma statefulSets_lists w l stss w1 :
  kList KStatefulSet (Some (rmq_Namespace r)) (Metadata.LabelSelector (rmq_Name r)) w = (inr stss, w1) →
  statefulSets (mkOp r (w, l)) = (Returns (inr stss), mkOp r (w1, l)).
Proof. intros E. unfold statefulSets, mbind, M_bind, rmq, gets, ext. cbn. unfold unlogged. cbn. by rw E. Qed.
End cleanup.

(** ** Property *)

Section deletion.
Context {W : Type} `{!Kube W, !Store W, !StoreLaws W, !RemovalLaws W} (r : RabbitmqCluster).

Definition rmqKey : NamespacedName := ObjectKeyFromObject (k := KRabbitmqCluster) r.

(** C15: on an API server that stores what it is sent and deletes what it is
    asked to, one reconciliation of a cluster that is being deleted cleans up:
    no StatefulSet of the cluster is left, every pod that one of them selected
    has the label that lets it terminate at once, the cluster has lost its
    finalizer, so that the server may remove it, and objects of other kinds are
    as before.  The StatefulSets have to be under the control of the cluster and
    to select their pods by a label. *)
Theorem reconcileDelete_cleans_up (w : W) l :
  deletionIsZero r = false → deletionFinalizer ∈ om_Finalizers (rmq_ObjectMeta r) →
  is_Some (contents w KRabbitmqCluster rmqKey) →
  (∀ sts, contents w KStatefulSet (stsKeyOf sts) = Some sts → listedFor r sts → deletable r sts) →
  ∃ r' w' calls, reconcileDelete (mkOp r (w, l)) = (Returns Done, mkOp r' (w', l ++ calls)) ∧
    (∀ sts, contents w' KStatefulSet (stsKeyOf sts) = Some sts → ¬ listedFor r sts) ∧
    (∀ sts labels, contents w KStatefulSet (stsKeyOf sts) = Some sts → listedFor r sts → selects sts labels →
       podsMarked w w' labels) ∧
    contents w' KRabbitmqCluster rmqKey = Some r' ∧ deletionFinalizer ∉ om_Finalizers (rmq_ObjectMeta r') ∧
    (∀ k key, k ≠ KPod → k ≠ KStatefulSet → (k, key) ≠ (KRabbitmqCluster, rmqKey) → contents w' k key = contents w k key).
Proof.
  intros Hz Hf Hr Hdel.
  destruct (removal_list KStatefulSet (Some (rmq_Namespace r)) (Metadata.LabelSelector (rmq_Name r)) w)
    as (Hs & stss & Hl & Hnd & Hstss).
  destruct (kList KStatefulSet _ _ w) as [got w1] eqn:El. cbn [fst snd] in Hl, Hs. subst got.
  assert (∀ sts, sts ∈ stss ↔ contents w KStatefulSet (stsKeyOf sts) = Some sts ∧ listedFor r sts) as Hstss'.
  { intros sts. unfold listedFor. rw (Hstss sts). unfold stsKeyOf, inNamespace. cbn. tauto. }
  destruct (wp_deleteStatefulSets r stss w1) with (l := l) as ([] & w2 & c2 & E2 & Hcl).
  { eapply listed_keys; [done|]. by intros sts [Hin _]%Hstss'. }
  { apply Forall_forall. intros sts [Hin Hfor]%Hstss'. by apply Hdel. }
  { apply Forall_forall. intros sts [Hin _]%Hstss'. by rw Hs. }
  destruct (removeFinalizer_removes r w2 (l ++ c2)) as (r' & w3 & c3 & E3 & Hr' & Hf' & Hother); [done| |].
  { by rw (cleaned_others _ _ _ Hcl) // Hs. }
  exists r', w3, (c2 ++ c3). split; [|split; [|split; [|split; [exact Hr'|split; [exact Hf'|]]]]].
  - unfold reconcileDelete. rw (M_bind_eq _ _ _ _ _ (eq_refl : rmq (mkOp r (w, l)) = (Returns r, _))). cbn beta iota.
    rw Hz (M_bind_eq _ _ _ _ _ (statefulSets_lists r w l stss w1 El)). cbn beta iota.
    by rw (M_bind_eq _ _ _ _ _ E2) E3 app_assoc.
  - intros sts Hin Hfor. rw Hother // (cleaned_sts _ _ _ Hcl) in Hin.
    destruct (decide _) as [|Hni]; [done|]. rw Hs in Hin. apply Hni, list_elem_of_fmap_2, Hstss'. done.
  - intros sts labels Hin Hfor Hsel pod Hp Hc. assert (sts ∈ stss) as Hx by by apply Hstss'.
    destruct (cleaned_selected _ _ _ Hcl sts labels Hx Hsel pod) as (pod' & Hp' & Hm); [by rw Hs|done|].
    exists pod'. by rw Hother.
  - intros k key Hk1 Hk2 Hk3. by rw Hother // (cleaned_others _ _ _ Hcl) // Hs.
Qed.
End deletion.
