(* ===== verification/Restarts.v ===== *)
(** Restarting the StatefulSets of a cluster after a change of the server
    configuration, on an API server that only the operator writes: every
    reconciliation restarts one, and each is restarted once. *)

From S2P Require Import Prelude GoStd GoTime K8s V1beta1 Constant Metadata Kube Trace Result.
From S2P Require Import Builders ControllerUtils Configurations Resources Timestamps Store Authority Cleanup.

#[local] Open Scope Z_scope.

Section restarts.
Context {W : Type} `{!Kube W, !Library, !Store W, !StoreLaws W, !RemovalLaws W} (r : RabbitmqCluster) (updated : Z).
Abbreviation TW := (W * list Call)%type.
Implicit Types (w : W) (sts : StatefulSet).

(** ** Definitions *)

(** The instant of the last restart, or none; and that it has to be repeated. *)
Definition stamp (sts : StatefulSet) (t : option Z) : Prop := stamped (sts, t).
Definition due (sts : StatefulSet) : Prop := ∃ t, stamp sts t ∧ dueAt updated (sts, t) = true.

(** The StatefulSets of the cluster, which carry no stamps but the operator's. *)
Definition ours w sts : Prop := contents w KStatefulSet (stsKeyOf sts) = Some sts ∧ listedFor r sts.
Definition wellStamped w : Prop := ∀ sts, ours w sts → ∃ t, stamp sts t.

(** The keys of the StatefulSets that have to be restarted. *)
Definition dueIn w (l : list NamespacedName) : Prop :=
  NoDup l ∧ ∀ key, key ∈ l ↔ ∃ sts, ours w sts ∧ due sts ∧ stsKeyOf sts = key.

(** The configuration was updated at the instant [updated]. *)
Definition confUpdatedIn w : Prop :=
  ∃ cm, contents w KConfigMap (mkNamespacedName (rmq_Namespace r) (ChildResourceName r ResourceServerConfigMapSuffix))
        = Some cm ∧ gm_lookup (annotations (k := KConfigMap) cm) serverConfAnnotation = Some (Format updated).

(** The clock shows a later second than that of the update. *)
Definition clockPast : Prop := ∀ w, inRange (kNow w).1 ∧ updated / Second < (kNow w).1 / Second.

(** ** Lemmas *)

(** In the worlds [late] the clock shows a later second than that of the
    update, and reading leads from such worlds to such worlds. *)
Record pastIn (late : W → Prop) : Prop := {
  past_now w : late w → inRange (kNow w).1 ∧ updated / Second < (kNow w).1 / Second;
  past_get k key w : late w → late (kGet k key w).2;
  past_list k ns labels w : late w → late (kList k ns labels w).2
}.

Lemma clockPast_pastIn : clockPast → pastIn (λ _, True).
Proof. intros Hc. split; [by intros w _|done|done]. Qed.

Context (Hu : inRange updated) (late : W → Prop) (Hclock : pastIn late).

(** Whether a StatefulSet is due does not depend on which instant its stamp is read as. *)
Lemma due_restartedSince sts t : stamp sts t → due sts ↔ restartedSince (Format updated) sts = false.
Proof.
  intros Ht. unfold due. split.
  - intros (t' & Ht' & Hd). pose proof (restartedSince_stamp updated (sts, t') Hu Ht') as E. cbn [fst] in E. by rw E Hd.
  - intros E. exists t. split; [done|]. pose proof (restartedSince_stamp updated (sts, t) Hu Ht) as E'. cbn [fst] in E'.
    rw E in E'. by destruct (dueAt updated (sts, t)).
Qed.

Lemma due_dec w sts : wellStamped w → ours w sts → due sts ∨ ¬ due sts.
Proof.
  intros Hw Ho. destruct (Hw sts Ho) as [t Ht]. rw (due_restartedSince sts t Ht).
  destruct (restartedSince _ sts); [by right|by left].
Qed.

(** The StatefulSets that the operator lists are those of the cluster. *)
Lemma wp_statefulSets w (Q : result (list StatefulSet) → W → list Call → Prop) :
  (∀ stss w', w' = (kList KStatefulSet (Some (rmq_Namespace r)) (Metadata.LabelSelector (rmq_Name r)) w).2 →
     NoDup stss → (∀ sts, sts ∈ stss ↔ ours w sts) → sameStore w w' → Q (inr stss) w' []) →
  wp r statefulSets w Q.
Proof.
  intros HQ. unfold statefulSets. apply wp_bind, wp_rmq. cbn beta.
  apply (wp_unlogged r (kList KStatefulSet (Some (rmq_Namespace r)) (Metadata.LabelSelector (rmq_Name r)))).
  destruct (removal_list KStatefulSet (Some (rmq_Namespace r)) (Metadata.LabelSelector (rmq_Name r)) w)
    as (Hs & stss & -> & Hnd & Hin). cbn [app]. apply HQ; [done|done| |done].
  intros sts. rw (Hin sts). unfold ours, listedFor, stsKeyOf, inNamespace. cbn. tauto.
Qed.

(** *** One restart *)

(** The StatefulSet has the stamp of the instant [now]; the rest is as the server keeps it. *)
Definition restartedAs sts now sts' : Prop :=
  served (k := KStatefulSet) (set_templateAnnotations
    (Some (<[stsRestartAnnotation := Format now]> (gm (templateAnnotations sts)))) sts) sts'.

Definition restarts w w' sts : Prop :=
  ∃ now sts', inRange now ∧ updated / Second < now / Second ∧ restartedAs sts now sts' ∧
    stored (k := KStatefulSet) sts' w w'.

(** The closure of the retry loop without its variable. *)
Definition restartBody sts : Run TW (StatefulSet * goerror) :=
  got ← ext (kGet KStatefulSet (stsKeyOf sts));
  match got with
  | inl err => mret (sts, Some err)
  | inr sts =>
      now ← ext kNow;
      update (k := KStatefulSet) (set_templateAnnotations
        (Some (<[stsRestartAnnotation := Format now]> (gm (templateAnnotations sts)))) sts)
  end.

Lemma restartOnce_body sts s u s' :
  restartBody sts s = (Returns u, s') → restartOnce (s, sts) = (Returns u.2, (s', u.1)).
Proof.
  unfold restartBody, restartOnce, mbind, M_bind, local, outer, stsKeyOf, ObjectKeyFromObject. cbn [fst snd meta].
  destruct (ext (kGet KStatefulSet _) s) as [[[err|x]|] s1]; [by intros [= <- <-]| |done].
  cbn [fst snd]. destruct (ext kNow s1) as [[now|] s2]; cbn [fst snd]; [|done].
  unfold set_local, mret, M_ret. destruct (update _ s2) as [[[y e]|] s3]; [|done]. by intros [= <- <-].
Qed.

Lemma wp_restartBody w sts :
  late w → contents w KStatefulSet (stsKeyOf sts) = Some sts →
  wp r (restartBody sts) w (λ u w' c, u.2 = None ∧ restarts w w' sts ∧ length c = 1%nat).
Proof.
  intros Hw Hin. unfold restartBody. apply wp_bind, (wp_unlogged r (kGet KStatefulSet (stsKeyOf sts))).
  destruct (store_get KStatefulSet (stsKeyOf sts) w) as [Hg Hs1]. rw Hin in Hg. cbn in Hg. rw Hg. clear Hg.
  apply (past_get _ Hclock KStatefulSet (stsKeyOf sts)) in Hw. set (w1 := (kGet KStatefulSet (stsKeyOf sts) w).2) in *.
  apply wp_bind, (wp_unlogged r kNow). destruct (past_now _ Hclock w1 Hw) as [Hr Hlt]. pose proof (store_now w1) as Hs2.
  set (now := (kNow w1).1) in *. cbn [app]. apply wp_update.
  { change (ObjectKeyFromObject (k := KStatefulSet) (set_templateAnnotations _ sts)) with (stsKeyOf sts).
    rw Hs2 Hs1 Hin. by eexists. }
  intros sts' w2 Hsv [Hst Hother]. split_and!; [done| |done]. exists now, sts'. split_and!; [done..|].
  split; [exact Hst|]. intros k key Hne. by rw Hother // Hs2 Hs1.
Qed.

Lemma wp_restartStatefulSet w sts :
  late w → contents w KStatefulSet (stsKeyOf sts) = Some sts →
  wp r (restartStatefulSet sts) w (λ res w' c, res = Done ∧ restarts w w' sts ∧ length c = 2%nat).
Proof.
  intros Hw Hin. unfold restartStatefulSet. apply wp_bind, wp_withLocal. intros l.
  destruct (wp_restartBody w sts Hw Hin l) as ([sts' err] & w1 & c & E & Herr & Hre & Hc). cbn in Herr. subst err.
  apply restartOnce_body in E. exists None, sts', w1, c. split; [by apply OnErrorSteps_ok|].
  apply wp_bind, wp_event. intros w2 Hs2. apply wp_ret. split; [done|].
  split; [|by rw !length_app Hc].
  destruct Hre as (now & x & Hr & Hlt & Has & Hst & Hother). exists now, x. split_and!; [done..|].
  split; [by rw Hs2|]. intros k key Hne. by rw Hs2 Hother.
Qed.

(** *** The StatefulSets that are due *)

Lemma restartedAs_spec sts now sts' :
  restartedAs sts now sts' → inRange now → updated / Second < now / Second →
  stsKeyOf sts' = stsKeyOf sts ∧ (listedFor r sts → listedFor r sts') ∧ stamp sts' (Some now) ∧ ¬ due sts'.
Proof.
  intros Has Hr Hlt. pose proof (served_key (k := KStatefulSet) _ _ Has) as Hk.
  destruct Has as (m & (_ & Hns & Hl & _) & ->). cbn in Hns, Hl. split; [exact Hk|].
  assert (stamp (set_meta (k := KStatefulSet) m (set_templateAnnotations
    (Some (<[stsRestartAnnotation := Format now]> (gm (templateAnnotations sts)))) sts)) (Some now)) as Hst.
  { split; [|done]. cbn. by rw lookup_insert_eq. }
  split_and!; [|done|].
  - unfold listedFor, carries, gm_lookup. cbn. by rw Hns Hl.
  - rw (due_restartedSince _ _ Hst) (restartedSince_stamp updated (_, Some now) Hu Hst). cbn.
    rw (proj2 (Z.leb_gt _ _)) //.
Qed.

Lemma key_ne (k : Kind) (key key' : NamespacedName) : key ≠ key' → (k, key) ≠ (k, key').
Proof. congruence. Qed.

(** What a restart changes: the one StatefulSet is not due any more. *)
Lemma restarts_ours w w' sts x :
  restarts w w' sts → ours w' x →
  (stsKeyOf x = stsKeyOf sts ∧ (∃ t, stamp x t) ∧ ¬ due x) ∨ (stsKeyOf x ≠ stsKeyOf sts ∧ ours w x).
Proof.
  intros (now & sts' & Hr & Hlt & Has & Hst & Hother) [Hx Hlx].
  destruct (restartedAs_spec _ _ _ Has Hr Hlt) as (Hk & _ & Hs & Hnd).
  change (ObjectKeyFromObject (k := KStatefulSet) sts') with (stsKeyOf sts') in Hst, Hother. rw Hk in Hst Hother.
  destruct (decide (stsKeyOf x = stsKeyOf sts)) as [E|Hne].
  - left. rw -E Hx in Hst. injection Hst as ->. split_and!; [done|by eexists|done].
  - right. split; [done|]. split; [|done]. rw -(Hother KStatefulSet (stsKeyOf x)) //. by apply key_ne.
Qed.

Lemma restarts_others w w' sts k key :
  restarts w w' sts → (k, key) ≠ (KStatefulSet, stsKeyOf sts) → contents w' k key = contents w k key.
Proof.
  intros (now & sts' & Hr & Hlt & Has & _ & Hother) Hne.
  destruct (restartedAs_spec _ _ _ Has Hr Hlt) as (Hk & _). apply Hother.
  change (ObjectKeyFromObject (k := KStatefulSet) sts') with (stsKeyOf sts'). by rw Hk.
Qed.

Lemma restarts_wellStamped w w' sts : wellStamped w → restarts w w' sts → wellStamped w'.
Proof. intros Hw Hre x Hx. destruct (restarts_ours w w' sts x Hre Hx) as [(_ & ? & _)|[_ ?]]; [done|by apply Hw]. Qed.

Lemma length_filter_one (k : NamespacedName) l :
  NoDup l → k ∈ l → length l = S (length (filter (λ x, x ≠ k) l)).
Proof.
  intros Hnd Hk. change (S (length (filter (λ x, x ≠ k) l))) with (length (k :: filter (λ x, x ≠ k) l)).
  apply Permutation_length, NoDup_Permutation; [done| |].
  - constructor; [rw list_elem_of_filter; by intros []|by apply NoDup_filter].
  - intros x. rw elem_of_cons list_elem_of_filter. destruct (decide (x = k)) as [->|]; tauto.
Qed.

Lemma restarts_dueIn w w' sts l :
  ours w sts → due sts → restarts w w' sts → dueIn w l → ∃ l', dueIn w' l' ∧ length l = S (length l').
Proof.
  intros Ho Hd Hre [Hnd Hl]. exists (filter (λ x, x ≠ stsKeyOf sts) l).
  split; [|by apply length_filter_one; [|apply Hl; exists sts]]. split; [by apply NoDup_filter|].
  intros key. rw list_elem_of_filter Hl. split.
  - intros (Hne & x & [Hx Hlx] & Hdx & <-). exists x. split_and!; [|done..]. split; [|done].
    rw (restarts_others w w' sts) //. by apply key_ne.
  - intros (x & Hx & Hdx & <-). destruct (restarts_ours w w' sts x Hre Hx) as [(_ & _ & ?)|[Hne Hox]]; [done|].
    split; [done|]. by exists x.
Qed.

(** *** One reconciliation *)

Lemma wp_restartFirst stss w l :
  late w → wellStamped w → dueIn w l → Forall (ours w) stss → (∀ sts, ours w sts → due sts → sts ∈ stss) →
  wp r (restartFirst (Format updated) stss) w (λ res w' c,
    match l with
    | [] => res = Continue ∧ sameStore w w' ∧ c = []
    | _ => res = Done ∧ length c = 2%nat ∧ ∃ sts, ours w sts ∧ due sts ∧ restarts w w' sts
    end).
Proof.
  intros Hlate Hw [_ Hl]. induction 1 as [|sts stss Ho Hstss IH]; intros Hin; cbn [restartFirst].
  - apply wp_ret. destruct l as [|key l]; [done|]. destruct (proj1 (Hl key)) as (x & Hx & Hd & _); [apply list_elem_of_here|].
    by apply Hin, elem_of_nil in Hd.
  - destruct (Hw sts Ho) as [t Ht]. pose proof (due_restartedSince sts t Ht) as Hdue.
    destruct (restartedSince (Format updated) sts).
    + apply IH. intros x Hx Hd. apply Hin in Hx as Hx'; [|done]. apply elem_of_cons in Hx' as [->|]; [|done].
      by apply Hdue in Hd.
    + eapply wp_mono; [apply wp_restartStatefulSet; [exact Hlate|apply Ho]|]. intros res w' c (-> & Hre & Hc).
      assert (stsKeyOf sts ∈ l) as Hk by (apply Hl; exists sts; by rw Hdue).
      destruct l as [|key l]; [by apply elem_of_nil in Hk|]. split_and!; [done..|]. exists sts. by rw Hdue.
Qed.

Lemma wp_restartStatefulSetIfNeeded w l :
  late w → confUpdatedIn w → wellStamped w → dueIn w l →
  wp r restartStatefulSetIfNeeded w (λ res w' c,
    confUpdatedIn w' ∧ wellStamped w' ∧
    match l with
    | [] => res = Continue ∧ sameStore w w' ∧ c = []
    | _ => res = Done ∧ length c = 2%nat ∧ (∃ l', dueIn w' l' ∧ length l = S (length l')) ∧
        ∃ sts, ours w sts ∧ due sts ∧ restarts w w' sts
    end).
Proof.
  intros Hlate (cm & Hcm & Ha) Hw Hl. unfold restartStatefulSetIfNeeded, configMapServer.
  apply wp_bind, wp_bind, wp_rmq. cbn beta. set (cmKey := mkNamespacedName _ _) in *.
  apply (wp_unlogged r (kGet KConfigMap cmKey)).
  destruct (store_get KConfigMap cmKey w) as [Hg Hs1]. rw Hcm in Hg. cbn in Hg. rw Hg. clear Hg.
  apply (past_get _ Hclock KConfigMap cmKey) in Hlate. set (w1 := (kGet KConfigMap cmKey w).2) in *.
  cbn beta iota. rw Ha. apply wp_bind, wp_statefulSets. intros stss w2 E2 Hnd Hin Hs2.
  apply (past_list _ Hclock KStatefulSet (Some (rmq_Namespace r)) (Metadata.LabelSelector (rmq_Name r))) in Hlate. rw -E2 in Hlate. cbn beta iota. cbn [app].
  assert (sameStore w w2) as Hs by by eapply sameStore_trans.
  assert (∀ x, ours w2 x ↔ ours w x) as Hours by (intros x; unfold ours; by rw Hs).
  assert (∀ x, ours w1 x ↔ ours w x) as Hours1 by (intros x; unfold ours; by rw Hs1).
  assert (wellStamped w2) as Hw2 by (intros x Hx; by apply Hw, Hours).
  assert (dueIn w2 l) as Hl2. { destruct Hl as [Hnl Hl]. split; [done|]. intros key. rw Hl. by setoid_rewrite Hours. }
  eapply wp_mono; [apply (wp_restartFirst stss w2 l Hlate Hw2 Hl2)|].
  - apply Forall_forall. intros x Hx. by apply Hours, Hours1, Hin.
  - intros x Hx _. by apply Hin, Hours1, Hours.
  - intros res w' c HQ. destruct l as [|key l].
    + destruct HQ as (-> & Hs' & ->). split_and!; [|intros x Hx; apply Hw|done| |done].
      * exists cm. by rw Hs' Hs.
      * unfold ours. by rw -Hs -Hs'.
      * by eapply sameStore_trans.
    + destruct HQ as (-> & Hc & sts & Ho & Hd & Hre). split_and!; [|by eapply restarts_wellStamped|done|done| |].
      * exists cm. by rw (restarts_others _ _ _ _ _ Hre) // Hs.
      * by eapply restarts_dueIn.
      * exists sts. split_and!; [by apply Hours|done|]. destruct Hre as (now & x & ? & ? & ? & Hx & Hother).
        exists now, x. split_and!; [done..|]. split; [done|]. intros k key' Hne. by rw Hother // Hs.
Qed.

(** *** Rounds *)

(** Others keep the stamps: the cluster has the same StatefulSets, with the same
    stamps on their pod templates and labels, and the configuration was not
    updated again.  The rest of the StatefulSets, such as their status, and all
    other objects may change. *)
Definition sameStamps w w' : Prop :=
  (confUpdatedIn w → confUpdatedIn w') ∧
  ∀ key, match contents w KStatefulSet key, contents w' KStatefulSet key with
         | Some sts, Some sts' => templateAnnotations sts' = templateAnnotations sts ∧
             om_Labels (sts_ObjectMeta sts') = om_Labels (sts_ObjectMeta sts)
         | None, None => True
         | _, _ => False
         end.

Lemma stsKeyOf_stored w key sts : contents w KStatefulSet key = Some sts → stsKeyOf sts = key.
Proof. intros Hc. exact (store_key w KStatefulSet key sts Hc). Qed.

(** What others leave of a StatefulSet of the cluster. *)
Lemma sameStamps_ours w w' x' :
  sameStamps w w' → ours w' x' → ∃ x, ours w x ∧ stsKeyOf x = stsKeyOf x' ∧ templateAnnotations x' = templateAnnotations x.
Proof.
  intros [_ Hs] [Hx' [Hns Hl]]. specialize (Hs (stsKeyOf x')). rw Hx' in Hs.
  destruct (contents w KStatefulSet (stsKeyOf x')) as [x|] eqn:Hx; [|done]. destruct Hs as [Ht HL].
  pose proof (stsKeyOf_stored _ _ _ Hx) as Hk. exists x. split_and!; [|done..]. split; [by rw Hk|].
  split; [|intros key v Hkv; rw /gm_lookup -HL; by apply Hl].
  assert (om_Namespace (sts_ObjectMeta x) = om_Namespace (sts_ObjectMeta x')) as -> by exact (f_equal nn_Namespace Hk). done.
Qed.

Lemma sameStamps_back w w' x :
  sameStamps w w' → ours w x → ∃ x', ours w' x' ∧ stsKeyOf x' = stsKeyOf x ∧ templateAnnotations x' = templateAnnotations x.
Proof.
  intros [_ Hs] [Hx [Hns Hl]]. specialize (Hs (stsKeyOf x)). rw Hx in Hs.
  destruct (contents w' KStatefulSet (stsKeyOf x)) as [x'|] eqn:Hx'; [|done]. destruct Hs as [Ht HL].
  pose proof (stsKeyOf_stored _ _ _ Hx') as Hk. exists x'. split_and!; [|done..]. split; [by rw Hk|].
  split; [|intros key v Hkv; rw /gm_lookup HL; by apply Hl].
  assert (om_Namespace (sts_ObjectMeta x') = om_Namespace (sts_ObjectMeta x)) as -> by exact (f_equal nn_Namespace Hk). done.
Qed.

Lemma stamp_templates x x' t : templateAnnotations x' = templateAnnotations x → stamp x t → stamp x' t.
Proof. unfold stamp, stamped. cbn. by intros ->. Qed.

Lemma due_templates x x' : templateAnnotations x' = templateAnnotations x → due x → due x'.
Proof.
  intros E (t & Ht & Hd). exists t. split; [by eapply stamp_templates|]. unfold dueAt in *. by destruct t.
Qed.

Lemma sameStamps_wellStamped w w' : sameStamps w w' → wellStamped w → wellStamped w'.
Proof.
  intros Hs Hw x' Hx'. destruct (sameStamps_ours w w' x' Hs Hx') as (x & Hx & _ & E). destruct (Hw x Hx) as [t Ht].
  exists t. by eapply stamp_templates.
Qed.

Lemma sameStamps_dueIn w w' l : sameStamps w w' → dueIn w l → dueIn w' l.
Proof.
  intros Hs [Hnd Hl]. split; [done|]. intros key. rw Hl. split.
  - intros (x & Hx & Hd & <-). destruct (sameStamps_back w w' x Hs Hx) as (x' & Hx' & Hk & E). exists x'.
    split_and!; [done|by eapply due_templates|done].
  - intros (x' & Hx' & Hd & <-). destruct (sameStamps_ours w w' x' Hs Hx') as (x & Hx & Hk & E). exists x.
    split_and!; [done|by eapply due_templates|done].
Qed.

(** [restartRounds k w w']: [k] reconciliations of this step that were not the
    last one, with steps of others in between. *)
Inductive restartRounds : nat → W → W → Prop :=
  | restart_none w : restartRounds 0 w w
  | restart_others k w w1 w2 : restartRounds k w w1 → sameStamps w1 w2 → restartRounds k w w2
  | restart_one k w w1 out s l : restartRounds k w w1 →
      restartStatefulSetIfNeeded (mkOp r (w1, l)) = (out, s) → out ≠ Returns Continue →
      restartRounds (S k) w (op_world s).1.

Lemma restartRounds_invariant k w w' l :
  (∀ w, late w) → confUpdatedIn w → wellStamped w → dueIn w l → restartRounds k w w' →
  confUpdatedIn w' ∧ wellStamped w' ∧ ∃ l', dueIn w' l' ∧ length l = (k + length l')%nat.
Proof.
  intros Hlate Hc Hw Hl. induction 1 as [w|k w w1 w2 _ IH Hs|k w w1 out s lg _ IH E Hout].
  - split_and!; [done..|]. by exists l.
  - destruct (IH Hc Hw Hl) as (Hc1 & Hw1 & l1 & Hl1 & Hlen).
    split_and!; [by apply Hs|by eapply sameStamps_wellStamped|]. exists l1. split; [by eapply sameStamps_dueIn|done].
  - destruct (IH Hc Hw Hl) as (Hc1 & Hw1 & l1 & Hl1 & Hlen).
    destruct (wp_restartStatefulSetIfNeeded w1 l1 (Hlate w1) Hc1 Hw1 Hl1 lg) as (res & w' & c & E' & Hc' & Hw' & HQ).
    rw E in E'. injection E' as -> ->. cbn [op_world fst]. split_and!; [done..|]. destruct l1 as [|key l1].
    + destruct HQ as (-> & _). done.
    + destruct HQ as (_ & _ & (l2 & Hl2 & Hlen2) & _). exists l2. split; [done|]. rw Hlen Hlen2. lia.
Qed.
End restarts.

(** ** Property *)

Section property.
Context {W : Type} `{!Kube W, !Library, !Store W, !StoreLaws W, !RemovalLaws W} (r : RabbitmqCluster) (updated : Z).

(** After a change of the server configuration every StatefulSet of the
    cluster is restarted exactly once.  On an API server that stores what it is
    sent, with a clock in a later second than the update, every reconciliation
    of this step restarts one of the StatefulSets that were not restarted since
    the update, with one update and one event, and answers that it is done; as
    many rounds as there are such StatefulSets are made and no more, whatever
    others do to the StatefulSets apart from their stamps; then the step
    continues without a call. *)
Theorem restarts_terminate (k : nat) (w w' : W) due_ :
  inRange updated → clockPast (W := W) updated → confUpdatedIn r updated w → wellStamped r w →
  dueIn r updated w due_ → restartRounds r updated k w w' →
  ∃ due', dueIn r updated w' due' ∧ length due_ = (k + length due')%nat ∧
  ∀ l, ∃ w'' c, restartStatefulSetIfNeeded (mkOp r (w', l)) =
    (Returns (match due' with [] => Continue | _ => Done end), mkOp r (w'', l ++ c)) ∧
    match due' with
    | [] => c = [] ∧ sameStore w' w''
    | _ => length c = 2%nat ∧ ∃ due'', dueIn r updated w'' due'' ∧ length due' = S (length due'')
    end.
Proof.
  intros Hu Hclock Hc Hw Hl Hr.
  apply clockPast_pastIn in Hclock. assert (∀ w : W, (λ _, True) w) as Hlate by done.
  destruct (restartRounds_invariant r updated Hu _ Hclock k w w' due_ Hlate Hc Hw Hl Hr) as (Hc' & Hw' & due' & Hl' & Hlen).
  exists due'. split_and!; [done..|]. intros l.
  destruct (wp_restartStatefulSetIfNeeded r updated Hu _ Hclock w' due' (Hlate w') Hc' Hw' Hl' l) as (res & w'' & c & E & _ & _ & HQ).
  exists w'', c. destruct due' as [|key due']; [by destruct HQ as (-> & ? & ->)|by destruct HQ as (-> & ? & ? & _)].
Qed.
End property.
