(* ===== verification/Volumes.v ===== *)
(** Growing the volumes of a replica on an API server that only the operator
    writes: one run of the scaler brings every claim to the desired size. *)

From S2P Require Import Prelude GoStd K8s V1beta1 Constant Merge Kube Trace Scaling ControllerUtils Store Cleanup.

#[local] Open Scope Z_scope.

(** ** The clientset of such a server *)

(** An update through the clientset stores what is sent, and a StatefulSet that
    is deleted without its pods is gone by the first poll. *)
Class ClientsetLaws (W : Type) `{!Kube W, !Store W} : Prop := {
  clientset_update k ns (o : Obj k) (w : W) :
    is_Some (contents w k (ObjectKeyFromObject o)) → om_Namespace (meta o) = ns →
    ∃ o' w', csUpdate k ns o w = (inr o', w') ∧ served o o' ∧ stored o' w w';
  clientset_orphan k key (w : W) : is_Some (contents w k key) →
    ∃ w', csDeleteOrphan k key w = (None, w') ∧ contents w' k key = None ∧
    ∀ k' key', (k', key') ≠ (k, key) → contents w' k' key' = contents w k' key'
}.

Section volumes.
Context {W : Type} `{!Kube W, !Store W, !StoreLaws W, !ClientsetLaws W} (r : RabbitmqCluster).
Abbreviation TW := (W * list Call)%type.
Implicit Types (w : W) (p : PersistentVolumeClaim).

Definition pvcKeyOf p : NamespacedName := ObjectKeyFromObject (k := KPVC) p.

(** ** Writing the claims *)

(** The claims under the keys have the size, and nothing else has changed. *)
Record grown (keys : list NamespacedName) (desired : Quantity) w w' : Prop := {
  grown_size key : key ∈ keys → ∃ p, contents w' KPVC key = Some p ∧ pvcRequest p = desired;
  grown_others k key : (k = KPVC → key ∉ keys) → contents w' k key = contents w k key
}.

Lemma wp_scaleUpPVCs ns pvcs desired w :
  NoDup (pvcKeyOf <$> pvcs) →
  Forall (λ p, contents w KPVC (pvcKeyOf p) = Some p ∧ om_Namespace (pvc_ObjectMeta p) = ns ∧
               is_Some (pvcs_Requests (pvc_Spec p))) pvcs →
  wp r (scaleUpPVCs ns pvcs desired) w (λ err w' _, err = None ∧ grown (pvcKeyOf <$> pvcs) desired w w').
Proof.
  revert w. induction pvcs as [|p pvcs IH]; intros w Hnd Hall; cbn [scaleUpPVCs].
  { apply wp_ret. split; [done|]. split; [by intros key ?%elem_of_nil|done]. }
  cbn [fmap list_fmap] in Hnd |- *. apply NoDup_cons in Hnd as [Hni Hnd].
  apply Forall_cons in Hall as [(Hin & Hns & [requests Hreq]) Hall].
  apply wp_bind, (wp_csGet r (k := KPVC)). intros a w1 Ha Hs1. change (ObjectKeyFromObject (k := KPVC) p) with (pvcKeyOf p) in Ha.
  rw Hin in Ha. cbn in Ha. subst a. cbn beta iota. rw Hreq. cbn [gm_insert]. apply wp_bind. eapply wp_lift; [done|].
  set (p' := set_pvc_Spec _ p). cbn [app].
  destruct (clientset_update KPVC ns p' w1) as (p2 & w2 & E & Hsv & Hst); [by rw Hs1 Hin; eexists|done|].
  apply wp_bind, (wp_logged r (λ _, CsUpdated KPVC ns p') (csUpdate KPVC ns p')). rw E. cbn beta iota. cbn [fst snd].
  pose proof (served_key (k := KPVC) _ _ Hsv) as Hk. destruct Hst as [Hst Hother]. rw Hk in Hst Hother.
  change (ObjectKeyFromObject (k := KPVC) p') with (pvcKeyOf p) in Hst, Hother.
  assert (∀ k key, (k = KPVC → key ≠ pvcKeyOf p) → contents w2 k key = contents w k key) as Ho.
  { intros k key Hne. rw Hother; [|apply Hs1]. intros Heq. apply (Hne (f_equal fst Heq)). exact (f_equal snd Heq). }
  eapply wp_mono; [apply IH; [done|]|].
  - apply Forall_forall. intros q Hq. rw Forall_forall in Hall. destruct (Hall q Hq) as (Hq1 & Hq2 & Hq3).
    split_and!; [|done..]. rw Ho //. intros _ Heq. apply Hni. rw -Heq. by apply list_elem_of_fmap_2.
  - intros err w3 c (-> & [Hsize Hrest]). split; [done|]. split.
    + intros key [->|Hin']%elem_of_cons; [|by apply Hsize]. exists p2. rw Hrest //. split; [done|].
      destruct Hsv as (m & _ & ->). unfold pvcRequest, gm_lookup. cbn. by rw lookup_insert_eq.
    + intros k key Hne. rw Hrest; [intros Hk'; specialize (Hne Hk'); set_solver|]. apply Ho. intros Hk'.
      specialize (Hne Hk'). set_solver.
Qed.

(** ** Finding the claims *)

(** The claims of a StatefulSet that are stored. *)
Definition claimsAt w sts ns (ords : list Z) : list PersistentVolumeClaim :=
  omap (λ i, contents w KPVC (pvcKey c_PVCName sts ns i)) ords.

Lemma claimsAt_same w w' sts ns ords : sameStore w w' → claimsAt w' sts ns ords = claimsAt w sts ns ords.
Proof. intros Hs. unfold claimsAt. induction ords as [|i ords IH]; [done|]. cbn. by rw Hs IH. Qed.

Lemma wp_getPVCsLoop sts ns ords w :
  wp r (getPVCsLoop c_PVCName sts ns ords) w (λ got w' c,
    got = inr (claimsAt w sts ns ords) ∧ sameStore w w' ∧ c = []).
Proof.
  revert w. induction ords as [|i ords IH]; intros w; cbn [getPVCsLoop]; [by apply wp_ret|].
  apply wp_bind, (wp_csGet r (k := KPVC)). intros a w1 Ha Hs1. unfold claimsAt. cbn [omap list_omap].
  destruct (contents w KPVC _) as [p|]; cbn in Ha.
  - subst a. cbn beta iota. apply wp_bind. eapply wp_mono; [apply IH|]. intros got w2 c (-> & Hs2 & ->).
    apply wp_ret. rw (claimsAt_same w w1) //. split_and!; [done|by eapply sameStore_trans|done].
  - destruct Ha as (err & -> & Hnf). cbn beta iota. rw Hnf. eapply wp_mono; [apply IH|]. intros got w2 c (-> & Hs2 & ->).
    rw (claimsAt_same w w1) //. split_and!; [done|by eapply sameStore_trans|done].
Qed.

Lemma pvc_key w key p : contents w KPVC key = Some p → pvcKeyOf p = key.
Proof. exact (store_key w KPVC key p). Qed.

Lemma claimsAt_elem w sts ns ords p :
  p ∈ claimsAt w sts ns ords → ∃ i, i ∈ ords ∧ pvcKeyOf p = pvcKey c_PVCName sts ns i ∧
    contents w KPVC (pvcKeyOf p) = Some p.
Proof.
  intros (i & Hi & Hc)%list_elem_of_omap. exists i. pose proof (pvc_key _ _ _ Hc) as Hk. split_and!; [done..|]. by rw Hk.
Qed.

Lemma pvcKey_inj sts ns i j : pvcKey c_PVCName sts ns i = pvcKey c_PVCName sts ns j → i = j.
Proof.
  unfold pvcKey. intros [= E]. apply Itoa_inj.
  by apply (string_app_inj_l (om_Name (sts_ObjectMeta sts))), (string_app_inj_l "-") in E.
Qed.

Lemma claimsAt_keys w sts ns ords : NoDup ords → NoDup (pvcKeyOf <$> claimsAt w sts ns ords).
Proof.
  induction 1 as [|i ords Hi _ IH]; [constructor|]. unfold claimsAt. cbn.
  destruct (contents w KPVC _) as [p|] eqn:Ep; [|exact IH]. cbn. apply NoDup_cons. split; [|exact IH].
  intros (q & E & Hq)%list_elem_of_fmap. apply claimsAt_elem in Hq as (j & Hj & Hk & _).
  pose proof (pvc_key _ _ _ Ep) as Hp.
  rw E Hk in Hp. apply pvcKey_inj in Hp as ->. done.
Qed.

Lemma NoDup_fmap_filter (f : PersistentVolumeClaim → bool) l :
  NoDup (pvcKeyOf <$> l) → NoDup (pvcKeyOf <$> List.filter f l).
Proof.
  induction l as [|p l IH]; [done|]. cbn. intros [Hni Hnd]%NoDup_cons. destruct (f p); [|by apply IH].
  cbn. apply NoDup_cons. split; [|by apply IH]. intros (q & E & Hq)%list_elem_of_fmap. apply Hni. rw E.
  apply list_elem_of_fmap_2. apply list_elem_of_In in Hq. apply filter_In in Hq as [Hq _]. by apply list_elem_of_In.
Qed.

(** ** The scaler *)

(** What the scaler leaves: every claim of the StatefulSet has at least the
    size, the StatefulSet makes way if one had not, and all else is as before. *)
Record resized (key : NamespacedName) sts (n desired : Z) w w' : Prop := {
  resized_claims i p : 0 ≤ i < n → contents w KPVC (pvcKey c_PVCName sts (nn_Namespace key) i) = Some p →
    ∃ p', contents w' KPVC (pvcKey c_PVCName sts (nn_Namespace key) i) = Some p' ∧
          pvcRequest p' = Z.max (pvcRequest p) desired;
  resized_absent i : 0 ≤ i < n → contents w KPVC (pvcKey c_PVCName sts (nn_Namespace key) i) = None →
    contents w' KPVC (pvcKey c_PVCName sts (nn_Namespace key) i) = None;
  resized_sts : contents w' KStatefulSet key =
    if forallb (λ p, desired <=? pvcRequest p) (claimsAt w sts (nn_Namespace key) (seqZ 0 n)) then Some sts else None;
  resized_others k key' : (k, key') ≠ (KStatefulSet, key) →
    (k = KPVC → ∀ i, 0 ≤ i < n → key' ≠ pvcKey c_PVCName sts (nn_Namespace key) i) →
    contents w' k key' = contents w k key'
}.

Lemma wp_deleteStatefulset key w :
  is_Some (contents w KStatefulSet key) →
  wp r (deleteStatefulset key) w (λ err w' _, err = None ∧ contents w' KStatefulSet key = None ∧
    ∀ k' key', (k', key') ≠ (KStatefulSet, key) → contents w' k' key' = contents w k' key').
Proof.
  intros Hin. destruct (clientset_orphan KStatefulSet key w Hin) as (w1 & E & Hgone & Hother).
  unfold deleteStatefulset. apply wp_bind, (wp_logged r (λ _, CsDeleted KStatefulSet key) (csDeleteOrphan KStatefulSet key)).
  rw E. cbn beta iota. cbn [fst snd]. cbn [retryWithInterval]. apply wp_bind, wp_bind. unfold statefulSetGone.
  apply wp_bind, (wp_csGet r (k := KStatefulSet)). intros a w2 Ha Hs2. rw Hgone in Ha. destruct Ha as (err & -> & Hnf).
  apply wp_ret. rw Hnf. apply wp_ret, wp_ret. split; [done|]. split; [by rw Hs2|]. intros k' key' Hne. by rw Hs2 Hother.
Qed.

Lemma wp_getPVCs key sts n w :
  contents w KStatefulSet key = Some sts → stss_Replicas (sts_Spec sts) = Some n →
  wp r (getPVCs c_PVCName key) w (λ got w' c,
    got = inr (claimsAt w sts (nn_Namespace key) (seqZ 0 n)) ∧ sameStore w w' ∧ c = []).
Proof.
  intros Hin Hn. unfold getPVCs, getStatefulset. apply wp_bind, (wp_csGet r (k := KStatefulSet)). intros a w1 Ha Hs1.
  rw Hin in Ha. cbn in Ha. subst a. cbn beta iota. rw Hn. apply wp_bind, wp_ret. cbn beta iota.
  eapply wp_mono; [apply wp_getPVCsLoop|]. intros got w2 c (-> & Hs2 & ->). rw (claimsAt_same w w1) //.
  split_and!; [done|by eapply sameStore_trans|done].
Qed.

(** The tests on the capacities let a growth pass. *)
Lemma growth_tests {A} current desired (equal smaller empty go : A) :
  current ≠ 0 → current < desired →
  (if (Cmp current desired =? 0)%Z then equal else
   if (Cmp current desired =? 1)%Z then smaller else
   if (Cmp current 0 =? 0)%Z then empty else go) = go.
Proof.
  intros H0 Hlt. destruct (Cmp_spec current desired) as (_ & _ & C). destruct (Cmp_spec current 0) as (Z & _).
  rw (proj2 C Hlt) /=. destruct (Z.eqb_spec (Cmp current 0) 0) as [E|]; [|done]. by apply Z in E.
Qed.

Lemma pvcsNeedingScaling_none pvcs desired :
  forallb (λ p, desired <=? pvcRequest p) pvcs = bool_decide (pvcsNeedingScaling pvcs desired = []).
Proof.
  induction pvcs as [|p pvcs IH]; [done|]. unfold pvcsNeedingScaling in *. cbn [forallb List.filter].
  destruct (Cmp_spec (pvcRequest p) desired) as (_ & _ & C).
  destruct (Z.eqb_spec (Cmp (pvcRequest p) desired) (-1)) as [E|E].
  - apply C in E. destruct (Z.leb_spec desired (pvcRequest p)) as [|_]; [lia|]. by rw bool_decide_eq_false_2.
  - destruct (Z.leb_spec desired (pvcRequest p)) as [_|Hlt]; [exact IH|]. by apply C in Hlt.
Qed.

(** Claims that were written and claims that were large enough. *)
Lemma grown_resized key sts n desired w w1 w' :
  contents w KStatefulSet key = Some sts → contents w1 KStatefulSet key = None →
  (∀ k key', (k, key') ≠ (KStatefulSet, key) → contents w1 k key' = contents w k key') →
  pvcsNeedingScaling (claimsAt w sts (nn_Namespace key) (seqZ 0 n)) desired ≠ [] →
  grown (pvcKeyOf <$> pvcsNeedingScaling (claimsAt w sts (nn_Namespace key) (seqZ 0 n)) desired) desired w1 w' →
  resized key sts n desired w w'.
Proof.
  intros Hin Hgone Hother Hne [Hsize Hrest].
  set (claims := claimsAt w sts (nn_Namespace key) (seqZ 0 n)) in *. split.
  - intros i p Hi Hp. assert (p ∈ claims) as Hc.
    { apply list_elem_of_omap. exists i. split; [apply elem_of_seqZ; lia|done]. }
    pose proof (pvc_key _ _ _ Hp) as Hk. destruct (Z.lt_ge_cases (pvcRequest p) desired) as [Hlt|Hge].
    + destruct (Hsize (pvcKeyOf p)) as (p' & Hp' & Hq).
      { by apply list_elem_of_fmap_2, pvcsNeedingScaling_elem. }
      exists p'. rw -Hk. split; [done|lia].
    + exists p. split; [|lia]. rw Hrest; [|by rw Hother]. intros _ (q & E & Hq)%list_elem_of_fmap.
      apply pvcsNeedingScaling_elem in Hq as [Hq Hlt]. apply claimsAt_elem in Hq as (_ & _ & _ & Hq).
      rw -E Hp in Hq. injection Hq as <-. lia.
  - intros i Hi Hnone. rw Hrest; [|by rw Hother]. intros _ (q & E & Hq)%list_elem_of_fmap.
    apply pvcsNeedingScaling_elem in Hq as [Hq _]. apply claimsAt_elem in Hq as (_ & _ & _ & Hq). by rw -E Hnone in Hq.
  - rw pvcsNeedingScaling_none bool_decide_eq_false_2 //. by rw Hrest.
  - intros k key' Hk Hclaims. rw Hrest; [|by apply Hother]. intros -> (q & -> & Hq)%list_elem_of_fmap.
    apply pvcsNeedingScaling_elem in Hq as [Hq _]. apply claimsAt_elem in Hq as (i & Hi%elem_of_seqZ & E & _).
    apply (Hclaims eq_refl i); [lia|exact E].
Qed.

Lemma wp_Scale key sts n desired w :
  contents w KStatefulSet key = Some sts → stss_Replicas (sts_Spec sts) = Some n →
  templateCapacity c_PVCName (stss_VolumeClaimTemplates (sts_Spec sts)) ≠ 0 →
  templateCapacity c_PVCName (stss_VolumeClaimTemplates (sts_Spec sts)) < desired →
  Forall (λ p, is_Some (pvcs_Requests (pvc_Spec p))) (claimsAt w sts (nn_Namespace key) (seqZ 0 n)) →
  wp r (Scale c_PVCName key desired) w (λ err w' _, err = None ∧ resized key sts n desired w w').
Proof.
  intros Hin Hn H0 Hlt Hreq. unfold Scale, existingCapacity, getStatefulset.
  apply wp_bind, wp_bind, (wp_csGet r (k := KStatefulSet)). intros a w1 Ha Hs1. rw Hin in Ha. cbn in Ha. subst a.
  cbn beta iota. apply wp_ret. cbn beta iota. rw growth_tests //.
  apply wp_bind. eapply wp_mono; [apply (wp_getPVCs key sts n); [by rw Hs1|done]|].
  intros got w2 c (-> & Hs2 & ->). cbn beta iota. rw (claimsAt_same w w1) //.
  set (claims := claimsAt w sts (nn_Namespace key) (seqZ 0 n)) in *.
  assert (sameStore w w2) as Hs by by eapply sameStore_trans.
  destruct (pvcsNeedingScaling claims desired) as [|p ps] eqn:Ep.
  - apply wp_ret. split; [done|]. split.
    + intros i p Hi Hp. exists p. rw Hs. split; [done|]. assert (p ∈ claims) as Hc.
      { apply list_elem_of_omap. exists i. split; [apply elem_of_seqZ; lia|done]. }
      destruct (Z.lt_ge_cases (pvcRequest p) desired); [|lia].
      assert (p ∈ pvcsNeedingScaling claims desired) as Hx by by apply pvcsNeedingScaling_elem.
      rw Ep in Hx. by apply elem_of_nil in Hx.
    + intros i _ Hnone. by rw Hs.
    + fold claims. rw pvcsNeedingScaling_none Ep bool_decide_eq_true_2 // Hs //.
    + intros k key' _ _. apply Hs.
  - rw -Ep. apply wp_bind. eapply wp_mono; [apply wp_deleteStatefulset; rw Hs Hin; by eexists|].
    intros err w3 c3 (-> & Hgone & Hother). cbn beta iota.
    assert (∀ k key', (k, key') ≠ (KStatefulSet, key) → contents w3 k key' = contents w k key') as Ho.
    { intros k key' Hk. by rw Hother. }
    eapply wp_mono; [apply wp_scaleUpPVCs|].
    + apply NoDup_fmap_filter, claimsAt_keys, NoDup_seqZ.
    + apply Forall_forall. intros q [Hq _]%pvcsNeedingScaling_elem. rw Forall_forall in Hreq.
      pose proof (Hreq q Hq) as Hr. apply claimsAt_elem in Hq as (i & _ & Hk & Hq).
      split_and!; [by rw Ho|exact (f_equal nn_Namespace Hk)|exact Hr].
    + intros err w4 c4 (-> & Hg). split; [done|]. eapply grown_resized; [exact Hin|exact Hgone|exact Ho| |exact Hg].
      fold claims. by rw Ep.
Qed.

(** Nothing is left to do after a growth. *)
Lemma wp_Scale_again key sts n desired w w' :
  contents w KStatefulSet key = Some sts → stss_Replicas (sts_Spec sts) = Some n →
  templateCapacity c_PVCName (stss_VolumeClaimTemplates (sts_Spec sts)) ≠ 0 →
  templateCapacity c_PVCName (stss_VolumeClaimTemplates (sts_Spec sts)) < desired →
  resized key sts n desired w w' →
  wp r (Scale c_PVCName key desired) w' (λ err w'' c, err = None ∧ sameStore w' w'' ∧ c = []).
Proof.
  intros Hin Hn H0 Hlt [Hclaims Habsent Hsts _]. unfold Scale, existingCapacity, getStatefulset.
  apply wp_bind, wp_bind, (wp_csGet r (k := KStatefulSet)). intros a w1 Ha Hs1. rw Hsts in Ha.
  destruct (forallb _ _) eqn:Hall; cbn in Ha.
  2: { destruct Ha as (err & -> & Hnf). cbn beta iota. apply wp_ret. cbn beta iota. rw Hnf. by apply wp_ret. }
  subst a. cbn beta iota. apply wp_ret. cbn beta iota. rw growth_tests //.
  apply wp_bind. eapply wp_mono; [apply (wp_getPVCs key sts n); [by rw Hs1|done]|].
  intros got w2 c (-> & Hs2 & ->). cbn beta iota. rw (claimsAt_same w' w1) //.
  destruct (pvcsNeedingScaling _ desired) as [|p ps] eqn:Ep.
  { apply wp_ret. split_and!; [done|by eapply sameStore_trans|done]. }
  exfalso. assert (p ∈ p :: ps) as Hp by apply list_elem_of_here. rw -Ep in Hp.
  apply pvcsNeedingScaling_elem in Hp as [Hp Hsmall]. apply list_elem_of_omap in Hp as (i & Hi%elem_of_seqZ & Hc).
  destruct (contents w KPVC (pvcKey c_PVCName sts (nn_Namespace key) i)) as [p0|] eqn:Hp0.
  - destruct (Hclaims i p0) as (p' & Hp' & Hmax); [lia|done|]. rw Hp' in Hc. injection Hc as ->. lia.
  - rw Habsent // in Hc.
Qed.
End volumes.

(** ** Property *)

Section property.
Context {W : Type} `{!Kube W, !Store W, !StoreLaws W, !ClientsetLaws W} (r : RabbitmqCluster).

(** C20: growing the volumes of a replica works.  On an API server that only the
    operator writes, with a StatefulSet whose claim template is smaller than
    desired but not empty, one run of the scaler reports no error; afterwards
    every claim of the StatefulSet has the larger of its old and the desired
    size, the StatefulSet is gone if and only if a claim had to grow, and no
    other object has changed; a second run then calls nothing. *)
Theorem Scale_resizes key sts n desired (w : W) l :
  contents w KStatefulSet key = Some sts → stss_Replicas (sts_Spec sts) = Some n →
  templateCapacity c_PVCName (stss_VolumeClaimTemplates (sts_Spec sts)) ≠ 0 →
  templateCapacity c_PVCName (stss_VolumeClaimTemplates (sts_Spec sts)) < desired →
  Forall (λ p, is_Some (pvcs_Requests (pvc_Spec p))) (claimsAt w sts (nn_Namespace key) (seqZ 0 n)) →
  ∃ w' calls, Scale c_PVCName key desired (mkOp r (w, l)) = (Returns None, mkOp r (w', l ++ calls)) ∧
    resized key sts n desired w w' ∧
    ∃ w'', Scale c_PVCName key desired (mkOp r (w', l ++ calls)) = (Returns None, mkOp r (w'', l ++ calls)) ∧
      sameStore w' w''.
Proof.
  intros Hin Hn H0 Hlt Hreq. destruct (wp_Scale r key sts n desired w Hin Hn H0 Hlt Hreq l) as (err & w' & c & E & -> & Hres).
  exists w', c. split; [exact E|]. split; [exact Hres|].
  destruct (wp_Scale_again r key sts n desired w w' Hin Hn H0 Hlt Hres (l ++ c)) as (err & w'' & c' & E' & -> & Hs & ->).
  exists w''. rw app_nil_r in E'. by split.
Qed.
End property.
