(* ===== verification/Queue.v ===== *)
(** What [reconcileResources] promises, as an abstract machine: a queue of the
    children that still have to be written, of which one is taken when all
    replicas are ready.  The detailed definitions refine it. *)

From S2P Require Import Prelude GoStd K8s V1beta1 Constant Metadata Kube Controllerutil Builder Builders Trace Result.
From S2P Require Import ServerConf ControllerUtils Resources Store Tame Names Converge Authority Cleanup Restarts.

(** ** The machine *)

(** One round: the answer, and the queue afterwards. *)
Definition round (ready : bool) (queue : list ResourceBuilder) : ReconcileResult * list ResourceBuilder :=
  if ready then match queue with [] => (Continue, []) | _ :: rest => (Done, rest) end
  else (RequeueSoon (5 * Second), queue).

(** Rounds, each with whether all were ready and its answer. *)
Inductive machine : list ResourceBuilder → list (bool * ReconcileResult) → list ResourceBuilder → Prop :=
  | machine_none q : machine q [] q
  | machine_round ready q answers q' :
      machine q answers q' → machine q (answers ++ [(ready, (round ready q').1)]) (round ready q').2.

Definition isDone (a : bool * ReconcileResult) : bool := match a.2 with done_ => true | _ => false end.

(** What it promises: the children are written in the order of the queue, one
    for each [Done]; [Continue] is answered only when all are; the answer to a
    round in which a replica is not ready is to come back. *)
Definition promise (q : list ResourceBuilder) (answers : list (bool * ReconcileResult)) (q' : list ResourceBuilder) : Prop :=
  (∃ written, q = written ++ q' ∧ length written = length (List.filter isDone answers)) ∧
  ((true, Continue) ∈ answers → q' = []) ∧
  Forall (λ a : bool * ReconcileResult, if a.1 then a.2 = Done ∨ a.2 = Continue else a.2 = RequeueSoon (5 * Second)) answers.

Lemma machine_promise q answers q' : machine q answers q' → promise q answers q'.
Proof.
  induction 1 as [q|ready q answers q' _ ((written & -> & Hl) & Hc & Ha)].
  { split; [by exists []|]. split; [by intros ?%elem_of_nil|constructor]. }
  unfold promise. rw Forall_app List.filter_app length_app.
  destruct ready; cbn [round fst snd isDone List.filter]; [destruct q' as [|b rest]|].
  - split_and!; [exists written; cbn; split; [done|lia]|done|done|by repeat constructor; auto].
  - split_and!; [exists (written ++ [b]); rw -app_assoc length_app /=; split; [done|lia]| |done|by repeat constructor; auto].
    intros [Hin|Hin%list_elem_of_singleton]%elem_of_app; [by apply Hc in Hin|done].
  - split_and!; [exists written; cbn; split; [done|lia]| |done|by repeat constructor; auto].
    intros [Hin|Hin%list_elem_of_singleton]%elem_of_app; [by apply Hc|done].
Qed.

(** ** The rounds of the operator *)

Section queue.
Context {W : Type} `{!Kube W, !Library, !Store W, !StoreLaws W, !RemovalLaws W} (r : RabbitmqCluster) (n : Z).
Context (op user : string).
Abbreviation TW := (W * list Call)%type.
Implicit Types (w : W).

(** The server has filled in the replicas of the StatefulSets. *)
Definition defaulted w : Prop := ∀ sts, ours r w sts → is_Some (stss_Replicas (sts_Spec sts)).

(** All StatefulSets of the cluster say that they are ready and updated. *)
Definition allReadyIn w : Prop := ∀ sts, ours r w sts →
  stst_CurrentRevision (sts_Status sts) = stst_UpdateRevision (sts_Status sts) ∧
  stss_Replicas (sts_Spec sts) = Some (stst_ReadyReplicas (sts_Status sts)).

Lemma wp_waitResourceReady w :
  defaulted w →
  wp r waitResourceReady w (λ res w' c, sameStore w w' ∧ c = [] ∧
    ∃ b : bool, (b = true ↔ allReadyIn w) ∧ res = if b then Continue else RequeueSoon (5 * Second)).
Proof.
  intros Hd. unfold waitResourceReady. apply wp_bind, wp_statefulSets. intros stss w1 _ _ Hin Hs. cbn beta iota.
  destruct (allReplicasReadyAndUpdated_total stss) as [b Hb].
  { apply Forall_forall. intros sts Hsts. by apply Hd, Hin. }
  apply wp_bind. eapply wp_lift; [exact Hb|]. apply wp_ret. split_and!; [done..|]. exists b. split; [|by destruct b].
  assert (b = true ↔ allReplicasReadyAndUpdated stss = Returns true) as ->.
  { rw Hb. split; [by intros ->|by intros [=]]. }
  rw allReplicasReadyAndUpdated_true Forall_forall. unfold allReadyIn. by setoid_rewrite Hin.
Qed.

Context (HT : Tidy r n) (Hconf : renderConf r n = inr (op, user)) (Hop : readable op).
Context (Hrefl : ∀ k (o : Obj k), SemanticDeepEqual k o o = true).

Abbreviation queue := (unsettled r n op user).

(** One round of the operator is one of the machine. *)
Lemma wp_reconcileResources w :
  defaulted w → Forall (good r w) (ResourceBuilders n r) →
  wp r reconcileResources w (λ res w' c, Forall (good r w') (ResourceBuilders n r) ∧
    ∃ ready, (ready = true ↔ allReadyIn w) ∧ round ready (queue w) = (res, queue w') ∧ (length c ≤ 3)%nat ∧
      (ready = false → c = [])).
Proof.
  intros Hd Hg. unfold reconcileResources. apply wp_bind. eapply wp_mono; [by apply wp_waitResourceReady|].
  intros res w1 c (Hs1 & -> & ready & Hready & ->).
  assert (Forall (good r w1) (ResourceBuilders n r)) as Hg1.
  { eapply Forall_impl; [exact Hg|]. intros b. by apply good_same. }
  assert (queue w1 = queue w) as Hq1.
  { apply (sameChildren_unsettled r n op user w w1). apply Forall_forall. intros b _. by apply child_same. }
  destruct ready; cbn [Completed app].
  - apply wp_bind, wp_rmq. cbn beta. apply wp_bind. unfold deref. rw (tidy_replicas _ _ HT). apply wp_ret. cbn [app].
    intros l. destruct (round_answer r n HT op user Hconf Hop w1 l Hg1) as (w2 & c & E & HQ). rw Hq1 in E HQ.
    exists (match queue w with [] => Continue | _ => Done end), w2, c. split; [exact E|].
    pose proof (ResourceBuilders_NoDup n r) as Hnd. destruct (queue w) as [|b rest] eqn:Eq.
    + destruct HQ as [Hs2 ->]. split.
      { eapply Forall_impl; [exact Hg1|]. intros b. by apply good_same. }
      exists true. split; [done|]. split; [|by split; [cbn; lia|]].
      cbn [round]. rw (sameChildren_unsettled r n op user w1 w2); [|by rw Hq1].
      apply Forall_forall. intros b _. by apply child_same.
    + destruct HQ as [Hset Hl]. assert (b ∈ ResourceBuilders n r) as Hb.
      { assert (b ∈ queue w) as Hx by (rw Eq; apply list_elem_of_here).
        apply list_elem_of_In, filter_In in Hx as [Hx _]. by apply list_elem_of_In. }
      split; [by eapply settles_good|]. exists true. split; [done|]. split; [|done]. cbn [round].
      by rw (settles_unsettled r n op user Hrefl b w1 w2 rest Hnd Hq1 Hset).
  - apply wp_ret. split; [done|]. exists false. split; [done|]. cbn [round]. rw Hq1. by split_and!; [|cbn; lia|].
Qed.

(** *** The status of the StatefulSets *)

Definition withStatus (st : StatefulSetStatus) (sts : StatefulSet) : StatefulSet :=
  mkStatefulSet (sts_ObjectMeta sts) (sts_Spec sts) st.

(** The status is no business of the builder. *)
Lemma after_status i st (o : StatefulSet) :
  after r op user (StatefulSetBuilder i) (withStatus st o) =
  withStatus st (after r op user (StatefulSetBuilder i) o).
Proof.
  destruct o as [m spec st0]. unfold after, shapeOf, Behaviour.shaped, setController, withStatus. cbn.
  unfold stsRest. cbn. destruct (Sts.generatedSpec r spec) as [spec'|]; [|done]. cbn.
  by destruct (SetControllerReference _ _).
Qed.

Lemma withStatus_self (o : StatefulSet) : withStatus (sts_Status o) o = o.
Proof. by destruct o. Qed.

Lemma after_keeps_status i (o : StatefulSet) : sts_Status (after r op user (StatefulSetBuilder i) o : StatefulSet) = sts_Status o.
Proof. by rw -{1}(withStatus_self o) after_status. Qed.

(** Steps of others: the controllers of the cluster write the status of the
    StatefulSets. *)
Definition statusChanges w w' : Prop := Forall (λ b, match b with
  | StatefulSetBuilder i => ∃ st, child r (StatefulSetBuilder i) w' = withStatus st <$> child r (StatefulSetBuilder i) w
  | b => child r b w' = child r b w
  end) (ResourceBuilders n r).

(** Semantic equality is structural as far as the status goes. *)
Definition equalsStatus : Prop := ∀ st (a b : StatefulSet), sts_Status a = sts_Status b →
  SemanticDeepEqual KStatefulSet (withStatus st a) (withStatus st b) = SemanticDeepEqual KStatefulSet a b.

Context (Hdeep : equalsStatus).

Lemma quiet_status i st w w' :
  child r (StatefulSetBuilder i) w' = withStatus st <$> child r (StatefulSetBuilder i) w →
  quiet r op user w' (StatefulSetBuilder i) = quiet r op user w (StatefulSetBuilder i).
Proof.
  intros Hc. unfold quiet. rw Hc. destruct (child r (StatefulSetBuilder i) w) as [o|]; [|done]. cbn [fmap option_fmap option_map].
  rw after_status. apply Hdeep. symmetry. apply after_keeps_status.
Qed.

Lemma statusChanges_queue w w' : statusChanges w w' → queue w' = queue w.
Proof.
  intros Hs. apply List.filter_ext_in. intros b Hb%list_elem_of_In. unfold statusChanges in Hs. rw Forall_forall in Hs.
  specialize (Hs b Hb). f_equal. destruct b; try (unfold quiet; by rw Hs). destruct Hs as [st Hs]. by eapply quiet_status.
Qed.

Lemma statusChanges_good w w' :
  statusChanges w w' → Forall (good r w) (ResourceBuilders n r) → Forall (good r w') (ResourceBuilders n r).
Proof.
  intros Hs Hg. apply Forall_forall. intros b Hb. unfold statusChanges in Hs. rw Forall_forall in Hs. rw Forall_forall in Hg.
  specialize (Hs b Hb). specialize (Hg b Hb). unfold good in *. destruct b; try by rw Hs.
  destruct Hs as [st Hs]. intros o Ho. rw Hs in Ho. destruct (child r (StatefulSetBuilder Index) w) as [o0|]; [|done].
  injection Ho as <-. exact (Hg o0 eq_refl).
Qed.

(** What the operator answers in many rounds, while others write the status. *)
Inductive operates : W → list (bool * outcome ReconcileResult) → W → Prop :=
  | operates_none w : operates w [] w
  | operates_others w tr w1 w2 : operates w tr w1 → statusChanges w1 w2 → operates w tr w2
  | operates_round w tr w1 ready l out s :
      operates w tr w1 → defaulted w1 → (ready = true ↔ allReadyIn w1) →
      reconcileResources (mkOp r (w1, l)) = (out, s) →
      operates w (tr ++ [(ready, out)]) (op_world s).1.

Lemma operates_machine w tr w' :
  Forall (good r w) (ResourceBuilders n r) → operates w tr w' →
  Forall (good r w') (ResourceBuilders n r) ∧
  ∃ answers, tr = (λ a, (a.1, Returns a.2)) <$> answers ∧ machine (queue w) answers (queue w').
Proof.
  intros Hg. induction 1 as [w|w tr w1 w2 _ IH Hs|w tr w1 ready l out s _ IH Hd Hready E].
  - split; [done|]. exists []. split; [done|constructor].
  - destruct (IH Hg) as [Hg1 Ha]. rw (statusChanges_queue _ _ Hs). split; [by eapply statusChanges_good|done].
  - destruct (IH Hg) as (Hg1 & answers & -> & Hm).
    destruct (wp_reconcileResources w1 Hd Hg1 l) as (res & w2 & c & E' & Hg2 & b & Hb & Hround & _).
    rw E in E'. injection E' as -> ->. cbn [op_world fst]. split; [done|].
    assert (b = ready) as -> by (destruct b, ready; naive_solver).
    exists (answers ++ [(ready, res)]). rw fmap_app. split; [done|].
    pose proof (machine_round ready _ _ _ Hm) as Hm2. by rw Hround in Hm2.
Qed.
End queue.

(** ** Property *)

Section property.
Context {W : Type} `{!Kube W, !Library, !Store W, !StoreLaws W, !RemovalLaws W} (r : RabbitmqCluster) (n : Z).
Context (op user : string).

(** C7: reconciling the children implements a queue.  For a cluster with its
    defaults and no override, whose server configuration renders to a text that
    can be read again, on an API server that stores what it is sent, with
    children that can be updated at first, while others write the status of the
    StatefulSets as they like, the rounds of the operator are rounds of an
    abstract machine that holds the children still to be written: it takes the first one and answers that it is done, if
    all StatefulSets are ready, goes on if there is none left, and otherwise
    leaves the queue and answers to come back in five seconds.  So the children
    are written in the order of the builders, one a round, no round fails or
    panics, and the operator goes on only when all are written. *)
Theorem reconcileResources_refines_queue (w w' : W) tr :
  Tidy r n → renderConf r n = inr (op, user) → readable op →
  (∀ k (o : Obj k), SemanticDeepEqual k o o = true) → equalsStatus →
  Forall (good r w) (ResourceBuilders n r) → operates r n w tr w' →
  ∃ answers, tr = (λ a, (a.1, Returns a.2)) <$> answers ∧
    machine (unsettled r n op user w) answers (unsettled r n op user w') ∧
    promise (unsettled r n op user w) answers (unsettled r n op user w').
Proof.
  intros HT Hconf Hop Hrefl Hdeep Hg Hr.
  destruct (operates_machine r n op user HT Hconf Hop Hrefl Hdeep w tr w' Hg Hr) as (_ & answers & -> & Hm).
  exists answers. split_and!; [done|exact Hm|by apply machine_promise].
Qed.
End property.
