(* ===== verification/Conditions.v ===== *)
(** The status conditions over many reconciliations: setting ReconcileSuccess
    twice is setting it once and does not disturb the computed conditions, and
    these depend on little of the children. *)

From S2P Require Import Prelude GoStd K8s V1beta1 Status Kube Steps.

(** ** The four conditions *)

(** The four conditions, found again by their types. *)
Lemma oldCondition_four a v n s :
  cond_Type a = AllReplicasReady → cond_Type v = ClusterAvailable → cond_Type n = NoWarnings →
  cond_Type s = ReconcileSuccess →
  let cs := [a; v; n; s] in
  oldCondition AllReplicasReady cs = Some a ∧ oldCondition ClusterAvailable cs = Some v ∧
  oldCondition NoWarnings cs = Some n ∧ oldCondition ReconcileSuccess cs = Some s.
Proof. intros Ea Ev En Es. rw /oldCondition /= Ea Ev En Es. done. Qed.

Definition fourConditions (st : RabbitmqClusterStatus) : Prop := ∃ a v n s,
  rst_Conditions st = Some [a; v; n; s] ∧ cond_Type a = AllReplicasReady ∧ cond_Type v = ClusterAvailable ∧
  cond_Type n = NoWarnings ∧ cond_Type s = ReconcileSuccess.

Lemma default_success_type now old cs :
  old = oldCondition ReconcileSuccess cs →
  cond_Type (default (ReconcileSuccessCondition now ConditionUnknown "Initialising" "") old) = ReconcileSuccess.
Proof. intros ->. destruct (oldCondition _ cs) as [c|] eqn:E; [|done]. by apply oldCondition_type in E as [? _]. Qed.

Lemma SetConditions_four now rs st st' : SetConditions now rs st = Returns st' → fourConditions st'.
Proof.
  intros (nw & Hn & Hc & _)%SetConditions_inv. unfold NoWarningsCondition in Hn.
  destruct (foldO NoWarningsStep _ rs) as [c|] eqn:Ef; [|done]. injection Hn as <-.
  apply NoWarnings_fold in Ef as [Ef _]. do 4 eexists. split; [exact Hc|].
  rw (proj1 (AllReplicasReady_fold _ _)) (proj1 (ClusterAvailable_fold _ _)) !(proj1 (startCondition_spec _ _)).
  rw Ef (proj1 (startCondition_spec _ _)). split_and!; [done..|]. by eapply default_success_type.
Qed.

(** ** ReconcileSuccess *)

Lemma updateFirst_twice now now' ty st reason msgs cs :
  updateFirst now' ty st reason msgs (updateFirst now ty st reason msgs cs) = updateFirst now ty st reason msgs cs.
Proof.
  induction cs as [|c cs IH]; [done|]. cbn. destruct (decide (cond_Type c = ty)) as [E|E].
  - rw bool_decide_eq_true_2 //. cbn. rw bool_decide_eq_true_2; [by rw /UpdateState; destruct (bool_decide _)|].
    f_equal. unfold UpdateState. cbn. rw (bool_decide_eq_false_2 (_ ≠ _)); [|by destruct (bool_decide _)].
    cbn. by intros [].
  - rw bool_decide_eq_false_2 //. cbn. rw bool_decide_eq_false_2 //. by rw IH.
Qed.

Lemma SetCondition_twice now now' ty st reason msgs s :
  SetCondition now' ty st reason msgs (SetCondition now ty st reason msgs s) = SetCondition now ty st reason msgs s.
Proof.
  unfold SetCondition. destruct s as [? cs ? ? ?]. cbn. destruct cs as [cs|]; [|done]. cbn. by rw updateFirst_twice.
Qed.

(** Setting it leaves the other three conditions alone. *)
Lemma SetConditions_SetCondition now now' rs st reason msgs s :
  (∀ now, SetConditions now rs s = Returns s) →
  let s' := SetCondition now ReconcileSuccess st reason msgs s in SetConditions now' rs s' = Returns s'.
Proof.
  intros HS s'. pose proof (SetConditions_four 0 rs s s (HS 0%Z)) as (a & v & n & c & Hc & Ea & Ev & En & Es).
  specialize (HS now'). unfold SetConditions in *. rw Hc in HS. change (sl (Some [a; v; n; c])) with [a; v; n; c] in HS.
  destruct (oldCondition_four a v n c Ea Ev En Es) as (Fa & Fv & Fn & Fs). rw Fa Fv Fn Fs in HS.
  set (c' := UpdateReason reason msgs (UpdateState now st c)).
  assert (cond_Type c' = ReconcileSuccess) as Es'.
  { unfold c', UpdateReason, UpdateState. cbn. by destruct (bool_decide _). }
  assert (rst_Conditions s' = Some [a; v; n; c']) as Hc'.
  { unfold s', SetCondition. cbn. rw Hc. cbn. rw Ea Ev En Es. done. }
  rw Hc'. change (sl (Some [a; v; n; c'])) with [a; v; n; c'].
  destruct (oldCondition_four a v n c' Ea Ev En Es') as (Ga & Gv & Gn & Gs). rw Ga Gv Gn Gs.
  unfold mbind, outcome_bind in *. destruct (NoWarningsCondition now' rs (Some n)) as [n'|]; [|done].
  injection HS as HS. assert (rst_Conditions s = Some [AllReplicasReadyCondition now' rs (Some a);
    ClusterAvailableCondition now' rs (Some v); n'; c]) as HC by by rw -{1}HS.
  rw Hc in HC. injection HC as <- <- <-. f_equal. destruct s'. cbn in *. by rw Hc'.
Qed.

(** ** What the conditions depend on *)

(** Nothing else than the conditions. *)
Lemma SetConditions_conditions now rs st st' s :
  rst_Conditions st = rst_Conditions st' → SetConditions now rs st = Returns s →
  SetConditions now rs st' = Returns (set_rst_Conditions (rst_Conditions s) st').
Proof.
  intros E. unfold SetConditions. rw E. unfold mbind, outcome_bind.
  destruct (NoWarningsCondition _ _ _); [|done]. by intros [= <-].
Qed.

(** Two children that look the same: both missing, or both ready and with the
    same warning; both there or both not. *)
Definition alike (x y : Resource) : Prop :=
  match x, y with
  | RStatefulSet None, RStatefulSet None => True
  | RStatefulSet (Some a), RStatefulSet (Some b) => memoryDiffers a = memoryDiffers b ∧
      desiredReplicas a = stst_ReadyReplicas (sts_Status a) ∧ desiredReplicas b = stst_ReadyReplicas (sts_Status b)
  | REndpoints None, REndpoints None | REndpoints (Some _), REndpoints (Some _) | ROther, ROther => True
  | _, _ => False
  end.

Lemma NoWarningsStep_alike x y c : alike x y → NoWarningsStep c x = NoWarningsStep c y.
Proof. destruct x as [[a|]|[]|], y as [[b|]|[]|]; cbn; try done. by intros (-> & _). Qed.

Lemma AllReplicasReadyStep_alike x y c : alike x y → AllReplicasReadyStep c x = AllReplicasReadyStep c y.
Proof. destruct x as [[a|]|[]|], y as [[b|]|[]|]; cbn; try done. intros (_ & -> & ->). by rw !Z.eqb_refl. Qed.

Lemma scanSubsets_overwritten c subsets msg st reason :
  set_cond_Message msg (setSR st reason (scanSubsets c subsets)) = set_cond_Message msg (setSR st reason c).
Proof.
  unfold scanSubsets. revert c. induction subsets as [|s ss IH]; intros c; [done|]. cbn. rw IH. by destruct (eps_Addresses s).
Qed.

Lemma ClusterAvailableStep_alike x y c : alike x y → ClusterAvailableStep c x = ClusterAvailableStep c y.
Proof.
  destruct x as [[a|]|[]|], y as [[b|]|[]|]; cbn; try done. intros _. by rw !scanSubsets_overwritten.
Qed.

Lemma SetConditions_alike now xs ys st : Forall2 alike xs ys → SetConditions now xs st = SetConditions now ys st.
Proof.
  intros H. unfold SetConditions, NoWarningsCondition, AllReplicasReadyCondition, ClusterAvailableCondition.
  assert (∀ c, foldO NoWarningsStep c xs = foldO NoWarningsStep c ys) as E1.
  { induction H as [|x y xs ys Hxy _ IH]; intros c; [done|]. cbn [foldl foldO]. rw (NoWarningsStep_alike x y c Hxy).
    unfold mbind, outcome_bind. by destruct (NoWarningsStep c y). }
  assert (∀ c, foldl AllReplicasReadyStep c xs = foldl AllReplicasReadyStep c ys) as E2.
  { clear E1. induction H as [|x y xs ys Hxy _ IH]; intros c; [done|]. cbn [foldl foldO]. by rw (AllReplicasReadyStep_alike x y c Hxy) IH. }
  assert (∀ c, foldl ClusterAvailableStep c xs = foldl ClusterAvailableStep c ys) as E3.
  { clear E1 E2. induction H as [|x y xs ys Hxy _ IH]; intros c; [done|]. cbn [foldl foldO]. by rw (ClusterAvailableStep_alike x y c Hxy) IH. }
  by rw E1 E2 E3.
Qed.

(** The computation does not fail when every StatefulSet has a container. *)
Lemma SetConditions_total now rs st :
  (∀ sts, RStatefulSet (Some sts) ∈ rs → ∃ b, memoryDiffers sts = Returns b) → ∃ s, SetConditions now rs st = Returns s.
Proof.
  intros H. assert (∀ c, ∃ c', foldO NoWarningsStep c rs = Returns c') as Hf.
  { induction rs as [|x rs IH]; intros c; [by eexists|]. cbn.
    assert (∃ c1, NoWarningsStep c x = Returns c1) as [c1 ->].
    { destruct x as [[sts|]|ep|]; try by eexists. destruct (H sts) as [b E]; [apply list_elem_of_here|].
      cbn. rw E /mbind /outcome_bind. destruct b; by eexists. }
    unfold mbind, outcome_bind. apply IH. intros sts Hs. by apply H, list_elem_of_further. }
  unfold SetConditions, NoWarningsCondition, mbind, outcome_bind.
  destruct (Hf (startCondition NoWarnings (oldCondition NoWarnings (sl (rst_Conditions st))))) as [c' ->]. by eexists.
Qed.

(** The slots of as many StatefulSets, all alike. *)
Lemma slots_alike n stss stss' ep ep' :
  Forall2 (λ a b, alike (RStatefulSet (Some a)) (RStatefulSet (Some b))) stss stss' → (is_Some ep ↔ is_Some ep') →
  Forall2 alike (slots n stss ep) (slots n stss' ep').
Proof.
  intros H Hep. unfold slots. rw (Forall2_length _ _ _ H). apply Forall2_app; [|apply Forall2_app].
  - apply Forall2_fmap. eapply Forall2_impl; [exact H|done].
  - induction (n - length stss')%nat as [|k IH]; cbn; [done|]. by constructor.
  - destruct (_ <=? _)%nat; [|done]. constructor; [|done].
    destruct ep as [e|], ep' as [e'|]; cbn; try done; exfalso.
    + by destruct (proj1 Hep ltac:(by eexists)).
    + by destruct (proj2 Hep ltac:(by eexists)).
Qed.
