(* ===== verification/Clock.v ===== *)
(** The clock of the world as an interface, and that it does not run backwards
    through any step of a reconciliation. *)

From S2P Require Import Prelude GoStd GoTime K8s V1beta1 Metadata Kube Secrets Builder Builders Hoare Trace Result.
From S2P Require Import Status Scaling ControllerUtils Configurations Resources Steps Cli Reconcile.

#[local] Open Scope Z_scope.

(** ** Closed sets of worlds *)

(** No service leads out of the set. *)
Class Closed {W : Type} `{!Kube W} (J : W → Prop) : Prop := {
  closed_get k key w : J w → J (kGet k key w).2;
  closed_list k ns labels w : J w → J (kList k ns labels w).2;
  closed_create k (o : Obj k) w : J w → J (kCreate k o w).2;
  closed_update k (o : Obj k) w : J w → J (kUpdate k o w).2;
  closed_status r w : J w → J (kStatusUpdate r w).2;
  closed_reader k key w : J w → J (kReaderGet k key w).2;
  closed_csGet k key w : J w → J (csGet k key w).2;
  closed_csUpdate k ns (o : Obj k) w : J w → J (csUpdate k ns o w).2;
  closed_orphan k key w : J w → J (csDeleteOrphan k key w).2;
  closed_event r ty reason msg w : J w → J (kEvent r ty reason msg w).2;
  closed_now w : J w → J (kNow w).2;
  closed_random n w : J w → J (kRandRead n w).2;
  closed_exec ns pod container cmd w : J w → J (kExec ns pod container cmd w).2
}.

(** Worlds whose clock does not show an instant before [t] any more. *)
Class Clock (W : Type) := notBefore : Z → W → Prop.

Class ClockLaws (W : Type) `{!Kube W, !Clock W} : Prop := {
  clock_closed t :: Closed (notBefore (W := W) t);
  clock_now t w : notBefore t w → t ≤ (kNow w).1;
  clock_range w : inRange (kNow w).1
}.

(** The log is no part of the world. *)
#[export] Instance traced_closed {W} `{!Kube W} (J : W → Prop) `{!Closed J} :
  Closed (W := W * list Call) (λ wl, J wl.1).
Proof.
  assert (∀ A (f : Ext W A) wl, (∀ w, J w → J (f w).2) → J wl.1 → J (unlogged f wl).2.1) as Hu.
  { intros A f wl Hf Hw. unfold unlogged. specialize (Hf wl.1 Hw). by destruct (f wl.1). }
  assert (∀ A call (f : Ext W A) wl, (∀ w, J w → J (f w).2) → J wl.1 → J (logged call f wl).2.1) as Hl.
  { intros A call f wl Hf Hw. unfold logged. specialize (Hf wl.1 Hw). by destruct (f wl.1). }
  split; intros; first [apply Hu; [|done]|apply Hl; [|done]]; intros w' Hw'.
  - by apply closed_get.
  - by apply closed_list.
  - by apply closed_create.
  - by apply closed_update.
  - by apply closed_status.
  - by apply closed_reader.
  - by apply closed_csGet.
  - by apply closed_csUpdate.
  - by apply closed_orphan.
  - by apply closed_event.
  - by apply closed_now.
  - by apply closed_random.
  - by apply closed_exec.
Qed.

(** ** The steps *)

Section steps.
Context {W : Type} `{!Kube W, !Library} (J : W → Prop) `{!Closed J}.

(** The world of a reconciliation stays in the set, also when it panics. *)
Abbreviation inSet := (λ s : Op W, J (op_world s)).
Abbreviation keeps m := (steady inSet m (λ _, True)).

Lemma k_ext {A} (f : Ext W A) : (∀ w, J w → J (f w).2) → keeps (ext f).
Proof. intros Hf s Hs. specialize (Hf _ Hs). unfold ext. by destruct (f (op_world s)). Qed.

Lemma k_rmq : keeps rmq.
Proof. by intros s Hs. Qed.
Lemma k_set_rmq r : keeps (set_rmq r).
Proof. by intros s Hs. Qed.
Lemma k_mod_rmq f : keeps (mod_rmq f).
Proof. by intros s Hs. Qed.
Lemma k_onInstance {A} (m : M RabbitmqCluster A) : keeps (onInstance m).
Proof. intros s Hs. unfold onInstance. by destruct (m (op_rmq s)) as [[] ?]. Qed.

(** With the local variables of a closure. *)
Abbreviation keepsLocal L m := (steady (λ sl : Op W * L, J (op_world sl.1)) m (λ _, True)).

Lemma k_withLocal {A L} (l : L) (m : M (Op W * L) A) : keepsLocal L m → keeps (withLocal l m).
Proof.
  intros Hm. apply t_withLocal. eapply t_conseq; [exact Hm|by intros sl [Hs _]|done|done].
Qed.
Lemma k_outer {A L} (m : Run W A) : keeps m → keepsLocal L (outer m).
Proof. intros Hm [s l] Hs. specialize (Hm s Hs). unfold outer. cbn in *. by destruct (m s) as [[a|e] s1]. Qed.
Lemma k_local {L} : keepsLocal L local.
Proof. by intros [s l] Hs. Qed.
Lemma k_set_local {L} (l : L) : keepsLocal L (set_local l).
Proof. by intros [s l'] Hs. Qed.
End steps.

(** Follow the structure of a computation. *)
Ltac keeps :=
  repeat match goal with
  | |- steady _ (mret _) _ => by apply s_ret
  | |- steady _ (panic _) _ => apply s_panic
  | |- steady _ (lift _) _ => by apply s_lift
  | |- steady _ (deref _) _ => by apply s_deref
  | |- steady _ rmq _ => apply k_rmq
  | |- steady _ (set_rmq _) _ => apply k_set_rmq
  | |- steady _ (mod_rmq _) _ => apply k_mod_rmq
  | |- steady _ (onInstance _) _ => apply k_onInstance
  | |- steady _ (withLocal _ _) _ => apply k_withLocal
  | |- steady _ (outer _) _ => apply k_outer
  | |- steady _ local _ => apply k_local
  | |- steady _ (set_local _) _ => apply k_set_local
  | |- steady _ (ext ?f) _ => apply k_ext; intros ? ?;
      lazymatch f with
      | kGet ?k _ => by apply (closed_get k)
      | kList ?k _ _ => by apply (closed_list k)
      | kCreate ?k _ => by apply (closed_create k)
      | kUpdate ?k _ => by apply (closed_update k)
      | kStatusUpdate _ => by apply closed_status
      | kReaderGet ?k _ => by apply (closed_reader k)
      | csGet ?k _ => by apply (closed_csGet k)
      | csUpdate ?k _ _ => by apply (closed_csUpdate k)
      | csDeleteOrphan ?k _ => by apply (closed_orphan k)
      | kEvent _ _ _ _ => by apply closed_event
      | kNow => by apply closed_now
      | kRandRead _ => by apply closed_random
      | kExec _ _ _ _ => by apply closed_exec
      end
  | |- steady _ (OnErrorSteps _ _ _ _) _ => apply (s_retry _ _ _ _ _ (λ _, True))
  | |- steady _ (OnError _ _) _ => apply (s_retry _ _ _ _ _ (λ _, True))
  | |- steady _ (RetryOnConflict _) _ => apply (s_retry _ _ _ _ _ (λ _, True))
  | |- steady _ (_ ≫= _) _ => eapply (s_bind _ _ _ (λ _, True)); [|intros ? _]
  | |- steady _ (match ?x with _ => _ end) _ => destruct x eqn:?
  | |- steady _ (let _ := _ in _) _ => cbv zeta
  end.

Section all_steps.
Context {W : Type} `{!Kube W, !Library} (J : W → Prop) `{!Closed J}.
Abbreviation keeps m := (steady (λ s : Op W, J (op_world s)) m (λ _, True)).

Lemma k_updateRmq : keeps updateRmq.
Proof. unfold updateRmq, update. keeps. Qed.
Lemma k_statusUpdateRmq : keeps statusUpdateRmq.
Proof. unfold statusUpdateRmq. keeps. Qed.
Lemma k_event ty reason msg : keeps (event ty reason msg).
Proof. unfold event. keeps. Qed.
Lemma k_setCondition ty st reason msgs : keeps (setCondition ty st reason msgs).
Proof. unfold setCondition. keeps. Qed.
Lemma k_updateStatus : keeps updateStatus.
Proof. unfold updateStatus. keeps. apply k_statusUpdateRmq. Qed.
Lemma k_statefulSets : keeps statefulSets.
Proof. unfold statefulSets. keeps. Qed.

Lemma k_reconcileStatusConditions : keeps reconcileStatusConditions.
Proof. unfold reconcileStatusConditions, getChildResources, statefulSets. keeps. apply k_updateStatus. Qed.

Lemma k_reconcileTLS : keeps reconcileTLS.
Proof. unfold reconcileTLS, checkTLSSecrets, tlsError, event, setCondition. keeps. Qed.

Lemma k_reconcileQueueRebalanced : keeps reconcileQueueRebalanced.
Proof. unfold reconcileQueueRebalanced, markForQueueRebalance, statefulSets. keeps. apply k_updateRmq. Qed.

Lemma k_reconcileScaleDown : keeps reconcileScaleDown.
Proof. unfold reconcileScaleDown, event, setCondition. keeps. Qed.

Lemma k_reconcileStatus : keeps reconcileStatus.
Proof. unfold reconcileStatus. keeps. apply k_updateStatus. Qed.

(** *** Children *)

Lemma k_assertKind k o : keeps (assertKind k o).
Proof. unfold assertKind. keeps. Qed.

Lemma k_Build b : keeps (Build b).
Proof.
  destruct b; cbn [Build]; unfold ErlangCookie_Build, DefaultUserSecret_Build, generateUsername, randomEncodedString; keeps.
Qed.

Lemma k_Update b o : keeps (Update b o).
Proof.
  destruct b; cbn [Update]; unfold pureUpdate; keeps; first [exact (k_assertKind _ o)|apply k_assertKind].
Qed.

Lemma k_CreateOrUpdate b o : keeps (CreateOrUpdate b o).
Proof.
  unfold CreateOrUpdate, CreateOrUpdateObj, mutate, update. keeps; first [apply k_Update|apply k_assertKind].
Qed.

Lemma k_attempts b o : keeps (withLocal (mkVars o b OperationResultNone) (RetryOnConflict attempt)).
Proof. unfold attempt. keeps. apply k_CreateOrUpdate. Qed.

Lemma k_retryWithInterval msg total n f : keeps f → keeps (retryWithInterval msg total n f).
Proof. intros Hf. induction n as [|n IH]; cbn [retryWithInterval]; keeps; [exact Hf|exact IH]. Qed.

Lemma k_getPVCsLoop pvcName sts ns ords : keeps (getPVCsLoop pvcName sts ns ords).
Proof. induction ords as [|i ords IH]; cbn [getPVCsLoop]; keeps; exact IH. Qed.

Lemma k_scaleUpPVCs ns pvcs desired : keeps (scaleUpPVCs ns pvcs desired).
Proof. induction pvcs as [|p pvcs IH]; cbn [scaleUpPVCs]; keeps; exact IH. Qed.

Lemma k_Scale pvcName key desired : keeps (Scale pvcName key desired).
Proof.
  unfold Scale, existingCapacity, getPVCs, getStatefulset, deleteStatefulset, statefulSetGone. keeps;
    first [apply k_getPVCsLoop|apply k_scaleUpPVCs|apply k_retryWithInterval; keeps].
Qed.

Lemma k_reconcilePVCOf o : keeps (reconcilePVCOf o).
Proof.
  destruct o as [[] o]; cbn [reconcilePVCOf]; keeps. unfold reconcilePVC, event, setCondition. keeps. apply k_Scale.
Qed.

Lemma k_annotateIfNeeded b res : keeps (annotateIfNeeded b res).
Proof. unfold annotateIfNeeded, updateAnnotation, updateAnnotationOnce, update, event. keeps. Qed.

Lemma k_reconcileBuilder b : keeps (reconcileBuilder b).
Proof.
  unfold reconcileBuilder, logAndRecordOperationResult, event, setCondition.
  eapply (s_bind _ _ _ (λ _, True)); [apply k_Build|]. intros [err|o] _; [keeps|].
  eapply (s_bind _ _ _ (λ _, True)); [apply k_reconcilePVCOf|]. intros res _. destruct (Completed res); [keeps|].
  eapply (s_bind _ _ _ (λ _, True)); [apply k_attempts|]. intros [err v] _. keeps; apply k_annotateIfNeeded.
Qed.

Lemma k_reconcileBuilders bs : keeps (reconcileBuilders bs).
Proof. induction bs as [|b bs IH]; cbn [reconcileBuilders]; keeps; [apply k_reconcileBuilder|exact IH]. Qed.

Lemma k_waitResourceReady : keeps waitResourceReady.
Proof. unfold waitResourceReady, statefulSets. keeps. Qed.

Lemma k_reconcileResources : keeps reconcileResources.
Proof. unfold reconcileResources. keeps; [apply k_waitResourceReady|apply k_reconcileBuilders]. Qed.

Lemma k_restartFirst upd stss : keeps (restartFirst upd stss).
Proof.
  induction stss as [|sts stss IH]; cbn [restartFirst]; keeps; [exact IH|].
  unfold restartStatefulSet, restartOnce, update, event. keeps.
Qed.

Lemma k_restartStatefulSetIfNeeded : keeps restartStatefulSetIfNeeded.
Proof. unfold restartStatefulSetIfNeeded, configMapServer, statefulSets. keeps. apply k_restartFirst. Qed.
End all_steps.
