(* ===== verification/Effects.v ===== *)
(** What the steps of a reconciliation do to the cluster object that they
    share, on an API server that only the operator writes: the rules, and the
    updates of the status. *)

From S2P Require Import Prelude GoStd K8s V1beta1 Kube Hoare Trace Result Status ControllerUtils Store Steps Reconcile Clock.

(** ** The interface *)

Definition withVersion (v : string) (m : ObjectMeta) : ObjectMeta :=
  mkObjectMeta (om_Name m) (om_Namespace m) (om_UID m) v (om_Generation m) (om_DeletionTimestamp m) (om_Labels m)
    (om_Annotations m) (om_Finalizers m) (om_OwnerReferences m).

(** A cluster with another status, and a version the server gave it. *)
Definition revised (v : string) (st : RabbitmqClusterStatus) (r : RabbitmqCluster) : RabbitmqCluster :=
  mkRabbitmqCluster (withVersion v (rmq_ObjectMeta r)) (rmq_Spec r) st.

(** An update of the status replaces the status of the stored cluster, if it has
    the same uid, and gives it a version; the uncached reader answers what is
    stored; a command in a pod changes no stored object. *)
Class ClientLaws (W : Type) `{!Kube W, !Store W} : Prop := {
  client_status r r1 (w : W) :
    contents w KRabbitmqCluster (ObjectKeyFromObject (k := KRabbitmqCluster) r) = Some r1 →
    om_UID (rmq_ObjectMeta r1) = om_UID (rmq_ObjectMeta r) →
    ∃ v w', kStatusUpdate r w = (inr (revised v (rmq_Status r) r1), w') ∧
            stored (k := KRabbitmqCluster) (revised v (rmq_Status r) r1) w w';
  client_reader k key (w : W) : reads (contents w k key) (kReaderGet k key w).1 ∧ sameStore w (kReaderGet k key w).2;
  client_exec ns pod container cmd (w : W) : sameStore w (kExec ns pod container cmd w).2
}.

(** ** The rules *)

Section goes.
Context {W : Type} `{!Kube W, !Store W, !StoreLaws W}.
Abbreviation TW := (W * list Call)%type.

(** From cluster [r] and world [w] the computation returns a value, with a
    cluster, in a world and after calls that satisfy [Q]. *)
Definition goes {A} (m : Run TW A) r (w : W) (Q : A → RabbitmqCluster → W → list Call → Prop) : Prop :=
  ∀ l, ∃ a r' w' c, m (mkOp r (w, l)) = (Returns a, mkOp r' (w', l ++ c)) ∧ Q a r' w' c.

Lemma g_mono {A} (m : Run TW A) r w (Q Q' : A → RabbitmqCluster → W → list Call → Prop) :
  goes m r w Q → (∀ a r' w' c, Q a r' w' c → Q' a r' w' c) → goes m r w Q'.
Proof. intros Hm HQ l. destruct (Hm l) as (a & r' & w' & c & E & HQa). eauto 10. Qed.

(** Rules for computations that keep the cluster serve as well. *)
Lemma g_wp {A} (m : Run TW A) r w (Q : A → RabbitmqCluster → W → list Call → Prop) :
  wp r m w (λ a w' c, Q a r w' c) → goes m r w Q.
Proof. intros Hm l. destruct (Hm l) as (a & w' & c & E & HQ). eauto 10. Qed.

Lemma g_ret {A} (a : A) r w (Q : A → RabbitmqCluster → W → list Call → Prop) : Q a r w [] → goes (mret a) r w Q.
Proof. intros HQ. apply g_wp, wp_ret, HQ. Qed.

Lemma g_lift {A} (o : outcome A) a r w (Q : A → RabbitmqCluster → W → list Call → Prop) :
  o = Returns a → Q a r w [] → goes (lift o) r w Q.
Proof. intros E HQ. apply g_wp. by eapply wp_lift. Qed.

Lemma g_deref {A} (p : option A) a r w (Q : A → RabbitmqCluster → W → list Call → Prop) :
  p = Some a → Q a r w [] → goes (deref p) r w Q.
Proof. intros -> HQ. by apply g_ret. Qed.

Lemma g_rmq r w (Q : RabbitmqCluster → RabbitmqCluster → W → list Call → Prop) : Q r r w [] → goes rmq r w Q.
Proof. intros HQ. apply g_wp, wp_rmq, HQ. Qed.

Lemma g_set_rmq r' r w (Q : unit → RabbitmqCluster → W → list Call → Prop) : Q tt r' w [] → goes (set_rmq r') r w Q.
Proof. intros HQ l. exists tt, r', w, []. by rw app_nil_r. Qed.

Lemma g_mod_rmq f r w (Q : unit → RabbitmqCluster → W → list Call → Prop) : Q tt (f r) w [] → goes (mod_rmq f) r w Q.
Proof. intros HQ l. exists tt, (f r), w, []. by rw app_nil_r. Qed.

Lemma g_bind {A B} (m : Run TW A) (f : A → Run TW B) r w (Q : B → RabbitmqCluster → W → list Call → Prop) :
  goes m r w (λ a r1 w1 c1, goes (f a) r1 w1 (λ b r2 w2 c2, Q b r2 w2 (c1 ++ c2))) → goes (m ≫= f) r w Q.
Proof.
  intros Hm l. destruct (Hm l) as (a & r1 & w1 & c1 & E1 & Hf). destruct (Hf (l ++ c1)) as (b & r2 & w2 & c2 & E2 & HQ).
  exists b, r2, w2, (c1 ++ c2). rw (M_bind_eq _ _ _ _ _ E1) E2 app_assoc. done.
Qed.

(** What is known of the world besides. *)
Lemma g_keeps {A} (J : W → Prop) (m : Run TW A) r w (Q : A → RabbitmqCluster → W → list Call → Prop) :
  steady (λ s : Op TW, J (op_world s).1) m (λ _, True) → J w → goes m r w Q →
  goes m r w (λ a r' w' c, Q a r' w' c ∧ J w').
Proof.
  intros Hk Hw Hm l. destruct (Hm l) as (a & r' & w' & c & E & HQ). exists a, r', w', c. split; [done|]. split; [done|].
  specialize (Hk (mkOp r (w, l)) Hw). rw E in Hk. by destruct Hk.
Qed.

(** A step that goes on, or one that ends the reconciliation. *)
Definition doneAnswer : CtrlResult * goerror := (mkCtrlResult true (30 * Second), None).

Lemma g_andThen_answers (step : Run TW ReconcileResult) k r w (Q : CtrlResult * goerror → RabbitmqCluster → W → list Call → Prop) :
  goes step r w (λ res r1 w1 c1,
    res = Continue ∧ goes k r1 w1 (λ a r2 w2 c2, Q a r2 w2 (c1 ++ c2)) ∨
    ∃ a, Completed res = true ∧ Output res = Returns a ∧ Q a r1 w1 c1) →
  goes (andThen step k) r w Q.
Proof.
  intros Hs. unfold andThen. apply g_bind. eapply g_mono; [exact Hs|]. intros res r1 w1 c1 [[-> Hk]|(a & -> & Ho & HQ)].
  - exact Hk.
  - eapply g_lift; [exact Ho|]. by rw app_nil_r.
Qed.

Lemma g_andThen (step : Run TW ReconcileResult) k r w (Q : CtrlResult * goerror → RabbitmqCluster → W → list Call → Prop) :
  goes step r w (λ res r1 w1 c1,
    res = Continue ∧ goes k r1 w1 (λ a r2 w2 c2, Q a r2 w2 (c1 ++ c2)) ∨ res = Done ∧ Q doneAnswer r1 w1 c1) →
  goes (andThen step k) r w Q.
Proof.
  intros Hs. apply g_andThen_answers. eapply g_mono; [exact Hs|]. intros res r1 w1 c1 [[-> Hk]|[-> HQ]]; [by left|].
  right. by exists doneAnswer.
Qed.

Lemma g_retry (fn : Run TW goerror) r w (Q : goerror → RabbitmqCluster → W → list Call → Prop) :
  goes fn r w (λ err r' w' c, err = None ∧ Q None r' w' c) → goes (RetryOnConflict fn) r w Q.
Proof.
  intros Hfn l. destruct (Hfn l) as (err & r' & w' & c & E & -> & HQ). exists None, r', w', c. split; [|done].
  unfold RetryOnConflict, OnError, DefaultRetrySteps. by apply OnErrorSteps_ok.
Qed.

(** ** The status *)

Context `{!ClientLaws W}.

(** The cluster stored is [r0], with a version and the status. *)
Definition holds (r0 : RabbitmqCluster) (st : RabbitmqClusterStatus) (w : W) : Prop := ∃ v,
  contents w KRabbitmqCluster (ObjectKeyFromObject (k := KRabbitmqCluster) r0) = Some (revised v st r0).

(** Nothing but the cluster object is different. *)
Definition restSame (r0 : RabbitmqCluster) (w w' : W) : Prop := ∀ k key,
  (k, key) ≠ (KRabbitmqCluster, ObjectKeyFromObject (k := KRabbitmqCluster) r0) → contents w' k key = contents w k key.

Lemma restSame_refl r0 w : restSame r0 w w.
Proof. done. Qed.

Lemma restSame_trans r0 w1 w2 w3 : restSame r0 w1 w2 → restSame r0 w2 w3 → restSame r0 w1 w3.
Proof. intros H1 H2 k key Hne. by rw H2 // H1. Qed.

Lemma sameStore_rest r0 w w' : sameStore w w' → restSame r0 w w'.
Proof. intros Hs k key _. apply Hs. Qed.

Lemma holds_same r0 st w w' : sameStore w w' → holds r0 st w → holds r0 st w'.
Proof. intros Hs [v Hv]. exists v. by rw Hs. Qed.

Lemma g_statusUpdateRmq r0 v st st0 w (Q : goerror → RabbitmqCluster → W → list Call → Prop) :
  holds r0 st0 w →
  (∀ v' w' c, holds r0 st w' → restSame r0 w w' → Q None (revised v' st r0) w' c) →
  goes statusUpdateRmq (revised v st r0) w Q.
Proof.
  intros [v0 Hc] HQ. unfold statusUpdateRmq. apply g_bind, g_rmq, g_bind, g_wp.
  apply (wp_logged (revised v st r0) (λ _, StatusUpdated (revised v st r0))).
  destruct (client_status (revised v st r0) _ w Hc eq_refl) as (v' & w' & -> & Hs & Hother). cbn [fst snd].
  apply g_bind, g_set_rmq, g_ret. apply HQ; [by exists v'|exact Hother].
Qed.

Lemma g_updateStatus r0 v st st0 w (Q : ReconcileResult → RabbitmqCluster → W → list Call → Prop) :
  holds r0 st0 w →
  (∀ v' w' c, holds r0 st w' → restSame r0 w w' → Q Done (revised v' st r0) w' c) →
  goes updateStatus (revised v st r0) w Q.
Proof.
  intros Hh HQ. unfold updateStatus. apply g_bind, g_retry. eapply g_statusUpdateRmq; [exact Hh|].
  intros v' w' c Hh' Hr. split; [done|]. apply g_ret. by apply HQ.
Qed.

(** The deferred update: the cluster in memory is the one stored afterwards. *)
Lemma g_deferred r0 before v st st0 w (Q : unit → RabbitmqCluster → W → list Call → Prop) :
  holds r0 st0 w → (st = before → st0 = st) →
  (∀ v' w' c, holds r0 st w' → restSame r0 w w' → (st = before → sameStore w w' ∧ c = []) →
    Q tt (revised v' st r0) w' c) →
  goes (deferred before) (revised v st r0) w Q.
Proof.
  intros Hh Hsame HQ. unfold deferred. apply g_bind, g_retry. unfold deferredOnce. apply g_bind, g_rmq.
  cbn [rmq_Status revised]. case_bool_decide as E.
  - apply g_ret. split; [done|]. apply g_ret. apply HQ; [by rw -(Hsame (eq_sym E))|done|done].
  - eapply g_statusUpdateRmq; [exact Hh|]. intros v' w' c Hh' Hr. split; [done|]. apply g_ret.
    apply HQ; [exact Hh'|exact Hr|]. intros E'. by symmetry in E'.
Qed.
End goes.
