(* ===== verification/Replicas.v ===== *)
(** What the update of a StatefulSet of a cluster without overrides does to the
    parts that later steps look at: its replicas, its first container, its
    labels and the stamp of its last restart. *)

From S2P Require Import Prelude GoStd K8s V1beta1 Constant Metadata Merge Kube Controllerutil Builder Sts Builders Trace Status.
From S2P Require Import ControllerUtils Configurations Resources Timestamps Store Behaviour Tame Names Converge Authority Restarts.

Section replicas.
Context `{!Library} (r : RabbitmqCluster) (n : Z) (HT : Tidy r n) (op user : string) (Hop : readable op).

(** ** Definitions *)

(** The first container is that of RabbitMQ, or there is none yet. *)
Definition rabbitFirst (sts : StatefulSet) : Prop :=
  match ps_Containers (pts_Spec (stss_Template (sts_Spec sts))) with
  | [] => True
  | c :: _ => ctr_Name c = ContainerNameRabbitMQ
  end.

(** The limit and the request of the memory of the cluster differ. *)
Definition warns : bool :=
  match rs_Resources (rmq_Spec r) with
  | Some res => negb (Cmp (Memory (rr_Limits res)) (Memory (rr_Requests res)) =? 0)%Z
  | None => false
  end.

(** The annotations that every pod gets. *)
Definition podAnnotations : gomap string :=
  match sb_Vault (rs_SecretBackend (rmq_Spec r)) with
  | Some vault => appendVaultAnnotations (Some ∅) r vault
  | None => Some ∅
  end.

Definition restamp (v : string) (sts : StatefulSet) : StatefulSet :=
  set_templateAnnotations (Some (<[stsRestartAnnotation := v]> (gm (templateAnnotations sts)))) sts.

(** ** The generated spec *)

Lemma containers_first curr cs :
  NoDup (mkey <$> curr) →
  match curr with [] => True | c :: _ => ctr_Name c = ContainerNameRabbitMQ end → containers r curr = Returns cs →
  ∃ rabbit tl, containerRabbitmq_ r = Returns rabbit ∧ cs = rabbit :: tl ∧ ctr_Name rabbit = ContainerNameRabbitMQ.
Proof.
  intros Hd Hfirst. unfold containers. unfold mbind at 1, outcome_bind.
  destruct (containerRabbitmq_ r) as [rabbit|] eqn:Er; [|done].
  assert (ctr_Name rabbit = ContainerNameRabbitMQ) as Hr.
  { unfold containerRabbitmq_, mbind, outcome_bind in Er. destruct (derefO _) as [res|]; [|done].
    destruct (derefO _) as [g|]; [|done]. by injection Er as <-. }
  unfold mergeContainers. rw merge_mergeSpec //. cbn [mergeSpec].
  assert (∃ tl, upsert rabbit curr = Returns (rabbit :: tl)) as [tl Eu].
  { destruct curr as [|c curr]; [by exists []|]. exists curr. cbn.
    by rw decide_True; [rw Hfirst Hr|]. }
  rw Eu. unfold mbind, outcome_bind. intros E. exists rabbit.
  destruct (userUpdaterImage r) as [image|]; cbn [mergeSpec] in E; [|injection E as <-; by exists tl].
  cbn [upsert] in E. destruct (decide (mkey rabbit = mkey (containerUserCredentialUpdater r image))) as [Ek|_].
  - cbn in Ek. by rw Hr in Ek.
  - unfold mbind, outcome_bind in E. destruct (upsert _ tl) as [tl'|]; [|done]. injection E as <-. by exists tl'.
Qed.

Lemma generatedSpec_parts spec spec' :
  specDistinct spec → rabbitFirst (mkStatefulSet (newObjectMeta "" "" None None) spec (mkStatefulSetStatus 0 "" "")) →
  generatedSpec r spec = Returns spec' →
  is_Some (stss_Replicas spec') ∧
  (∃ res c cs, rs_Resources (rmq_Spec r) = Some res ∧ ps_Containers (pts_Spec (stss_Template spec')) = c :: cs ∧
     ctr_Name c = ContainerNameRabbitMQ ∧ ctr_Resources c = res) ∧
  om_Annotations (pts_ObjectMeta (stss_Template spec')) =
    ReconcileAnnotations (om_Annotations (pts_ObjectMeta (stss_Template spec))) [podAnnotations].
Proof.
  intros (_ & Hd & _) Hfirst. unfold generatedSpec, podTemplateSpec, mbind, outcome_bind.
  destruct (volumes r _) as [vs|]; [|done]. destruct (containers r _) as [cs|] eqn:Ec; [|done].
  destruct (initContainers r _) as [is_|]; [|done]. destruct (topologySpreadConstraints r _) as [ts|]; [|done].
  destruct (persistentVolumeClaims r _) as [ps|]; [|done]. intros [= <-]. cbn.
  destruct (containers_first _ _ Hd Hfirst Ec) as (rabbit & tl & Er & -> & Hn).
  split_and!; [by eexists| |done]. unfold containerRabbitmq_, mbind, outcome_bind in Er.
  destruct (tidy_resources _ _ HT) as [res Hres]. rw Hres in Er. cbn in Er. destruct (derefO _) as [g|]; [|done].
  injection Er as <-. exists res. by do 2 eexists.
Qed.

(** The metadata of the template is updated on its own. *)
Lemma generatedSpec_meta spec spec' m :
  generatedSpec r spec = Returns spec' →
  generatedSpec r (set_stss_Template (set_pts_ObjectMeta m (stss_Template spec)) spec) =
  Returns (set_stss_Template (set_pts_ObjectMeta (podMeta r m) (stss_Template spec')) spec').
Proof.
  unfold generatedSpec, podTemplateSpec, mbind, outcome_bind.
  cbn [stss_Template set_stss_Template pts_Spec set_pts_ObjectMeta stss_VolumeClaimTemplates].
  destruct (volumes r _) as [vs|]; [|done]. destruct (containers r _) as [cs|]; [|done].
  destruct (initContainers r _) as [is_|]; [|done]. destruct (topologySpreadConstraints r _) as [ts|]; [|done].
  destruct (persistentVolumeClaims r _) as [ps|]; [|done]. by intros [= <-].
Qed.

Lemma podMeta_overlays : overlays (λ k, lookup_last [podAnnotations] k)
  (λ a, ReconcileAnnotations a [podAnnotations]).
Proof. apply mergeWithFilter_overlays. Qed.

Lemma podMeta_restamp v m :
  gm_lookup podAnnotations stsRestartAnnotation = None → podMeta r m = m →
  let m' := set_om_Annotations (Some (<[stsRestartAnnotation := v]> (gm (om_Annotations m)))) m in podMeta r m' = m'.
Proof.
  intros Hno Hm m'. pose proof (f_equal om_Annotations Hm) as Ha. pose proof (f_equal om_Labels Hm) as Hl.
  change (ReconcileAnnotations (om_Annotations m) [podAnnotations] = om_Annotations m) in Ha.
  change (Some (Label (rmq_Name r)) = om_Labels m) in Hl.
  change (podMeta r m') with (set_om_Annotations (ReconcileAnnotations (om_Annotations m') [podAnnotations])
    (set_om_Labels (Some (Label (rmq_Name r))) m')). rw Hl.
  assert (ReconcileAnnotations (om_Annotations m') [podAnnotations] = om_Annotations m') as ->; [|by destruct m].
  cbn [m' om_Annotations set_om_Annotations]. apply gm_ext; [by apply podMeta_overlays|by eexists|]. intros k.
  destruct (podMeta_overlays (Some (<[stsRestartAnnotation:=v]> (gm (om_Annotations m))))) as [_ ->].
  destruct (podMeta_overlays (om_Annotations m)) as [_ Hk]. specialize (Hk k). rw Ha in Hk.
  destruct (decide (stsRestartAnnotation = k)) as [<-|Hne].
  - unfold lookup_last. cbn. unfold gm_lookup in Hno |- *. by rw Hno.
  - assert (gm_lookup (Some (<[stsRestartAnnotation:=v]> (gm (om_Annotations m)))) k = gm_lookup (om_Annotations m) k)
      as -> by by apply lookup_insert_ne. by symmetry.
Qed.

(** ** The update *)

Lemma after_stsRest i (o : StatefulSet) :
  acceptable r (StatefulSetBuilder i) o →
  ∃ spec, generatedSpec r (sts_Spec o) = Returns spec ∧ sts_Spec (after r op user (StatefulSetBuilder i) o) = spec ∧
    specDistinct (sts_Spec o).
Proof.
  intros Ha. destruct (after_inv r n HT op user Hop (StatefulSetBuilder i) o Ha) as (_ & _ & o1 & E & Eo).
  cbn in E. unfold stsRest, mbind, outcome_bind in E. destruct (generatedSpec r (sts_Spec o)) as [spec|]; [|done].
  injection E as <-. exists spec. split; [done|]. split; [|by destruct Ha as [_ [? _]]].
  exact (f_equal sts_Spec Eo).
Qed.

Lemma after_sts i (o : StatefulSet) :
  acceptable r (StatefulSetBuilder i) o → rabbitFirst o →
  let o' : StatefulSet := after r op user (StatefulSetBuilder i) o in
  is_Some (stss_Replicas (sts_Spec o')) ∧ rabbitFirst o' ∧ memoryDiffers o' = Returns warns ∧
  (gm_lookup podAnnotations stsRestartAnnotation = None →
   gm_lookup (templateAnnotations o') stsRestartAnnotation = gm_lookup (templateAnnotations o) stsRestartAnnotation).
Proof.
  intros Ha Hfirst o'. destruct (after_stsRest i o Ha) as (spec & E & Es & Hd). change (sts_Spec o' = spec) in Es.
  destruct (generatedSpec_parts _ _ Hd Hfirst E) as (Hrep & (res & c & cs & Hres & Hcs & Hn & Hr) & Han).
  unfold rabbitFirst, memoryDiffers, templateAnnotations, warns. rw Es Hcs Hres Hr Han. split_and!; [done..|].
  intros Hno. destruct (podMeta_overlays (om_Annotations (pts_ObjectMeta (stss_Template (sts_Spec o))))) as [_ ->].
  unfold lookup_last. cbn. unfold gm_lookup in Hno |- *. by rw Hno.
Qed.

Lemma blank_sts i (o : StatefulSet) :
  StatefulSet_Build r i = ok o →
  rabbitFirst o ∧ templateAnnotations o = None ∧ meta (k := KStatefulSet) o = buildMeta r (builderName r (StatefulSetBuilder i)).
Proof.
  unfold StatefulSet_Build, mbind, outcome_bind. destruct (persistentVolumeClaims r []); [|done]. by intros [= <-].
Qed.

Lemma restamp_fixed i (o : StatefulSet) v :
  gm_lookup podAnnotations stsRestartAnnotation = None → acceptable r (StatefulSetBuilder i) o →
  after r op user (StatefulSetBuilder i) o = o →
  acceptable r (StatefulSetBuilder i) (restamp v o) ∧
  after r op user (StatefulSetBuilder i) (restamp v o) = restamp v o.
Proof.
  intros Hno Ha Ho. assert (acceptable r (StatefulSetBuilder i) (restamp v o)) as Ha' by exact Ha. split; [done|].
  destruct (after_stsRest i o Ha) as (spec & E & Es & _). rw Ho in Es. subst spec.
  assert (podMeta r (pts_ObjectMeta (stss_Template (sts_Spec o))) = pts_ObjectMeta (stss_Template (sts_Spec o))) as Hpm.
  { pose proof (generatedSpec_meta _ _ (pts_ObjectMeta (stss_Template (sts_Spec o))) E) as E2.
    assert (set_stss_Template (set_pts_ObjectMeta (pts_ObjectMeta (stss_Template (sts_Spec o))) (stss_Template (sts_Spec o)))
      (sts_Spec o) = sts_Spec o) as Eid by (by destruct o as [? [? ? [? ?] ? ? ? ? ?] ?]).
    rw Eid E in E2. injection E2 as E2. symmetry. exact (f_equal (λ s, pts_ObjectMeta (stss_Template s)) E2). }
  assert (∀ o : StatefulSet, generatedSpec r (sts_Spec o) = Returns (sts_Spec o) → stsRest r o = Returns o) as Hrest.
  { intros x Ex. unfold stsRest. rw Ex. unfold mbind, outcome_bind. by destruct x. }
  destruct (after_spec r n HT op user Hop (StatefulSetBuilder i) o Ha) as (Eo & _). rw Ho in Eo.
  unfold after, shapeOf.
  rw (shaped_at r _ _ _ (restOf_rest r op user (StatefulSetBuilder i)) o (restamp v o)); [by apply Hrest|exact Eo| |done|done].
  apply Hrest. unfold restamp. pose proof (generatedSpec_meta _ _ (set_om_Annotations
    (Some (<[stsRestartAnnotation := v]> (gm (templateAnnotations o)))) (pts_ObjectMeta (stss_Template (sts_Spec o)))) E) as E2.
  unfold templateAnnotations in E2 |- *. rw (podMeta_restamp v _ Hno Hpm) in E2. exact E2.
Qed.

(** With the labels that the builder gives, it is listed. *)
Lemma after_listed i (o x : StatefulSet) :
  acceptable r (StatefulSetBuilder i) o →
  om_Labels (sts_ObjectMeta x) = om_Labels (meta (k := KStatefulSet) (after r op user (StatefulSetBuilder i) o)) →
  om_Namespace (sts_ObjectMeta x) = rmq_Namespace r → listedFor r x.
Proof.
  intros Ha Hl Hns. destruct (after_inv r n HT op user Hop (StatefulSetBuilder i) o Ha) as (HL & _).
  split; [exact Hns|]. intros key v Hkv. unfold gm_lookup. rw Hl HL. cbn.
  destruct (GetLabels_spec (rmq_Name r) (rmq_Labels r)) as (Hsub & _). rw map_subseteq_spec in Hsub. by apply Hsub.
Qed.
End replicas.
