(* ===== verification/Progress.v ===== *)
(** How far a cluster is from its final state: what the operator relies on
    about the children, a potential that its steps lower, and what the changes
    that a reconciliation makes do to both. *)

From S2P Require Import Prelude GoStd GoTime K8s V1beta1 Constant Metadata Kube Controllerutil Builder ServerConf Builders Trace Status.
From S2P Require Import ControllerUtils Configurations Resources Steps Timestamps Store Behaviour Tame Names Converge.
From S2P Require Import Authority Cleanup Restarts Queue Clock Effects Conditions Replicas.

Section progress.
Context {W : Type} `{!Kube W, !Library, !Store W, !StoreLaws W, !RemovalLaws W, !Clock W, !ClockLaws W}.
Context (r : RabbitmqCluster) (n : Z) (op user : string).
Implicit Types (w : W) (b : ResourceBuilder) (sts : StatefulSet).

(** ** Definitions *)

Abbreviation all := (ResourceBuilders n r).
Abbreviation SB := StatefulSetBuilder.

(** The child of a replica. *)
Definition replica (i : Z) w : option StatefulSet := child r (SB i) w.

(** Every marker says a time. *)
Definition wellMarked (m : ObjectMeta) : Prop := ∀ key v, key ∈ markers → gm_lookup (om_Annotations m) key = Some v →
  ∃ t, inRange t ∧ v = Format t.

Definition sound (sts : StatefulSet) : Prop :=
  rabbitFirst sts ∧ (∃ t, stamp sts t) ∧
  (listedFor r sts → is_Some (stss_Replicas (sts_Spec sts)) ∧ memoryDiffers sts = Returns (warns r)).

Definition soundFor b : Obj (builderKind b) → Prop :=
  match b with StatefulSetBuilder _ => sound | _ => λ _, True end.

(** What is relied on.  The children can be reconciled, those that need no
    update are as the operator writes them, their markers are times, and no
    other StatefulSet carries the labels of the cluster. *)
Record Kids w : Prop := {
  kids_good : Forall (good r w) all;
  kids_exact b o : b ∈ all → child r b w = Some o → SemanticDeepEqual (builderKind b) o (after r op user b o) = true →
    after r op user b o = o;
  kids_marks b o : b ∈ all → child r b w = Some o → wellMarked (meta o);
  kids_sound b o : b ∈ all → child r b w = Some o → soundFor b o;
  kids_only sts : ours r w sts → ∃ i, (0 ≤ i < n)%Z ∧ stsKeyOf sts = (builderTarget r (SB i)).2
}.

#[export] Instance carries_dec labels m : Decision (carries labels m).
Proof. exact (decide (map_Forall (λ k v, gm_lookup (om_Labels m) k = Some v) labels)). Defined.

#[export] Instance listedFor_dec sts : Decision (listedFor r sts).
Proof. unfold listedFor. apply _. Defined.

(** The StatefulSets of the cluster in the order of their replicas. *)
Definition listedSts w : list StatefulSet :=
  omap (λ i, match replica i w with Some sts => if decide (listedFor r sts) then Some sts else None | None => None end)
    (seqZ 0 n).

(** When the configuration was last updated, as its ConfigMap says. *)
Definition confMark w : option string :=
  match contents w KConfigMap (mkNamespacedName (rmq_Namespace r) (ChildResourceName r ResourceServerConfigMapSuffix)) with
  | Some cm => gm_lookup (annotations (k := KConfigMap) cm) serverConfAnnotation
  | None => None
  end.

(** The replicas whose StatefulSets are listed, and those that have to be restarted. *)
Definition listedAt w (i : Z) : bool :=
  match replica i w with Some sts => bool_decide (listedFor r sts) | None => false end.

Definition dueAt w (i : Z) : bool :=
  match confMark w, replica i w with
  | Some updatedAt, Some sts => bool_decide (listedFor r sts) && negb (restartedSince updatedAt sts)
  | _, _ => false
  end.

Definition dueReplicas w : list Z := List.filter (dueAt w) (seqZ 0 n).

Definition endpointsKey : NamespacedName :=
  mkNamespacedName (rmq_Namespace r) (ChildResourceName r ResourceClientServiceSuffix).
Definition hasEndpoints w : bool := bool_decide (is_Some (contents w KEndpoints endpointsKey)).

(** A StatefulSet that is ready and warns like those of the cluster. *)
Definition sample : StatefulSet :=
  mkStatefulSet (newObjectMeta "" "" None None)
    (mkStatefulSetSpec (Some 0%Z) None (mkPodTemplateSpec (newObjectMeta "" "" None None)
       (mkPodSpec [] [mkContainer "" "" [] [] None None []
          (default (mkResourceRequirements None None) (rs_Resources (rmq_Spec r))) "" "" "" None None None]
          [] None [] [] None "" None None None "")) [] "" "" (mkStatefulSetUpdateStrategy "" None) 0)
    (mkStatefulSetStatus 0 "" "").

(** What the conditions are computed from when all StatefulSets are ready. *)
Definition expected w : list Resource :=
  slots (Z.to_nat n) (replicate (length (listedSts w)) sample)
    (if hasEndpoints w then Some (mkEndpoints (newObjectMeta "" "" None None) []) else None).

(** The status has the conditions; it has the fields. *)
Definition conditionsFit w (st : RabbitmqClusterStatus) : bool :=
  match SetConditions 0 (expected w) st with Returns st' => bool_decide (st' = st) | Panics _ => false end.
Definition fieldsFit (st : RabbitmqClusterStatus) : bool :=
  let st' := statusOf n (revised "" st r) in
  (rst_Replicas st =? rst_Replicas st')%Z && bool_decide (rst_Binding st = rst_Binding st') &&
  bool_decide (rst_DefaultUser st = rst_DefaultUser st').

Definition count (b : bool) : nat := if b then 0 else 1.

(** The potential. *)
Definition potential w (st : RabbitmqClusterStatus) : nat :=
  length (unsettled r n op user w) * (Z.to_nat n + 2) + length (dueReplicas w) + count (conditionsFit w st) +
  count (fieldsFit st) + count (hasEndpoints w).

(** ** Lemmas *)

Context (HT : Tidy r n) (Hop : readable op) (Hrefl : ∀ k (o : Obj k), SemanticDeepEqual k o o = true).
Context (Hdeep : equalsStatus) (Hstamp : gm_lookup (podAnnotations r) stsRestartAnnotation = None).

Lemma SB_all i : (0 ≤ i < n)%Z ↔ SB i ∈ all.
Proof.
  rw -StatefulSetBuilder_elem ResourceBuilders_eq !elem_of_app. split; [by right; right; right|].
  intros [Hb|[Hb|[Hb|Hb]]]; [..|exact Hb]; exfalso; revert Hb; try destruct (_ || _); rw ?elem_of_cons ?elem_of_nil; naive_solver.
Qed.

Lemma replica_key i w sts : replica i w = Some sts → stsKeyOf sts = (builderTarget r (SB i)).2.
Proof. intros Hc. exact (child_key r (SB i) w sts Hc). Qed.

Lemma replica_ours i w sts : replica i w = Some sts → listedFor r sts → ours r w sts.
Proof. intros Hc Hl. split; [|done]. rw (replica_key _ _ _ Hc). exact Hc. Qed.

Lemma SB_key_inj i j : (0 ≤ i < n)%Z → (0 ≤ j < n)%Z → (builderTarget r (SB i)).2 = (builderTarget r (SB j)).2 → i = j.
Proof.
  intros Hi Hj E. assert (SB i = SB j) as [= ->]; [|done].
  apply (ResourceBuilders_targets_inj r n); [by apply SB_all|by apply SB_all|].
  by rw (surjective_pairing (builderTarget r (SB i))) (surjective_pairing (builderTarget r (SB j))) E.
Qed.

(** *** The list *)

Lemma listedSts_elem w sts : Kids w → sts ∈ listedSts w ↔ ours r w sts.
Proof.
  intros HK. unfold listedSts. rw list_elem_of_omap. split.
  - intros (i & Hi & E). destruct (replica i w) as [x|] eqn:Ex; [|done]. destruct (decide (listedFor r x)); [|done].
    injection E as <-. by eapply replica_ours.
  - intros Ho. destruct (kids_only _ HK sts Ho) as (i & Hi & Hk). exists i. split; [apply elem_of_seqZ; lia|].
    destruct Ho as [Hc Hl]. rw Hk in Hc. change (replica i w = Some sts) in Hc. by rw Hc decide_True.
Qed.

Lemma listedSts_NoDup w : NoDup (listedSts w).
Proof.
  unfold listedSts. assert (Forall (λ i, 0 ≤ i < n)%Z (seqZ 0 n)) as Hall.
  { apply Forall_forall. intros i Hi%elem_of_seqZ. lia. }
  pose proof (NoDup_seqZ 0 n) as Hnd. induction Hnd as [|i l Hi Hnd IH]; [constructor|].
  apply Forall_cons in Hall as [Hr Hall]. cbn. destruct (replica i w) as [x|] eqn:Ex; [|by apply IH].
  destruct (decide (listedFor r x)); [|by apply IH]. constructor; [|by apply IH].
  rw list_elem_of_omap. intros (j & Hj & E). destruct (replica j w) as [y|] eqn:Ey; [|done].
  destruct (decide (listedFor r y)); [|done]. injection E as ->. apply Hi.
  rw Forall_forall in Hall. specialize (Hall j Hj). apply replica_key in Ex, Ey. rw Ex in Ey.
  by rw (SB_key_inj i j Hr Hall Ey).
Qed.

Lemma listedSts_length w : length (listedSts w) = length (List.filter (listedAt w) (seqZ 0 n)).
Proof.
  unfold listedSts, listedAt. induction (seqZ 0 n) as [|i l IH]; [done|]. cbn. destruct (replica i w) as [x|]; [|done].
  case_bool_decide; [rw decide_True //=; by rw IH|by rw decide_False].
Qed.

Lemma listedSts_most w : (length (listedSts w) ≤ Z.to_nat n)%nat.
Proof. rw listedSts_length. etrans; [apply List.filter_length_le|]. by rw length_seqZ. Qed.

Lemma dueReplicas_most w : (length (dueReplicas w) ≤ Z.to_nat n)%nat.
Proof. etrans; [apply List.filter_length_le|]. by rw length_seqZ. Qed.

(** What the client lists is this list. *)
Lemma listedSts_perm w stss : Kids w → NoDup stss → (∀ sts, sts ∈ stss ↔ ours r w sts) → stss ≡ₚ listedSts w.
Proof.
  intros HK Hnd Hin. apply NoDup_Permutation; [done|apply listedSts_NoDup|]. intros sts. by rw Hin listedSts_elem.
Qed.

(** *** One child changes *)

(** The child of [b] is another one, which its builder leaves alone. *)
Definition replaces b w w' : Prop :=
  (∃ o, child r b w' = Some o ∧ acceptable r b o ∧ after r op user b o = o ∧ wellMarked (meta o) ∧ soundFor b o) ∧
  ∀ k key, (k, key) ≠ builderTarget r b → contents w' k key = contents w k key.

Lemma replaces_other b b' w w' : b ∈ all → b' ∈ all → b' ≠ b → replaces b w w' → child r b' w' = child r b' w.
Proof.
  intros Hb Hb' Hne [_ Hother]. apply Hother. intros Ht. apply Hne.
  exact (ResourceBuilders_targets_inj r n b' b Hb' Hb Ht).
Qed.

Lemma SB_target i k key : (k, key) = builderTarget r (SB i) → k = KStatefulSet.
Proof. by intros [= -> _]. Qed.

Lemma replaces_kids b w w' : b ∈ all → Kids w → replaces b w w' → Kids w'.
Proof.
  intros Hb HK Hre. pose proof Hre as [(o & Ho & Ha & Haf & Hm & Hs) Hother].
  assert (∀ (P : ∀ b, Obj (builderKind b) → Prop), P b o → (∀ b' x, b' ∈ all → child r b' w = Some x → P b' x) →
    ∀ b' x, b' ∈ all → child r b' w' = Some x → P b' x) as Hall.
  { intros P HP Hold b' x Hb' Hx. destruct (decide (b' = b)) as [->|Hne].
    - rw Ho in Hx. by injection Hx as <-.
    - rw (replaces_other b b' w w') // in Hx. by apply Hold. }
  split.
  - apply Forall_forall. intros b' Hb' x Hx. revert b' x Hb' Hx. apply (Hall (acceptable r)); [done|].
    intros b' x Hb' Hx. pose proof (kids_good _ HK) as Hg. rw Forall_forall in Hg. by apply Hg.
  - apply (Hall (λ b x, SemanticDeepEqual (builderKind b) x (after r op user b x) = true → after r op user b x = x)); [done|].
    apply (kids_exact _ HK).
  - apply (Hall (λ b x, wellMarked (meta x))); [done|]. apply (kids_marks _ HK).
  - apply (Hall soundFor); [done|]. apply (kids_sound _ HK).
  - intros x [Hx Hl]. destruct (decide ((KStatefulSet, stsKeyOf x) = builderTarget r b)) as [E|Hne].
    + assert (∃ i, b = SB i) as [i ->] by (destruct b; try done; by eexists). exists i. split; [by apply SB_all|].
      by rw -E.
    + apply (kids_only _ HK). split; [|done]. by rw -Hother.
Qed.

(** [b] is settled, the others are as they were. *)
Lemma replaces_unsettled b w w' :
  b ∈ all → replaces b w w' →
  unsettled r n op user w' = List.filter (λ b', bool_decide (b' ≠ b) && negb (quiet r op user w b')) all.
Proof.
  intros Hb Hre. apply List.filter_ext_in. intros b' Hb'%list_elem_of_In. case_bool_decide as Hne; cbn.
  - unfold quiet. by rw (replaces_other b b' w w').
  - subst b'. destruct Hre as [(o & Ho & _ & Haf & _) _]. unfold quiet. by rw Ho Haf Hrefl.
Qed.

Lemma replaces_unsettled_nil b w w' :
  b ∈ all → unsettled r n op user w = [] → replaces b w w' → unsettled r n op user w' = [].
Proof.
  intros Hb Hu Hre. rw (replaces_unsettled b w w' Hb Hre). revert Hu. unfold unsettled.
  change (Converge.all r n) with all. clear Hb Hre. induction all as [|b' bs IH]; [done|]. cbn [List.filter].
  destruct (quiet r op user w b'); cbn [negb]; [|done]. by rw andb_false_r.
Qed.

Lemma replaces_endpoints b w w' : replaces b w w' → hasEndpoints w' = hasEndpoints w.
Proof. intros [_ Hother]. unfold hasEndpoints. rw Hother //. by destruct b. Qed.

(** *** Built objects *)

Lemma buildMeta_unmarked name key : key ∈ markers → gm_lookup (om_Annotations (buildMeta r name)) key = None.
Proof. intros Hk. exact (merge_lookup _ (mergeCluster_markers r n HT) None key Hk). Qed.

Lemma blank_meta b x : blank r b x → meta x = buildMeta r (builderName r b).
Proof. destruct b; cbn [blank builderKind] in *; try done. intros Hb. by destruct (blank_sts r _ x Hb) as (_ & _ & ?). Qed.

Lemma format_now w : ∃ t, inRange t ∧ Format (kNow w).1 = Format t.
Proof. exists (kNow w).1. split; [apply clock_range|done]. Qed.

Lemma marked_wellMarked m m' : wellMarked m → markedFrom m m' → wellMarked m'.
Proof.
  intros Hm Hfrom key v Hk Hv. destruct (Hfrom key Hk) as [E|[w E]]; rw E in Hv; [by apply (Hm key)|].
  injection Hv as <-. apply format_now.
Qed.

(** What is written is sound when it comes from a sound child or a new one. *)
Lemma settles_replaces b w w' : b ∈ all → Kids w → settles r op user b w w' → replaces b w w'.
Proof.
  intros Hb HK [(o & Ho & Ha & Haf & o0 & m & Ho0 & Ha0 & Eo & Hl & Hm) Hother]. split; [|done].
  exists o. split_and!; [done..| |].
  - rw Eo meta_set_meta. eapply marked_wellMarked; [|exact Hm]. destruct (child r b w) as [e|] eqn:Ee.
    + subst o0. by apply (kids_marks _ HK b).
    + rw (blank_meta _ _ Ho0). intros key v Hk. by rw buildMeta_unmarked.
  - destruct b as [| | | | | | | | |i]; try exact I. cbn [soundFor builderKind] in *.
    assert (rabbitFirst o0 ∧ ∃ t, stamp o0 t) as [Hfirst [t Ht]].
    { destruct (child r (SB i) w) as [e|] eqn:Ee.
      - subst o0. by destruct (kids_sound _ HK (SB i) e Hb Ee) as (? & ? & _).
      - destruct (blank_sts r i o0 Ho0) as (Hf & Hn & _). split; [done|]. exists None. split; [|done]. by rw /= Hn. }
    destruct (after_sts r n HT op user Hop i o0 Ha0 Hfirst) as (Hrep & Hf' & Hmem & Hst). rw Eo.
    split_and!; [exact Hf'| |done]. exists t. destruct Ht as [Ht Hr]. split; [|exact Hr]. cbn in Ht |- *.
    rw -Ht. by apply Hst.
Qed.

(** *** No child to settle *)

Lemma kids_fixed w b :
  Kids w → unsettled r n op user w = [] → b ∈ all →
  ∃ o, child r b w = Some o ∧ acceptable r b o ∧ after r op user b o = o.
Proof.
  intros HK Hu Hb. apply unsettled_nil in Hu. rw Forall_forall in Hu. destruct (Hu b Hb) as (o & Ho & He).
  exists o. split; [done|]. split; [|by apply (kids_exact _ HK)].
  pose proof (kids_good _ HK) as Hg. rw Forall_forall in Hg. by apply (Hg b).
Qed.

Lemma fixed_listed i sts w :
  replica i w = Some sts → acceptable r (SB i) sts → after r op user (SB i) sts = sts → listedFor r sts.
Proof.
  intros Hc Ha Haf. apply (after_listed r n HT op user Hop i sts sts Ha); [by rw Haf|].
  exact (f_equal nn_Namespace (replica_key i w sts Hc)).
Qed.

Lemma settled_listed w : Kids w → unsettled r n op user w = [] → length (listedSts w) = Z.to_nat n.
Proof.
  intros HK Hu. rw listedSts_length -(length_seqZ 0 n). f_equal.
  assert (∀ l, Forall (λ i, 0 ≤ i < n)%Z l → List.filter (listedAt w) l = l) as Hf.
  { induction 1 as [|i l Hi _ IH]; [done|]. cbn. apply SB_all in Hi.
    destruct (kids_fixed w (SB i) HK Hu Hi) as (sts & Hc & Ha & Haf). unfold listedAt at 1.
    change (child r (SB i) w) with (replica i w) in Hc. rw Hc bool_decide_eq_true_2; [by eapply fixed_listed|by rw IH]. }
  apply Hf, Forall_forall. intros i Hi%elem_of_seqZ. lia.
Qed.

(** *** The potential *)

Lemma filter_length_ext {A} (f g : A → bool) l :
  (∀ x, x ∈ l → f x = g x) → length (List.filter f l) = length (List.filter g l).
Proof. intros E. f_equal. apply List.filter_ext_in. intros x Hx%list_elem_of_In. by apply E. Qed.

Lemma count_le (c : bool) : (count c ≤ 1)%nat.
Proof. destruct c; cbn; lia. Qed.

(** Only how many are listed and whether there are endpoints matters to the conditions. *)
Lemma conditionsFit_same w w' st :
  length (listedSts w') = length (listedSts w) → hasEndpoints w' = hasEndpoints w →
  conditionsFit w' st = conditionsFit w st.
Proof. intros Hl He. unfold conditionsFit, expected. by rw Hl He. Qed.

Lemma potential_mono w w' st :
  length (unsettled r n op user w') = length (unsettled r n op user w) →
  length (listedSts w') = length (listedSts w) → (hasEndpoints w = true → hasEndpoints w' = true) →
  (potential w' st + length (dueReplicas w) ≤ potential w st + length (dueReplicas w'))%nat.
Proof.
  intros Hu Hl He. unfold potential. rw Hu. destruct (hasEndpoints w) eqn:E.
  - rw (conditionsFit_same w w' st Hl); [by rw E He|]. rw He //. lia.
  - destruct (hasEndpoints w') eqn:E'; [|rw (conditionsFit_same w w' st Hl); [by rw E|lia]].
    cbn [count]. pose proof (count_le (conditionsFit w' st)). lia.
Qed.

(** Settling a child pays for the restarts and the update of the conditions
    that it may ask for. *)
Lemma settles_potential b rest w w' st :
  Kids w → unsettled r n op user w = b :: rest → settles r op user b w w' →
  Kids w' ∧ (potential w' st < potential w st)%nat.
Proof.
  intros HK Hu Hset. assert (b ∈ all) as Hb.
  { assert (b ∈ unsettled r n op user w) as Hx by (rw Hu; apply list_elem_of_here).
    apply list_elem_of_In, filter_In in Hx as [Hx _]. by apply list_elem_of_In. }
  pose proof (settles_replaces b w w' Hb HK Hset) as Hre. split; [by eapply replaces_kids|].
  unfold potential. rw (replaces_endpoints b w w' Hre).
  rw (settles_unsettled r n op user Hrefl b w w' rest (ResourceBuilders_NoDup n r) Hu Hset) Hu. cbn [length].
  pose proof (dueReplicas_most w'). pose proof (count_le (conditionsFit w' st)). lia.
Qed.

(** *** Steps of others *)

(** Others write the status of the StatefulSets; they neither take the labels of
    the cluster for a StatefulSet of theirs nor the endpoints away. *)
Record evolves w w' : Prop := {
  ev_status : statusChanges r n w w';
  ev_only sts : ours r w' sts → ∃ i, (0 ≤ i < n)%Z ∧ stsKeyOf sts = (builderTarget r (SB i)).2;
  ev_endpoints : hasEndpoints w = true → hasEndpoints w' = true
}.

(** A fact of the children that does not look at the status of a StatefulSet. *)
Lemma evolves_children (P : ∀ b, Obj (builderKind b) → Prop) w w' :
  (∀ i st o, P (SB i) o → P (SB i) (withStatus st o)) → statusChanges r n w w' →
  (∀ b o, b ∈ all → child r b w = Some o → P b o) → ∀ b o, b ∈ all → child r b w' = Some o → P b o.
Proof.
  intros HP Hs Hold b o Hb Ho. unfold statusChanges in Hs. rw Forall_forall in Hs. specialize (Hs b Hb).
  destruct b; try (rw Hs in Ho; by apply Hold). destruct Hs as [st Hs]. rw Hs in Ho.
  destruct (child r (SB Index) w) as [x|] eqn:Ex; [|done]. injection Ho as <-. by apply HP, Hold.
Qed.

Lemma evolves_kids w w' : Kids w → evolves w w' → Kids w'.
Proof.
  intros HK [Hs Honly _]. split.
  - eapply statusChanges_good; [exact Hs|apply (kids_good _ HK)].
  - apply (evolves_children (λ b o, SemanticDeepEqual (builderKind b) o (after r op user b o) = true →
      after r op user b o = o) w w'); [|done|apply (kids_exact _ HK)].
    intros i st o Ho. cbn [builderKind] in *. rw after_status Hdeep; [by rw after_keeps_status|].
    intros He. by rw Ho.
  - apply (evolves_children (λ b o, wellMarked (meta o)) w w'); [|done|apply (kids_marks _ HK)]. by intros i st o.
  - apply (evolves_children soundFor w w'); [|done|apply (kids_sound _ HK)]. by intros i st o.
  - exact Honly.
Qed.

Lemma evolves_replica i w w' :
  (0 ≤ i < n)%Z → statusChanges r n w w' → ∃ st, replica i w' = withStatus st <$> replica i w.
Proof. intros Hi Hs. unfold statusChanges in Hs. rw Forall_forall in Hs. exact (Hs (SB i) (proj1 (SB_all i) Hi)). Qed.

Lemma serverConf_all : ServerConfigMapBuilder true ∈ all.
Proof.
  rw ResourceBuilders_eq. do 2 (apply elem_of_app; right). apply elem_of_app. left.
  apply list_elem_of_further, list_elem_of_here.
Qed.

Lemma confMark_child w : confMark w =
  match child r (ServerConfigMapBuilder true) w with
  | Some cm => gm_lookup (annotations (k := KConfigMap) cm) serverConfAnnotation
  | None => None
  end.
Proof. reflexivity. Qed.

(** What is the same for the restarts and the list. *)
Lemma counts_same w w' :
  confMark w' = confMark w →
  (∀ i, (0 ≤ i < n)%Z → match replica i w, replica i w' with
    | Some x, Some y => (listedFor r x ↔ listedFor r y) ∧ templateAnnotations y = templateAnnotations x
    | None, None => True
    | _, _ => False
    end) →
  length (listedSts w') = length (listedSts w) ∧ length (dueReplicas w') = length (dueReplicas w).
Proof.
  intros Hc Hi. rw !listedSts_length. split; apply filter_length_ext; intros i Hin%elem_of_seqZ;
    specialize (Hi i ltac:(lia)); unfold listedAt, dueAt; rw ?Hc;
    destruct (replica i w) as [x|], (replica i w') as [y|]; try done; destruct Hi as [Hl Ht].
  - by apply bool_decide_ext.
  - destruct (confMark w) as [u|]; [|done]. f_equal; [by apply bool_decide_ext|]. unfold restartedSince. by rw Ht.
Qed.

Lemma evolves_potential w w' st : evolves w w' → (potential w' st ≤ potential w st)%nat.
Proof.
  intros [Hs _ He]. destruct (counts_same w w') as [Hl Hd].
  - rw !confMark_child. unfold statusChanges in Hs. rw Forall_forall in Hs.
    by rw (Hs (ServerConfigMapBuilder true) serverConf_all).
  - intros i Hi. destruct (evolves_replica i w w' Hi Hs) as [st' ->]. by destruct (replica i w).
  - pose proof (potential_mono w w' st) as Hp. rw (statusChanges_queue r n op user Hdeep w w' Hs) in Hp.
    specialize (Hp eq_refl Hl He). lia.
Qed.

(** Nothing but the cluster object has changed. *)
Lemma child_kind b key : (builderKind b, key) ≠ (KRabbitmqCluster, ObjectKeyFromObject (k := KRabbitmqCluster) r).
Proof. by destruct b. Qed.

Lemma restSame_evolves w w' : Kids w → restSame r w w' → evolves w w'.
Proof.
  intros HK Hs. split.
  - apply Forall_forall. intros b Hb. assert (child r b w' = child r b w) as E by (apply Hs, child_kind).
    destruct b; try exact E. rw E. destruct (child r (SB Index) w) as [o|]; [|by exists (mkStatefulSetStatus 0 "" "")].
    exists (sts_Status o). cbn. by rw withStatus_self.
  - intros sts [Hc Hl]. apply (kids_only _ HK). split; [|done]. by rw -Hs.
  - unfold hasEndpoints. by rw Hs.
Qed.

(** *** Restarts and removed marks *)

Lemma replaces_same b w w' w'' : replaces b w w' → sameStore w' w'' → replaces b w w''.
Proof.
  intros [(o & Ho & HQ) Hother] Hs. split; [exists o; split; [by rw /child Hs|done]|].
  intros k key Hne. by rw Hs Hother.
Qed.

(** When no child is unsettled, a change that keeps what the restarts look at. *)
Lemma replaces_potential b w w' st :
  Kids w → b ∈ all → unsettled r n op user w = [] → replaces b w w' →
  Kids w' ∧ unsettled r n op user w' = [] ∧
  (potential w' st + length (dueReplicas w) = potential w st + length (dueReplicas w'))%nat ∧
  length (listedSts w') = length (listedSts w).
Proof.
  intros HK Hb Hu Hre. pose proof (replaces_kids b w w' Hb HK Hre) as HK'.
  pose proof (replaces_unsettled_nil b w w' Hb Hu Hre) as Hu'. split_and!; [done|done| |by rw !settled_listed].
  unfold potential. rw Hu Hu' (replaces_endpoints b w w' Hre) (conditionsFit_same w w').
  - by rw !settled_listed.
  - by apply (replaces_endpoints b).
  - lia.
Qed.

Lemma ours_replica w sts : Kids w → ours r w sts → ∃ i, (0 ≤ i < n)%Z ∧ replica i w = Some sts.
Proof.
  intros HK Ho. destruct (kids_only _ HK sts Ho) as (i & Hi & Hk). exists i. split; [done|]. destruct Ho as [Hc _].
  by rw Hk in Hc.
Qed.

(** The keys of the replicas that have to be restarted. *)
Lemma dueIn_replicas w u :
  inRange u → Kids w → confMark w = Some (Format u) →
  dueIn r u w ((λ i, (builderTarget r (SB i)).2) <$> dueReplicas w).
Proof.
  intros Hu HK Hm. assert (∀ i sts, (0 ≤ i < n)%Z → replica i w = Some sts →
    dueAt w i = true ↔ listedFor r sts ∧ due u sts) as Hdue.
  { intros i sts Hi Hc. destruct (kids_sound _ HK (SB i) sts (proj1 (SB_all i) Hi) Hc) as (_ & [t Ht] & _).
    unfold dueAt. rw Hm Hc (due_restartedSince u Hu sts t Ht) andb_true_iff bool_decide_eq_true negb_true_iff. done. }
  split.
  - assert (Forall (λ i, 0 ≤ i < n)%Z (dueReplicas w)) as Hall.
    { apply Forall_forall. intros i Hi%list_elem_of_In%filter_In. destruct Hi as [Hi%list_elem_of_In%elem_of_seqZ _]. lia. }
    assert (NoDup (dueReplicas w)) as Hnd by (apply NoDup_ListNoDup, List.NoDup_filter, NoDup_ListNoDup, NoDup_seqZ).
    induction Hnd as [|i l Hi Hnd IH]; [constructor|]. apply Forall_cons in Hall as [Hr Hall].
    cbn [fmap list_fmap]. constructor; [|by apply IH]. intros (j & E & Hj)%list_elem_of_fmap.
    rw Forall_forall in Hall. apply Hi. by rw (SB_key_inj i j Hr (Hall j Hj) E).
  - intros key. rw list_elem_of_fmap. split.
    + intros (i & -> & Hi%list_elem_of_In%filter_In). destruct Hi as [Hi%list_elem_of_In%elem_of_seqZ Hd].
      assert (0 ≤ i < n)%Z as Hin by lia. destruct (replica i w) as [sts|] eqn:Hc.
      * apply (Hdue i sts Hin Hc) in Hd as [Hl Hd]. exists sts. split_and!; [by eapply replica_ours|done|by eapply replica_key].
      * exfalso. unfold dueAt in Hd. rw Hc in Hd. by destruct (confMark w).
    + intros (sts & Ho & Hd & <-). destruct (ours_replica w sts HK Ho) as (i & Hi & Hc). exists i.
      split; [by eapply replica_key|]. apply list_elem_of_In, filter_In. split; [apply list_elem_of_In, elem_of_seqZ; lia|].
      apply (Hdue i sts Hi Hc). split; [apply Ho|done].
Qed.

Lemma dueIn_length w u l l' : dueIn r u w l → dueIn r u w l' → length l = length l'.
Proof.
  intros [Hn Hl] [Hn' Hl']. apply Permutation_length, NoDup_Permutation; [done..|]. intros key. by rw Hl Hl'.
Qed.

(** A StatefulSet is restarted. *)
Lemma wellMarked_same m m' : om_Annotations m' = om_Annotations m → wellMarked m → wellMarked m'.
Proof. unfold wellMarked. by intros ->. Qed.

Lemma restarts_replaces w w' u sts :
  inRange u → Kids w → unsettled r n op user w = [] → ours r w sts → restarts u w w' sts →
  ∃ i, (0 ≤ i < n)%Z ∧ replaces (SB i) w w'.
Proof.
  intros Hu HK Hun Ho Hre. destruct (ours_replica w sts HK Ho) as (i & Hi & Hc). exists i. split; [done|].
  apply SB_all in Hi as Hb. destruct (kids_fixed w (SB i) HK Hun Hb) as (x & Hx & Ha & Haf).
  assert (x = sts) as -> by (change (child r (SB i) w) with (replica i w) in Hx; congruence).
  pose proof (replica_key i w sts Hc) as Hk. pose proof Hre as (now & sts' & Hr & Hlt & Has & [Hst _]).
  destruct (restartedAs_spec r u Hu _ _ _ Has Hr Hlt) as (Hk' & _ & Hs' & _).
  destruct (restamp_fixed r n HT op user Hop i sts (Format now) Hstamp Ha Haf) as [Ha2 Haf2].
  destruct (after_served r n HT op user Hop (SB i) (restamp (Format now) sts) sts' Ha2 Haf2 Has) as [Ha3 Haf3].
  destruct (kids_sound _ HK (SB i) sts Hb Hc) as (Hf & _ & Hl). split.
  - exists sts'. split_and!; [|exact Ha3|exact Haf3| |].
    + unfold child. rw -Hk -Hk'. exact Hst.
    + apply (wellMarked_same (sts_ObjectMeta sts)); [|exact (kids_marks _ HK (SB i) sts Hb Hc)].
      destruct Has as (m & (_ & _ & _ & Han & _) & ->). exact Han.
    + destruct Has as (m & Hm & ->). split_and!; [exact Hf|by eexists|]. intros _. apply Hl. apply Ho.
  - intros k key Hne. apply (restarts_others r u Hu w w' sts k key Hre). by rw Hk.
Qed.

Lemma restarts_potential w w' u st sts l :
  inRange u → Kids w → unsettled r n op user w = [] → confMark w = Some (Format u) →
  ours r w sts → restarts u w w' sts → dueIn r u w' l → length (dueReplicas w) = S (length l) →
  Kids w' ∧ (potential w' st < potential w st)%nat.
Proof.
  intros Hu HK Hun Hm Ho Hre Hl Hlen.
  destruct (restarts_replaces w w' u sts Hu HK Hun Ho Hre) as (i & Hi & Hrep).
  apply SB_all in Hi as Hb. destruct (replaces_potential (SB i) w w' st HK Hb Hun Hrep) as (HK' & _ & Hp & _).
  split; [done|]. assert (confMark w' = Some (Format u)) as Hm'.
  { rw -Hm !confMark_child (replaces_other (SB i) (ServerConfigMapBuilder true) w w') //. apply serverConf_all. }
  pose proof (dueIn_length w' u _ _ (dueIn_replicas w' u Hu HK' Hm') Hl) as Hd. rw length_fmap in Hd. lia.
Qed.

(** A mark is removed. *)
Lemma served_unmark {k} (o o' : Obj k) key key' :
  served (set_annotations (gm_delete key (annotations o)) o) o' →
  gm_lookup (annotations o') key' = if decide (key = key') then None else gm_lookup (annotations o) key'.
Proof.
  intros (m & (_ & _ & _ & Han & _) & ->). unfold annotations at 1. rw meta_set_meta Han meta_set_annotations.
  apply gm_lookup_delete.
Qed.

Lemma unmark_replaces b w w' o o' key :
  Kids w → unsettled r n op user w = [] → b ∈ all → child r b w = Some o → key ∈ markers →
  served (set_annotations (gm_delete key (annotations o)) o) o' → stored o' w w' → replaces b w w'.
Proof.
  intros HK Hun Hb Hc Hk Hsv [Hst Hother]. destruct (kids_fixed w b HK Hun Hb) as (x & Hx & Ha & Haf).
  rw Hx in Hc. injection Hc as ->. pose proof (child_key r b w o Hx) as Hkey.
  destruct (after_unmark r n HT op user Hop b o key Ha Haf Hk) as [Ha2 Haf2].
  destruct (after_served r n HT op user Hop b _ o' Ha2 Haf2 Hsv) as [Ha3 Haf3].
  assert (ObjectKeyFromObject o' = (builderTarget r b).2) as Hkey'.
  { rw (served_key _ _ Hsv) -Hkey. unfold ObjectKeyFromObject. by rw meta_set_annotations. }
  rw Hkey' in Hst Hother. split; [|exact Hother]. exists o'. split_and!; [exact Hst|done|done| |].
  - intros key' v Hk'. pose proof (served_unmark o o' key key' Hsv) as E. unfold annotations at 1 in E. rw E.
    case_decide; [done|]. by apply (kids_marks _ HK b o Hb Hx).
  - pose proof (kids_sound _ HK b o Hb Hx) as Hs. destruct Hsv as (m & Hm & ->). destruct b; try exact I.
    destruct Hs as (Hf & Ht & Hl). split_and!; [exact Hf|exact Ht|]. intros _. apply Hl. by eapply fixed_listed.
Qed.

(** It concerns neither the restarts nor the list. *)
Lemma unmark_potential b w w' st o o' key :
  Kids w → unsettled r n op user w = [] → b ∈ all → child r b w = Some o → key ∈ markers → key ≠ serverConfAnnotation →
  served (set_annotations (gm_delete key (annotations o)) o) o' → stored o' w w' →
  Kids w' ∧ unsettled r n op user w' = [] ∧ potential w' st = potential w st.
Proof.
  intros HK Hun Hb Hc Hk Hne Hsv Hst.
  pose proof (unmark_replaces b w w' o o' key HK Hun Hb Hc Hk Hsv Hst) as Hre.
  destruct (replaces_potential b w w' st HK Hb Hun Hre) as (HK' & Hun' & Hp & _). split_and!; [done|done|].
  enough (length (dueReplicas w') = length (dueReplicas w)) by lia.
  assert (ObjectKeyFromObject o' = (builderTarget r b).2) as Hkey'.
  { rw (served_key _ _ Hsv) -(child_key r b w o Hc). unfold ObjectKeyFromObject. by rw meta_set_annotations. }
  destruct Hst as [Hst _]. rw Hkey' in Hst. change (child r b w' = Some o') in Hst.
  apply counts_same.
  - rw !confMark_child. destruct (decide (ServerConfigMapBuilder true = b)) as [<-|Hb'].
    + rw Hst Hc (served_unmark o o' key _ Hsv). by rw decide_False.
    + by rw (replaces_other b _ w w' Hb serverConf_all Hb' Hre).
  - intros i Hi. apply SB_all in Hi as Hb'. unfold replica. destruct (decide (SB i = b)) as [<-|Hne'].
    + rw Hst Hc. destruct Hsv as (m & (_ & Hns & Hl & _) & ->). split; [|done]. unfold listedFor, carries, gm_lookup.
      cbn in Hns, Hl |- *. by rw Hns Hl.
    + rw (replaces_other b _ w w' Hb Hb' Hne' Hre). by destruct (child r (SB i) w).
Qed.

(** *** The status *)

(** The fields that [reconcileStatus] computes do not depend on the others. *)
Lemma fieldsFit_same st st' :
  rst_Replicas st' = rst_Replicas st → rst_Binding st' = rst_Binding st → rst_DefaultUser st' = rst_DefaultUser st →
  fieldsFit st' = fieldsFit st.
Proof.
  intros E1 E2 E3. assert (let f := statusOf n (revised "" st r) in let f' := statusOf n (revised "" st' r) in
    rst_Replicas f' = rst_Replicas f ∧ rst_Binding f' = rst_Binding f ∧ rst_DefaultUser f' = rst_DefaultUser f)
    as (F1 & F2 & F3).
  { cbv zeta. unfold statusOf. cbn [rmq_Status revised]. rw E1.
    destruct (rst_Replicas st <? n)%Z, (VaultDefaultUserSecretEnabled _); cbn; by rw ?E1 ?E2 ?E3. }
  unfold fieldsFit. by rw E1 E2 E3 F1 F2 F3.
Qed.

Lemma fieldsFit_fix st : fieldsFit st = true → statusOf n (revised "" st r) = st.
Proof.
  unfold fieldsFit. rw !andb_true_iff Z.eqb_eq !bool_decide_eq_true. intros [[E1 E2] E3].
  assert (∀ a b : RabbitmqClusterStatus, rst_Replicas a = rst_Replicas b → rst_Binding a = rst_Binding b →
    rst_DefaultUser a = rst_DefaultUser b → rst_Conditions a = rst_Conditions b →
    rst_ObservedGeneration a = rst_ObservedGeneration b → a = b) as Hext.
  { intros [] []; cbn. by intros -> -> -> -> ->. }
  apply Hext; try (by symmetry); unfold statusOf; cbn [rmq_Status revised];
    by destruct (_ <? _)%Z, (VaultDefaultUserSecretEnabled _).
Qed.

Lemma statusOf_fits st :
  let st' := statusOf n (revised "" st r) in
  fieldsFit st' = true ∧ rst_Conditions st' = rst_Conditions st ∧
  rst_Replicas st' = Z.max (rst_Replicas st) n.
Proof.
  cbv zeta. assert (rst_Replicas (statusOf n (revised "" st r)) = Z.max (rst_Replicas st) n ∧
    rst_Conditions (statusOf n (revised "" st r)) = rst_Conditions st) as [Hm Hc].
  { unfold statusOf. cbn [rmq_Status revised].
    destruct (Z.ltb_spec (rst_Replicas st) n), (VaultDefaultUserSecretEnabled _); cbn; split; try done; lia. }
  split_and!; [|done..]. unfold fieldsFit. rw !andb_true_iff Z.eqb_eq !bool_decide_eq_true Hm.
  assert (∀ s, (n ≤ rst_Replicas s)%Z → rst_Replicas (statusOf n (revised "" s r)) = rst_Replicas s) as ->.
  { intros s Hs. unfold statusOf. cbn [rmq_Status revised]. rw (proj2 (Z.ltb_ge (rst_Replicas s) n)) //.
    by destruct (VaultDefaultUserSecretEnabled _). }
  2: { rw Hm. lia. }
  split; [split; [by rw Hm|]|]; unfold statusOf; cbn [rmq_Status revised];
    change (VaultDefaultUserSecretEnabled (revised "" ?s r)) with (VaultDefaultUserSecretEnabled r);
    destruct (VaultDefaultUserSecretEnabled r), (rst_Replicas st <? n)%Z; cbn; try (by destruct (_ <? n)%Z); reflexivity.
Qed.

Lemma conditionsFit_conditions w st st' : rst_Conditions st' = rst_Conditions st → conditionsFit w st' = conditionsFit w st.
Proof.
  intros E. unfold conditionsFit. destruct (SetConditions 0 (expected w) st) as [s|] eqn:Es.
  - rw (SetConditions_conditions _ _ _ _ _ (eq_sym E) Es). apply SetConditions_inv in Es as (nw & _ & Hc & E1 & E2 & E3 & E4).
    apply bool_decide_ext. destruct s, st, st'. cbn in *. subst. split; [by intros [= ->]|by intros [= ->]].
  - destruct (SetConditions 0 (expected w) st') as [s'|] eqn:Es'; [|done].
    by rw (SetConditions_conditions _ _ _ _ _ E Es') in Es.
Qed.

(** The conditions fit exactly if computing them changes nothing, at whatever time. *)
Lemma conditionsFit_spec w st : conditionsFit w st = true ↔ ∀ now, SetConditions now (expected w) st = Returns st.
Proof.
  unfold conditionsFit. split.
  - destruct (SetConditions 0 _ st) as [s|] eqn:Es; [|done]. intros ->%bool_decide_eq_true now.
    exact (SetConditions_idempotent 0 now (expected w) st st Es).
  - intros ->. by rw bool_decide_eq_true_2.
Qed.

Lemma conditionsFit_now w st now st' :
  SetConditions now (expected w) st = Returns st' →
  conditionsFit w st' = true ∧ (conditionsFit w st = true ↔ rst_Conditions st = rst_Conditions st').
Proof.
  intros E. assert (conditionsFit w st' = true) as Hf.
  { apply conditionsFit_spec. intros now'. by eapply SetConditions_idempotent. }
  split; [done|]. split.
  - intros Hs. rw conditionsFit_spec in Hs. rw Hs in E. by injection E as <-.
  - intros Hc. by rw (conditionsFit_conditions w st' st Hc).
Qed.

(** *** The conditions of ready StatefulSets *)

Lemma sample_warns : memoryDiffers sample = Returns (warns r).
Proof. destruct (tidy_resources _ _ HT) as [res Hres]. unfold memoryDiffers, warns, sample. cbn. by rw Hres. Qed.

Lemma listed_sound w stss :
  Kids w → stss ≡ₚ listedSts w → Forall (λ sts, ours r w sts ∧ is_Some (stss_Replicas (sts_Spec sts)) ∧ memoryDiffers sts = Returns (warns r)) stss.
Proof.
  intros HK Hperm. apply Forall_forall. intros sts Hs.
  assert (ours r w sts) as Ho by (apply listedSts_elem; [done|]; by rw -Hperm). split; [done|].
  destruct (ours_replica w sts HK Ho) as (i & Hi & Hc).
  destruct (kids_sound _ HK (SB i) sts (proj1 (SB_all i) Hi) Hc) as (_ & _ & Hl). apply Hl, Ho.
Qed.

(** They can be computed from whatever is listed. *)
Lemma listed_total w stss ep now st :
  Kids w → stss ≡ₚ listedSts w →
  childResources n stss ep = Returns (slots (Z.to_nat n) stss ep) ∧
  ∃ st', SetConditions now (slots (Z.to_nat n) stss ep) st = Returns st'.
Proof.
  intros HK Hperm. pose proof (Permutation_length Hperm) as Hlen. pose proof (listedSts_most w) as Hmost. split.
  - rw childResources_eq (proj2 (Nat.leb_le _ _)) //. lia.
  - apply SetConditions_total. intros sts Hin. exists (warns r). unfold slots in Hin.
    rw !elem_of_app list_elem_of_fmap in Hin. destruct Hin as [(x & [= ->] & Hx)|[Hin|Hin]].
    + pose proof (listed_sound w stss HK Hperm) as Hall. rw Forall_forall in Hall. by destruct (Hall x Hx) as (_ & _ & ?).
    + by apply elem_of_replicate in Hin as [[=] _].
    + destruct (_ <=? _)%nat; [|by apply elem_of_nil in Hin]. by apply list_elem_of_singleton in Hin.
Qed.

Lemma listed_expected w stss ep now st :
  Kids w → allReadyIn r w → stss ≡ₚ listedSts w → (is_Some ep ↔ hasEndpoints w = true) →
  SetConditions now (slots (Z.to_nat n) stss ep) st = SetConditions now (expected w) st.
Proof.
  intros HK Hready Hperm Hep. apply SetConditions_alike. unfold expected. apply slots_alike.
  - rw -(Permutation_length Hperm). pose proof (listed_sound w stss HK Hperm) as Hall. clear Hperm.
    induction Hall as [|sts stss (Ho & Hrep & Hm) _ IH]; cbn [length replicate]; [constructor|].
    constructor; [|done]. destruct (Hready sts Ho) as [_ Hr]. cbn [alike].
    split_and!; [by rw Hm sample_warns| |done]. unfold desiredReplicas. by rw Hr.
  - rw Hep. destruct (hasEndpoints w); split; first [done|by intros _; eexists|by intros []].
Qed.
End progress.
