(* ===== verification/Unreported.v ===== *)
(** What a rollout does when it is called again before anybody has reported:
    readiness is read from the status of the StatefulSets alone, and writing a
    StatefulSet leaves its status as it was. *)

From S2P Require Import Prelude GoStd K8s V1beta1 Kube Builders Trace Result.
From S2P Require Import ServerConf Sts ControllerUtils Resources Store Tame Converge.
From S2P Require Import Cleanup Queue Replicas.

Section unreported.
Context {W : Type} `{!Kube W, !Library, !Store W, !StoreLaws W, !RemovalLaws W} (r : RabbitmqCluster) (n : Z).
Context (op user : string).
Context (HT : Tidy r n) (Hconf : renderConf r n = inr (op, user)) (Hop : readable op).
Context (Hrefl : ∀ k (o : Obj k), SemanticDeepEqual k o o = true).
Implicit Types (w : W).
Abbreviation SB := StatefulSetBuilder.
Abbreviation queue := (unsettled r n op user).

(** The pods of a StatefulSet that the operator asks for. *)
Definition desiredReplicas : Z := if rs_Disable (rmq_Spec r) then 0%Z else 1%Z.

(** The status says that this many are ready and up to date. *)
Definition reportsReady (sts : StatefulSet) : Prop :=
  stst_CurrentRevision (sts_Status sts) = stst_UpdateRevision (sts_Status sts) ∧
  stst_ReadyReplicas (sts_Status sts) = desiredReplicas.

(** The children that have to be written are StatefulSets that exist and report
    that they are ready. *)
Definition rollsOut w : Prop := Forall (λ b, match b with
  | StatefulSetBuilder i => ∃ sts, child r (StatefulSetBuilder i) w = Some sts ∧ reportsReady sts
  | _ => False
  end) (queue w).

(** Nobody has written a status of a StatefulSet. *)
Definition sameReports w w' : Prop := ∀ key,
  sts_Status <$> contents w' KStatefulSet key = sts_Status <$> contents w KStatefulSet key.

(** [inSuccession k w w']: [k] reconciliations of the children, one right after
    the other, each of which has written something. *)
Inductive inSuccession : nat → W → W → Prop :=
  | inSuccession_none w : inSuccession 0 w w
  | inSuccession_next k w w1 l s : inSuccession k w w1 →
      reconcileResources (mkOp r (w1, l)) = (Returns Done, s) → inSuccession (S k) w (op_world s).1.

(** *** Lemmas *)

Lemma after_replicas i (o : StatefulSet) :
  acceptable r (SB i) o → stss_Replicas (sts_Spec (after r op user (SB i) o : StatefulSet)) = Some desiredReplicas.
Proof.
  intros Ha. destruct (after_stsRest r n HT op user Hop i o Ha) as (spec & E & Es & _).
  unfold generatedSpec, mbind, outcome_bind in E. destruct (podTemplateSpec r _); [|done].
  destruct (persistentVolumeClaims r _); [|done]. injection E as <-. exact (f_equal stss_Replicas Es).
Qed.

(** The StatefulSet that is written reports what it has reported. *)
Lemma settles_status i w w' (e : StatefulSet) :
  settles r op user (SB i) w w' → child r (SB i) w = Some e → ∃ o : StatefulSet, child r (SB i) w' = Some o ∧
  sts_Status o = sts_Status e ∧ stss_Replicas (sts_Spec o) = Some desiredReplicas.
Proof.
  intros [(o & Ho & _ & _ & o0 & m & He & Ha & Eo & _) _] Hc. rw Hc in He. subst o0 o. eexists. split; [exact Ho|].
  split; [exact (after_keeps_status r op user i e)|exact (after_replicas i e Ha)].
Qed.

Lemma settles_reports i w w' (e : StatefulSet) :
  settles r op user (SB i) w w' → child r (SB i) w = Some e → sameReports w w'.
Proof.
  intros Hset Hc key. destruct (decide ((KStatefulSet, key) = builderTarget r (SB i))) as [E|Hne].
  - destruct (settles_status i w w' e Hset Hc) as (o & Ho & Hst & _).
    assert (key = (builderTarget r (SB i)).2) as -> by (by rw -E).
    unfold child in Hc, Ho. cbn [builderKind] in *. rw Hc Ho. cbn. by rw Hst.
  - destruct Hset as [_ Hother]. by rw Hother.
Qed.

(** So that the operator takes it for ready. *)
Lemma settles_ready i w w' (e : StatefulSet) :
  settles r op user (SB i) w w' → child r (SB i) w = Some e → reportsReady e → allReadyIn r w → allReadyIn r w'.
Proof.
  intros Hset Hc [Hrev Hrep] Hready sts [Hs Hl].
  destruct (decide ((KStatefulSet, stsKeyOf sts) = builderTarget r (SB i))) as [E|Hne].
  - destruct (settles_status i w w' e Hset Hc) as (o & Ho & Hst & Hspec).
    assert (o = sts) as ->.
    { assert (stsKeyOf sts = (builderTarget r (SB i)).2) as Ek by (by rw -E).
      unfold child in Ho. cbn [builderKind] in Ho. rw -Ek Hs in Ho. by injection Ho. }
    rw Hst Hspec Hrep. done.
  - apply Hready. split; [|done]. destruct Hset as [_ Hother]. by rw -Hother.
Qed.

Lemma rollsOut_next b rest w w' :
  queue w = b :: rest → rollsOut w → settles r op user b w w' → queue w' = rest → rollsOut w'.
Proof.
  intros Hq Hr Hset Hq'. unfold rollsOut in *. rw Hq in Hr. rw Hq'. apply Forall_cons in Hr as [_ Hr].
  assert (b ∈ all r n ∧ ∀ b', b' ∈ rest → b' ∈ all r n ∧ b' ≠ b) as [Hb Hrest].
  { assert (∀ b', b' ∈ queue w → b' ∈ all r n) as Hin.
    { intros b' Hx. apply list_elem_of_In, filter_In in Hx as [Hx _]. by apply list_elem_of_In. }
    assert (NoDup (queue w)) as Hnd by (apply NoDup_ListNoDup, List.NoDup_filter, NoDup_ListNoDup, ResourceBuilders_NoDup).
    rw Hq in Hin Hnd. apply NoDup_cons in Hnd as [Hni _]. split; [apply Hin, list_elem_of_here|].
    intros b' Hb'. split; [by apply Hin, list_elem_of_further|]. by intros ->. }
  apply Forall_forall. intros b' Hb'. rw Forall_forall in Hr. specialize (Hr b' Hb'). destruct (Hrest b' Hb') as [Hall Hne].
  destruct b'; try done. destruct Hr as (sts & Hc & Hrd). exists sts. split; [|done]. rw -Hc. by apply (settles_other r n op user b).
Qed.

(** One more call, before anybody has reported. *)
Lemma unreported_round w l b rest :
  Forall (good r w) (ResourceBuilders n r) → allReadyIn r w → rollsOut w → queue w = b :: rest →
  ∃ s, reconcileResources (mkOp r (w, l)) = (Returns Done, s) ∧
  let w' := (op_world s).1 in
  Forall (good r w') (ResourceBuilders n r) ∧ allReadyIn r w' ∧ rollsOut w' ∧ queue w' = rest ∧ sameReports w w' ∧
  child r b w' ≠ child r b w ∧ ∀ b', b' ∈ all r n → b' ≠ b → child r b' w' = child r b' w.
Proof.
  intros Hg Hready Hr Hq. assert (b ∈ queue w) as Hbq by (rw Hq; apply list_elem_of_here).
  assert (b ∈ all r n ∧ quiet r op user w b = false) as [Hb Hquiet].
  { apply list_elem_of_In, filter_In in Hbq as [Hx Hn]. split; [by apply list_elem_of_In|by apply negb_true_iff]. }
  assert (∃ i sts, b = SB i ∧ child r (SB i) w = Some sts ∧ reportsReady sts) as (i & e & -> & Hc & Hrd).
  { unfold rollsOut in Hr. rw Forall_forall in Hr. specialize (Hr b Hbq). destruct b; try done.
    destruct Hr as (sts & ? & ?). by eexists _, sts. }
  assert (defaulted r w) as Hdef by (intros sts Ho; destruct (Hready sts Ho) as [_ ->]; by eexists).
  assert (wp r reconcileResources w (λ res w' _, res = Done ∧ settles r op user (SB i) w w')) as Hwp.
  { unfold reconcileResources. apply wp_bind. eapply wp_mono; [by apply (wp_waitResourceReady r)|].
    intros res w1 c (Hs1 & -> & ready & Hiff & ->). rw (proj2 Hiff Hready). cbn [Completed app].
    apply wp_bind, wp_rmq. cbn beta. apply wp_bind. unfold deref. rw (tidy_replicas _ _ HT). apply wp_ret. cbn [app].
    assert (Forall (good r w1) (ResourceBuilders n r)) as Hg1.
    { eapply Forall_impl; [exact Hg|]. intros b. by apply good_same. }
    assert (queue w1 = queue w) as Hq1.
    { apply (sameChildren_unsettled r n op user w w1). apply Forall_forall. intros b _. by apply child_same. }
    intros l1. destruct (round_answer r n HT op user Hconf Hop w1 l1 Hg1) as (w2 & c & E & HQ). rw Hq1 Hq in E HQ.
    eexists Done, w2, c. split; [exact E|]. split; [done|]. eapply settles_first; [exact Hs1|apply HQ]. }
  destruct (Hwp l) as (res & w' & c & E & -> & Hset). eexists. split; [exact E|]. cbn [op_world fst].
  assert (queue w' = rest) as Hq' by exact (settles_unsettled r n op user Hrefl _ w w' rest (ResourceBuilders_NoDup n r) Hq Hset).
  split_and!.
  - by apply (settles_good r n op user (SB i) w w').
  - by apply (settles_ready i w w' e).
  - by eapply (rollsOut_next (SB i) rest w w').
  - done.
  - by eapply settles_reports.
  - intros Esame. pose proof (settles_quiet r op user Hrefl (SB i) w w' Hset) as Hqt. unfold quiet in Hqt, Hquiet.
    rw Esame in Hqt. congruence.
  - intros b' Hb' Hne. by apply (settles_other r n op user (SB i)).
Qed.
End unreported.

(** ** Property *)

Section property.
Context {W : Type} `{!Kube W, !Library, !Store W, !StoreLaws W, !RemovalLaws W} (r : RabbitmqCluster) (n : Z).
Context (op user : string).
Abbreviation queue := (unsettled r n op user).

(** C10: the operator does not wait for the StatefulSets to report what it has
    done to them.  Whether the replicas are ready it reads from the status of
    the StatefulSets alone, and does not look at the generation the status is
    about.  On a server that stores what it is sent, for a cluster without an
    override, whose configuration renders, let all StatefulSets report that they
    are ready, and let the children still to be written be StatefulSets that
    exist, in any number.  Then reconciliations of the children that follow one
    another before anybody has reported write one of them each, in order, until
    all have been written: after [k] of them [k] StatefulSets differ from what
    they were, the others and every status are as they were, and the operator
    still takes all of them for ready.  So where it is the pod template that
    changes, all replicas can be replaced at a time. *)
Theorem unreported_rollout (w : W) (k : nat) :
  Tidy r n → renderConf r n = inr (op, user) → readable op → (∀ k (o : Obj k), SemanticDeepEqual k o o = true) →
  Forall (good r w) (ResourceBuilders n r) → allReadyIn r w → rollsOut r n op user w → (k ≤ length (queue w))%nat →
  ∃ w', inSuccession r k w w' ∧ queue w' = drop k (queue w) ∧ allReadyIn r w' ∧ sameReports w w' ∧
  ∀ b, b ∈ ResourceBuilders n r → (child r b w' ≠ child r b w ↔ b ∈ take k (queue w)).
Proof.
  intros HT Hconf Hop Hrefl Hg Hready Hr Hk.
  assert (∃ w', inSuccession r k w w' ∧ Forall (good r w') (ResourceBuilders n r) ∧ rollsOut r n op user w' ∧
    queue w' = drop k (queue w) ∧ allReadyIn r w' ∧ sameReports w w' ∧
    ∀ b, b ∈ ResourceBuilders n r → (child r b w' ≠ child r b w ↔ b ∈ take k (queue w)))
    as (w' & ? & _ & _ & ? & ? & ? & ?); [|by exists w'].
  induction k as [|k IH].
  { exists w. split_and!; try done; [constructor|]. intros b _. split; [done|]. by intros ?%elem_of_nil. }
  destruct IH as (w1 & Hin & Hg1 & Hr1 & Hq1 & Hready1 & Hrep1 & Hch1); [lia|].
  destruct (lookup_lt_is_Some_2 (queue w) k) as [b Hb]; [lia|].
  pose proof (drop_S _ _ _ Hb) as Hd. rw Hd in Hq1.
  destruct (unreported_round r n op user HT Hconf Hop Hrefl w1 [] b _ Hg1 Hready1 Hr1 Hq1)
    as (s & E & Hg2 & Hready2 & Hr2 & Hq2 & Hrep2 & Hne & Hother).
  exists (op_world s).1. split_and!; [by econstructor|done..| |].
  { intros key. by rw Hrep2. }
  assert (NoDup (queue w)) as Hnd by (apply NoDup_ListNoDup, List.NoDup_filter, NoDup_ListNoDup, ResourceBuilders_NoDup).
  assert (b ∉ take k (queue w)) as Hni.
  { intros (j & Hj)%list_elem_of_lookup. pose proof Hj as Hlt%lookup_lt_Some. rw length_take in Hlt.
    rw lookup_take_lt in Hj; [lia|]. pose proof (NoDup_lookup _ _ _ _ Hnd Hj Hb). lia. }
  intros b' Hb'. rw (take_S_r _ _ _ Hb) elem_of_app list_elem_of_singleton -(Hch1 b' Hb').
  destruct (decide (b' = b)) as [->|Hbb].
  - split; [by right|]. intros _. assert (child r b w1 = child r b w) as <-; [|done].
    apply dec_stable. by rw (Hch1 b Hb').
  - rw (Hother b' Hb' Hbb). naive_solver.
Qed.
End property.
