(* ===== verification/Settled.v ===== *)
(** A cluster that is as it should be: what a reconciliation finds there, and
    that it then does nothing. *)

From S2P Require Import Prelude GoStd K8s V1beta1 Constant Metadata Kube Controllerutil.
From S2P Require Import Builder Secrets Sts Builders Trace Result Status Scaling.
From S2P Require Import ControllerUtils Configurations Resources Steps Deletion Cli Reconcile.

(** ** A world that nobody else changes *)

(** Reads answer the same in all worlds of [I], and they, the clock and the
    source of randomness lead from worlds of [I] to worlds of [I]. *)
Record Undisturbed {W : Type} `{!Kube W} (I : W → Prop) : Prop := {
  un_get k key w w' : I w → I w' → (kGet k key w).1 = (kGet k key w').1 ∧ I (kGet k key w).2;
  un_list k ns labels w w' : I w → I w' →
    (kList k ns labels w).1 = (kList k ns labels w').1 ∧ I (kList k ns labels w).2;
  un_reader k key w w' : I w → I w' → (kReaderGet k key w).1 = (kReaderGet k key w').1 ∧ I (kReaderGet k key w).2;
  un_clientset k key w w' : I w → I w' → (csGet k key w).1 = (csGet k key w').1 ∧ I (csGet k key w).2;
  un_now w : I w → I (kNow w).2;
  un_random n w : I w → I (kRandRead n w).2 ∧ ∃ bytes, (kRandRead n w).1 = inr bytes ∧ String.length bytes = n
}.

Section still.
Context {W : Type} `{!Kube W} (I : W → Prop) (r : RabbitmqCluster).
Abbreviation TW := (W * list Call)%type.

(** The computation returns a value of [Q], calls nothing that changes
    anything, and leaves the cluster object as it is. *)
Definition still {A} (m : Run TW A) (Q : A → Prop) : Prop :=
  ∀ w l, I w → ∃ a w', m (mkOp r (w, l)) = (Returns a, mkOp r (w', l)) ∧ I w' ∧ Q a.

Lemma still_mono {A} (m : Run TW A) (Q Q' : A → Prop) : still m Q → (∀ a, Q a → Q' a) → still m Q'.
Proof. intros Hm HQ w l Hw. destruct (Hm w l Hw) as (a & w' & E & Hw' & Ha). eauto 10. Qed.

Lemma still_ret {A} (a : A) (Q : A → Prop) : Q a → still (mret a) Q.
Proof. intros HQ w l Hw. by exists a, w. Qed.

Lemma still_bind {A B} (m : Run TW A) (f : A → Run TW B) (P : A → Prop) (Q : B → Prop) :
  still m P → (∀ a, P a → still (f a) Q) → still (m ≫= f) Q.
Proof.
  intros Hm Hf w l Hw. destruct (Hm w l Hw) as (a & w1 & E1 & Hw1 & Ha).
  destruct (Hf a Ha w1 l Hw1) as (b & w2 & E2 & Hw2 & Hb).
  exists b, w2. rw (M_bind_eq _ _ _ _ _ E1). eauto.
Qed.

Lemma still_seq {A B} (m : Run TW A) (f : A → Run TW B) (Q : B → Prop) :
  still m (λ a, still (f a) Q) → still (m ≫= f) Q.
Proof. intros Hm. by eapply still_bind. Qed.

Lemma still_lift {A} (o : outcome A) a (Q : A → Prop) : o = Returns a → Q a → still (lift o) Q.
Proof. intros -> HQ w l Hw. by exists a, w. Qed.

Lemma still_deref {A} (p : option A) a (Q : A → Prop) : p = Some a → Q a → still (deref p) Q.
Proof. intros ->. apply still_ret. Qed.

Lemma still_rmq (Q : RabbitmqCluster → Prop) : Q r → still rmq Q.
Proof. intros HQ w l Hw. by exists r, w. Qed.

Lemma still_set_rmq r' (Q : unit → Prop) : r' = r → Q tt → still (set_rmq r') Q.
Proof. intros -> HQ w l Hw. by exists tt, w. Qed.

Lemma still_mod_rmq f (Q : unit → Prop) : f r = r → Q tt → still (mod_rmq f) Q.
Proof. intros Hf HQ w l Hw. exists tt, w. split; [|done]. by rw /mod_rmq /modify /= Hf. Qed.

Lemma still_unlogged {A} (f : Ext W A) (Q : A → Prop) :
  (∀ w, I w → I (f w).2 ∧ Q (f w).1) → still (ext (unlogged f)) Q.
Proof.
  intros Hf w l Hw. destruct (Hf w Hw) as [Hw' HQ]. exists (f w).1, (f w).2. split; [|done].
  rw /ext /unlogged /=. by destruct (f w).
Qed.

Context (HI : Undisturbed I) (w0 : W) (Hw0 : I w0).

Lemma still_get k key (Q : result (Obj k) → Prop) : Q (kGet k key w0).1 → still (ext (kGet k key)) Q.
Proof. intros HQ. apply still_unlogged. intros w Hw. by destruct (un_get I HI k key w w0 Hw Hw0) as [-> ?]. Qed.

Lemma still_reader k key (Q : result (Obj k) → Prop) :
  Q (kReaderGet k key w0).1 → still (ext (kReaderGet k key)) Q.
Proof. intros HQ. apply still_unlogged. intros w Hw. by destruct (un_reader I HI k key w w0 Hw Hw0) as [-> ?]. Qed.

Lemma still_clientset k key (Q : result (Obj k) → Prop) : Q (csGet k key w0).1 → still (ext (csGet k key)) Q.
Proof. intros HQ. apply still_unlogged. intros w Hw. by destruct (un_clientset I HI k key w w0 Hw Hw0) as [-> ?]. Qed.

Lemma still_now (Q : Z → Prop) : (∀ now, Q now) → still (ext kNow) Q.
Proof. intros HQ. apply still_unlogged. intros w Hw. split; [by eapply un_now|apply HQ]. Qed.

Lemma still_statefulSets (Q : result (list StatefulSet) → Prop) :
  Q (kList KStatefulSet (Some (rmq_Namespace r)) (Metadata.LabelSelector (rmq_Name r)) w0).1 →
  still statefulSets Q.
Proof.
  intros HQ. unfold statefulSets. apply still_seq, still_rmq, still_unlogged. intros w Hw.
  destruct (un_list I HI KStatefulSet (Some (rmq_Namespace r)) (Metadata.LabelSelector (rmq_Name r))
    w w0 Hw Hw0) as [E Hw']. split; [exact Hw'|]. exact (eq_ind_r Q HQ E).
Qed.

Lemma still_random n (Q : result string → Prop) :
  (∀ bytes, String.length bytes = n → Q (inr (EncodeToString bytes))) → still (randomEncodedString n) Q.
Proof.
  intros HQ. unfold randomEncodedString. apply still_seq, still_unlogged. intros w Hw.
  destruct (un_random I HI n w Hw) as (Hw' & bytes & -> & Hb). split; [done|]. apply still_ret. by apply HQ.
Qed.

(** ** The children *)

Context `{!Library}.

(** A child that exists, that the builder's update leaves as it is, and whose
    volumes have the capacity they should have. *)
Record upToDate (b : ResourceBuilder) : Prop := {
  up_build : match b with
             | DefaultUserSecretBuilder => ∀ username password, ∃ conf,
                 generateDefaultUserConf username password = inr conf
             | StatefulSetBuilder i => ∃ sts found, StatefulSet_Build r i = ok sts ∧
                 (csGet (W := W) KStatefulSet (ObjectKeyFromObject (k := KStatefulSet) sts) w0).1 = inr found ∧
                 templateCapacity c_PVCName (stss_VolumeClaimTemplates (sts_Spec found)) =
                 persistenceStorageCapacity c_PVCName (stss_VolumeClaimTemplates (sts_Spec sts))
             | _ => True
             end;
  up_update : ∃ (existing : Obj (builderKind b)),
    (kGet (W := W) (builderKind b) (builderTarget r b).2 w0).1 = inr existing ∧
    (∀ s : Op TW, op_rmq s = r → ∃ b',
       Update b (existT (builderKind b) existing) s = (Returns (inr (existT (builderKind b) existing), b'), s)) ∧
    SemanticDeepEqual (builderKind b) existing existing = true
}.

(** What is built, apart from its place. *)
Definition builtAs (b : ResourceBuilder) (o : Object) : Prop :=
  match b with
  | StatefulSetBuilder i => ∃ sts, StatefulSet_Build r i = ok sts ∧ o = existT KStatefulSet sts
  | _ => projT1 o ≠ KStatefulSet
  end.

Lemma still_Build_object b : upToDate b → still (Build b) (λ x, ∃ o, x = inr o ∧ builtAs b o).
Proof.
  intros [Hb _]. destruct b; cbn [Build]; try (apply still_seq, still_rmq, still_ret; by eexists).
  - unfold ErlangCookie_Build. do 2 apply still_seq. apply still_random. intros bytes _.
    apply still_seq, still_rmq. cbn beta iota. apply still_ret, still_ret. by eexists.
  - unfold DefaultUserSecret_Build, generateUsername. do 3 apply still_seq. apply still_random.
    intros bytes Hlen. cbn beta iota. apply still_seq.
    assert (∃ u, usernameOf (EncodeToString bytes) = Returns u) as [u Eu].
    { unfold usernameOf, slicePrefix. rw EncodeToString_length Hlen. by eexists. }
    eapply still_lift; [exact Eu|]. apply still_ret. cbn beta iota. apply still_seq, still_random.
    intros bytes2 _. cbn beta iota. destruct (Hb u (EncodeToString bytes2)) as [conf ->]. cbn beta iota.
    apply still_seq, still_rmq. apply still_seq. eapply still_lift; [reflexivity|]. apply still_ret, still_ret. by eexists.
  - destruct Hb as (sts & _ & E & _). apply still_seq, still_rmq, still_seq.
    eapply still_lift; [exact E|]. apply still_ret. eexists. split; [reflexivity|]. by exists sts.
Qed.

Lemma still_Build b :
  upToDate b → still (Build b) (λ x, ∃ o, x = inr o ∧ builtAs b o ∧ objTarget o = builderTarget r b).
Proof.
  intros Hb w l Hw. destruct (still_Build_object b Hb w l Hw) as (x & w' & E & Hw' & o & -> & Ho).
  exists (inr o), w'. split; [done|]. split; [done|]. exists o. split_and!; [done..|].
  destruct (Build_built _ _ _ _ E) as [[Hk Hm] _]. destruct o as [k x]. simpl in Hk, Hm. subst k.
  by rw /objTarget /ObjectKeyFromObject /= Hm.
Qed.

Lemma still_reconcilePVCOf b o :
  upToDate b → builtAs b o → still (reconcilePVCOf o) (λ res, res = Continue).
Proof.
  intros [Hb _] Ho. destruct b; cbn [builtAs] in Ho; try (destruct o as [[] o]; (by apply still_ret) || done).
  destruct Ho as (sts & Ests & ->). destruct Hb as (sts' & found & E' & Hfound & Hcap).
  rw Ests in E'. injection E' as <-. unfold reconcilePVCOf, reconcilePVC, Scale, existingCapacity, getStatefulset.
  do 3 apply still_seq. apply (still_clientset KStatefulSet). rw Hfound. cbn beta iota. apply still_ret. cbn beta iota.
  assert (∀ q, Cmp q q = 0%Z) as Hrefl by (intros q; by rw /Cmp Z.compare_refl).
  rw Hcap Hrefl Z.eqb_refl. by apply still_ret, still_ret.
Qed.

Lemma still_assertKind k (o : Obj k) (Q : Obj k → Prop) : Q o → still (assertKind k (existT k o)) Q.
Proof. intros HQ w l Hw. exists o, w. by rw assertKind_self. Qed.

Context `{!GetLaw W}.

Lemma get_key_fst k key (o : Obj k) w : (kGet (W := W) k key w).1 = inr o → ObjectKeyFromObject o = key.
Proof. destruct (kGet k key w) as [x w'] eqn:E. simpl. intros ->. by eapply get_key. Qed.

Lemma still_CreateOrUpdate b o :
  upToDate b → objTarget o = builderTarget r b →
  still (CreateOrUpdate b o) (λ x, ∃ v, x = (v, None) ∧ v_result v = OperationResultNone).
Proof.
  intros [_ (existing & Hget & Hupd & Heq)] Ht. destruct o as [k obj]. injection Ht as Hk Hns Hname. subst k.
  unfold CreateOrUpdate, CreateOrUpdateObj. cbn [projT1 projT2]. apply still_seq, still_get.
  replace (ObjectKeyFromObject obj) with (builderTarget r b).2
    by (unfold ObjectKeyFromObject, builderTarget; cbn; congruence).
  rw Hget. cbn beta iota. apply still_seq. unfold mutate. apply still_seq.
  intros w l Hw. destruct (Hupd (mkOp r (w, l)) eq_refl) as [b' Hb'].
  exists (inr (existT (builderKind b) existing), b'), w. split; [done|]. split; [done|].
  cbn [fst snd]. apply still_seq, still_assertKind. rw (get_key_fst _ _ _ _ Hget).
  rw bool_decide_eq_false_2; [by intros []|]. apply still_ret. cbn [fst snd]. rw Heq.
  apply still_ret. by eexists.
Qed.

Lemma still_attempts b o :
  upToDate b → objTarget o = builderTarget r b →
  still (withLocal (mkVars o b OperationResultNone) (RetryOnConflict attempt))
    (λ x, ∃ v, x = (None, v) ∧ v_result v = OperationResultNone).
Proof.
  intros Hb Ht w l Hw. destruct (still_CreateOrUpdate b o Hb Ht w l Hw) as (x & w' & E & Hw' & v & -> & Hv).
  assert (attempt (mkOp r (w, l), mkVars o b OperationResultNone) = (Returns None, (mkOp r (w', l), v))) as Ha.
  { unfold attempt, mbind, M_bind, local, outer. cbn [fst snd v_builder v_object]. by rw E. }
  exists (None, v), w'. split; [|by eauto]. unfold withLocal, RetryOnConflict, OnError, DefaultRetrySteps.
  by rw (OnErrorSteps_ok _ _ _ _ _ _ Ha).
Qed.

Lemma annotationTarget_none b : annotationTarget r b OperationResultNone = None.
Proof. by destruct b. Qed.

Lemma still_reconcileBuilder b : upToDate b → still (reconcileBuilder b) (λ res, res = Continue).
Proof.
  intros Hb. unfold reconcileBuilder. eapply still_bind; [by apply still_Build|].
  intros x (o & -> & Ho & Ht). cbn beta iota. eapply still_bind; [by eapply still_reconcilePVCOf|].
  intros res ->. cbn [Completed]. eapply still_bind; [by apply still_attempts|].
  intros x (v & -> & Hv). cbn beta iota. rw Hv.
  unfold logAndRecordOperationResult. apply still_seq. apply still_ret. cbn beta iota.
  apply still_seq. unfold annotateIfNeeded. apply still_seq, still_rmq. rw annotationTarget_none.
  by apply still_ret, still_ret.
Qed.

Lemma still_reconcileBuilders bs :
  Forall upToDate bs → still (reconcileBuilders bs) (λ res, res = Continue).
Proof.
  induction 1 as [|b bs Hb _ IH]; [by apply still_ret|]. cbn [reconcileBuilders].
  eapply still_bind; [by apply still_reconcileBuilder|]. by intros res ->.
Qed.

(** ** The cluster *)

Definition readChild (k : Kind) (suffix : string) : result (Obj k) :=
  (kGet k (mkNamespacedName (rmq_Namespace r) (ChildResourceName r suffix)) w0).1.

Definition readSecret (name : string) : result Secret :=
  (kReaderGet KSecret (mkNamespacedName (rmq_Namespace r) name) w0).1.

(** The secrets TLS needs are there, with their keys. *)
Definition tlsReady : Prop :=
  (DisableNonTLSListeners r = true → TLSEnabled r = true) ∧
  (SecretTLSEnabled r = true → ∃ secret, readSecret (tls_SecretName (rs_TLS (rmq_Spec r))) = inr secret ∧
     hasKey secret "tls.crt" = true ∧ hasKey secret "tls.key" = true ∧
     (MutualTLSEnabled r = true → ∃ ca,
        (if SingleTLSSecret r then ca = secret
         else readSecret (tls_CaSecretName (rs_TLS (rmq_Spec r))) = inr ca) ∧
        hasKey ca "ca.crt" = true)).

(** The conditions are those that the children give, at any time. *)
Definition conditionsCurrent (replicas : Z) (stss : list StatefulSet) : Prop :=
  ∃ resources, childrenFrom (inr stss) (readChild KEndpoints ResourceClientServiceSuffix) (Some replicas) =
    Returns (inr resources) ∧
  ∀ now, SetConditions now resources (rmq_Status r) = Returns (rmq_Status r).

(** No StatefulSet has to be restarted for the server configuration. *)
Definition restartsDone (stss : list StatefulSet) : Prop :=
  match readChild KConfigMap ResourceServerConfigMapSuffix with
  | inl err => errIsNotFound err = true
  | inr conf =>
      match gm_lookup (annotations (k := KConfigMap) conf) serverConfAnnotation with
      | None => True
      | Some updatedAt => Forall (λ sts, restartedSince updatedAt sts = true) stss
      end
  end.

(** No annotation asks for a command. *)
Definition commandsDone (stss : list StatefulSet) : Prop :=
  (∃ cm : ConfigMap, readChild KConfigMap ResourcePluginConfigMapSuffix = inr cm ∧ pluginsConfigUpdated cm = false) ∧
  Forall (λ sts, statefulsetCreated sts = false) stss ∧ needQueueRebalance r = false.

Context (d : Defaults).

Record Settled (stss : list StatefulSet) : Prop := {
  set_before : settled d r;
  set_replicas : rs_Replicas (rmq_Spec r) = Some (Z.of_nat (length stss));
  set_listed : (kList (W := W) KStatefulSet (Some (rmq_Namespace r))
                  (Metadata.LabelSelector (rmq_Name r)) w0).1 = inr stss;
  set_ready : allReplicasReadyAndUpdated stss = Returns true;
  set_conditions : conditionsCurrent (Z.of_nat (length stss)) stss;
  set_tls : tlsReady;
  set_not_down : (rst_Replicas (rmq_Status r) ≤ Z.of_nat (length stss))%Z;
  set_children : Forall upToDate (ResourceBuilders (Z.of_nat (length stss)) r);
  set_restarts : restartsDone stss;
  set_status : statusOf (Z.of_nat (length stss)) r = rmq_Status r;
  set_commands : commandsDone stss;
  set_observed : rst_ObservedGeneration (rmq_Status r) = om_Generation (rmq_ObjectMeta r);
  set_success now : SetCondition now ReconcileSuccess ConditionTrue "Success" ["Finish reconciling"]
    (rmq_Status r) = rmq_Status r
}.

Context (stss : list StatefulSet) (HS : Settled stss).

Lemma still_listed (Q : result (list StatefulSet) → Prop) : Q (inr stss) → still statefulSets Q.
Proof. intros HQ. apply still_statefulSets. by rw (set_listed _ HS). Qed.

Lemma set_status_id : set_rmq_Status (rmq_Status r) r = r.
Proof. by destruct r. Qed.

Lemma still_of_eq {A} (m : Run TW A) a (Q : A → Prop) :
  (∀ s, op_rmq s = r → m s = (Returns a, s)) → Q a → still m Q.
Proof. intros Hm HQ w l Hw. exists a, w. by rw Hm. Qed.

Lemma still_conditions : still reconcileStatusConditions (λ res, res = Continue).
Proof.
  destruct (set_conditions _ HS) as (resources & Hres & Hset).
  unfold reconcileStatusConditions. apply still_seq.
  assert (still getChildResources (λ x, x = inr resources)) as Hc.
  { unfold getChildResources. apply still_seq, still_listed. cbn [errorOf IgnoreNotFound].
    apply still_seq, still_rmq, still_seq, (still_get KEndpoints). revert Hres. unfold childrenFrom, readChild.
    cbn [errorOf IgnoreNotFound itemsOf].
    assert (∀ ep : option Endpoints,
      childResources (Z.of_nat (length stss)) stss ep ≫= (λ res, Returns (inr res : result (list Resource))) = Returns (inr resources) →
      still (replicas ← deref (rs_Replicas (rmq_Spec r));
             res ← lift (childResources replicas stss ep); mret (inr res : result (list Resource))) (λ x, x = inr resources)) as Hf.
    { intros ep. destruct (childResources _ _ ep) as [res|] eqn:Er; [|done]. intros [= ->].
      apply still_seq. eapply still_deref; [apply (set_replicas _ HS)|].
      apply still_seq. eapply still_lift; [exact Er|]. by apply still_ret. }
    destruct (kGet KEndpoints _ w0).1 as [err|ep]; [destruct (errIsNotFound err); [|done]|]; apply Hf. }
  eapply still_mono; [exact Hc|]. intros x ->. cbn beta iota. apply still_seq, still_rmq, still_seq, still_now.
  intros now. apply still_seq. eapply still_lift; [apply Hset|]. apply still_seq, still_set_rmq.
  - apply set_status_id.
  - rw bool_decide_eq_true_2; [done|]. by apply still_ret.
Qed.

Lemma still_TLS : still reconcileTLS (λ res, res = Continue).
Proof.
  destruct (set_tls _ HS) as [Hdis Htls]. unfold reconcileTLS. apply still_seq, still_rmq.
  assert (DisableNonTLSListeners r && negb (TLSEnabled r) = false) as ->.
  { destruct (DisableNonTLSListeners r); [|done]. by rw Hdis. }
  destruct (SecretTLSEnabled r); [|by apply still_ret].
  destruct (Htls eq_refl) as (secret & Hread & Hcrt & Hkey & Hca).
  apply still_seq. unfold checkTLSSecrets. apply still_seq, still_rmq, still_seq, (still_reader KSecret).
  unfold readSecret in Hread, Hca. rw Hread. cbn beta iota. rw Hcrt Hkey. cbn [negb orb].
  destruct (MutualTLSEnabled r); cbn [negb]; [|by apply still_ret, still_ret].
  destruct (Hca eq_refl) as (ca & Hread2 & Hk). destruct (SingleTLSSecret r).
  - subst ca. rw Hk. by apply still_ret, still_ret.
  - apply still_seq, (still_reader KSecret). rw Hread2. cbn beta iota. rw Hk. by apply still_ret, still_ret.
Qed.

Lemma none_updated bs : allReplicasReadyAndUpdated bs = Returns true → anyNeedsRebalance bs r = Returns false.
Proof.
  rw allReplicasReadyAndUpdated_true. induction 1 as [|sts bs [E _] _ IH]; [done|].
  by rw /= /statefulSetNeedsQueueRebalance /statefulSetBeingUpdated E String.eqb_refl /= /mbind /outcome_bind.
Qed.

Lemma still_QueueRebalanced : still reconcileQueueRebalanced (λ res, res = Continue).
Proof.
  unfold reconcileQueueRebalanced. apply still_seq, still_listed. cbn [errorOf IgnoreNotFound itemsOf].
  apply still_seq, still_rmq, still_seq. eapply still_lift; [apply none_updated, (set_ready _ HS)|].
  by apply still_ret.
Qed.

Lemma still_ScaleDown : still reconcileScaleDown (λ res, res = Continue).
Proof.
  unfold reconcileScaleDown. apply still_seq, still_rmq, still_seq.
  eapply still_deref; [apply (set_replicas _ HS)|]. cbv zeta.
  rw (proj2 (Z.leb_le _ _) (set_not_down _ HS)). by apply still_ret.
Qed.

Lemma still_Resources : still reconcileResources (λ res, res = Continue).
Proof.
  unfold reconcileResources, waitResourceReady. apply still_seq, still_seq, still_listed. cbn beta iota.
  apply still_seq. eapply still_lift; [apply (set_ready _ HS)|]. apply still_ret. cbn [Completed].
  apply still_seq, still_rmq, still_seq. eapply still_deref; [apply (set_replicas _ HS)|].
  apply still_reconcileBuilders, (set_children _ HS).
Qed.

Lemma still_restartFirst updatedAt bs :
  Forall (λ sts, restartedSince updatedAt sts = true) bs →
  still (restartFirst updatedAt bs) (λ res, res = Continue).
Proof. induction 1 as [|sts bs E _ IH]; cbn [restartFirst]; [by apply still_ret|by rw E]. Qed.

Lemma still_restart : still restartStatefulSetIfNeeded (λ res, res = Continue).
Proof.
  pose proof (set_restarts _ HS) as Hr. unfold restartsDone, readChild in Hr.
  unfold restartStatefulSetIfNeeded, configMapServer. do 2 apply still_seq.
  apply still_rmq, (still_get KConfigMap). destruct (kGet KConfigMap _ w0).1 as [err|conf].
  - rw Hr. by apply still_ret.
  - destruct (gm_lookup _ _) as [updatedAt|]; [|by apply still_ret].
    apply still_seq, still_listed. by apply still_restartFirst.
Qed.

Lemma still_Status : still reconcileStatus (λ res, res = Continue).
Proof.
  unfold reconcileStatus. apply still_seq, still_rmq, still_seq.
  eapply still_deref; [apply (set_replicas _ HS)|]. cbv zeta. rw (set_status _ HS).
  apply still_seq, still_set_rmq; [apply set_status_id|].
  rw Z.eqb_refl !bool_decide_eq_true_2 //=. by apply still_ret.
Qed.

Lemma still_CLI : still reconcileRabbitmqCLI (λ res, res = Continue).
Proof.
  destruct (set_commands _ HS) as ((cm & Hread & Hcm) & Hflags & Hreb).
  unfold reconcileRabbitmqCLI. apply still_seq, still_listed. cbn beta iota.
  apply still_seq. eapply still_lift; [apply (set_ready _ HS)|]. cbn [negb].
  apply still_seq, still_rmq, still_seq. eapply still_deref; [apply (set_replicas _ HS)|].
  rw Z.eqb_refl. cbn [negb]. unfold configMapPlugins. apply still_seq, still_seq, still_rmq, (still_get KConfigMap).
  unfold readChild in Hread. rw Hread. cbn beta iota. unfold setPluginsIfNeeded. rw Hcm. cbn [negb].
  clear HS. induction Hflags as [|sts bs E _ IH]; cbn [enableFeatureFlags]; [|by rw E].
  unfold rebalanceIfNeeded. apply still_seq, still_rmq. rw Hreb. by apply still_ret.
Qed.

Lemma still_finish : still finish (λ a, a = (mkCtrlResult false 0, None)).
Proof.
  unfold finish, setCondition. apply still_seq, still_mod_rmq.
  - unfold setObservedGeneration. rw -(set_observed _ HS). by destruct r as [? ? []].
  - apply still_seq, still_seq, still_now. intros now. apply still_mod_rmq; [|by apply still_ret].
    rw (set_success _ HS). apply set_status_id.
Qed.

Lemma still_andThen step k (Q : CtrlResult * goerror → Prop) :
  still step (λ res, res = Continue) → still k Q → still (andThen step k) Q.
Proof. intros Hs Hk. unfold andThen. eapply still_bind; [exact Hs|]. by intros res ->. Qed.

Lemma still_steps : still (steps d) (λ a, a = (mkCtrlResult false 0, None)).
Proof.
  pose proof (set_before _ HS) as Hb. unfold steps.
  apply still_andThen; [apply (still_of_eq _ Continue); [intros s Hs; rw -Hs in Hb; by eapply settled_delete|done]|].
  apply still_andThen; [apply (still_of_eq _ Continue); [intros s Hs; rw -Hs in Hb; by eapply settled_paused|done]|].
  apply still_andThen; [apply (still_of_eq _ Continue); [intros s Hs; rw -Hs in Hb; by apply settled_defaults|done]|].
  apply still_andThen; [apply still_conditions|]. apply still_andThen; [apply still_TLS|].
  apply still_andThen; [apply still_QueueRebalanced|]. apply still_andThen; [apply still_ScaleDown|].
  apply still_andThen; [apply still_Resources|]. apply still_andThen; [apply still_restart|].
  apply still_andThen; [apply still_Status|]. unfold lastStep.
  eapply still_bind; [apply still_CLI|]. intros res ->. apply still_finish.
Qed.
End still.

(** ** Property *)

Section settled.
Context {W : Type} `{!Kube W, !Library, !GetLaw W} (I : W → Prop) (HI : Undisturbed I) (d : Defaults).
Abbreviation TW := (W * list Call)%type.

(** C14: a reconciliation has a fixed point and keeps it: of a cluster whose
    children, status and annotations are as the operator would make them, in a
    world that nobody else changes, it answers that there is nothing more to
    do, calls nothing that changes anything, no update of the status either,
    and leaves the cluster object as it is. *)
Theorem reconcileFound_settled (r : RabbitmqCluster) (w : W) (stss : list StatefulSet) :
  I w → Settled r w d stss →
  run (reconcileFound (W := TW) d) (mkOp r (w, [])) (λ out s' calls,
    out = Returns (mkCtrlResult false 0, None) ∧ calls = [] ∧ op_rmq s' = r ∧ I (op_world s').1).
Proof.
  intros Hw HS. unfold reconcileFound. apply run_seq, run_rmq. cbn beta iota. apply run_deferring.
  destruct (still_steps I r HI w Hw d stss HS w [] Hw) as (a & w' & E & Hw' & ->).
  exists []. rw E. split; [done|]. split; [done|]. intros []. done.
Qed.
End settled.
