(* ===== verification/Eventually.v ===== *)
(** The whole reconciliation, again and again: what each one does to the
    potential of file Progress, and that they come to an end. *)

From S2P Require Import Prelude GoStd GoTime K8s V1beta1 Constant Metadata Kube Builder ServerConf Builders Hoare Trace Result Status.
From S2P Require Import ControllerUtils Configurations Resources Steps Deletion Cli Timestamps Store Behaviour Tame Names Converge.
From S2P Require Import Reconcile Authority Cleanup Restarts Queue Conditions Clock Effects Replicas Progress Settled.

(** ** Definitions *)

(** What is asked of the cluster object: it has its defaults, a finalizer and
    no override, is neither paused nor deleted, and asks for no rebalancing. *)
Record Standing `{!Library} (d : Defaults) (r : RabbitmqCluster) (n : Z) (op user : string) : Prop := {
  std_tidy : Tidy r n;
  std_conf : renderConf r n = inr (op, user);
  std_readable : readable op;
  std_settled : settled d r;
  std_rebalance : needQueueRebalance r = false;
  std_stamp : gm_lookup (podAnnotations r) stsRestartAnnotation = None;
  std_replicas : (0 ≤ n)%Z;
  std_tls : DisableNonTLSListeners r = true → TLSEnabled r = true
}.

(** Semantic equality holds of equal objects and is structural as far as the
    status of a StatefulSet goes. *)
Definition equalsObjects `{!Library} : Prop := (∀ k (o : Obj k), SemanticDeepEqual k o o = true) ∧ equalsStatus.

Section eventually.
Context {W : Type} `{!Kube W, !Library, !Store W, !StoreLaws W, !RemovalLaws W, !ClientLaws W, !Clock W, !ClockLaws W}.
Context (d : Defaults) (r : RabbitmqCluster) (n : Z) (op user : string).
Abbreviation TW := (W * list Call)%type.
Implicit Types (w : W) (st : RabbitmqClusterStatus).

Definition clusterKey : NamespacedName := ObjectKeyFromObject (k := KRabbitmqCluster) r.

(** The secrets that TLS needs are stored, with their keys. *)
Definition tlsStored w : Prop :=
  SecretTLSEnabled r = true →
  ∃ secret : Secret, contents w KSecret (mkNamespacedName (rmq_Namespace r) (tls_SecretName (rs_TLS (rmq_Spec r)))) = Some secret ∧
  hasKey secret "tls.crt" = true ∧ hasKey secret "tls.key" = true ∧
  (MutualTLSEnabled r = true → ∃ ca : Secret,
     (if SingleTLSSecret r then ca = secret
      else contents w KSecret (mkNamespacedName (rmq_Namespace r) (tls_CaSecretName (rs_TLS (rmq_Spec r)))) = Some ca) ∧
     hasKey ca "ca.crt" = true).

(** At the instant [c] a marker is at least so many seconds old. *)
Definition agedBy (seconds : Z) (mark : option string) (c : Z) : Prop :=
  ∀ v t, mark = Some v → Parse v = Some t → (t + seconds * Second ≤ c)%Z.

Definition pluginsMark w : option string :=
  match child r RabbitmqPluginsConfigMapBuilder w with
  | Some cm => gm_lookup (annotations (k := KConfigMap) cm) pluginsUpdateAnnotation
  | None => None
  end.

(** No command in a pod fails: an assumption about the pods, not about the code
    that runs commands in them. *)
Definition podsObey : Prop := ∀ ns pod container cmd (w : W), (kExec ns pod container cmd w).1.2 = None.

(** The reconciliation finds all StatefulSets ready, the secrets in place, and
    the last changes of the configuration and of the plugins long enough ago,
    and the pods carry out the commands. *)
Record calm w (c : Z) : Prop := {
  calm_pods : podsObey;
  calm_ready : allReadyIn r w;
  calm_tls : tlsStored w;
  calm_clock : notBefore c w;
  calm_conf : agedBy 1 (confMark r w) c;
  calm_plugins : agedBy 2 (pluginsMark w) c
}.

(** The reconciliation finds a StatefulSet that is not ready, but none whose
    update would ask for a rebalancing of the queues. *)
Record waiting w : Prop := {
  wait_ready : ¬ allReadyIn r w;
  wait_tls : tlsStored w;
  wait_rebalance : rs_SkipPostDeploySteps (rmq_Spec r) = true ∨ (n ≤ 1)%Z ∨
    ∀ sts, ours r w sts → stst_CurrentRevision (sts_Status sts) = stst_UpdateRevision (sts_Status sts)
}.

(** No annotation asks for a command in the pods. *)
Definition unflagged w : Prop :=
  (∀ cm, child r RabbitmqPluginsConfigMapBuilder w = Some cm → pluginsConfigUpdated cm = false) ∧
  ∀ sts, ours r w sts → statefulsetCreated sts = false.

(** What the last step writes is there. *)
Definition finished st : Prop :=
  rst_ObservedGeneration st = om_Generation (rmq_ObjectMeta r) ∧
  ∀ now, SetCondition now ReconcileSuccess ConditionTrue "Success" ["Finish reconciling"] st = st.

(** Nothing is left to be written before the commands; nothing is left at all. *)
Definition reached w st : Prop :=
  unsettled r n op user w = [] ∧ dueReplicas r n w = [] ∧ conditionsFit r n w st = true ∧ fieldsFit r n st = true.
Definition quiescent w st : Prop := reached w st ∧ unflagged w ∧ finished st.

(** The commands that the annotations ask for are among the calls: the plugins
    in every replica, the feature flags in the first. *)
Definition commanded w (calls : list Call) : Prop :=
  (∀ cm, child r RabbitmqPluginsConfigMapBuilder w = Some cm → pluginsConfigUpdated cm = true →
     Forall (λ i, podExec r i (setPluginsCmd r) ∈ calls) (seqZ 0 n)) ∧
  (∀ sts, ours r w sts → statefulsetCreated sts = true →
     podExec r 0 "rabbitmqctl enable_feature_flag all" ∈ calls).

Definition finalAnswer : CtrlResult * goerror := (mkCtrlResult false 0, None).
Definition waitAnswer : CtrlResult * goerror := (mkCtrlResult true (5 * Second), None).

(** ** The steps *)

Context (HS : Standing d r n op user) (Heq : equalsObjects).

Abbreviation HT := (std_tidy _ _ _ _ _ HS).
Abbreviation P := (potential r n op user).
Abbreviation Kids' := (Kids r n op user).
Abbreviation rv v st := (revised v st r).

Lemma tidy_revised v st : Tidy (rv v st) n.
Proof. destruct HT. by split. Qed.

Lemma settled_revised v st : settled d (rv v st).
Proof.
  destruct (std_settled _ _ _ _ _ HS) as (H1 & H2 & H3 & H4). split_and!; [done..|]. revert H4.
  unfold applyDefaults, defaultImage, defaultUpdaterImage, defaultPullSecrets. cbn [revised rmq_Spec].
  destruct (ControlRabbitmqImage d || _); cbn [set_rmq_Spec set_rs_Image rmq_Spec rs_SecretBackend];
    destruct (sb_Vault _) as [vault|]; [destruct (ControlRabbitmqImage d || _)| |destruct (ControlRabbitmqImage d || _)|];
    cbn; by destruct (rs_ImagePullSecrets _), (pullSecrets d).
Qed.

(** The StatefulSets that are listed. *)
Lemma wp_listed v st w (Q : result (list StatefulSet) → W → list Call → Prop) :
  Kids' w →
  (∀ stss w', stss ≡ₚ listedSts r n w → NoDup stss → (∀ sts, sts ∈ stss ↔ ours r w sts) → sameStore w w' →
     (∀ c, notBefore c w → notBefore c w') → Q (inr stss) w' []) →
  wp (rv v st) statefulSets w Q.
Proof.
  intros HK HQ. apply wp_statefulSets. intros stss w' -> Hnd Hin Hs. apply HQ; [|done..|].
  - by eapply (listedSts_perm r n op user).
  - intros c Hc. assert (Closed (notBefore (W := W) c)) as HC by apply _. by apply (closed_list KStatefulSet).
Qed.

Lemma wp_getChildResources v st w :
  Kids' w →
  wp (rv v st) getChildResources w (λ x w' c, sameStore w w' ∧ c = [] ∧ ∃ rs, x = inr rs ∧
    ∀ now st, (∃ st', SetConditions now rs st = Returns st') ∧
      (allReadyIn r w → SetConditions now rs st = SetConditions now (expected r n w) st)).
Proof.
  intros HK. unfold getChildResources. apply wp_bind, (wp_listed v st w); [done|].
  intros stss w1 Hperm _ _ Hs1 _. cbn [errorOf IgnoreNotFound]. apply wp_bind, wp_rmq. cbn beta. apply wp_bind.
  apply (wp_unlogged _ (kGet KEndpoints (endpointsKey r))). destruct (store_get KEndpoints (endpointsKey r) w1) as [Hg Hs2].
  rw Hs1 in Hg. set (w2 := (kGet KEndpoints (endpointsKey r) w1).2) in *.
  assert (∀ ep : option Endpoints, (is_Some ep ↔ hasEndpoints r w = true) →
    wp (rv v st) (replicas ← deref (rs_Replicas (rmq_Spec (rv v st)));
       res ← lift (childResources replicas (itemsOf (inr stss)) ep); mret (inr res)) w2
      (λ (x : result (list Resource)) w' c, sameStore w w' ∧ ([] ++ [] ++ [] ++ c = []) ∧ ∃ rs, x = inr rs ∧
       ∀ now st, (∃ st', SetConditions now rs st = Returns st') ∧
       (allReadyIn r w → SetConditions now rs st = SetConditions now (expected r n w) st))) as Hf.
  { intros ep Hep. apply wp_bind. unfold deref. rw (tidy_replicas _ _ (tidy_revised v st)). apply wp_ret, wp_bind.
    destruct (listed_total r n op user w stss ep 0 st HK Hperm) as (Hc & _).
    eapply wp_lift; [exact Hc|]. apply wp_ret. split; [by eapply sameStore_trans|]. split; [done|].
    eexists. split; [done|]. intros now st'. split; [by apply (listed_total r n op user w stss ep now st' HK Hperm)|].
    intros Hready. by apply (listed_expected r n op user HT w stss ep now st' HK Hready Hperm Hep). }
  unfold hasEndpoints in Hf. unfold reads in Hg. destruct (contents w KEndpoints (endpointsKey r)) as [ep|].
  - rw Hg. apply Hf. rw bool_decide_eq_true. split; by eexists.
  - destruct Hg as (err & -> & Hnf). cbn beta iota. rw Hnf. apply Hf. by rw bool_decide_eq_true.
Qed.

(** The conditions: they are there, or they are written and the reconciliation
    ends. *)
Lemma g_conditions v st w (Q : ReconcileResult → RabbitmqCluster → W → list Call → Prop) :
  Kids' w → holds r st w →
  ((allReadyIn r w → conditionsFit r n w st = true) → ∀ w', sameStore w w' → Q Continue (rv v st) w' []) →
  (∀ v' st' w' c, holds r st' w' → restSame r w w' →
     (allReadyIn r w → conditionsFit r n w st = false ∧ conditionsFit r n w st' = true) →
     fieldsFit r n st' = fieldsFit r n st → rst_Replicas st' = rst_Replicas st → Q Done (rv v' st') w' c) →
  goes reconcileStatusConditions (rv v st) w Q.
Proof.
  intros HK Hh Hfit Hnot. unfold reconcileStatusConditions. apply g_bind, g_wp.
  eapply wp_mono; [by apply wp_getChildResources|]. intros x w1 c1 (Hs1 & -> & rs & -> & Hrs). cbn beta iota.
  apply g_bind, g_rmq, g_bind, g_wp, wp_now. intros now w2 Hs2. cbn [rmq_Status revised].
  destruct (Hrs now st) as ((st' & E) & Heqv).
  assert (sameStore w w2) as Hs by by eapply sameStore_trans.
  assert (allReadyIn r w → conditionsFit r n w st' = true ∧
    (conditionsFit r n w st = true ↔ rst_Conditions st = rst_Conditions st')) as Hiff.
  { intros Hready. apply (conditionsFit_now r n w st now st'). by rw -Heqv. }
  apply g_bind. eapply g_lift; [exact E|]. apply g_bind, g_set_rmq. cbn [app].
  change (set_rmq_Status st' (rv v st)) with (rv v st').
  apply SetConditions_inv in E as (nw & _ & _ & E1 & E2 & E3 & E4). case_bool_decide as Ec.
  - apply g_ret. cbn [app]. assert (st' = st) as -> by (destruct st, st'; cbn in *; by subst).
    apply Hfit; [|done]. intros Hready. by apply (Hiff Hready).
  - cbn [app]. eapply (g_updateStatus r v st' st); [by eapply holds_same|]. intros v' w' c Hh' Hr'.
    apply Hnot; [exact Hh'| | |by apply fieldsFit_same|done].
    + eapply restSame_trans; [by apply sameStore_rest|exact Hr'].
    + intros Hready. destruct (Hiff Hready) as [Hf Hx]. split; [|done].
      destruct (conditionsFit r n w st); [|done]. by destruct Ec; apply Hx.
Qed.

Lemma wp_TLS v st w :
  tlsStored w → wp (rv v st) reconcileTLS w (λ res w' c, res = Continue ∧ sameStore w w' ∧ c = []).
Proof.
  intros Htls. unfold reconcileTLS. apply wp_bind, wp_rmq.
  assert (DisableNonTLSListeners (rv v st) && negb (TLSEnabled (rv v st)) = false) as ->.
  { change (DisableNonTLSListeners r && negb (TLSEnabled r) = false). destruct (DisableNonTLSListeners r) eqn:E; [|done].
    by rw (std_tls _ _ _ _ _ HS E). }
  unfold tlsStored in Htls. change (SecretTLSEnabled (rv v st)) with (SecretTLSEnabled r).
  destruct (SecretTLSEnabled r); [|by apply wp_ret].
  destruct (Htls eq_refl) as (secret & Hc & Hcrt & Hkey & Hca). clear Htls.
  assert (∀ w1 w2 : W, sameStore w w1 → sameStore w1 w2 → sameStore w w2) as Htr by (intros; by eapply sameStore_trans).
  apply wp_bind. unfold checkTLSSecrets. apply wp_bind, wp_rmq, wp_bind. cbv zeta.
  set (key := mkNamespacedName _ _). apply (wp_unlogged _ (kReaderGet KSecret key)).
  destruct (client_reader KSecret key w) as [Hg Hs1]. change (contents w KSecret key = Some secret) in Hc.
  rw Hc in Hg. cbn in Hg. rw Hg. cbn beta iota. clear Hg. set (w1 := (kReaderGet KSecret key w).2) in *.
  rw Hcrt Hkey. cbn [negb orb].
  change (MutualTLSEnabled (rv v st)) with (MutualTLSEnabled r). change (SingleTLSSecret (rv v st)) with (SingleTLSSecret r).
  destruct (MutualTLSEnabled r); cbn [negb]; [|by apply wp_ret, wp_ret].
  destruct (Hca eq_refl) as (ca & Hca' & Hk). destruct (SingleTLSSecret r).
  - subst ca. rw Hk. by apply wp_ret, wp_ret.
  - apply wp_bind. set (key2 := mkNamespacedName _ _). apply (wp_unlogged _ (kReaderGet KSecret key2)).
    destruct (client_reader KSecret key2 w1) as [Hg Hs2]. rw Hs1 in Hg. change (contents w KSecret key2 = Some ca) in Hca'.
    rw Hca' in Hg. cbn in Hg. rw Hg. cbn beta iota. rw Hk. apply wp_ret, wp_ret. by eauto.
Qed.

Lemma listed_ready w stss :
  allReadyIn r w → (∀ sts, sts ∈ stss ↔ ours r w sts) → allReplicasReadyAndUpdated stss = Returns true.
Proof.
  intros Hready Hin. apply allReplicasReadyAndUpdated_true, Forall_forall. intros sts Hs. by apply Hready, Hin.
Qed.

Lemma wp_QueueRebalanced v st w :
  Kids' w → allReadyIn r w →
  wp (rv v st) reconcileQueueRebalanced w (λ res w' c, res = Continue ∧ sameStore w w' ∧ c = []).
Proof.
  intros HK Hready. unfold reconcileQueueRebalanced. apply wp_bind, wp_listed; [done|].
  intros stss w1 _ _ Hin Hs _. cbn [errorOf IgnoreNotFound itemsOf]. apply wp_bind, wp_rmq, wp_bind.
  eapply wp_lift; [by eapply none_updated, listed_ready|]. by apply wp_ret.
Qed.

Lemma wp_ScaleDown v st w :
  (rst_Replicas st ≤ n)%Z →
  wp (rv v st) reconcileScaleDown w (λ res w' c, res = Continue ∧ sameStore w w' ∧ c = []).
Proof.
  intros Hst. unfold reconcileScaleDown. apply wp_bind, wp_rmq, wp_bind. unfold deref.
  rw (tidy_replicas _ _ (tidy_revised v st)). apply wp_ret. cbv zeta. cbn [revised rmq_Status].
  rw (proj2 (Z.leb_le _ _) Hst). by apply wp_ret.
Qed.

(** The children: one is settled, or all are. *)
Lemma wp_Resources v st w :
  Kids' w → allReadyIn r w →
  wp (rv v st) reconcileResources w (λ res w' c,
    match unsettled r n op user w with
    | [] => res = Continue ∧ sameStore w w' ∧ c = []
    | b :: _ => res = Done ∧ settles r op user b w w'
    end).
Proof.
  intros HK Hready. unfold reconcileResources, waitResourceReady. apply wp_bind, wp_bind, wp_listed; [done|].
  intros stss w1 _ _ Hin Hs1 _. cbn beta iota. apply wp_bind.
  eapply wp_lift; [by eapply listed_ready|]. apply wp_ret. cbn [Completed app].
  apply wp_bind, wp_rmq, wp_bind. unfold deref. rw (tidy_replicas _ _ (tidy_revised v st)). apply wp_ret. cbn [app].
  assert (Forall (good (rv v st) w1) (ResourceBuilders n (rv v st))) as Hg.
  { eapply Forall_impl; [exact (kids_good _ _ _ _ _ HK)|]. intros b. exact (good_same r w w1 b Hs1). }
  intros l. destruct (round_answer (rv v st) n (tidy_revised v st) op user (std_conf _ _ _ _ _ HS)
    (std_readable _ _ _ _ _ HS) w1 l Hg) as (w' & c & E & HQ).
  assert (unsettled r n op user w1 = unsettled r n op user w) as Hu.
  { apply (sameChildren_unsettled r n op user w w1). apply Forall_forall. intros b _. by apply child_same. }
  change (unsettled (rv v st) n op user w1) with (unsettled r n op user w1) in *. rw Hu in E HQ.
  eexists _, w', c. split; [exact E|]. destruct (unsettled r n op user w) as [|b rest].
  - destruct HQ as [Hs2 ->]. split_and!; [done|by eapply sameStore_trans|done].
  - destruct HQ as [Hset _]. split; [done|]. eapply settles_first; [exact Hs1|exact Hset].
Qed.

(** The clock is past the marker of the configuration. *)
Lemma aged_past u w c :
  inRange u → agedBy 1 (Some (Format u)) c → pastIn u (notBefore (W := W) c).
Proof.
  intros Hu Ha. specialize (Ha (Format u) _ eq_refl (Parse_Format u Hu)).
  assert (Closed (notBefore (W := W) c)) as HC by apply _. split.
  - intros w' Hw. split; [apply clock_range|]. pose proof (clock_now c w' Hw) as Hn. assert (0 < Second)%Z by done.
    enough (u `div` Second + 1 ≤ (kNow w').1 `div` Second)%Z by lia. apply Z.div_le_lower_bound; lia.
  - intros k key w' Hw. by apply (closed_get k).
  - intros k ns labels w' Hw. by apply (closed_list k).
Qed.

Lemma not_due w : confMark r w = None → dueReplicas r n w = [].
Proof. unfold dueReplicas, dueAt. intros ->. by induction (seqZ 0 n). Qed.

Lemma wp_restart v st w c :
  Kids' w → unsettled r n op user w = [] → notBefore c w → agedBy 1 (confMark r w) c →
  wp (rv v st) restartStatefulSetIfNeeded w (λ res w' calls,
    match dueReplicas r n w with
    | [] => res = Continue ∧ sameStore w w' ∧ calls = []
    | _ => res = Done ∧ Kids' w' ∧ (∀ st', (P w' st' < P w st')%nat) ∧
        ∀ key, contents w' KRabbitmqCluster key = contents w KRabbitmqCluster key
    end).
Proof.
  intros HK Hu Hc Ha. destruct (confMark r w) as [mark|] eqn:Em.
  - assert (∃ u, inRange u ∧ mark = Format u) as (u & Hr & ->).
    { rw confMark_child in Em. destruct (child r (ServerConfigMapBuilder true) w) as [cm|] eqn:Ecm; [|done].
      apply (kids_marks _ _ _ _ _ HK (ServerConfigMapBuilder true) cm (serverConf_all r n) Ecm serverConfAnnotation); [|exact Em].
      by apply (bool_decide_unpack _). }
    pose proof (dueIn_replicas r n op user w u Hr HK Em) as Hdue.
    assert (confUpdatedIn r u w) as Hconf.
    { unfold confUpdatedIn. unfold confMark in Em. destruct (contents w KConfigMap _) as [cm|]; [|done]. by exists cm. }
    assert (wellStamped r w) as Hst.
    { intros sts Ho. destruct (ours_replica r n op user w sts HK Ho) as (i & Hi & Hci).
      by destruct (kids_sound _ _ _ _ _ HK (StatefulSetBuilder i) sts (proj1 (SB_all r n i) Hi) Hci) as (_ & ? & _). }
    eapply wp_mono; [exact (wp_restartStatefulSetIfNeeded (rv v st) u Hr _ (aged_past u w c Hr Ha) w _ Hc Hconf Hst Hdue)|].
    intros res w' calls (_ & _ & HQ). destruct (dueReplicas r n w) as [|i due_] eqn:Edue; cbn [fmap list_fmap] in HQ; [done|].
    destruct HQ as (-> & _ & (l' & Hl' & Hlen) & sts & Ho & _ & Hre). split; [done|].
    assert (length (dueReplicas r n w) = S (length l')) as Hlen' by (rw Edue -Hlen; cbn; by rw length_fmap).
    destruct (restarts_potential r n op user HT (std_readable _ _ _ _ _ HS) (proj1 Heq) (std_stamp _ _ _ _ _ HS)
      w w' u st sts l' Hr HK Hu Em Ho Hre Hl' Hlen') as [HK' _]. split; [exact HK'|]. split.
    + intros st'. by eapply (restarts_potential r n op user HT (std_readable _ _ _ _ _ HS) (proj1 Heq) (std_stamp _ _ _ _ _ HS)).
    + intros key. by apply (restarts_others (rv v st) u Hr w w' sts KRabbitmqCluster key Hre).
  - rw (not_due w Em). unfold restartStatefulSetIfNeeded, configMapServer. apply wp_bind, wp_bind, wp_rmq. cbn beta.
    set (key := mkNamespacedName _ _). unfold confMark in Em.
    change (match contents w KConfigMap key with Some cm => gm_lookup (annotations (k := KConfigMap) cm) serverConfAnnotation
      | None => None end = None) in Em.
    destruct (contents w KConfigMap key) as [cm|] eqn:Ecm.
    + eapply wp_get_some; [exact Ecm|]. intros w' Hs. cbn beta iota. rw Em. by apply wp_ret.
    + eapply wp_get_none; [exact Ecm|]. intros err w' Hnf Hs. cbn beta iota. rw Hnf. by apply wp_ret.
Qed.

(** The fields of the status: they are there, or they are written. *)
Lemma g_Status v st w (Q : ReconcileResult → RabbitmqCluster → W → list Call → Prop) :
  holds r st w →
  (fieldsFit r n st = true → Q Continue (rv v st) w []) →
  (fieldsFit r n st = false → ∀ v' w' c, let st' := statusOf n (revised "" st r) in
     holds r st' w' → restSame r w w' → Q Done (rv v' st') w' c) →
  goes reconcileStatus (rv v st) w Q.
Proof.
  intros Hh Hfit Hnot. unfold reconcileStatus. apply g_bind, g_rmq, g_bind.
  eapply g_deref; [exact (tidy_replicas _ _ (tidy_revised v st))|]. cbv zeta. apply g_bind, g_set_rmq.
  change (statusOf n (rv v st)) with (statusOf n (rv "" st)). cbn [revised rmq_Status].
  change (set_rmq_Status ?s (rv v st)) with (rv v s). fold (fieldsFit r n st). cbn [app].
  destruct (fieldsFit r n st) eqn:Ef.
  - apply g_ret. cbn [app]. rw (fieldsFit_fix r n st Ef). by apply Hfit.
  - eapply (g_updateStatus r v _ st); [done|]. intros v' w' c Hh' Hr. by apply Hnot.
Qed.

(** The end. *)
Lemma g_finish v st w (Q : CtrlResult * goerror → RabbitmqCluster → W → list Call → Prop) :
  conditionsFit r n w st = true → fieldsFit r n st = true →
  (∀ st' w', sameStore w w' → conditionsFit r n w st' = true → fieldsFit r n st' = true → finished st' →
     rst_Replicas st' = rst_Replicas st → (finished st → st' = st) → Q finalAnswer (rv v st') w' []) →
  goes finish (rv v st) w Q.
Proof.
  intros Hc Hf HQ. unfold finish, setCondition. apply g_bind, g_mod_rmq, g_bind, g_bind, g_wp, wp_now.
  intros now w' Hs. apply g_mod_rmq, g_ret. cbn [app].
  set (st1 := set_rst_ObservedGeneration (om_Generation (rmq_ObjectMeta r)) st).
  change (set_rmq_Status (SetCondition now ReconcileSuccess ConditionTrue "Success" ["Finish reconciling"]
    (rmq_Status (setObservedGeneration (rv v st)))) (setObservedGeneration (rv v st))) with
    (rv v (SetCondition now ReconcileSuccess ConditionTrue "Success" ["Finish reconciling"] st1)).
  apply HQ; [done| | | |done|].
  - apply conditionsFit_spec. intros now'. apply (SetConditions_SetCondition now now'). apply conditionsFit_spec.
    by rw (conditionsFit_conditions r n w st st1).
  - by rw -Hf; apply fieldsFit_same.
  - split; [done|]. intros now'. apply SetCondition_twice.
  - intros [Ho Hx]. assert (st1 = st) as ->; [|apply Hx]. unfold st1. rw -Ho. by destruct st.
Qed.

(** *** The commands *)

Lemma served_unflagged {k} (o o' : Obj k) key :
  served (set_annotations (gm_delete key (annotations o)) o) o' → hasFlag o' key = false.
Proof.
  intros Hsv. pose proof (served_unmark o o' key key Hsv) as E. rw decide_True in E; [done|].
  unfold hasFlag, gm_get. destruct (annotations o'); [|done]. by rw E.
Qed.

(** Marks were removed, and nothing else has changed. *)
Record tidied w w' : Prop := {
  td_kids : Kids' w';
  td_unsettled : unsettled r n op user w' = [];
  td_potential st : P w' st = P w st;
  td_endpoints : hasEndpoints r w' = hasEndpoints r w;
  td_cluster key : contents w' KRabbitmqCluster key = contents w KRabbitmqCluster key
}.

Lemma sameStore_tidied w w' : Kids' w → unsettled r n op user w = [] → sameStore w w' → tidied w w'.
Proof.
  intros HK Hu Hs. assert (sameStore w' w) as Hs' by (intros k key; by rw Hs).
  pose proof (restSame_evolves r n op user w w' HK (sameStore_rest r w w' Hs)) as Hev.
  pose proof (evolves_kids r n op user (proj2 Heq) w w' HK Hev) as HK'. split.
  - exact HK'.
  - rw -Hu. apply (sameChildren_unsettled r n op user w w'). apply Forall_forall. intros b _. by apply child_same.
  - intros st. pose proof (evolves_potential r n op user (proj2 Heq) w w' st Hev).
    pose proof (evolves_potential r n op user (proj2 Heq) w' w st
      (restSame_evolves r n op user w' w HK' (sameStore_rest r w' w Hs'))). lia.
  - unfold hasEndpoints. by rw Hs.
  - intros key. apply Hs.
Qed.

Lemma tidied_trans w w1 w2 : tidied w w1 → tidied w1 w2 → tidied w w2.
Proof.
  intros [_ _ Hp He Hc] [HK Hu Hp2 He2 Hc2]. split; [done..|intros st; by rw Hp2|by rw He2|intros key; by rw Hc2].
Qed.

Section commands.
Context (Hpods : podsObey).

Lemma wp_exec v st i msg cmd w :
  wp (rv v st) (execOrFail (PodName (rv v st) ResourceStatefulsetSuffix i) msg cmd) w
    (λ err w' c, err = None ∧ sameStore w w' ∧ c = [podExec r i cmd]).
Proof.
  pose proof (client_exec (rmq_Namespace (rv v st)) (PodName (rv v st) ResourceStatefulsetSuffix i) ContainerNameRabbitMQ
    ["sh"; "-c"; cmd] w) as Hs. unfold execOrFail, exec. apply wp_bind, wp_rmq, wp_bind. apply (wp_logged (rv v st) (λ _, Exec _ _ _ _)).
  rw Hpods. by apply wp_ret.
Qed.

Lemma wp_setPluginsLoop v st ords w :
  wp (rv v st) (setPluginsLoop (rv v st) ords) w (λ err w' c, err = None ∧ sameStore w w' ∧
    c = (λ i, podExec r i (setPluginsCmd r)) <$> ords).
Proof.
  revert w. induction ords as [|i ords IH]; intros w; cbn [setPluginsLoop]; [by apply wp_ret|].
  apply wp_bind. eapply wp_mono; [apply wp_exec|]. intros err w1 c1 (-> & Hs & ->). cbn beta iota.
  eapply wp_mono; [apply IH|]. intros err w2 c2 (-> & Hs2 & ->). split_and!; [done|by eapply sameStore_trans|done].
Qed.

(** The removal of a mark from a child. *)
Lemma wp_unmark v st b (o : Obj (builderKind b)) key w :
  Kids' w → unsettled r n op user w = [] → b ∈ ResourceBuilders n r → child r b w = Some o → key ∈ markers →
  key ≠ serverConfAnnotation → is_Some (annotations o) →
  wp (rv v st) (u ← deleteAnnotation o key; mret u.2) w (λ err w' c, err = None ∧ tidied w w' ∧
    ∃ o', child r b w' = Some o' ∧ hasFlag o' key = false ∧
      ∀ k key, (k, key) ≠ builderTarget r b → contents w' k key = contents w k key).
Proof.
  intros HK Hu Hb Hc Hk Hne [a Ha]. unfold deleteAnnotation. rw Ha. rw -Ha. apply wp_bind, wp_update.
  { pose proof (child_key r b w o Hc) as Hkey. unfold ObjectKeyFromObject in *. rw meta_set_annotations. cbn.
    rw Hkey. by eexists. }
  intros o' w' Hsv Hst. apply wp_ret. split; [done|].
  destruct (unmark_potential r n op user HT (std_readable _ _ _ _ _ HS) (proj1 Heq) b w w' st o o' key HK Hu Hb Hc Hk Hne Hsv Hst)
    as (HK' & Hu' & _).
  assert (ObjectKeyFromObject o' = (builderTarget r b).2) as Hkey'.
  { rw (served_key _ _ Hsv) -(child_key r b w o Hc). unfold ObjectKeyFromObject. by rw meta_set_annotations. }
  pose proof Hst as [Hst' Hother]. rw Hkey' in Hst' Hother. split.
  - split; [done..| | |].
    + intros st'. by apply (unmark_potential r n op user HT (std_readable _ _ _ _ _ HS) (proj1 Heq) b w w' st' o o' key).
    + unfold hasEndpoints. rw Hother //. by destruct b.
    + intros key'. apply Hother. by destruct b.
  - exists o'. split_and!; [exact Hst'|by eapply served_unflagged|exact Hother].
Qed.

(** The plugins. *)
Lemma not_recent mark now (cm : ConfigMap) :
  gm_lookup (annotations (k := KConfigMap) cm) pluginsUpdateAnnotation = mark → agedBy 2 mark now →
  pluginsConfigUpdatedRecently now cm = false.
Proof.
  intros Hm Ha. unfold pluginsConfigUpdatedRecently. rw Hm. destruct (negb _); [done|]. destruct mark as [v|]; [|done].
  destruct (Parse v) as [t|] eqn:Ep; [|done]. specialize (Ha v t eq_refl Ep). apply Z.ltb_ge. lia.
Qed.

Lemma agedBy_le seconds mark c c' : (c ≤ c')%Z → agedBy seconds mark c → agedBy seconds mark c'.
Proof. intros Hc Ha v t Hv Hp. specialize (Ha v t Hv Hp). lia. Qed.

Lemma plugins_all : RabbitmqPluginsConfigMapBuilder ∈ ResourceBuilders n r.
Proof.
  rw ResourceBuilders_eq. do 2 (apply elem_of_app; right). apply elem_of_app. left. apply list_elem_of_here.
Qed.

Lemma wp_setPlugins v st (cm : ConfigMap) w c (k : Run TW ReconcileResult) (Q : ReconcileResult → W → list Call → Prop) :
  Kids' w → unsettled r n op user w = [] → child r RabbitmqPluginsConfigMapBuilder w = Some cm →
  notBefore c w → agedBy 2 (pluginsMark w) c →
  (∀ w' c', tidied w w' →
     (∀ cm, child r RabbitmqPluginsConfigMapBuilder w' = Some cm → pluginsConfigUpdated cm = false) →
     (∀ key, contents w' KStatefulSet key = contents w KStatefulSet key) →
     (pluginsConfigUpdated cm = false → sameStore w w' ∧ c' = []) →
     (pluginsConfigUpdated cm = true → Forall (λ i, podExec r i (setPluginsCmd r) ∈ c') (seqZ 0 n)) →
     wp (rv v st) k w' (λ res w'' c'', Q res w'' (c' ++ c''))) →
  wp (rv v st) (setPluginsIfNeeded cm k) w Q.
Proof.
  intros HK Hu Hc Hn Ha HQ. unfold setPluginsIfNeeded. destruct (pluginsConfigUpdated cm) eqn:Ef; cbn [negb].
  - apply wp_bind, (wp_unlogged _ kNow). pose proof (clock_now c w Hn) as Hnow. pose proof (store_now w) as Hs1.
    set (w1 := (kNow w).2) in *. cbn [app].
    rw (not_recent _ _ cm eq_refl).
    { eapply agedBy_le; [exact Hnow|]. unfold pluginsMark in Ha. by rw Hc in Ha. }
    unfold orFail at 1. apply wp_bind. unfold runSetPluginsCommand. apply wp_bind, wp_rmq, wp_bind. unfold deref.
    rw (tidy_replicas _ _ (tidy_revised v st)). apply wp_ret. cbn [app].
    eapply wp_mono; [apply wp_setPluginsLoop|]. intros err w2 c2 (-> & Hs2 & Hc2). cbn beta iota.
    assert (sameStore w w2) as Hs by by eapply sameStore_trans.
    pose proof (sameStore_tidied w w2 HK Hu Hs) as Ht. unfold orFail, removePluginsConfigUpdatedFlag. apply wp_bind.
    eapply wp_mono; [apply (wp_unmark v st RabbitmqPluginsConfigMapBuilder cm pluginsUpdateAnnotation)|].
    + apply Ht.
    + apply Ht.
    + exact plugins_all.
    + by rw (child_same r _ w w2 Hs).
    + by apply (bool_decide_unpack _).
    + done.
    + eapply (hasFlag_annotations KConfigMap). exact Ef.
    + intros err w3 c3 (-> & Ht3 & o' & Ho' & Hf & Hother). cbn beta iota. eapply wp_mono; [apply (HQ w3 (c2 ++ c3))|].
      * by eapply tidied_trans.
      * intros cm' Hcm'. rw Ho' in Hcm'. by injection Hcm' as <-.
      * intros key. by rw Hother // Hs.
      * done.
      * intros _. subst c2. apply Forall_forall. intros i Hi. apply elem_of_app. left.
        exact (list_elem_of_fmap_2 (λ i, podExec r i (setPluginsCmd r)) _ i Hi).
      * intros res w4 c4. by rw app_assoc.
  - eapply wp_mono; [apply (HQ w [])|].
    + by apply sameStore_tidied.
    + intros cm' Hcm'. rw Hc in Hcm'. by injection Hcm' as <-.
    + done.
    + done.
    + done.
    + done.
Qed.

(** The feature flags: the loop takes the flag from each StatefulSet it is
    given. *)
Lemma wp_featureFlags v st stss w (k : Run TW ReconcileResult) (Q : ReconcileResult → W → list Call → Prop) :
  Kids' w → unsettled r n op user w = [] → NoDup stss → Forall (ours r w) stss →
  (∀ w' c, tidied w w' →
     (∀ key, contents w' KConfigMap key = contents w KConfigMap key) →
     (∀ x, ours r w' x → statefulsetCreated x = true → ours r w x ∧ x ∉ stss) →
     (Forall (λ sts, statefulsetCreated sts = false) stss → sameStore w w' ∧ c = []) →
     (∀ sts, sts ∈ stss → statefulsetCreated sts = true → podExec r 0 "rabbitmqctl enable_feature_flag all" ∈ c) →
     wp (rv v st) k w' (λ res w'' c'', Q res w'' (c ++ c''))) →
  wp (rv v st) (enableFeatureFlags stss k) w Q.
Proof.
  intros HK Hu Hnd Ho. revert w Q HK Hu Ho. induction Hnd as [|sts stss Hnin Hnd IH]; intros w Q HK Hu Ho HQ; cbn [enableFeatureFlags].
  - eapply wp_mono; [apply (HQ w [])|done]; [by apply sameStore_tidied|done| |done|].
    + intros x Hx _. split; [done|]. apply not_elem_of_nil.
    + by intros x ?%not_elem_of_nil.
  - apply Forall_cons in Ho as [Ho Hos]. destruct (statefulsetCreated sts) eqn:Ef.
    + unfold orFail at 1. apply wp_bind. unfold runEnableFeatureFlagsCommand. apply wp_bind, wp_rmq.
      eapply wp_mono; [apply wp_exec|]. intros err w1 c1 (-> & Hs1 & Hc1). cbn beta iota.
      pose proof (sameStore_tidied w w1 HK Hu Hs1) as Ht1. unfold orFail, removeStatefulsetCreatedFlag. apply wp_bind.
      destruct (ours_replica r n op user w sts HK Ho) as (i & Hi & Hc).
      eapply wp_mono; [apply (wp_unmark v st (StatefulSetBuilder i) sts stsCreateAnnotation)|].
      * apply Ht1.
      * apply Ht1.
      * by apply SB_all.
      * rw (child_same r _ w w1 Hs1). exact Hc.
      * by apply (bool_decide_unpack _).
      * done.
      * eapply (hasFlag_annotations KStatefulSet). exact Ef.
      * intros err w2 c2 (-> & Ht2 & o' & Ho' & Hf & Hother). cbn beta iota.
        pose proof (tidied_trans _ _ _ Ht1 Ht2) as Ht. pose proof (replica_key r i w sts Hc) as Hkey.
        assert (∀ x, ours r w2 x → statefulsetCreated x = true → ours r w x ∧ x ≠ sts) as Hback.
        { intros x [Hx Hl] Hcr. destruct (decide (stsKeyOf x = stsKeyOf sts)) as [E|E].
          - rw E Hkey in Hx. change (child r (StatefulSetBuilder i) w2 = Some x) in Hx. rw Ho' in Hx. injection Hx as ->.
            by rw /statefulsetCreated Hf in Hcr.
          - split; [|by intros ->]. split; [|done]. rw -Hs1 -Hother //. rw Hkey in E. intros E'. apply E. exact (f_equal snd E'). }
        assert (Forall (ours r w2) stss) as Hos2.
        { apply Forall_forall. intros x Hx. rw Forall_forall in Hos. pose proof (Hos x Hx) as [Hcx Hl]. split; [|done].
          assert (stsKeyOf x ≠ stsKeyOf sts) as E.
          { intros E. rw E (proj1 Ho) in Hcx. injection Hcx as ->. by apply Hnin. }
          rw Hother; [|by rw Hs1]. rw Hkey in E. intros E'. apply E. exact (f_equal snd E'). }
        apply IH; [apply Ht|apply Ht|done|]. intros w3 c3 Ht3 Hcm3 Hfl3 _ _.
        eapply wp_mono; [apply (HQ w3 (c1 ++ c2 ++ c3))|].
        -- by eapply tidied_trans.
        -- intros key. by rw Hcm3 Hother // Hs1.
        -- intros x Hx Hcr. destruct (Hfl3 x Hx Hcr) as [Hx2 Hnx]. destruct (Hback x Hx2 Hcr) as [Hx1 Hne].
           split; [done|]. by apply not_elem_of_cons.
        -- intros [Hfalse _]%Forall_cons. by rw Ef in Hfalse.
        -- intros x _ _. subst c1. apply elem_of_app. left. by apply list_elem_of_singleton.
        -- intros res w4 c4. by rw !app_assoc.
    + apply IH; [done..|]. intros w' c Ht Hcm Hfl Hq Hran. eapply HQ; [done..| | |].
      * intros x Hx Hcr. destruct (Hfl x Hx Hcr) as [Hx1 Hnx]. split; [done|]. apply not_elem_of_cons. split; [|done].
        intros ->. by rw Ef in Hcr.
      * intros [_ Hall]%Forall_cons. by apply Hq.
      * intros x [->|Hin]%elem_of_cons Hcr; [by rw Ef in Hcr|by eapply Hran].
Qed.

End commands.

(** All commands are carried out. *)
Lemma wp_CLI v st w c :
  Kids' w → unsettled r n op user w = [] → calm w c →
  wp (rv v st) reconcileRabbitmqCLI w (λ res w' calls, res = Continue ∧ tidied w w' ∧ unflagged w' ∧
    (unflagged w → sameStore w w' ∧ calls = []) ∧ commanded w calls).
Proof.
  intros HK Hu [Hobey Hready _ Hclock _ Hplug]. unfold reconcileRabbitmqCLI. apply wp_bind, wp_listed; [done|].
  intros stss w1 Hperm Hnd Hin Hs1 Hc1. cbn beta iota. apply wp_bind.
  eapply wp_lift; [by eapply listed_ready|]. cbn [negb app].
  apply wp_bind, wp_rmq, wp_bind. unfold deref. rw (tidy_replicas _ _ (tidy_revised v st)). apply wp_ret. cbn [app].
  assert (length stss = Z.to_nat n) as Hlen.
  { rw (Permutation_length Hperm). by apply (settled_listed r n op user HT (std_readable _ _ _ _ _ HS)). }
  rw Hlen Z2Nat.id; [exact (std_replicas _ _ _ _ _ HS)|]. rw Z.eqb_refl. cbn [negb].
  destruct (kids_fixed r n op user w RabbitmqPluginsConfigMapBuilder HK Hu plugins_all) as (cm & Hcm & _).
  apply wp_bind. unfold configMapPlugins. apply wp_bind, wp_rmq.
  set (key := mkNamespacedName _ _). apply (wp_unlogged _ (kGet KConfigMap key)).
  destruct (store_get KConfigMap key w1) as [Hg Hs2]. change (contents w KConfigMap key = Some cm) in Hcm.
  rw Hs1 Hcm in Hg. cbn in Hg. rw Hg. cbn beta iota. cbn [app].
  assert (Closed (notBefore (W := W) c)) as HC by apply _.
  pose proof (closed_get (J := notBefore (W := W) c) KConfigMap key w1 (Hc1 c Hclock)) as Hc2.
  set (w2 := (kGet KConfigMap key w1).2) in *.
  assert (sameStore w w2) as Hs by by eapply sameStore_trans.
  pose proof (sameStore_tidied w w2 HK Hu Hs) as Ht2.
  assert (∀ x, ours r w2 x ↔ ours r w x) as Hours by (intros x; unfold ours; by rw Hs).
  assert (pluginsMark w2 = pluginsMark w) as Hm by (unfold pluginsMark; by rw (child_same r _ w w2 Hs)).
  apply (wp_setPlugins Hobey v st cm w2 c); [apply Ht2|apply Ht2| |done|by rw Hm|].
  { unfold child. rw Hs. exact Hcm. }
  intros w3 c3 Ht3 Hp3 Hsts3 Hq3 Hran3. apply (wp_featureFlags Hobey v st stss w3); [apply Ht3|apply Ht3|done| |].
  { apply Forall_forall. intros x Hx. apply Hin in Hx as [Hx Hl]. split; [|done]. by rw Hsts3 Hs. }
  intros w4 c4 Ht4 Hcm4 Hfl4 Hq4 Hran4. unfold rebalanceIfNeeded. apply wp_bind, wp_rmq.
  change (needQueueRebalance (rv v st)) with (needQueueRebalance r). rw (std_rebalance _ _ _ _ _ HS). apply wp_ret.
  split; [done|]. split; [eapply tidied_trans; [exact Ht2|]; by eapply tidied_trans|]. split; [split|split; [|split]].
  - intros cm' Hcm'. apply Hp3. unfold child in *. by rw -Hcm4.
  - intros x Hx. destruct (statefulsetCreated x) eqn:Ex; [|done]. destruct (Hfl4 x Hx Ex) as [Hx3 Hnx]. exfalso. apply Hnx, Hin.
    apply Hours. destruct Hx3 as [Hx3 Hl]. split; [|done]. by rw -Hsts3.
  - intros [Hpl Hst]. destruct Hq3 as [Hs3 ->]; [by apply Hpl|].
    destruct Hq4 as [Hs4 ->]; [|split; [|done]; eapply sameStore_trans; [exact Hs|by eapply sameStore_trans]].
    apply Forall_forall. intros x Hx. by apply Hst, Hin.
  - intros cm' Hcm' Hf. change (contents w KConfigMap key = Some cm') in Hcm'. rw Hcm in Hcm'. injection Hcm' as <-.
    eapply Forall_impl; [by apply Hran3|]. intros i Hi. set_solver.
  - intros sts Ho Hcr. apply elem_of_app. right. apply elem_of_app. left. eapply Hran4; [|exact Hcr]. by apply Hin.
Qed.

(** ** One reconciliation *)

Lemma reached_potential w st : reached w st ↔ P w st = count (hasEndpoints r w).
Proof.
  unfold reached, potential. split.
  - intros (-> & -> & -> & ->). cbn. lia.
  - intros E. assert (∀ c, count c = 0 → c = true) as Hcount by (by intros []).
    split_and!; [|apply nil_length_inv; lia|apply Hcount; lia..]. apply nil_length_inv. nia.
Qed.

(** Only the cluster object, or marks, have changed. *)
Lemma restSame_keeps w w' :
  Kids' w → restSame r w w' → Kids' w' ∧ (∀ st, P w' st = P w st) ∧ (∀ st, reached w st → reached w' st) ∧
  (unflagged w → unflagged w').
Proof.
  intros HK Hs. assert (restSame r w' w) as Hs' by (intros k key Hne; by rw Hs).
  pose proof (evolves_kids r n op user (proj2 Heq) w w' HK (restSame_evolves r n op user w w' HK Hs)) as HK'.
  assert (∀ st, P w' st = P w st) as HP.
  { intros st. pose proof (evolves_potential r n op user (proj2 Heq) w w' st (restSame_evolves r n op user w w' HK Hs)).
    pose proof (evolves_potential r n op user (proj2 Heq) w' w st (restSame_evolves r n op user w' w HK' Hs')). lia. }
  split_and!; [done..| |].
  - intros st. rw !reached_potential HP. unfold hasEndpoints. by rw Hs.
  - intros [Hp Hst]. split.
    + intros cm Hcm. apply Hp. rw -Hcm. unfold child. by rw Hs.
    + intros sts [Hc Hl]. apply Hst. split; [|done]. by rw -Hs.
Qed.

Lemma facts_same w w' st :
  sameStore w w' → unsettled r n op user w' = unsettled r n op user w ∧ dueReplicas r n w' = dueReplicas r n w ∧
  conditionsFit r n w' st = conditionsFit r n w st.
Proof.
  intros Hs. assert (∀ i, replica r i w' = replica r i w) as Hi by (intros i; exact (child_same r (StatefulSetBuilder i) w w' Hs)).
  split_and!.
  - apply (sameChildren_unsettled r n op user w w'). apply Forall_forall. intros b _. by apply child_same.
  - apply List.filter_ext. intros i. unfold dueAt, confMark. by rw Hi Hs.
  - apply conditionsFit_same; [|unfold hasEndpoints; by rw Hs]. rw !listedSts_length.
    apply filter_length_ext. intros i _. unfold listedAt. by rw Hi.
Qed.

Lemma tlsStored_same w w' : sameStore w w' → tlsStored w → tlsStored w'.
Proof.
  unfold tlsStored. intros Hs Htls Htl. destruct (Htls Htl) as (secret & Hsec & H1 & H2 & Hca). exists secret. by rw !Hs.
Qed.

Lemma waiting_same w w' : sameStore w w' → waiting w → waiting w'.
Proof.
  intros Hs [Hr Ht Hq]. assert (∀ x, ours r w' x ↔ ours r w x) as Hours by (intros x; unfold ours; by rw Hs). split.
  - intros Hr'. apply Hr. intros sts Ho. by apply Hr', Hours.
  - by eapply tlsStored_same.
  - destruct Hq as [?|[?|Hq]]; [by left|by right; left|]. right. right. intros sts Ho. by apply Hq, Hours.
Qed.

Lemma calm_same w w' c : sameStore w w' → notBefore c w' → calm w c → calm w' c.
Proof.
  intros Hs Hn [Hobey Hready Htls _ Hconf Hplug]. split.
  - exact Hobey.
  - intros sts [Hc Hl]. apply Hready. split; [|done]. by rw -Hs.
  - by eapply tlsStored_same.
  - done.
  - unfold confMark in *. by rw Hs.
  - unfold pluginsMark, child in *. by rw Hs.
Qed.

(** What the steps leave: the cluster in memory has the status [st'], the stored
    one [st0]. *)
Definition stepsPost w st (a : CtrlResult * goerror) r' w' (calls : list Call) : Prop := ∃ v' st' st0,
  r' = rv v' st' ∧ holds r st0 w' ∧ (st' = st → st0 = st') ∧ Kids' w' ∧ (rst_Replicas st' ≤ n)%Z ∧
  (a = doneAnswer ∧ (P w' st' < P w st)%nat ∨
   a = finalAnswer ∧ reached w st ∧ quiescent w' st' ∧ P w' st' = P w st ∧ commanded w calls ∧
     (quiescent w st → sameStore w w' ∧ calls = [] ∧ st' = st)).

Lemma commanded_same w w1 calls : sameStore w w1 → commanded w1 calls → commanded w calls.
Proof.
  intros Hs [Hp Hf]. split.
  - intros cm Hcm. apply Hp. by rw (child_same r _ w w1 Hs).
  - intros sts [Hc Hl]. apply Hf. split; [|done]. by rw Hs.
Qed.

Lemma commanded_app w c1 c2 : commanded w c1 → commanded w (c1 ++ c2).
Proof.
  intros [Hp Hf]. split.
  - intros cm Hcm Hu. eapply Forall_impl; [by eapply Hp|]. intros i Hi. apply elem_of_app. by left.
  - intros sts Ho Hc. apply elem_of_app. left. by eapply Hf.
Qed.

Lemma stepsPost_same w w1 st a r' w' calls :
  Kids' w → sameStore w w1 → stepsPost w1 st a r' w' calls → stepsPost w st a r' w' calls.
Proof.
  intros HK Hs (v' & st' & st0 & Hr & Hh & Hst & HK' & Hrep & HQ). exists v', st', st0. split_and!; [done..|].
  assert (sameStore w1 w) as Hs' by (intros k key; by rw Hs).
  destruct (restSame_keeps w w1 HK (sameStore_rest r w w1 Hs)) as (HK1 & HP & _ & Hu1).
  destruct (restSame_keeps w1 w HK1 (sameStore_rest r w1 w Hs')) as (_ & _ & Hre & _).
  rw HP in HQ. destruct HQ as [?|(-> & Hre1 & Hq & HP1 & Hcmd & Hsame)]; [by left|right].
  split_and!; [done|by apply Hre|done|done|by eapply commanded_same|]. intros (Hw & Hu & Hf). destruct Hsame as (Hs2 & Hc & Hst2).
  - split_and!; [|by apply Hu1|done]. by apply (restSame_keeps w w1 HK (sameStore_rest r w w1 Hs)).
  - split_and!; [by eapply sameStore_trans|done..].
Qed.

(** A step that has nothing to do. *)
Lemma g_pass (step : Run TW ReconcileResult) k v st w c :
  steady (λ s : Op TW, notBefore c (op_world s).1) step (λ _, True) → Kids' w → holds r st w → calm w c →
  wp (rv v st) step w (λ res w' calls, res = Continue ∧ sameStore w w' ∧ calls = []) →
  (∀ w', sameStore w w' → Kids' w' → holds r st w' → calm w' c → goes k (rv v st) w' (stepsPost w' st)) →
  goes (andThen step k) (rv v st) w (stepsPost w st).
Proof.
  intros Hkeep HK Hh Hcalm Hstep Hk. apply g_andThen. eapply g_mono.
  { apply (g_keeps (notBefore c) _ _ _ (λ res r1 w1 calls, r1 = rv v st ∧ res = Continue ∧ sameStore w w1 ∧ calls = []));
      [exact Hkeep|apply Hcalm|]. apply g_wp. eapply wp_mono; [exact Hstep|]. done. }
  intros res r1 w1 c1 [(-> & -> & Hs & ->) Hn]. left. split; [done|]. cbn [app].
  eapply g_mono; [apply Hk|].
  - done.
  - by apply (restSame_keeps w w1 HK (sameStore_rest r w w1 Hs)).
  - by eapply holds_same.
  - by apply (calm_same w).
  - intros a r2 w2 c2. by apply stepsPost_same.
Qed.

(** The same for the steps whose computation does not touch the world. *)
Lemma g_skip (step : Run TW ReconcileResult) k v st w (Q : CtrlResult * goerror → RabbitmqCluster → W → list Call → Prop) :
  (∀ s : Op TW, op_rmq s = rv v st → step s = (Returns Continue, s)) → goes k (rv v st) w Q →
  goes (andThen step k) (rv v st) w Q.
Proof. intros Hs Hk. apply g_andThen, g_wp. eapply wp_of_eq; [exact Hs|]. by left. Qed.

Section chain.
Context (v : string) (st : RabbitmqClusterStatus) (c : Z) (Hrep : (rst_Replicas st ≤ n)%Z).
Abbreviation goesOn k w := (goes k (rv v st) w (stepsPost w st)).

Lemma g_from_CLI w :
  Kids' w → holds r st w → calm w c → reached w st → goesOn (lastStep finish) w.
Proof.
  intros HK Hh Hcalm Hre. unfold lastStep. apply g_bind, g_wp.
  eapply wp_mono; [apply (wp_CLI v st w c); [done|apply Hre|done]|].
  intros res w1 c1 (-> & Ht & Hu1 & Hsame & Hcmd). cbn [Completed].
  assert (∀ st', conditionsFit r n w1 st' = true → fieldsFit r n st' = true → reached w1 st') as Hre1.
  { intros st' Hc' Hf'. split_and!; [apply Ht| |done..]. pose proof (td_potential _ _ Ht st) as HP.
    destruct (reached_potential w st) as [Hto _]. rw (Hto Hre) -(td_endpoints _ _ Ht) in HP.
    apply reached_potential in HP. apply HP. }
  assert (reached w1 st) as Hst1.
  { apply reached_potential. rw (td_potential _ _ Ht) (td_endpoints _ _ Ht). by apply reached_potential. }
  destruct Hst1 as (_ & _ & Hc1 & Hf1). apply g_finish; [done..|]. intros st' w2 Hs2 Hc' Hf' Hfin Hrep' Hsame'.
  destruct (restSame_keeps w1 w2 (td_kids _ _ Ht) (sameStore_rest r w1 w2 Hs2)) as (HK2 & _ & Hre2 & Hu2).
  exists v, st', st. split_and!; [done| |done|done|lia|].
  { destruct Hh as [v0 Hh]. exists v0. by rw Hs2 (td_cluster _ _ Ht). }
  right. split_and!; [done..| | |by apply commanded_app|].
  - split_and!; [|by apply Hu2|done]. by apply Hre2, Hre1.
  - rw (proj1 (reached_potential w st) Hre) (proj1 (reached_potential w2 st') (Hre2 _ (Hre1 _ Hc' Hf'))).
    rw -(td_endpoints _ _ Ht). unfold hasEndpoints. by rw Hs2.
  - intros (_ & Hu & Hfst). destruct (Hsame Hu) as [Hs1 ->]. split_and!; [by eapply sameStore_trans|done|by apply Hsame'].
Qed.

Lemma g_from_Status w :
  Kids' w → holds r st w → calm w c → unsettled r n op user w = [] → dueReplicas r n w = [] →
  conditionsFit r n w st = true → goesOn (andThen reconcileStatus (lastStep finish)) w.
Proof.
  intros HK Hh Hcalm Hu Hd Hc. apply g_andThen, g_Status; [done| |].
  - intros Hf. left. split; [done|]. by apply g_from_CLI.
  - intros Hf v' w' calls st' Hh' Hr'. right. split; [done|].
    destruct (restSame_keeps w w' HK Hr') as (HK' & HP & _). destruct (statusOf_fits r n st) as (Hf' & Hco & Hrep').
    exists v', st', st'. split_and!; [done..|fold st' in Hrep'; lia|]. left. split; [done|]. rw HP. unfold potential.
    rw Hf Hf' (conditionsFit_conditions r n w st st' Hco) Hc. cbn. lia.
Qed.

Lemma g_from_restart w :
  Kids' w → holds r st w → calm w c → unsettled r n op user w = [] → conditionsFit r n w st = true →
  goesOn (andThen restartStatefulSetIfNeeded (andThen reconcileStatus (lastStep finish))) w.
Proof.
  intros HK Hh Hcalm Hu Hc.
  pose proof (wp_restart v st w c HK Hu (calm_clock _ _ Hcalm) (calm_conf _ _ Hcalm)) as Hre.
  assert (Closed (W := W) (notBefore c)) as HC by apply _. destruct (dueReplicas r n w) as [|i due_] eqn:Ed.
  - eapply (g_pass _ _ v st w c); [|done..|].
    + apply (k_restartStatefulSetIfNeeded (λ wl : TW, notBefore c wl.1)).
    + intros w' Hs HK' Hh' Hcalm'. destruct (facts_same w w' st Hs) as (E1 & E2 & E3).
      apply g_from_Status; congruence.
  - apply g_andThen, g_wp. eapply wp_mono; [exact Hre|]. intros res w' calls (-> & HK' & HP & Hother). right.
    split; [done|]. exists v, st, st. split_and!; [done| |done..|by left].
    destruct Hh as [v0 Hh]. exists v0. by rw Hother.
Qed.

Lemma g_from_Resources w :
  Kids' w → holds r st w → calm w c → conditionsFit r n w st = true →
  goesOn (andThen reconcileResources (andThen restartStatefulSetIfNeeded (andThen reconcileStatus (lastStep finish)))) w.
Proof.
  intros HK Hh Hcalm Hc. pose proof (wp_Resources v st w HK (calm_ready _ _ Hcalm)) as Hres.
  assert (Closed (W := W) (notBefore c)) as HC by apply _. destruct (unsettled r n op user w) as [|b rest] eqn:Eu.
  - eapply (g_pass _ _ v st w c); [|done..|].
    + apply (k_reconcileResources (λ wl : TW, notBefore c wl.1)).
    + intros w' Hs HK' Hh' Hcalm'. destruct (facts_same w w' st Hs) as (E1 & E2 & E3).
      apply g_from_restart; congruence.
  - apply g_andThen, g_wp. eapply wp_mono; [exact Hres|]. intros res w' calls (-> & Hset). right.
    split; [done|]. exists v, st, st.
    destruct (settles_potential r n op user HT (std_readable _ _ _ _ _ HS) (proj1 Heq) (std_stamp _ _ _ _ _ HS) b rest w w' st HK Eu Hset) as [HK' HP].
    split_and!; [done| |done..|by left].
    destruct Hh as [v0 Hh]. exists v0. destruct Hset as [_ Hother]. rw Hother //. by destruct b.
Qed.

(** All steps. *)
Lemma g_steps w : Kids' w → holds r st w → calm w c → goesOn (steps d) w.
Proof.
  intros HK Hh Hcalm. pose proof (settled_revised v st) as Hset. unfold steps.
  assert (Closed (W := W) (notBefore c)) as HC by apply _.
  apply g_skip; [intros s Hs; apply (settled_delete d); by rw Hs|].
  apply g_skip; [intros s Hs; apply (settled_paused d); by rw Hs|].
  apply g_skip; [intros s Hs; apply (settled_defaults d); by rw Hs|].
  apply g_andThen. eapply g_mono.
  { apply (g_keeps (notBefore c) _ _ _ (λ res r' w' calls, (res = Continue ∧ conditionsFit r n w st = true ∧
      r' = rv v st ∧ sameStore w w' ∧ calls = []) ∨ (res = Done ∧ stepsPost w st doneAnswer r' w' calls)));
      [apply (k_reconcileStatusConditions (λ wl : TW, notBefore c wl.1))|apply Hcalm|].
    apply (g_conditions v st w); [done|done| |].
    - intros Hc w' Hs. left. split_and!; [done| |done..]. apply Hc, Hcalm.
    - intros v' st' w' calls Hh' Hr' Hc' Hf' Hr. destruct (Hc' (calm_ready _ _ Hcalm)) as [Hc1 Hc2]. right. split; [done|].
      destruct (restSame_keeps w w' HK Hr') as (HK' & HP & _). exists v', st', st'. split_and!; [done..|lia|].
      left. split; [done|]. rw HP. unfold potential. rw Hc1 Hc2 Hf'. cbn. lia. }
  intros res r1 w1 c1 [[(-> & Hfit & -> & Hs & ->)|[-> Hpost]] Hn1]; [left; split; [done|]|by right]. cbn [app].
  eapply g_mono; [|intros a r2 w2 c2; by apply (stepsPost_same w w1)].
  destruct (restSame_keeps w w1 HK (sameStore_rest r w w1 Hs)) as (HK1 & _).
  pose proof (holds_same r st w w1 Hs Hh) as Hh1. pose proof (calm_same w w1 c Hs Hn1 Hcalm) as Hcalm1.
  rw -(proj2 (proj2 (facts_same w w1 st Hs))) in Hfit.
  eapply (g_pass _ _ v st w1 c); [apply (k_reconcileTLS (λ wl : TW, notBefore c wl.1))|done..|apply wp_TLS, Hcalm1|].
  intros w2 Hs2 HK2 Hh2 Hcalm2. rw -(proj2 (proj2 (facts_same w1 w2 st Hs2))) in Hfit.
  eapply (g_pass _ _ v st w2 c); [apply (k_reconcileQueueRebalanced (λ wl : TW, notBefore c wl.1))|done..| |].
  { apply wp_QueueRebalanced; [done|apply Hcalm2]. }
  intros w3 Hs3 HK3 Hh3 Hcalm3. rw -(proj2 (proj2 (facts_same w2 w3 st Hs3))) in Hfit.
  eapply (g_pass _ _ v st w3 c); [apply (k_reconcileScaleDown (λ wl : TW, notBefore c wl.1))|done..|by apply wp_ScaleDown|].
  intros w4 Hs4 HK4 Hh4 Hcalm4. rw -(proj2 (proj2 (facts_same w3 w4 st Hs4))) in Hfit.
  by apply g_from_Resources.
Qed.
End chain.

(** ** The answer *)

Lemma g_withDefer {A} (body : Run TW A) (df : Run TW unit) r1 w (Q : A → RabbitmqCluster → W → list Call → Prop) :
  goes body r1 w (λ a r2 w2 c2, goes df r2 w2 (λ _ r3 w3 c3, Q a r3 w3 (c2 ++ c3))) → goes (withDefer body df) r1 w Q.
Proof.
  intros Hm l. destruct (Hm l) as (a & r2 & w2 & c2 & E & Hd). destruct (Hd (l ++ c2)) as (u & r3 & w3 & c3 & E2 & HQ).
  exists a, r3, w3, (c2 ++ c3). unfold withDefer. rw E E2 app_assoc. done.
Qed.

(** The steps and the deferred update, when the steps leave a cluster in memory
    and in the world as they do above. *)
Lemma g_reconcileFound v st w (R : CtrlResult * goerror → RabbitmqClusterStatus → W → list Call → Prop) :
  goes (steps d) (rv v st) w (λ a r1 w1 c1, ∃ v1 st1 st0,
    r1 = rv v1 st1 ∧ holds r st0 w1 ∧ (st1 = st → st0 = st1) ∧ R a st1 w1 c1) →
  goes (reconcileFound d) (rv v st) w (λ a _ w2 calls, ∃ st1 w1 c1 c2, R a st1 w1 c1 ∧ calls = c1 ++ c2 ∧ holds r st1 w2 ∧
    restSame r w1 w2 ∧ (st1 = st → sameStore w1 w2 ∧ c2 = [])).
Proof.
  intros Hs. unfold reconcileFound. apply g_bind, g_rmq, g_withDefer. cbn [revised rmq_Status app].
  eapply g_mono; [exact Hs|]. intros a r1 w1 c1 (v1 & st1 & st0 & -> & Hh1 & Hst & HR).
  eapply (g_deferred r st v1 st1 st0); [done|intros E; by apply Hst|]. intros v2 w2 c2 Hh2 Hr2 Hsame.
  exists st1, w1, c1, c2. done.
Qed.

Lemma Reconcile_goes w st l (Q : CtrlResult * goerror → W → list Call → Prop) :
  holds r st w →
  (∀ v w1, sameStore w w1 → (∀ c, notBefore c w → notBefore c w1) →
    goes (reconcileFound d) (rv v st) w1 (λ a _ w' calls, Q a w' calls)) →
  ∃ a w' calls, Reconcile (W := TW) d clusterKey (w, l) = (Returns a, (w', l ++ calls)) ∧ Q a w' calls.
Proof.
  intros [v Hc] HQ. destruct (store_get KRabbitmqCluster clusterKey w) as [Hg Hs]. unfold reads in Hg.
  change (contents w KRabbitmqCluster clusterKey = Some (rv v st)) in Hc. rw Hc in Hg.
  set (w1 := (kGet KRabbitmqCluster clusterKey w).2) in *.
  assert (∀ c, notBefore c w → notBefore c w1) as Hn.
  { intros c Hw. assert (Closed (notBefore (W := W) c)) as HC by apply _. by apply (closed_get KRabbitmqCluster). }
  destruct (HQ v w1 Hs Hn l) as (a & r' & w' & calls & E & HQa). exists a, w', calls. split; [|done].
  unfold Reconcile. assert (kGet (W := TW) KRabbitmqCluster clusterKey (w, l) = (inr (rv v st), (w1, l))) as ->.
  { unfold w1. cbn. unfold unlogged. cbn [fst snd]. destruct (kGet KRabbitmqCluster clusterKey w). cbn in *. by subst. }
  by rw E.
Qed.

(** What one reconciliation of a calm world does. *)
Definition callPost w st (a : CtrlResult * goerror) w' (calls : list Call) : Prop := ∃ st',
  holds r st' w' ∧ Kids' w' ∧ (rst_Replicas st' ≤ n)%Z ∧
  (a = doneAnswer ∧ (P w' st' < P w st)%nat ∨
   a = finalAnswer ∧ reached w st ∧ quiescent w' st' ∧ P w' st' = P w st ∧ commanded w calls ∧
     (quiescent w st → sameStore w w' ∧ calls = [] ∧ st' = st)).

Lemma Reconcile_calm w st c l :
  Kids' w → holds r st w → (rst_Replicas st ≤ n)%Z → calm w c →
  ∃ a w' calls, Reconcile (W := TW) d clusterKey (w, l) = (Returns a, (w', l ++ calls)) ∧ callPost w st a w' calls.
Proof.
  intros HK Hh Hrep Hcalm. apply (Reconcile_goes w st); [done|]. intros v w1 Hs Hn.
  destruct (restSame_keeps w w1 HK (sameStore_rest r w w1 Hs)) as (HK1 & _).
  eapply g_mono.
  - apply (g_reconcileFound v st w1 (λ a st1 w1 c1, Kids' w1 ∧ (rst_Replicas st1 ≤ n)%Z ∧
     (a = doneAnswer ∧ (P w1 st1 < P w st)%nat ∨
      a = finalAnswer ∧ reached w st ∧ quiescent w1 st1 ∧ P w1 st1 = P w st ∧ commanded w c1 ∧
      (quiescent w st → sameStore w w1 ∧ c1 = [] ∧ st1 = st)))).
    eapply g_mono; [apply (g_steps v st c Hrep w1 HK1)|].
    + by eapply holds_same.
    + apply (calm_same w); [done|apply Hn, Hcalm|done].
    + intros a r1 w2 c1 Hpost. apply (stepsPost_same w w1) in Hpost; [|done..].
      destruct Hpost as (v' & st' & st0 & -> & Hh' & Hst & HK' & Hrep' & HQ). by exists v', st', st0.
  - intros a r' w2 calls (st1 & w3 & c1 & c2 & (HK3 & Hrep1 & HQ) & -> & Hh2 & Hr2 & Hsame).
    destruct (restSame_keeps w3 w2 HK3 Hr2) as (HK2 & HP & Hre & Hu). exists st1. split_and!; [done..|]. rw HP.
    destruct HQ as [?|(-> & Hrw & Hq & HPq & Hcmd & Hqs)]; [by left|right].
    split_and!; [done..| |done|by apply commanded_app|].
    + destruct Hq as (? & ? & ?). split_and!; [by apply Hre|by apply Hu|done].
    + intros Hw. destruct (Hqs Hw) as (Hs1 & -> & ->). destruct (Hsame eq_refl) as [Hs2 ->].
      split_and!; [by eapply sameStore_trans|done..].
Qed.

(** *** While a StatefulSet is not ready *)

Lemma no_rebalance v st w stss :
  waiting w → Forall (ours r w) stss → anyNeedsRebalance stss (rv v st) = Returns false.
Proof.
  intros [_ _ Hw] Hall. pose proof (tidy_replicas _ _ (tidy_revised v st)) as Hrep. induction Hall as [|sts stss Ho _ IH]; [done|].
  cbn [anyNeedsRebalance]. assert (statefulSetNeedsQueueRebalance sts (rv v st) = Returns false) as ->; [|exact IH].
  unfold statefulSetNeedsQueueRebalance. destruct Hw as [Hsk|[Hn|Hrev]].
  - cbn [revised rmq_Spec]. by rw Hsk andb_false_r.
  - destruct (_ && _); [|done]. rw Hrep /= /mbind /outcome_bind. by rw (proj2 (Z.ltb_ge 1 n)).
  - by rw /statefulSetBeingUpdated (Hrev sts Ho) String.eqb_refl.
Qed.

(** What it does then: at most it writes the conditions. *)
Definition waitPost w st (a : CtrlResult * goerror) st' w' : Prop :=
  Kids' w' ∧ (rst_Replicas st' ≤ n)%Z ∧ (P w' st' ≤ P w st + 1)%nat ∧ (a = doneAnswer ∨ a = waitAnswer).

Lemma g_waiting v st w :
  Kids' w → holds r st w → (rst_Replicas st ≤ n)%Z → waiting w →
  goes (steps d) (rv v st) w (λ a r1 w1 c1, ∃ v1 st1 st0,
    r1 = rv v1 st1 ∧ holds r st0 w1 ∧ (st1 = st → st0 = st1) ∧ waitPost w st a st1 w1).
Proof.
  intros HK Hh Hrep Hw. pose proof (settled_revised v st) as Hset. unfold steps.
  do 3 (apply g_andThen, g_wp; eapply wp_of_eq;
    [intros s Hs; first [apply (settled_delete d)|apply (settled_paused d)|apply (settled_defaults d)]; by rw Hs|];
    left; split; [done|]).
  assert (∀ w', restSame r w w' → Kids' w' ∧ ∀ st, P w' st = P w st) as Hkeep.
  { intros w' Hr. by destruct (restSame_keeps w w' HK Hr) as (? & ? & _). }
  apply g_andThen, (g_conditions v st w); [done..| |].
  2: { intros v' st' w' calls Hh' Hr' _ Hf' Hrep'. right. split; [done|]. exists v', st', st'.
    destruct (Hkeep w' Hr') as [HK' HP]. split_and!; [done..|]. split_and!; [done|lia| |by left]. rw HP. unfold potential. rw Hf'.
    pose proof (count_le (conditionsFit r n w st')). lia. }
  intros _ w1 Hs1. left. split; [done|]. cbn [app].
  assert (∀ w', sameStore w w' → waiting w' ∧ Kids' w') as Hsame.
  { intros w' Hs. split; [by apply (waiting_same w)|by apply Hkeep, sameStore_rest]. }
  destruct (Hsame w1 Hs1) as [Hw1 HK1].
  apply g_andThen, g_wp. eapply wp_mono; [apply wp_TLS, Hw1|]. intros res w2 c2 (-> & Hs2 & ->). left. split; [done|].
  assert (sameStore w w2) as Hs02 by by eapply sameStore_trans. destruct (Hsame w2 Hs02) as [Hw2 HK2].
  apply g_andThen, g_wp. unfold reconcileQueueRebalanced. apply wp_bind, wp_listed; [done|].
  intros stss w3 _ _ Hin Hs3 _. cbn [errorOf IgnoreNotFound itemsOf]. apply wp_bind, wp_rmq, wp_bind.
  eapply wp_lift; [apply (no_rebalance v st w2); [done|apply Forall_forall; intros x; apply Hin]|]. apply wp_ret.
  left. split; [done|]. assert (sameStore w w3) as Hs03 by by eapply sameStore_trans. destruct (Hsame w3 Hs03) as [Hw3 HK3].
  apply g_andThen, g_wp. eapply wp_mono; [by apply wp_ScaleDown|]. intros res w4 c4 (-> & Hs4 & ->). left. split; [done|].
  assert (sameStore w w4) as Hs04 by by eapply sameStore_trans. destruct (Hsame w4 Hs04) as [Hw4 HK4].
  apply g_andThen_answers, g_wp. unfold reconcileResources. apply wp_bind.
  eapply wp_mono; [apply (wp_waitResourceReady (rv v st) w4)|].
  { intros sts Ho. destruct (ours_replica r n op user w4 sts HK4 Ho) as (i & Hi & Hc).
    destruct (kids_sound _ _ _ _ _ HK4 (StatefulSetBuilder i) sts (proj1 (SB_all r n i) Hi) Hc) as (_ & _ & Hl). apply Hl, Ho. }
  intros res w5 c5 (Hs5 & -> & b & Hb & ->). destruct b; [by destruct (wait_ready _ Hw4); apply Hb|].
  cbn [Completed]. apply wp_ret. right. exists waitAnswer. split; [done|]. split; [done|].
  assert (sameStore w w5) as Hs05 by by eapply sameStore_trans. destruct (Hkeep w5 (sameStore_rest r w w5 Hs05)) as [HK5 HP5].
  exists v, st, st. split_and!; [done|by eapply holds_same|done|]. split_and!; [done|done| |by right]. rw HP5. lia.
Qed.

Lemma Reconcile_waiting w st l :
  Kids' w → holds r st w → (rst_Replicas st ≤ n)%Z → waiting w →
  ∃ a w' calls, Reconcile (W := TW) d clusterKey (w, l) = (Returns a, (w', l ++ calls)) ∧
    ∃ st', holds r st' w' ∧ waitPost w st a st' w'.
Proof.
  intros HK Hh Hrep Hw. apply (Reconcile_goes w st l (λ a w' _, ∃ st', holds r st' w' ∧ waitPost w st a st' w')); [done|].
  intros v w1 Hs _. destruct (restSame_keeps w w1 HK (sameStore_rest r w w1 Hs)) as (HK1 & HP1 & _).
  pose proof (waiting_same w w1 Hs Hw) as Hw1.
  eapply g_mono.
  - apply (g_reconcileFound v st w1 (λ a st1 w1' _, waitPost w1 st a st1 w1')). apply g_waiting; [done|by eapply holds_same|done..].
  - intros a r' w2 calls (st1 & w3 & c1 & c2 & (HK3 & Hrep1 & HP & Ha) & -> & Hh2 & Hr2 & _).
    destruct (restSame_keeps w3 w2 HK3 Hr2) as (HK2 & HP2 & _). exists st1. split; [done|]. split_and!; [done..| |done].
    rw HP2. rw HP1 in HP. done.
Qed.

(** ** Many reconciliations *)


(** [history k j w w']: reconciliations on calm worlds, [k] of them with another
    answer than the final one, [j] reconciliations that find a StatefulSet which
    is not ready, and between them steps of others, who leave the cluster object
    alone. *)
Inductive history : nat → nat → W → W → Prop :=
  | history_none w : history 0 0 w w
  | history_others k j w w1 w2 : history k j w w1 → evolves r n w1 w2 →
      (∀ st, holds r st w1 → holds r st w2) → history k j w w2
  | history_call k j w w1 c l out wl : history k j w w1 → calm w1 c →
      Reconcile (W := TW) d clusterKey (w1, l) = (out, wl) → out ≠ Returns finalAnswer → history (S k) j w wl.1
  | history_final k j w w1 c l wl : history k j w w1 → calm w1 c →
      Reconcile (W := TW) d clusterKey (w1, l) = (Returns finalAnswer, wl) → history k j w wl.1
  | history_waiting k j w w1 l out wl : history k j w w1 → waiting w1 →
      Reconcile (W := TW) d clusterKey (w1, l) = (out, wl) → history k (S j) w wl.1.

Lemma history_invariant k j w w' st :
  Kids' w → holds r st w → (rst_Replicas st ≤ n)%Z → history k j w w' →
  ∃ st', holds r st' w' ∧ Kids' w' ∧ (rst_Replicas st' ≤ n)%Z ∧ (k + P w' st' ≤ P w st + j)%nat.
Proof.
  intros HK Hh Hrep Hhist.
  induction Hhist as [w|k j w w1 w2 _ IH Hev Hown|k j w w1 c l out wl _ IH Hcalm E Hout|k j w w1 c l wl _ IH Hcalm E
    |k j w w1 l out wl _ IH Hw E]; [exists st; split_and!; [done..|lia]| | | |];
    destruct (IH HK Hh) as (st1 & Hh1 & HK1 & Hrep1 & HP1).
  - exists st1. split_and!; [by apply Hown| |done|].
    + by apply (evolves_kids r n op user (proj2 Heq) w1).
    + pose proof (evolves_potential r n op user (proj2 Heq) w1 w2 st1 Hev). lia.
  - destruct (Reconcile_calm w1 st1 c l HK1 Hh1 Hrep1 Hcalm) as (a & w2 & calls & E' & st2 & Hh2 & HK2 & Hrep2 & HQ).
    rw E in E'. injection E' as -> ->. exists st2. split_and!; [done..|].
    destruct HQ as [[_ HQ]|(-> & _)]; [cbn [fst]; lia|done].
  - destruct (Reconcile_calm w1 st1 c l HK1 Hh1 Hrep1 Hcalm) as (a & w2 & calls & E' & st2 & Hh2 & HK2 & Hrep2 & HQ).
    rw E in E'. injection E' as <- ->. exists st2. split_and!; [done..|].
    destruct HQ as [[_ HQ]|(_ & _ & _ & HQ & _)]; cbn [fst]; lia.
  - destruct (Reconcile_waiting w1 st1 l HK1 Hh1 Hrep1 Hw) as (a & w2 & calls & E' & st2 & Hh2 & HK2 & Hrep2 & HP2 & _).
    rw E in E'. injection E' as -> ->. exists st2. split_and!; [done..|]. cbn [fst]. lia.
Qed.

Lemma potential_bound w st : (P w st ≤ (Z.to_nat n + 9) * (Z.to_nat n + 2) + Z.to_nat n + 3)%nat.
Proof.
  unfold potential. assert (length (unsettled r n op user w) ≤ Z.to_nat n + 9)%nat as Hu.
  { etrans; [apply List.filter_length_le|]. change (Converge.all r n) with (ResourceBuilders n r). rw ResourceBuilders_eq !length_app length_fmap length_seqZ.
    destruct (_ || _); cbn; lia. }
  pose proof (dueReplicas_most r n w). pose proof (count_le (conditionsFit r n w st)).
  pose proof (count_le (fieldsFit r n st)). pose proof (count_le (hasEndpoints r w)).
  pose proof (Nat.mul_le_mono_r _ _ (Z.to_nat n + 2) Hu). lia.
Qed.
End eventually.

(** ** Property *)

Section property.
Context {W : Type} `{!Kube W, !Library, !Store W, !StoreLaws W, !RemovalLaws W, !ClientLaws W, !Clock W, !ClockLaws W}.
Context (d : Defaults) (r : RabbitmqCluster) (n : Z) (op user : string).

(** C2: reconciling a cluster comes to an end.  The cluster is one that is not
    paused or being deleted, has its finalizer and all defaults filled in, no
    override, a configuration that renders, no TLS-only listeners without TLS,
    no request to rebalance the queues, and is not scaled down; its children are
    sound at first, whichever exist, and the API server stores what it is sent.
    Meanwhile others write the status of the StatefulSets and create the
    endpoints.  A calm reconciliation is one that finds all StatefulSets ready,
    the secrets that TLS needs stored, the last changes of the configuration and
    the plugins long enough ago, and pods in which no command fails.  It does not
    fail or panic, and either it asks to be repeated and lowers a potential,
    which counts the children to be written, the StatefulSets to be restarted
    and the parts of the status to be updated; or it is the last one, which finds
    all of these done, runs in the pods the commands that the annotations ask
    for, takes those annotations away and records its success.  One that finds a
    StatefulSet not ready, with the secrets stored and no update in progress
    that asks for a rebalancing, does not fail or panic either, asks to be
    repeated and raises the potential by at most one, as it may write the
    conditions.  So the number of the former that are not the last is bounded by
    the potential, quadratic in the number of replicas, and the number of the
    latter; and after the last one a further reconciliation calls nothing and
    changes nothing. *)
Theorem Reconcile_converges (k j : nat) (w w' : W) (st : RabbitmqClusterStatus) :
  Standing d r n op user → equalsObjects → Kids r n op user w → holds r st w → (rst_Replicas st ≤ n)%Z →
  history d r n k j w w' →
  ∃ st', holds r st' w' ∧
  (k + potential r n op user w' st' ≤ potential r n op user w st + j)%nat ∧
  (potential r n op user w st ≤ (Z.to_nat n + 9) * (Z.to_nat n + 2) + Z.to_nat n + 3)%nat ∧
  (∀ c l, calm r w' c → ∃ a w'' calls st'',
    Reconcile (W := W * list Call) d (clusterKey r) (w', l) = (Returns a, (w'', l ++ calls)) ∧ holds r st'' w'' ∧
    (a = doneAnswer ∧ (potential r n op user w'' st'' < potential r n op user w' st')%nat ∨
     a = finalAnswer ∧ reached r n op user w' st' ∧ commanded r n w' calls ∧ quiescent r n op user w'' st'' ∧
       (quiescent r n op user w' st' → sameStore w' w'' ∧ calls = [] ∧ st'' = st'))) ∧
  (∀ l, waiting r n w' → ∃ a w'' calls st'',
    Reconcile (W := W * list Call) d (clusterKey r) (w', l) = (Returns a, (w'', l ++ calls)) ∧ holds r st'' w'' ∧
    (potential r n op user w'' st'' ≤ potential r n op user w' st' + 1)%nat ∧ (a = doneAnswer ∨ a = waitAnswer)).
Proof.
  intros HS Heq HK Hh Hrep Hhist.
  destruct (history_invariant d r n op user HS Heq k j w w' st HK Hh Hrep Hhist) as (st' & Hh' & HK' & Hrep' & HP).
  exists st'. split_and!; [done|done|apply potential_bound| |].
  - intros c l Hcalm. destruct (Reconcile_calm d r n op user HS Heq w' st' c l HK' Hh' Hrep' Hcalm)
      as (a & w'' & calls & E & st'' & Hh'' & _ & _ & HQ).
    exists a, w'', calls, st''. split_and!; [done..|]. destruct HQ as [?|(-> & ? & ? & _ & ? & ?)]; [by left|by right].
  - intros l Hw. destruct (Reconcile_waiting d r n op user HS Heq w' st' l HK' Hh' Hrep' Hw)
      as (a & w'' & calls & E & st'' & Hh'' & _ & _ & HP'' & Ha).
    by exists a, w'', calls, st''.
Qed.
End property.
