(* ===== verification/Main.v ===== *)
(** main.go: the configuration of the operator from its environment.  What main
    does with it is in the file Setup. *)

From S2P Require Import Prelude GoStd K8s V1beta1 Kube Steps.
From Stdlib Require Import Ascii.

#[local] Open Scope Z_scope.

(** ** strconv *)

Definition digitOf (c : ascii) : option Z :=
  let n := Z.of_nat (nat_of_ascii c) - 48 in if (0 <=? n) && (n <=? 9) then Some n else None.

Fixpoint digits (s : string) (acc : Z) : option Z :=
  match s with
  | EmptyString => Some acc
  | String c s => d ← digitOf c; digits s (10 * acc + d)
  end.

Definition int64Max : Z := 9223372036854775807.
Definition int64Min : Z := -9223372036854775808.

(** [strconv.ParseInt(s, 10, 64)]: an optional sign and digits, in range. *)
Definition ParseInt (s : string) : option Z :=
  let unsigned t := match t with EmptyString => None | _ => digits t 0 end in
  n ← match s with
      | String "+" t => unsigned t
      | String "-" t => Z.opp <$> unsigned t
      | _ => unsigned s
      end;
  if (int64Min <=? n) && (n <=? int64Max) then Some n else None.

Definition ParseBool (s : string) : option bool :=
  if bool_decide (s ∈ ["1"; "t"; "T"; "true"; "TRUE"; "True"]) then Some true else
  if bool_decide (s ∈ ["0"; "f"; "F"; "false"; "FALSE"; "False"]) then Some false else None.

(** Two's complement of 64 bits. *)
Definition wrap64 (n : Z) : Z := (n - int64Min) mod 18446744073709551616 + int64Min.

(** ** The environment *)

Section main.
Context (LookupEnv : string → option string).

Definition Getenv (name : string) : string := default "" (LookupEnv name).

(** [None] is [os.Exit(1)]; the multiplication of durations wraps. *)
Definition getEnvInDuration (envName : string) : option Z :=
  let durationStr := Getenv envName in
  durationInt ← (if (durationStr =? "")%string then Some 0 else ParseInt durationStr);
  Some (wrap64 (durationInt * Second)).

(** [&duration] unless it is zero. *)
Definition durationOption (duration : Z) : option Z := if duration =? 0 then None else Some duration.

(** The namespaces the cache is limited to; [None] is all of them. *)
Definition defaultNamespaces (operatorScopeNamespace : string) : option (gset string) :=
  if (operatorScopeNamespace =? "")%string then None else
  if Contains operatorScopeNamespace "," then Some (list_to_set (Split operatorScopeNamespace ","%char))
  else Some {[operatorScopeNamespace]}.

Record Config := mkConfig {
  cfg_LeaderElectionNamespace : string;
  cfg_DefaultNamespaces : option (gset string);
  cfg_Defaults : Defaults;
  cfg_LeaseDuration : option Z;
  cfg_RenewDeadline : option Z;
  cfg_RetryPeriod : option Z
}.

(** From the start of [main] to the options of the manager. *)
Definition configure : option Config :=
  let operatorNamespace := Getenv "OPERATOR_NAMESPACE" in
  if (operatorNamespace =? "")%string then None else
  let operatorScopeNamespace := Getenv "OPERATOR_SCOPE_NAMESPACE" in
  let defaultRabbitmqImage := default "rabbitmq:3.13.7-management" (LookupEnv "DEFAULT_RABBITMQ_IMAGE") in
  let defaultUserUpdaterImage :=
    default "rabbitmqoperator/default-user-credential-updater:1.0.2" (LookupEnv "DEFAULT_USER_UPDATER_IMAGE") in
  controlRabbitmqImage ← match LookupEnv "CONTROL_RABBITMQ_IMAGE" with
                          | Some s => ParseBool s
                          | None => Some false
                          end;
  let defaultImagePullSecrets := default "" (LookupEnv "DEFAULT_IMAGE_PULL_SECRETS") in
  leaseDuration ← getEnvInDuration "LEASE_DURATION";
  renewDeadline ← getEnvInDuration "RENEW_DEADLINE";
  retryPeriod ← getEnvInDuration "RETRY_PERIOD";
  Some (mkConfig operatorNamespace (defaultNamespaces operatorScopeNamespace)
    (mkDefaults defaultRabbitmqImage defaultUserUpdaterImage defaultImagePullSecrets controlRabbitmqImage)
    (durationOption leaseDuration) (durationOption renewDeadline) (durationOption retryPeriod)).
End main.

(** ** Lemmas *)

Lemma wrap64_range n : int64Min <= wrap64 n <= int64Max.
Proof.
  rw /wrap64 /int64Min /int64Max.
  pose proof (Z.mod_pos_bound (n - -9223372036854775808) 18446744073709551616 ltac:(lia)). lia.
Qed.

Lemma wrap64_id n : int64Min <= n <= int64Max → wrap64 n = n.
Proof. rw /wrap64 /int64Min /int64Max => Hn. rw Z.mod_small; lia. Qed.

Lemma wrap64_mod n : (18446744073709551616 | wrap64 n - n).
Proof.
  rw /wrap64. pose proof (Z.div_mod (n - int64Min) 18446744073709551616 ltac:(lia)) as Hd.
  exists (- ((n - int64Min) / 18446744073709551616)). lia.
Qed.

Lemma ParseInt_range s n : ParseInt s = Some n → int64Min <= n <= int64Max.
Proof.
  rw /ParseInt. intros (m & _ & Hm)%bind_Some. destruct (_ && _) eqn:E; [|done].
  injection Hm as <-. to_prop. apply Z.leb_le in H, H0. lia.
Qed.

(** ** Properties *)

(** A duration of the environment, in seconds, is turned into nanoseconds in
    64 bits without a check: it is exact as long as the seconds fit, up to
    9223372036 of them, and wraps around otherwise; a multiple of 2^55 seconds
    becomes zero, which is taken for a duration that is not set.  A variable
    that is not set is the duration zero, and one that is no number of 64 bits
    makes the operator exit. *)
Theorem getEnvInDuration_spec env name :
  match ParseInt (Getenv env name) with
  | Some n =>
      ∃ t, getEnvInDuration env name = Some t ∧ int64Min <= t <= int64Max ∧
      (t = n * Second ↔ -9223372036 <= n <= 9223372036) ∧
      (durationOption t = None ↔ (36028797018963968 | n))
  | None => if (Getenv env name =? "")%string then getEnvInDuration env name = Some 0
            else getEnvInDuration env name = None
  end.
Proof.
  rw /getEnvInDuration. destruct (String.eqb_spec (Getenv env name) "") as [->|Hne]; [done|].
  destruct (ParseInt (Getenv env name)) as [n|] eqn:E; [|done].
  exists (wrap64 (n * Second)). split; [done|].
  pose proof (wrap64_range (n * Second)) as Hr. split; [done|].
  pose proof (wrap64_mod (n * Second)) as [q Hq]. split.
  - split.
    + intros Ht. rw Ht in Hr. rw /int64Min /int64Max /Second in Hr. lia.
    + intros Hn. apply wrap64_id. rw /int64Min /int64Max /Second. lia.
  - rw /durationOption. destruct (Z.eqb_spec (wrap64 (n * Second)) 0) as [E0|E0].
    + split; [intros _|done]. rw E0 /Second in Hq.
      apply (Z.gauss _ 1953125); [|done].
      exists (- q). lia.
    + split; [done|]. intros [k ->]. exfalso. apply E0.
      rw /int64Min /int64Max in Hr. rw /Second in Hq Hr E0 |- *.
      assert (∃ z, wrap64 (k * 36028797018963968 * 1000000000) = z * 18446744073709551616) as [z Hz].
      { exists (q + k * 1953125). lia. }
      lia.
Qed.
