(* ===== verification/Setup.v ===== *)
(** What the operator asks of the manager it runs in: the objects the cached
    client holds (the options of main.go), the profiling endpoints (pprof.go),
    the kinds whose changes cause a reconciliation (SetupWithManager of
    rabbitmqcluster_controller.go), and main itself.  The flags of the command
    line and the log are left out. *)

From S2P Require Import Prelude GoStd K8s V1beta1 Metadata Kube Controllerutil ControllerUtils Builders Main.

(** ** The cache *)

(** The selector "app.kubernetes.io/part-of=rabbitmq". *)
Definition rmqSelector : gmap string string := {["app.kubernetes.io/part-of" := "rabbitmq"]}.

(** [options.Cache.ByObject]: kinds and the labels the cached objects must have. *)
Definition cacheByObject : list (Kind * gmap string string) :=
  [(KRabbitmqCluster, ∅); (KStatefulSet, rmqSelector); (KService, rmqSelector); (KConfigMap, rmqSelector);
   (KSecret, rmqSelector); (KServiceAccount, rmqSelector); (KEndpoints, rmqSelector); (KRole, rmqSelector);
   (KRoleBinding, rmqSelector)].

(** Kinds that are not in the map are cached whole. *)
Definition cacheSelector (k : Kind) : gmap string string :=
  match List.find (λ e, bool_decide (e.1 = k)) cacheByObject with Some (_, labels) => labels | None => ∅ end.

(** ** Profiling *)

(** The handlers of net/http/pprof, and those of others. *)
Inductive Handler := PprofIndex | PprofCmdline | PprofProfile | PprofSymbol | PprofTrace | OtherHandler (name : string).

Definition pprofEndpoints : gmap string Handler :=
  {["/debug/pprof" := PprofIndex;
    "/debug/pprof/allocs" := PprofIndex;
    "/debug/pprof/block" := PprofIndex;
    "/debug/pprof/cmdline" := PprofCmdline;
    "/debug/pprof/goroutine" := PprofIndex;
    "/debug/pprof/heap" := PprofIndex;
    "/debug/pprof/mutex" := PprofIndex;
    "/debug/pprof/profile" := PprofProfile;
    "/debug/pprof/symbol" := PprofSymbol;
    "/debug/pprof/threadcreate" := PprofIndex;
    "/debug/pprof/trace" := PprofTrace]}.

(** On [Metrics.ExtraHandlers]; the order of the loop does not matter. *)
Definition AddDebugPprofEndpoints (extraHandlers : gomap Handler) : gomap Handler :=
  Some (map_fold (λ path handler m, <[path := handler]> m) (gm extraHandlers) pprofEndpoints).

(** ** The controller *)

(** The manager: its field indexer, and the builder of controllers with the
    kind to reconcile and the kinds it owns. *)
Class Manager (W : Type) := {
  IndexField (k : Kind) (field : string) (extract : Obj k → list string) : Ext W goerror;
  Complete (for_ : Kind) (owns : list Kind) : Ext W goerror
}.

Definition indexedKinds : list Kind := [KStatefulSet; KConfigMap; KService].
Definition ownedKinds : list Kind :=
  [KStatefulSet; KConfigMap; KService; KRole; KRoleBinding; KServiceAccount; KSecret].

Section setup.
Context {W : Type} `{!Manager W}.

(** The loop over the indexed kinds. *)
Fixpoint indexFields (kinds : list Kind) : Ext W goerror := λ w,
  match kinds with
  | [] => (None, w)
  | k :: kinds =>
      let '(err, w) := IndexField k ".metadata.controller" addResourceToIndex w in
      match err with
      | Some err => (Some err, w)
      | None => indexFields kinds w
      end
  end.

Definition SetupWithManager : Ext W goerror := λ w,
  let '(err, w) := indexFields indexedKinds w in
  match err with
  | Some err => (Some err, w)
  | None => Complete KRabbitmqCluster ownedKinds w
  end.
End setup.

(** ** main *)

(** The rest of the runtime: a manager with options and handlers, its start
    (which blocks until the operator is to stop). *)
Class Process (W : Type) := {
  NewManager (options : Config) (extraHandlers : gomap Handler) : Ext W goerror;
  Start : Ext W goerror
}.

Section main.
Context {W : Type} `{!Manager W, !Process W} (LookupEnv : string → option string).

(** A value that is no boolean counts as false. *)
Definition pprofEnabled : bool :=
  match LookupEnv "ENABLE_DEBUG_PPROF" with Some s => default false (ParseBool s) | None => false end.

(** The exit code: 1 is [os.Exit(1)], 0 is the end of the function. *)
Definition main : Ext W nat := λ w,
  match configure LookupEnv with
  | None => (1%nat, w)
  | Some options =>
      let extraHandlers := if pprofEnabled then AddDebugPprofEndpoints None else None in
      let '(err, w) := NewManager options extraHandlers w in
      match err with
      | Some _ => (1%nat, w)
      | None =>
          let '(err, w) := SetupWithManager w in
          match err with
          | Some _ => (1%nat, w)
          | None =>
              let '(err, w) := Start w in
              (match err with Some _ => 1%nat | None => 0%nat end, w)
          end
      end
  end.
End main.

(** ** Lemmas *)

(** What the operator generates is watched, and is cached by its label. *)
Lemma builderKind_watched b : builderKind b ∈ ownedKinds ∧ cacheSelector (builderKind b) = rmqSelector.
Proof. split; [apply (bool_decide_unpack _)|]; by destruct b. Qed.

(** The kinds that are indexed have owners to index by. *)
Lemma indexed_owned k : k ∈ indexedKinds → k ∈ ownedKinds.
Proof.
  intros Hk. apply (proj1 (Forall_forall (λ k, k ∈ ownedKinds) indexedKinds)); [|exact Hk].
  apply (bool_decide_unpack _). vm_compute. exact I.
Qed.

(** The endpoints are added, and other handlers stay. *)
Lemma AddDebugPprofEndpoints_lookup extra path :
  gm_lookup (AddDebugPprofEndpoints extra) path =
  match pprofEndpoints !! path with Some h => Some h | None => gm_lookup extra path end.
Proof.
  unfold AddDebugPprofEndpoints, gm_lookup at 1. cbn [gm default from_option id]. generalize pprofEndpoints as m. intros m.
  revert path. apply (map_fold_weak_ind (λ r m, ∀ path, r !! path =
    match m !! path with Some h => Some h | None => gm_lookup extra path end)).
  - intros path. by rw lookup_empty.
  - intros i x m' r Hi IH path. destruct (decide (i = path)) as [->|Hne]; [by rw !lookup_insert_eq|].
    by rw !lookup_insert_ne.
Qed.

(** The manager is started only with a configuration, and after the controller
    has been set up; without one nothing happens. *)
Lemma main_stops {W} `{!Manager W, !Process W} env (w : W) : configure env = None → main env w = (1%nat, w).
Proof. unfold main. by intros ->. Qed.
