(* ===== verification/Hidden.v ===== *)
(** The labels by which the operator finds its children: the cached client shows
    it only objects with one label, and StatefulSets are listed by another.  An
    override can replace both. *)

From S2P Require Import Prelude GoStd K8s V1beta1 Constant Metadata Merge Kube Controllerutil Builder Plugins Services.
From S2P Require Import Secrets Rbac ServerConf Overrides Sts Builders Trace Result Status ControllerUtils Configurations.
From S2P Require Import Resources Store Authority Setup Hoare.

(** ** Definitions *)

(** The cached client holds the object. *)
Definition shown {k} (o : Obj k) : Prop := carries (cacheSelector k) (meta o).

(** The labels of the override that applies to the objects of a builder. *)
Definition labelOverride (r : RabbitmqCluster) (b : ResourceBuilder) : gomap string :=
  match b with
  | ServiceBuilder => (ros_Service (rs_Override (rmq_Spec r)) ≫= svo_EmbeddedLabelsAnnotations) ≫= ela_Labels
  | StatefulSetBuilder _ => (ros_StatefulSet (rs_Override (rmq_Spec r)) ≫= sto_EmbeddedLabelsAnnotations) ≫= ela_Labels
  | _ => None
  end.

(** The override leaves the label at the value. *)
Definition leaves (r : RabbitmqCluster) (b : ResourceBuilder) (key v : string) : Prop :=
  ∀ v', gm_lookup (labelOverride r b) key = Some v' → v' = v.

(** The labels of the objects of a builder. *)
Definition childLabels (r : RabbitmqCluster) (b : ResourceBuilder) : gomap string :=
  let labels := Some (GetLabels (rmq_Name r) (rmq_Labels r)) in
  match labelOverride r b with Some l => mergeMap labels (Some l) | None => labels end.

(** ** Lemmas *)

Lemma carries_singleton key v m : carries {[key := v]} m ↔ gm_lookup (om_Labels m) key = Some v.
Proof.
  unfold carries. split.
  - intros H. apply H, lookup_insert_eq.
  - intros H key' v' [<- <-]%lookup_singleton_Some. exact H.
Qed.

Lemma mergeMap_lookup base override key : gm_lookup (mergeMap base override) key =
  match gm_lookup override key with Some v => Some v | None => gm_lookup base key end.
Proof.
  change (mergeMap base override) with (mergeWithFilter (λ _, true) base [override]).
  rw mergeWithFilter_get /lookup_last /=. by destruct (gm_lookup override key).
Qed.

Lemma childLabels_lookup r b key v :
  Label (rmq_Name r) !! key = Some v → HasPrefix key "app.kubernetes.io" = true →
  gm_lookup (childLabels r b) key = Some v ↔ leaves r b key v.
Proof.
  intros Hl Hp. assert (gm_lookup (Some (GetLabels (rmq_Name r) (rmq_Labels r))) key = Some v) as Hg.
  { rw /gm_lookup /= GetLabels_lookup Hp Hl. by destruct (gm_lookup _ _). }
  unfold childLabels, leaves. destruct (labelOverride r b) as [l|]; [|by split].
  rw mergeMap_lookup Hg. destruct (gm_lookup (Some l) key) as [v'|].
  - split; [by intros [= ->] ? [= <-]|]. intros H. by rw (H v').
  - by split.
Qed.

Lemma setController_labels {k} r (o o' : Obj k) :
  setController r o = inr o' → om_Labels (meta o') = om_Labels (meta o).
Proof. intros ->%setController_meta. by rw meta_set_meta. Qed.

(** *** The labels after an update *)

Section labels.
Context `{!Library}.

Lemma copyLabels m ela : om_Labels (copyLabelsAnnotations m ela) =
  match ela_Labels ela with Some l => mergeMap (om_Labels m) (Some l) | None => om_Labels m end.
Proof. unfold copyLabelsAnnotations. by destruct (ela_Labels ela), (ela_Annotations ela). Qed.

(** The labels of [m], with those of an override. *)
Definition overlaid (ela : option EmbeddedLabelsAnnotations) (m : ObjectMeta) : gomap string :=
  match ela ≫= ela_Labels with Some l => mergeMap (om_Labels m) (Some l) | None => om_Labels m end.

Lemma applySvcOverride_labels svc o svc' : applySvcOverride svc o = inr svc' →
  om_Labels (svc_ObjectMeta svc') = overlaid (svo_EmbeddedLabelsAnnotations o) (svc_ObjectMeta svc).
Proof.
  unfold applySvcOverride. set (svc1 := match svo_EmbeddedLabelsAnnotations o with Some _ => _ | None => _ end).
  assert (om_Labels (svc_ObjectMeta svc1) = overlaid (svo_EmbeddedLabelsAnnotations o) (svc_ObjectMeta svc)) as <-.
  { unfold svc1, overlaid. destruct (svo_EmbeddedLabelsAnnotations o); [|done]. apply copyLabels. }
  repeat (case_match; try done); by intros [= <-].
Qed.

Lemma overrideClaims_meta r sts os sts' : overrideClaims r sts os = ok sts' → sts_ObjectMeta sts' = sts_ObjectMeta sts.
Proof.
  unfold overrideClaims. destruct os as [|o os]; [by intros [= <-]|]. unfold mbind, outcome_bind.
  destruct (storageIsZero r) as [[]|]; [by intros [= <-]| |done]. destruct (overridePVCs _ _ _); [done|]. by intros [= <-].
Qed.

Lemma overrideTemplate_meta sts t sts' : overrideTemplate sts t = ok sts' → sts_ObjectMeta sts' = sts_ObjectMeta sts.
Proof.
  unfold overrideTemplate. destruct (pto_Spec t); [|by intros [= <-]]. intros (spec & _ & [= <-])%tryf_inv. done.
Qed.

Lemma applyStsOverride_labels r sts o sts' : applyStsOverride r sts o = ok sts' →
  om_Labels (sts_ObjectMeta sts') = overlaid (sto_EmbeddedLabelsAnnotations o) (sts_ObjectMeta sts).
Proof.
  unfold applyStsOverride. set (sts1 := match sto_EmbeddedLabelsAnnotations o with Some _ => _ | None => _ end).
  assert (om_Labels (sts_ObjectMeta sts1) = overlaid (sto_EmbeddedLabelsAnnotations o) (sts_ObjectMeta sts)) as <-.
  { unfold sts1, overlaid. destruct (sto_EmbeddedLabelsAnnotations o); [|done]. apply copyLabels. }
  destruct (sto_Spec o) as [spec|]; [|by intros [= <-]]. intros (sts2 & H2 & H3)%tryf_inv.
  apply overrideClaims_meta in H2. destruct (sso_Template spec); [|by injection H3 as <-; rw H2].
  apply overrideTemplate_meta in H3. by rw H3 H2.
Qed.

(** An update of a builder that reads the cluster only. *)
Definition labels_as k (f : RabbitmqCluster → Obj k → fallible (Obj k)) (b : ResourceBuilder) : Prop :=
  ∀ r x x', f r x = ok x' → om_Labels (meta x') = childLabels r b.

(** Case analysis down to the last step of an update. *)
Ltac relabelled H :=
  unfold mbind, outcome_bind, ok in H;
  repeat match type of H with
  | Returns (@setController _ _ _) = _ => fail 1
  | context [match ?x with _ => _ end] => destruct x; try done
  end;
  injection H as H; lazymatch type of H with @setController ?k _ _ = _ => by apply (setController_labels (k := k)) in H end.

Lemma pure_labels :
  labels_as KService HeadlessService_Update HeadlessServiceBuilder ∧
  labels_as KSecret ErlangCookie_Update ErlangCookieBuilder ∧
  labels_as KSecret DefaultUserSecret_Update DefaultUserSecretBuilder ∧
  labels_as KConfigMap RabbitmqPluginsConfigMap_Update RabbitmqPluginsConfigMapBuilder ∧
  labels_as KServiceAccount ServiceAccount_Update ServiceAccountBuilder ∧
  labels_as KRole Role_Update RoleBuilder ∧
  labels_as KRoleBinding RoleBinding_Update RoleBindingBuilder.
Proof.
  split_and!; intros r x x' Hx.
  - unfold HeadlessService_Update in Hx. relabelled Hx.
  - unfold ErlangCookie_Update in Hx. relabelled Hx.
  - unfold DefaultUserSecret_Update in Hx. relabelled Hx.
  - unfold RabbitmqPluginsConfigMap_Update in Hx. relabelled Hx.
  - unfold ServiceAccount_Update in Hx. relabelled Hx.
  - unfold Role_Update in Hx. relabelled Hx.
  - unfold RoleBinding_Update in Hx. relabelled Hx.
Qed.

Lemma StatefulSet_labels i : labels_as KStatefulSet (λ r, StatefulSet_Update r) (StatefulSetBuilder i).
Proof.
  intros r x x' Hx. unfold StatefulSet_Update, mbind, outcome_bind in Hx.
  destruct (generatedSpec r _) as [spec|]; [|done]. apply tryf_inv in Hx as (sts1 & H1 & Hx). injection Hx as Hx.
  apply (setController_labels (k := KStatefulSet)) in Hx. rw Hx. unfold childLabels, labelOverride.
  destruct (ros_StatefulSet _) as [o|]; [|by injection H1 as <-].
  apply wrapf_inv, applyStsOverride_labels in H1. exact H1.
Qed.

Lemma ServerConfigMap_labels r flag flag0 x x' flag' :
  ServerConfigMap_Update r flag x = ok (x', flag') →
  om_Labels (cm_ObjectMeta x') = childLabels r (ServerConfigMapBuilder flag0).
Proof.
  unfold ServerConfigMap_Update. destruct (iniLoad _); [done|]. destruct (rs_Replicas _); [|done].
  unfold ok. cbn. intros [= Hu]. apply tryr_inv in Hu as ([op user] & _ & Hu). apply tryr_inv in Hu as (cm & Hcm & Hu).
  apply tryr_inv in Hu as (fl & _ & [= <- <-]). by apply (setController_labels (k := KConfigMap)) in Hcm.
Qed.

Lemma Service_finish_labels r x x' : Service_finish r x = inr x' →
  om_Labels (svc_ObjectMeta x') =
    overlaid (ros_Service (rs_Override (rmq_Spec r)) ≫= svo_EmbeddedLabelsAnnotations) (svc_ObjectMeta x).
Proof.
  unfold Service_finish. cbv zeta. destruct (ros_Service _) as [o|]; cbn [mbind option_bind].
  - destruct (applySvcOverride _ o) as [err|svc] eqn:E; [done|]. apply applySvcOverride_labels in E.
    intros Hc. apply (setController_labels (k := KService)) in Hc. by rw Hc E.
  - intros Hc. by apply (setController_labels (k := KService)) in Hc.
Qed.

Lemma Service_labels x (r : RabbitmqCluster) x' r' :
  Service_Update x r = (Returns (inr x'), r') → om_Labels (svc_ObjectMeta x') = childLabels r ServiceBuilder.
Proof.
  intros Hu. unfold Service_Update, mbind, M_bind, get, lift, modify in Hu. cbv beta iota zeta in Hu.
  destruct (Service_Ports r _) as [ports|]; [|done]. injection Hu as Hu _.
  apply Service_finish_labels in Hu. destruct (defaultServiceType_spec r) as (_ & _ & _ & Ho). rw Ho in Hu. rw Hu.
  unfold annotateService. by destruct (rss_Annotations _).
Qed.

Context {W : Type} `{!Kube W}.
Implicit Types (s : Op W).

Lemma pureUpdate_labels k f b o s o' s' :
  labels_as k f b → pureUpdate k f (existT k o) s = (Returns (inr o'), s') →
  ∃ x, o' = existT k x ∧ om_Labels (meta x) = childLabels (op_rmq s) b.
Proof.
  intros Hf Hu. unfold pureUpdate, mbind, M_bind in Hu. rw assertKind_self in Hu. unfold rmq, gets, lift in Hu.
  destruct (f (op_rmq s) o) as [[err|x]|] eqn:E; [done| |done]. injection Hu as <- _. exists x. split; [done|]. by apply Hf in E.
Qed.

(** The labels of every generated object. *)
Lemma Update_labels b (o : Obj (builderKind b)) s o' b' s' :
  Update b (existT (builderKind b) o) s = (Returns (inr o', b'), s') →
  ∃ x : Obj (builderKind b), o' = existT _ x ∧ om_Labels (meta x) = childLabels (op_rmq s) b.
Proof.
  intros Hu. destruct pure_labels as (H1 & H2 & H3 & H4 & H5 & H6 & H7).
  destruct b; cbn [Update builderKind] in *;
    try (m_inv Hu; injection Hu as -> <- <-; eapply pureUpdate_labels; [|exact E]; auto using StatefulSet_labels; done).
  - unfold mbind, M_bind in Hu. rw (assertKind_self KService) in Hu. unfold onInstance in Hu.
    destruct (Service_Update o (op_rmq s)) as [[[err|x]|] r'] eqn:E; try done. injection Hu as <- _ _.
    exists x. split; [done|]. by eapply Service_labels.
  - unfold mbind, M_bind in Hu. rw (assertKind_self KConfigMap) in Hu. unfold rmq, gets, lift in Hu.
    destruct (ServerConfigMap_Update _ _ o) as [[err|[x flag]]|] eqn:E; try done. injection Hu as <- _ _.
    exists x. split; [done|]. by eapply ServerConfigMap_labels.
Qed.
End labels.

(** ** A server behind a cache with a selector *)

(** The cached client finds a stored object if it is shown; creating an object
    that exists is refused. *)
Class FilteredLaws (W : Type) `{!Kube W, !Store W} : Prop := {
  filtered_get k key (w : W) : sameStore w (kGet k key w).2 ∧
    match contents w k key with
    | Some o => shown o ∧ (kGet k key w).1 = inr o ∨
                ¬ shown o ∧ ∃ err, (kGet k key w).1 = inl err ∧ errIsNotFound err = true
    | None => ∃ err, (kGet k key w).1 = inl err ∧ errIsNotFound err = true
    end;
  filtered_create k (o : Obj k) (w : W) : is_Some (contents w k (ObjectKeyFromObject o)) →
    sameStore w (kCreate k o w).2 ∧
    ∃ err, (kCreate k o w).1 = inl err ∧ ReasonForError err = StatusReasonAlreadyExists;
  filtered_now (w : W) : sameStore w (kNow w).2
}.

Section stuck.
Context {W : Type} `{!Kube W, !Store W, !FilteredLaws W, !Library} (w0 : W) (svc : Service).
Abbreviation key := (ObjectKeyFromObject (k := KService) svc).
Context (Hstored : contents w0 KService key = Some svc) (Hhidden : ¬ shown (k := KService) svc).

(** Nothing has been written. *)
Definition untouched (s : Op W) : Prop := sameStore w0 (op_world s).

Lemma t_assertKind {S} (P E : S → Prop) k (x : Obj k) : triple P (assertKind k (existT k x)) (λ y s, P s ∧ y = x) E.
Proof. intros s Hs. by rw assertKind_self. Qed.

(** The update of a Service does not panic. *)
Lemma t_Update_Service (o : Service) (E : Op W → Prop) :
  triple untouched (Update ServiceBuilder (existT KService o))
    (λ u s, untouched s ∧ u.2 = ServiceBuilder ∧ ∀ o', u.1 = inr o' → ∃ x, o' = existT KService x) E.
Proof.
  cbn [Update]. eapply t_bind; [apply (t_assertKind _ _ KService)|]. intros x. apply t_pure. intros _.
  eapply (t_bind _ _ _ (λ _, untouched)).
  - intros s Hs. unfold onInstance, Service_Update, mbind, M_bind, get, lift, modify, Service_Ports.
    match goal with |- context [mergePorts ?a ?b] => destruct (mergePorts_total a b) as [ports ->] end. exact Hs.
  - intros r. apply t_ret. intros s Hs. split_and!; [done|done|]. intros o' Ho. destruct r as [|y]; [done|].
    injection Ho as <-. by exists y.
Qed.

Lemma t_mutate_Service (o : Service) (E : Op W → Prop) :
  triple untouched (mutate (k := KService) ServiceBuilder key o)
    (λ m s, untouched s ∧ m.2 = ServiceBuilder ∧ ∀ o', m.1 = inr o' → ObjectKeyFromObject (k := KService) o' = key) E.
Proof.
  unfold mutate. eapply t_bind; [apply t_Update_Service|]. intros [[err|o'] b]; cbn [fst snd].
  { apply t_ret. by intros s (? & ? & _). }
  apply t_pure. intros [-> Ho]. destruct (Ho o' eq_refl) as [x ->].
  eapply t_bind; [apply t_assertKind|]. intros y. apply t_pure. intros ->.
  case_bool_decide as Hk; apply t_ret; intros s Hs; split_and!; try done. intros o' [= <-].
  by destruct (decide (key = ObjectKeyFromObject (k := KService) x)).
Qed.

(** The variables of the loop: the Service under its key. *)
Definition onService (v : Vars) : Prop :=
  ∃ o : Service, v = mkVars (existT KService o) ServiceBuilder OperationResultNone ∧
  ObjectKeyFromObject (k := KService) o = key.

(** An attempt does not find the Service and may not create it. *)
Lemma t_hidden_attempt (o : Service) (E : Op W → Prop) :
  ObjectKeyFromObject (k := KService) o = key →
  triple untouched (CreateOrUpdateObj (k := KService) ServiceBuilder o)
    (λ r s, untouched s ∧ onService r.1 ∧ ∃ err, r.2 = Some err) E.
Proof.
  intros Hk. unfold CreateOrUpdateObj. cbv zeta. rw Hk.
  eapply (t_bind _ _ _ (λ got s, untouched s ∧ ∃ err, got = inl err ∧ errIsNotFound err = true)).
  { intros s Hs. destruct (filtered_get KService key (op_world s)) as [Hsame Hget]. rw Hs Hstored in Hget.
    unfold ext. destruct (kGet KService key (op_world s)) as [got w]. cbn in *. split; [exact (sameStore_trans _ _ _ Hs Hsame)|].
    destruct Hget as [[Hsh _]|[_ He]]; [done|exact He]. }
  intros got. apply t_pure. intros (err & -> & ->). cbn [negb].
  eapply t_bind; [apply t_mutate_Service|]. intros [[e|o1] b]; cbn [fst snd]; apply t_pure; intros [-> Ho].
  { apply t_ret. intros s Hs. split_and!; [done|by exists o|by eexists]. }
  specialize (Ho o1 eq_refl).
  eapply (t_bind _ _ _ (λ r s, untouched s ∧ ∃ e, r = inl e)).
  { intros s Hs. destruct (filtered_create KService o1 (op_world s)) as (Hsame & e & He & _).
    { rw Ho Hs Hstored. by eexists. }
    unfold ext. destruct (kCreate KService o1 (op_world s)) as [r w]. cbn in *. split; [exact (sameStore_trans _ _ _ Hs Hsame)|].
    by exists e. }
  intros r. apply t_pure. intros [e ->]. apply t_ret. intros s Hs. split_and!; [done|by exists o1|by eexists].
Qed.

Lemma t_hidden_attempts (v : Vars) :
  onService v →
  triple untouched (withLocal v (RetryOnConflict attempt))
    (λ r s, untouched s ∧ v_result r.2 = OperationResultNone ∧ ∃ err, r.1 = Some err) (λ _, False).
Proof.
  intros Hv. apply t_withLocal. unfold RetryOnConflict, OnError.
  eapply t_conseq; [apply (t_retries 4 errIsConflict attempt None (λ sl, untouched sl.1 ∧ onService sl.2)
    (λ err sl, (untouched sl.1 ∧ onService sl.2) ∧ ∃ e, err = Some e) (λ _, False))| | |done].
  - unfold attempt. intros [s u] [Hs (o & Hu & Hk)]. cbn [fst snd] in *. subst u.
    pose proof (t_hidden_attempt o (λ _, False) Hk s Hs) as H1. unfold mbind, M_bind, local, outer, set_local, mret, M_ret.
    cbn [fst snd v_builder v_object]. unfold CreateOrUpdate. cbn [projT1 projT2].
    destruct (CreateOrUpdateObj (k := KService) _ o s) as [[[u' err]|msg] s']; cbn [fst snd] in *; [|done].
    destruct H1 as (Hs' & Hu & e & ->). destruct (errIsConflict e); [|by eauto]. by split; [|by eauto].
  - intros [s u] [Hs Hu]. cbn in *. by subst u.
  - intros err [s u] [[Hs (o & Hu & _)] He]. cbn in *. subst u. by split_and!.
Qed.

(** The round on the Service. *)
Lemma hidden_round s :
  untouched s → (builderTarget (op_rmq s) ServiceBuilder).2 = key →
  ∃ err s', reconcileBuilder ServiceBuilder s = (Returns (ErrorResult err), s') ∧ untouched s'.
Proof.
  intros Hs Hk. unfold reconcileBuilder.
  assert (Build ServiceBuilder s = (Returns (inr (existT KService (Service_Build (op_rmq s)))), s)) as Eb by done.
  rw (M_bind_eq _ _ _ _ _ Eb). cbn [reconcilePVCOf]. rw M_bind_ret. change (Completed Continue) with false. cbv iota.
  set (v := mkVars _ _ _). assert (onService v) as Hv by (exists (Service_Build (op_rmq s)); by split).
  pose proof (t_hidden_attempts v Hv s Hs) as Ha.
  destruct (withLocal v (RetryOnConflict attempt) s) as [[[err v']|msg] s1] eqn:E; cbn [fst snd] in Ha; [|done].
  destruct Ha as (Hs1 & Hr & e & ->). rw (M_bind_eq _ _ _ _ _ E). cbn beta iota.
  unfold logAndRecordOperationResult. rw Hr bool_decide_eq_true_2 // M_bind_ret. unfold setCondition.
  unfold mbind, M_bind, ext. pose proof (filtered_now (op_world s1)) as Hn. destruct (kNow (op_world s1)) as [now w].
  cbn in *. eexists _, _. split; [done|]. exact (sameStore_trans _ _ _ Hs1 Hn).
Qed.
End stuck.

(** ** Properties *)

(** C30: what the operator generates is what it finds again, unless an override
    takes a label away.  The cached client shows an object that an update has
    produced exactly if the override of its builder, which only the client
    service and the StatefulSets have, leaves the label part-of alone; and the
    list of the StatefulSets of the cluster selects it exactly if the override
    leaves the label name alone.  No label of the cluster itself can hide a
    child. *)
Theorem children_shown `{!Kube W, !Library} b (o : Obj (builderKind b)) (s : Op W) o' b' s' :
  Update b (existT (builderKind b) o) s = (Returns (inr o', b'), s') →
  ∃ x : Obj (builderKind b), o' = existT _ x ∧
    (shown x ↔ leaves (op_rmq s) b "app.kubernetes.io/part-of" "rabbitmq") ∧
    (carries (Metadata.LabelSelector (rmq_Name (op_rmq s))) (meta x) ↔
     leaves (op_rmq s) b "app.kubernetes.io/name" (rmq_Name (op_rmq s))).
Proof.
  intros Hu. destruct (Update_labels b o s o' b' s' Hu) as (x & -> & Hl). exists x. split; [done|].
  destruct (builderKind_watched b) as [_ Hc]. unfold shown. rw Hc. unfold rmqSelector, Metadata.LabelSelector.
  rw !carries_singleton Hl. split; apply childLabels_lookup; done.
Qed.

(** C11: an override that relabels the client service hides it from the operator
    for good.  If the override sets the label part-of to another value, the
    Service that the operator has written is not found again; the round on it
    tries to create it, which is refused, and ends with an error, whatever the
    Service is like; nothing is written, and no child after it is reached. *)
Theorem hidden_service_stuck `{!Kube W, !Store W, !FilteredLaws W, !Library} (svc : Service) (s : Op W) bs :
  let r := op_rmq s in
  ¬ leaves r ServiceBuilder "app.kubernetes.io/part-of" "rabbitmq" →
  contents (op_world s) KService (builderTarget r ServiceBuilder).2 = Some svc →
  om_Labels (svc_ObjectMeta svc) = childLabels r ServiceBuilder →
  ObjectKeyFromObject (k := KService) svc = (builderTarget r ServiceBuilder).2 →
  ∃ err s', reconcileBuilders (ServiceBuilder :: bs) s = (Returns (ErrorResult err), s') ∧
    sameStore (op_world s) (op_world s').
Proof.
  intros r Hov Hc Hl Hk. rw -Hk in Hc.
  assert (¬ shown (k := KService) svc) as Hh.
  { unfold shown. change (cacheSelector KService) with rmqSelector. unfold rmqSelector. rw carries_singleton.
    cbn [meta]. rw Hl childLabels_lookup; done. }
  destruct (hidden_round (op_world s) svc Hc Hh s (sameStore_refl _) (eq_sym Hk)) as (err & s' & E & Hs').
  exists err, s'. split; [|exact Hs']. cbn [reconcileBuilders]. by rw (M_bind_eq _ _ _ _ _ E).
Qed.
