(* ===== verification/Memory.v ===== *)
(** The memory of a Go program, for the code in which it matters which values
    share storage: variables, arrays and maps at locations, the values that
    point to them, what can be read from a value (the tree under it), and a
    logic of computations that allocate but leave the old memory alone. *)

From S2P Require Import Prelude.

(** ** Values and memory *)

Definition loc : Set := positive.

(** A slice points into a backing array: offset and length (the capacity
    matters to [append] only).  A struct is a value with its fields in order. *)
Inductive val :=
  | VInt (z : Z)
  | VString (s : string)
  | VBool (b : bool)
  | VStruct (fields : list (string * val))
  | VPtr (p : option loc)
  | VSlice (s : option (loc * nat * nat))
  | VMap (m : option loc).

Inductive cell :=
  | CVar (v : val)
  | CArray (vs : list val)
  | CMap (m : gmap string val).

Abbreviation heap := (gmap loc cell).

(** Types, as far as they decide what is shared when a value is assigned. *)
Inductive ty :=
  | TInt | TString | TBool
  | TStruct (fields : list (string * ty))
  | TPtr (t : ty)
  | TSlice (t : ty)
  | TMap (t : ty).

(** The zero value of a type. *)
Fixpoint zero (t : ty) : val :=
  match t with
  | TInt => VInt 0
  | TString => VString ""
  | TBool => VBool false
  | TStruct fields => VStruct ((λ '(n, t), (n, zero t)) <$> fields)
  | TPtr _ => VPtr None
  | TSlice _ => VSlice None
  | TMap _ => VMap None
  end.

(** No value of the type points anywhere. *)
Fixpoint plain (t : ty) : bool :=
  match t with
  | TInt | TString | TBool => true
  | TStruct fields => forallb (λ '(_, t), plain t) fields
  | TPtr _ | TSlice _ | TMap _ => false
  end.

(** ** Operations *)

Definition nilDeref {A} : M heap A := panic "invalid memory address or nil pointer dereference".
Definition illTyped {A} : M heap A := panic "not a value of the type".

(** [new(T)], [make([]T, n)], [make(map[string]T)]: some free location. *)
Definition alloc (c : cell) : M heap loc := λ h, let l := fresh (dom h) in (Returns l, <[l := c]> h).

Definition load (l : loc) : M heap val := λ h,
  match h !! l with Some (CVar v) => (Returns v, h) | _ => (Panics "load", h) end.

Definition store (l : loc) (v : val) : M heap unit := λ h,
  match h !! l with Some (CVar _) => (Returns tt, <[l := CVar v]> h) | _ => (Panics "store", h) end.

Definition loadElem (l : loc) (i : nat) : M heap val := λ h,
  match h !! l with
  | Some (CArray vs) =>
      match vs !! i with Some v => (Returns v, h) | None => (Panics "index out of range", h) end
  | _ => (Panics "load", h)
  end.

Definition storeElem (l : loc) (i : nat) (v : val) : M heap unit := λ h,
  match h !! l with
  | Some (CArray vs) =>
      if decide (i < length vs) then (Returns tt, <[l := CArray (<[i := v]> vs)]> h)
      else (Panics "index out of range", h)
  | _ => (Panics "store", h)
  end.

Definition loadMap (l : loc) : M heap (gmap string val) := λ h,
  match h !! l with Some (CMap m) => (Returns m, h) | _ => (Panics "load", h) end.

(** [m[k] = v]. *)
Definition storeMap (l : loc) (k : string) (v : val) : M heap unit := λ h,
  match h !! l with
  | Some (CMap m) => (Returns tt, <[l := CMap (<[k := v]> m)]> h)
  | _ => (Panics "store", h)
  end.

(** A field of a struct. *)
Fixpoint fieldOf (n : string) (fields : list (string * val)) : option val :=
  match fields with
  | [] => None
  | (m, v) :: fields => if (n =? m)%string then Some v else fieldOf n fields
  end.

Fixpoint setFieldOf (n : string) (v : val) (fields : list (string * val)) : list (string * val) :=
  match fields with
  | [] => []
  | (m, w) :: fields => if (n =? m)%string then (m, v) :: fields else (m, w) :: setFieldOf n v fields
  end.

Definition field (n : string) (v : val) : M heap val :=
  match v with
  | VStruct fields => match fieldOf n fields with Some v => mret v | None => illTyped end
  | _ => illTyped
  end.

Definition setField (n : string) (x v : val) : M heap val :=
  match v with VStruct fields => mret (VStruct (setFieldOf n x fields)) | _ => illTyped end.

(** The order in which a map is ranged over is the run-time system's choice. *)
Class Range := {
  range : gmap string val → list (string * val);
  range_perm m : range m ≡ₚ map_to_list m
}.

Definition sorted_range : Range := {| range := map_to_list; range_perm m := reflexivity _ |}.

(** ** What can be read from a value *)

Inductive tree :=
  | LInt (z : Z)
  | LString (s : string)
  | LBool (b : bool)
  | Node (fields : list (string * tree))
  | Nil
  | Pointee (t : tree)
  | Elems (ts : list tree)
  | Entries (m : gmap string tree).

(** [f] at every entry of a map. *)
Definition traverse {A B} (f : A → option B) (m : gmap string A) : option (gmap string B) :=
  if decide (map_Forall (λ _ a, is_Some (f a)) m) then Some (omap f m) else None.

(** The fields of a struct, in order and under their names. *)
Definition readFields (read : ty → val → option tree) :=
  fix go (fts : list (string * ty)) (fvs : list (string * val)) : option (list (string * tree)) :=
    match fts, fvs with
    | [], [] => Some []
    | (n, t) :: fts, (m, v) :: fvs =>
        if (n =? m)%string then x ← read t v; xs ← go fts fvs; Some ((n, x) :: xs) else None
    | _, _ => None
    end.

(** The elements of a slice. *)
Definition window {A} (off len : nat) (vs : list A) : option (list A) :=
  if decide (off + len ≤ length vs) then Some (take len (drop off vs)) else None.

(** The tree under a value of a type; [None] if it is not well formed there. *)
Fixpoint reify (h : heap) (t : ty) (v : val) : option tree :=
  match t, v with
  | TInt, VInt z => Some (LInt z)
  | TString, VString s => Some (LString s)
  | TBool, VBool b => Some (LBool b)
  | TStruct fts, VStruct fvs => Node <$> readFields (reify h) fts fvs
  | TPtr _, VPtr None | TSlice _, VSlice None | TMap _, VMap None => Some Nil
  | TPtr t, VPtr (Some l) =>
      match h !! l with Some (CVar v) => Pointee <$> reify h t v | _ => None end
  | TSlice t, VSlice (Some (l, off, len)) =>
      match h !! l with
      | Some (CArray vs) => vs ← window off len vs; Elems <$> mapM (reify h t) vs
      | _ => None
      end
  | TMap t, VMap (Some l) =>
      match h !! l with Some (CMap m) => Entries <$> traverse (reify h t) m | _ => None end
  | _, _ => None
  end.

(** ** Reading is monotone *)

(** Induction on types, with the fields of a struct. *)
Lemma ty_fields_ind (P : ty → Prop) :
  P TInt → P TString → P TBool →
  (∀ fields, Forall (λ f, P f.2) fields → P (TStruct fields)) →
  (∀ t, P t → P (TPtr t)) → (∀ t, P t → P (TSlice t)) → (∀ t, P t → P (TMap t)) →
  ∀ t, P t.
Proof.
  intros Hi Hs Hb Hst Hp Hsl Hm. fix IH 1.
  intros [| | |fields|t|t|t]; [done..| |apply Hp, IH|apply Hsl, IH|apply Hm, IH].
  apply Hst. induction fields as [|[n t] fields IHf]; constructor; [apply IH|apply IHf].
Qed.

(** Whatever [f] reads, [g] reads alike. *)
Definition refines {A B} (f g : A → option B) : Prop := ∀ a b, f a = Some b → g a = Some b.

Lemma mapM_refines {A B} (f g : A → option B) vs ts :
  refines f g → mapM f vs = Some ts → mapM g vs = Some ts.
Proof.
  intros H. rw !mapM_Some. intros E. eapply Forall2_impl; [exact E|]. intros a b. apply H.
Qed.

Lemma traverse_lookup {A B} (f : A → option B) m m' k :
  traverse f m = Some m' → m' !! k = m !! k ≫= f.
Proof. rw /traverse. case_decide; [|done]. intros [= <-]. by rw lookup_omap. Qed.

Lemma traverse_intro {A B} (f : A → option B) (m : gmap string A) (m' : gmap string B) :
  (∀ k a, m !! k = Some a → ∃ b, f a = Some b ∧ m' !! k = Some b) →
  (∀ k, m !! k = None → m' !! k = None) → traverse f m = Some m'.
Proof.
  intros H1 H2. rw /traverse decide_True.
  - intros k a E. destruct (H1 _ _ E) as (b & -> & _). by eexists.
  - f_equal. apply map_eq. intros k. rw lookup_omap. destruct (m !! k) as [a|] eqn:E; simpl.
    + destruct (H1 _ _ E) as (b & -> & ->). done.
    + by rw H2.
Qed.

Lemma traverse_get {A B} (f : A → option B) m m' k a :
  traverse f m = Some m' → m !! k = Some a → ∃ b, f a = Some b ∧ m' !! k = Some b.
Proof.
  intros E Ea. pose proof (traverse_lookup _ _ _ k E) as El. rw Ea /= in El.
  move: E. rw /traverse. case_decide as Hm; [|done]. intros _.
  destruct (Hm _ _ Ea) as [b Eb]. exists b. by rw El.
Qed.

Lemma traverse_refines {A B} (f g : A → option B) m m' :
  refines f g → traverse f m = Some m' → traverse g m = Some m'.
Proof.
  intros H E. apply traverse_intro.
  - intros k a Ea. destruct (traverse_get _ _ _ _ _ E Ea) as (b & Eb & ?). eauto.
  - intros k Ek. by rw (traverse_lookup _ _ _ k E) Ek.
Qed.

Lemma readFields_refines (f g : ty → val → option tree) fts fvs xs :
  Forall (λ p, refines (f p.2) (g p.2)) fts →
  readFields f fts fvs = Some xs → readFields g fts fvs = Some xs.
Proof.
  intros H. revert fvs xs. induction H as [|[n t] fts Ht _ IH]; intros [|[m v] fvs] xs; try done.
  simpl in *. case_match; [|done]. intros E.
  apply bind_Some in E as (x & Ex & E). apply bind_Some in E as (ys & Ey & [= <-]).
  by rw (Ht _ _ Ex) /= (IH _ _ Ey).
Qed.

(** More memory does not change what was readable. *)
Lemma reify_mono h h' t : h ⊆ h' → refines (reify h t) (reify h' t).
Proof.
  intros Hh. induction t as [| | |fields IH|t IH|t IH|t IH] using ty_fields_ind;
    intros v tr; destruct v as [| | |fvs|p|p|p]; try done; simpl.
  - intros E. apply fmap_Some in E as (xs & E & ->). by rw (readFields_refines _ _ _ _ _ IH E).
  - destruct p as [l|]; [|done]. destruct (h !! l) as [c|] eqn:El; [|done].
    rw (lookup_weaken _ _ _ _ El Hh). destruct c; try done.
    intros E. apply fmap_Some in E as (x & E & ->). by rw (IH _ _ E).
  - destruct p as [[[l off] len]|]; [|done]. destruct (h !! l) as [c|] eqn:El; [|done].
    rw (lookup_weaken _ _ _ _ El Hh). destruct c as [|vs|]; try done.
    intros E. apply bind_Some in E as (ws & Ew & E). rw Ew /=.
    apply fmap_Some in E as (x & E & ->). by rw (mapM_refines _ _ _ _ IH E).
  - destruct p as [l|]; [|done]. destruct (h !! l) as [c|] eqn:El; [|done].
    rw (lookup_weaken _ _ _ _ El Hh). destruct c as [| |m]; try done.
    intros E. apply fmap_Some in E as (x & E & ->). by rw (traverse_refines _ _ _ _ IH E).
Qed.

(** A value that points nowhere reads the same in every memory. *)
Lemma reify_plain h h' t : plain t = true → refines (reify h t) (reify h' t).
Proof.
  induction t as [| | |fields IH|t IH|t IH|t IH] using ty_fields_ind; try done;
    intros Hp v tr; destruct v as [| | |fvs|p|p|p]; try done; simpl.
  intros E. apply fmap_Some in E as (xs & E & ->).
  enough (Forall (λ p, refines (reify h p.2) (reify h' p.2)) fields) as H
    by by rw (readFields_refines _ _ _ _ _ H E).
  simpl in Hp. clear E. induction IH as [|[n t] fields Ht _ IHf]; constructor; simpl in *; to_prop; auto.
Qed.

(** ** A logic of fresh memory

    [above h hn m Q]: started on top of the memory [h], in which it changes
    nothing, with [hn] of its own, [m] returns, and [Q] holds of its answer and
    of the memory that is then its own. *)

Definition above {A} (h hn : heap) (m : M heap A) (Q : A → heap → Prop) : Prop :=
  h ##ₘ hn → ∃ a hn', m (h ∪ hn) = (Returns a, h ∪ hn') ∧ h ##ₘ hn' ∧ Q a hn'.

Lemma above_ret {A} h hn (a : A) (Q : A → heap → Prop) : Q a hn → above h hn (mret a) Q.
Proof. intros H Hd. by exists a, hn. Qed.

Lemma above_bind {A B} h hn (m : M heap A) (k : A → M heap B) (Q : B → heap → Prop) :
  above h hn m (λ a hn', above h hn' (k a) Q) → above h hn (m ≫= k) Q.
Proof.
  intros H Hd. destruct (H Hd) as (a & hn' & E & Hd' & Hk).
  destruct (Hk Hd') as (b & hn'' & E' & HQ). exists b, hn''. by rw (M_bind_eq _ _ _ _ _ E).
Qed.

Lemma above_mono {A} h hn (m : M heap A) (Q Q' : A → heap → Prop) :
  above h hn m Q → (∀ a hn', Q a hn' → Q' a hn') → above h hn m Q'.
Proof. intros H HQ Hd. destruct (H Hd) as (a & hn' & E & Hd' & Ha). exists a, hn'. auto. Qed.

(** A computation that leaves its own memory alone as well. *)
Lemma above_frame {A} h hn (m : M heap A) (Q : A → heap → Prop) :
  above (h ∪ hn) ∅ m Q →
  above h hn m (λ a hn', ∃ hx, hn' = hn ∪ hx ∧ hn ##ₘ hx ∧ Q a hx).
Proof.
  intros H Hd. destruct (H (map_disjoint_empty_r _)) as (a & hx & E & Hdx & Ha).
  move: E. rw right_id_L. intros E. apply map_disjoint_union_l in Hdx as [Hd1 Hd2].
  exists a, (hn ∪ hx). rw assoc_L. split; [done|]. split; [by apply map_disjoint_union_r|]. eauto.
Qed.

(** A computation that only reads. *)
Lemma above_read {A} h hn (m : M heap A) (a : A) (Q : A → heap → Prop) :
  m (h ∪ hn) = (Returns a, h ∪ hn) → Q a hn → above h hn m Q.
Proof. intros E H Hd. by exists a, hn. Qed.

(** A write to its own memory. *)
Lemma above_write {A} h hn hn' (m : M heap A) (a : A) l c (Q : A → heap → Prop) :
  is_Some (hn !! l) → hn' = <[l := c]> hn →
  (h ##ₘ hn → m (h ∪ hn) = (Returns a, <[l := c]> (h ∪ hn))) → Q a hn' → above h hn m Q.
Proof.
  intros [c' Hl] -> E H Hd. pose proof (map_disjoint_Some_r _ _ _ _ Hd Hl) as Hh.
  exists a, (<[l := c]> hn). rw (E Hd). split_and!; [|by apply map_disjoint_insert_r|done].
  by rw insert_union_r.
Qed.

Lemma above_alloc h hn c (Q : loc → heap → Prop) :
  (∀ l, h !! l = None → hn !! l = None → Q l (<[l := c]> hn)) → above h hn (alloc c) Q.
Proof.
  intros H Hd. rw /alloc. set (l := fresh (dom (h ∪ hn))).
  assert ((h ∪ hn) !! l = None) as Hl by apply not_elem_of_dom, is_fresh.
  apply lookup_union_None in Hl as [Hh Hn].
  exists l, (<[l := c]> hn). split_and!; [|by apply map_disjoint_insert_r|auto].
  by rw insert_union_r.
Qed.

Lemma above_load h hn l v (Q : val → heap → Prop) :
  h !! l = Some (CVar v) → Q v hn → above h hn (load l) Q.
Proof. intros E. apply above_read. by rw /load (lookup_union_Some_l _ _ _ _ E). Qed.

Lemma above_loadElem h hn l i vs v (Q : val → heap → Prop) :
  h !! l = Some (CArray vs) → vs !! i = Some v → Q v hn → above h hn (loadElem l i) Q.
Proof. intros E Ei. apply above_read. by rw /loadElem (lookup_union_Some_l _ _ _ _ E) Ei. Qed.

Lemma above_loadMap h hn l m (Q : gmap string val → heap → Prop) :
  h !! l = Some (CMap m) → Q m hn → above h hn (loadMap l) Q.
Proof. intros E. apply above_read. by rw /loadMap (lookup_union_Some_l _ _ _ _ E). Qed.

Lemma above_store h hn l v w (Q : unit → heap → Prop) :
  hn !! l = Some (CVar w) → Q tt (<[l := CVar v]> hn) → above h hn (store l v) Q.
Proof.
  intros E. eapply above_write; [by eexists|done|]. intros Hd.
  by rw /store (lookup_union_Some_r _ _ _ _ Hd E).
Qed.

Lemma above_storeElem h hn l i v vs (Q : unit → heap → Prop) :
  hn !! l = Some (CArray vs) → i < length vs → Q tt (<[l := CArray (<[i := v]> vs)]> hn) →
  above h hn (storeElem l i v) Q.
Proof.
  intros E Hi. eapply above_write; [by eexists|done|]. intros Hd.
  by rw /storeElem (lookup_union_Some_r _ _ _ _ Hd E) decide_True.
Qed.

Lemma above_storeMap h hn l k v m (Q : unit → heap → Prop) :
  hn !! l = Some (CMap m) → Q tt (<[l := CMap (<[k := v]> m)]> hn) → above h hn (storeMap l k v) Q.
Proof.
  intros E. eapply above_write; [by eexists|done|]. intros Hd.
  by rw /storeMap (lookup_union_Some_r _ _ _ _ Hd E).
Qed.

(** Ranging over a map and storing every entry in an empty one copies it,
    whatever the order. *)
Fixpoint storeAll (l : loc) (kvs : list (string * val)) : M heap unit :=
  match kvs with
  | [] => mret tt
  | (k, v) :: kvs => _ ← storeMap l k v; storeAll l kvs
  end.

Lemma above_storeAll h hn l kvs m (Q : unit → heap → Prop) :
  hn !! l = Some (CMap m) →
  Q tt (<[l := CMap (foldl (λ m '(k, v), <[k := v]> m) m kvs)]> hn) → above h hn (storeAll l kvs) Q.
Proof.
  revert hn m. induction kvs as [|[k v] kvs IH]; intros hn m E H; simpl in *.
  { apply above_ret. by rw insert_id in H. }
  apply above_bind. eapply above_storeMap; [done|]. eapply IH; [apply lookup_insert_eq|].
  by rw insert_insert_eq.
Qed.

Lemma foldl_insert_list (kvs : list (string * val)) (m0 : gmap string val) :
  NoDup kvs.*1 → foldl (λ m '(k, v), <[k := v]> m) m0 kvs = (list_to_map kvs : gmap string val) ∪ m0.
Proof.
  revert m0. induction kvs as [|[k v] kvs IH]; intros m0 Hnd; simpl; [by rw left_id_L|].
  apply NoDup_cons in Hnd as [Hk Hnd]. rw IH // -insert_union_l -insert_union_r //.
  by apply not_elem_of_list_to_map_1.
Qed.

Lemma foldl_insert_range `{!Range} (m : gmap string val) :
  foldl (λ m '(k, v), <[k := v]> m) ∅ (range m) = m.
Proof.
  assert (NoDup (range m).*1) as Hnd by (rw range_perm; apply NoDup_fst_map_to_list).
  rw foldl_insert_list // right_id_L (list_to_map_proper _ (map_to_list m)) //.
  - apply range_perm.
  - apply list_to_map_to_list.
Qed.
