(* ===== verification/Copying.v ===== *)
(** Deep copies in Go's memory: the statements from which the generator of
    zz_generated.deepcopy.go puts a DeepCopyInto together, and what they do. A
    function made of them copies everything that is not a plain value, if each
    statement copies its field. *)

From S2P Require Import Prelude Memory.

(** ** Copying functions *)

(** A function from a value to its copy: the copy reads as the value did, in
    the memory the function has added alone. *)
Definition deep_copies (t : ty) (f : val → M heap val) : Prop :=
  ∀ h v tr, reify h t v = Some tr → above h ∅ (f v) (λ v' hn, reify hn t v' = Some tr).

(** ** The statements the generator writes

    A statement gets the struct [in] points to and the one [out] points to, and
    leaves the latter. *)

Definition stmt : Type := val → val → M heap val.

(** [out.X = in.X]. *)
Definition assign (n : string) : stmt := λ inp out,
  x ← field n inp;
  setField n x out.

(** [in.X.DeepCopyInto(&out.X)]. *)
Definition into (n : string) (f : val → M heap val) : stmt := λ inp out,
  x ← field n inp;
  y ← f x;
  setField n y out.

(** [**out = **in]: what the pointer points to is assigned. *)
Definition assigned : val → M heap val := mret.

(** [if in.X != nil { *out = new(T); ( *in).DeepCopyInto( *out) }]. *)
Definition pointer (n : string) (t : ty) (f : val → M heap val) : stmt := λ inp out,
  x ← field n inp;
  match x with
  | VPtr None => mret out
  | VPtr (Some l) =>
      p ← alloc (CVar (zero t));
      v ← load l;
      w ← f v;
      _ ← store p w;
      setField n (VPtr (Some p)) out
  | _ => illTyped
  end.

(** [if in.X != nil { x := ( *in).DeepCopy(); *out = &x }]. *)
Definition addressed (n : string) (f : val → M heap val) : stmt := λ inp out,
  x ← field n inp;
  match x with
  | VPtr None => mret out
  | VPtr (Some l) =>
      v ← load l;
      w ← f v;
      p ← alloc (CVar w);
      setField n (VPtr (Some p)) out
  | _ => illTyped
  end.

(** [for i := range *in { ( *in)[i].DeepCopyInto(&( *out)[i]) }]: [f] at the
    elements from [i] on, [count] of them. *)
Fixpoint eachElem (f : val → M heap val) (l : loc) (off : nat) (p : loc) (i count : nat) : M heap unit :=
  match count with
  | O => mret tt
  | S count =>
      v ← loadElem l (off + i);
      w ← f v;
      _ ← storeElem p i w;
      eachElem f l off p (S i) count
  end.

(** [if in.X != nil { *out = make([]T, len( *in)); for ... }]; with [assigned],
    [copy( *out, *in)]. *)
Definition elements (n : string) (t : ty) (f : val → M heap val) : stmt := λ inp out,
  x ← field n inp;
  match x with
  | VSlice None => mret out
  | VSlice (Some (l, off, len)) =>
      p ← alloc (CArray (replicate len (zero t)));
      _ ← eachElem f l off p 0 len;
      setField n (VSlice (Some (p, 0, len))) out
  | _ => illTyped
  end.

(** [if in.X != nil { *out = make(map[string]string, len( *in)); for key, val :=
    range *in { ( *out)[key] = val } }]. *)
Definition entries `{!Range} (n : string) : stmt := λ inp out,
  x ← field n inp;
  match x with
  | VMap None => mret out
  | VMap (Some l) =>
      p ← alloc (CMap ∅);
      m ← loadMap l;
      _ ← storeAll p (range m);
      setField n (VMap (Some p)) out
  | _ => illTyped
  end.

(** [*out = *in] and the statements after it. *)
Fixpoint runFrom (ss : list stmt) (inp out : val) : M heap val :=
  match ss with
  | [] => mret out
  | s :: ss => out ← s inp out; runFrom ss inp out
  end.

Definition body (ss : list stmt) (inp : val) : M heap val := runFrom ss inp inp.

(** [if in == nil { return nil }; out := new(T); in.DeepCopyInto(out); return out]. *)
Definition deepCopy (t : ty) (f : val → M heap val) (inp : val) : M heap val :=
  match inp with
  | VPtr None => mret (VPtr None)
  | VPtr (Some l) =>
      out ← alloc (CVar (zero t));
      v ← load l;
      w ← f v;
      _ ← store out w;
      mret (VPtr (Some out))
  | _ => illTyped
  end.

(** [if c := in.DeepCopy(); c != nil { return c }; return nil]: the answer is an
    interface value, which is nil only when it holds no pointer at all. *)
Definition deepCopyObject (copy : val → M heap val) (inp : val) : M heap (option val) :=
  c ← copy inp;
  match c with VPtr None => mret None | _ => mret (Some c) end.

(** ** What the statements do *)

(** A call of a copying function in the middle of another one. *)
Lemma deep_copies_call t f h hn v tr (Q : val → heap → Prop) :
  deep_copies t f → reify h t v = Some tr →
  (∀ w hx, hn ##ₘ hx → reify hx t w = Some tr → Q w (hn ∪ hx)) → above h hn (f v) Q.
Proof.
  intros Hf E HQ Hd. revert Hd.
  apply (above_mono _ _ _ (λ a hn', ∃ hx, hn' = hn ∪ hx ∧ hn ##ₘ hx ∧ reify hx t a = Some tr)).
  { apply above_frame, Hf. apply (reify_mono h); [apply map_union_subseteq_l|done]. }
  intros w hn' (hx & -> & Hdx & Ew). by apply HQ.
Qed.

Lemma assigned_deep t : plain t = true → deep_copies t assigned.
Proof. intros Hp h v tr E. apply above_ret. by apply (reify_plain h). Qed.

Lemma setFieldOf_id n v fields : fieldOf n fields = Some v → setFieldOf n v fields = fields.
Proof.
  induction fields as [|[m w] fields IH]; simpl; [done|].
  destruct (n =? m)%string; [by intros [= ->]|]. intros E. by rw IH.
Qed.

(** The statement makes a copy of the field [n], of type [t]. *)
Definition stmt_deep (n : string) (t : ty) (s : stmt) : Prop :=
  ∀ h hn inp out v tr,
    fieldOf n inp = Some v → fieldOf n out = Some v → reify h t v = Some tr →
    above h hn (s (VStruct inp) (VStruct out)) (λ out' hn',
      hn ⊆ hn' ∧ ∃ w, out' = VStruct (setFieldOf n w out) ∧ reify hn' t w = Some tr).

(** The field of [in] that the statement starts with. *)
Lemma above_field {A} h hn n fields v (k : val → M heap A) Q :
  fieldOf n fields = Some v → above h hn (k v) Q →
  above h hn (field n (VStruct fields) ≫= k) Q.
Proof. intros E. by rw /field E. Qed.

(** It leaves the field as it is. *)
Lemma above_keep h hn n t out v tr :
  fieldOf n out = Some v → reify hn t v = Some tr →
  above h hn (mret (VStruct out)) (λ out' hn',
    hn ⊆ hn' ∧ ∃ w, out' = VStruct (setFieldOf n w out) ∧ reify hn' t w = Some tr).
Proof. intros E Ev. apply above_ret. split; [done|]. exists v. by rw setFieldOf_id. Qed.

(** It ends by setting it. *)
Lemma above_set h hn0 hn n t out w tr :
  hn0 ⊆ hn → reify hn t w = Some tr →
  above h hn (setField n w (VStruct out)) (λ out' hn',
    hn0 ⊆ hn' ∧ ∃ w, out' = VStruct (setFieldOf n w out) ∧ reify hn' t w = Some tr).
Proof. intros Hs E. apply above_ret. eauto. Qed.

Lemma assign_deep n t : plain t = true → stmt_deep n t (assign n).
Proof.
  intros Hp h hn inp out v tr Ei Eo E. apply (above_field _ _ _ _ _ _ _ Ei), above_set; [done|].
  by apply (reify_plain h).
Qed.

Lemma into_deep n t f : deep_copies t f → stmt_deep n t (into n f).
Proof.
  intros Hf h hn inp out v tr Ei Eo E. apply (above_field _ _ _ _ _ _ _ Ei), above_bind.
  eapply deep_copies_call; [done..|]. intros w hx Hd Ew. apply above_set.
  - apply map_union_subseteq_l.
  - apply (reify_mono hx); [by apply map_union_subseteq_r|done].
Qed.

(** A field that is not nil is one of a location that can be read. *)
Lemma reify_ptr h t l tr :
  reify h (TPtr t) (VPtr (Some l)) = Some tr →
  ∃ v x, h !! l = Some (CVar v) ∧ reify h t v = Some x ∧ tr = Pointee x.
Proof.
  simpl. destruct (h !! l) as [[v| |]|]; try done. intros E.
  apply fmap_Some in E as (x & Ex & ->). eauto.
Qed.

Lemma reify_slice h t l off len tr :
  reify h (TSlice t) (VSlice (Some (l, off, len))) = Some tr →
  ∃ vs xs, h !! l = Some (CArray vs) ∧ off + len ≤ length vs ∧
    mapM (reify h t) (take len (drop off vs)) = Some xs ∧ tr = Elems xs.
Proof.
  simpl. destruct (h !! l) as [[|vs|]|]; try done. rw /window. case_decide; [|done]. simpl. intros E.
  apply fmap_Some in E as (x & Ex & ->). eauto 6.
Qed.

Lemma reify_map h t l tr :
  reify h (TMap t) (VMap (Some l)) = Some tr →
  ∃ m xs, h !! l = Some (CMap m) ∧ traverse (reify h t) m = Some xs ∧ tr = Entries xs.
Proof.
  simpl. destruct (h !! l) as [[| |m]|]; try done. intros E.
  apply fmap_Some in E as (x & Ex & ->). eauto.
Qed.

(** What a part of the memory says is not changed by a write outside it. *)
Lemma subseteq_store (hx hn : heap) p c : hx !! p = None → hx ⊆ hn → hx ⊆ <[p := c]> hn.
Proof.
  intros Hp Hs. apply map_subseteq_spec. intros l d El.
  rw lookup_insert_ne; [by intros <-; rw El in Hp|]. by eapply lookup_weaken.
Qed.

Lemma pointer_deep n t f : deep_copies t f → stmt_deep n (TPtr t) (pointer n t f).
Proof.
  intros Hf h hn inp out v tr Ei Eo E. apply (above_field _ _ _ _ _ _ _ Ei).
  destruct v as [| | | |[l|]| |]; try done; [|by eapply above_keep].
  destruct (reify_ptr _ _ _ _ E) as (v & x & El & Ev & ->).
  apply above_bind, above_alloc. intros p Hh Hp.
  apply above_bind. eapply above_load; [done|].
  apply above_bind. eapply deep_copies_call; [done..|]. intros w hx Hd Ew.
  apply map_disjoint_insert_l in Hd as [Hxp Hd].
  apply above_bind. eapply above_store; [by apply lookup_union_Some_l, lookup_insert_eq|].
  apply above_set.
  - apply subseteq_store; [done|]. etrans; [by apply insert_subseteq|apply map_union_subseteq_l].
  - rw /= lookup_insert_eq (reify_mono hx _ _ _ _ _ Ew) //. apply subseteq_store; [done|].
    apply map_union_subseteq_r. by apply map_disjoint_insert_l.
Qed.

Lemma addressed_deep n t f : deep_copies t f → stmt_deep n (TPtr t) (addressed n f).
Proof.
  intros Hf h hn inp out v tr Ei Eo E. apply (above_field _ _ _ _ _ _ _ Ei).
  destruct v as [| | | |[l|]| |]; try done; [|by eapply above_keep].
  destruct (reify_ptr _ _ _ _ E) as (v & x & El & Ev & ->).
  apply above_bind. eapply above_load; [done|].
  apply above_bind. eapply deep_copies_call; [done..|]. intros w hx Hd Ew.
  apply above_bind, above_alloc. intros p Hh Hp. apply lookup_union_None in Hp as [Hp Hxp].
  apply above_set.
  - apply subseteq_store; [done|apply map_union_subseteq_l].
  - rw /= lookup_insert_eq (reify_mono hx _ _ _ _ _ Ew) //. apply subseteq_store; [done|].
    by apply map_union_subseteq_r.
Qed.

Lemma entries_deep `{!Range} n : stmt_deep n (TMap TString) (entries n).
Proof.
  intros h hn inp out v tr Ei Eo E. apply (above_field _ _ _ _ _ _ _ Ei).
  destruct v as [| | | | | |[l|]]; try done; [|by eapply above_keep].
  destruct (reify_map _ _ _ _ E) as (m & xs & El & Em & ->).
  apply above_bind, above_alloc. intros p Hh Hp.
  apply above_bind. eapply above_loadMap; [done|].
  apply above_bind. eapply above_storeAll; [apply lookup_insert_eq|]. rw foldl_insert_range insert_insert_eq.
  apply above_set; [by apply insert_subseteq|].
  by rw /= lookup_insert_eq (Em : traverse _ m = _).
Qed.

(** The loop over the elements: [ws] are the copies made so far, which can be
    read in [hx]. *)
Lemma above_eachElem t t' f h hn l vs off p count ws hx xs1 xs2 (Q : unit → heap → Prop) :
  deep_copies t f → h !! l = Some (CArray vs) →
  mapM (reify h t) (take count (drop (off + length ws) vs)) = Some xs2 →
  off + length ws + count ≤ length vs →
  hn !! p = Some (CArray (ws ++ replicate count (zero t'))) →
  hx ⊆ hn → hx !! p = None → mapM (reify hx t) ws = Some xs1 →
  (∀ ws' hx' hn', hx ⊆ hx' → hx' ⊆ hn' → hx' !! p = None → hn' !! p = Some (CArray ws') →
    mapM (reify hx' t) ws' = Some (xs1 ++ xs2) → Q tt hn') →
  above h hn (eachElem f l off p (length ws) count) Q.
Proof.
  intros Hf El. revert hn ws hx xs1 xs2.
  induction count as [|count IH]; intros hn ws hx xs1 xs2 E2 Hlen Hp Hs Hxp E1 HQ.
  { injection E2 as <-. apply above_ret. eapply (HQ ws hx); rw ?app_nil_r //. by rw app_nil_r in Hp. }
  assert (∃ v, vs !! (off + length ws) = Some v) as [v Ev] by (apply lookup_lt_is_Some; lia).
  rw (drop_S _ v _ Ev) /= in E2. apply bind_Some in E2 as (x & Ex & E2).
  apply bind_Some in E2 as (xs & Exs & [= <-]).
  apply above_bind. eapply above_loadElem; [done..|].
  apply above_bind. eapply deep_copies_call; [done..|]. intros w hy Hd Ew.
  pose proof (map_disjoint_Some_l _ _ _ _ Hd Hp) as Hyp.
  apply above_bind. eapply above_storeElem.
  { by apply lookup_union_Some_l. }
  { rw length_app length_replicate. lia. }
  rw (_ : S (length ws) = length (ws ++ [w])); [rw length_app /=; lia|].
  eapply (IH _ (ws ++ [w]) (hx ∪ hy) (xs1 ++ [x]) xs).
  all: rw ?length_app /=.
  - by rw (_ : off + (length ws + 1) = S (off + length ws)); [lia|].
  - lia.
  - rw lookup_insert_eq. f_equal. f_equal. rw insert_app_r_alt // Nat.sub_diag /= -app_assoc //.
  - apply subseteq_store; [by rw lookup_union Hxp Hyp|]. by apply map_union_mono_r.
  - by rw lookup_union Hxp Hyp.
  - apply mapM_Some, Forall2_app; [|constructor; [|done]].
    + apply mapM_Some, (mapM_refines (reify hx t)); [|done]. apply reify_mono, map_union_subseteq_l.
    + apply (reify_mono hy); [|done]. apply map_union_subseteq_r. by eapply map_disjoint_weaken_l.
  - intros ws' hx' hn' Hs1 Hs2 Hp' Hn' E. rw -app_assoc /= in E. eapply HQ; [|done..].
    etrans; [apply map_union_subseteq_l|done].
Qed.

Lemma elements_deep n t f : deep_copies t f → stmt_deep n (TSlice t) (elements n t f).
Proof.
  intros Hf h hn inp out v tr Ei Eo E. apply (above_field _ _ _ _ _ _ _ Ei).
  destruct v as [| | | | |[[[l off] len]|]|]; try done; [|by eapply above_keep].
  destruct (reify_slice _ _ _ _ _ _ E) as (vs & xs & El & Hlen & Exs & ->).
  apply above_bind, above_alloc. intros p Hh Hp.
  apply above_bind.
  eapply (above_eachElem t t f h _ l vs off p len [] hn [] xs); [done|done|..].
  { by rw Nat.add_0_r. }
  { by rw Nat.add_0_r. }
  { apply lookup_insert_eq. }
  { by apply insert_subseteq. }
  { done. }
  { done. }
  intros ws hx hn' Hs Hs' Hxp Hp' Ews. apply above_set; [by etrans|].
  assert (length ws = len) as Hws.
  { apply mapM_Some, Forall2_length in Ews, Exs. simpl in Ews. rw length_take length_drop in Exs. lia. }
  rw /= Hp' /window decide_True; [lia|]. rw /= drop_0 take_ge; [lia|].
  rw (mapM_refines (reify hx t) (reify hn' t) _ _ _ Ews) //. by apply reify_mono.
Qed.

(** ** A whole function *)

(** Copying a struct, on the way: a field that is still to be copied is that of
    [in], every other one can be read in the new memory. *)
Inductive copying (h hn : heap) (todo : list string) :
    list (string * ty) → list (string * val) → list (string * val) → list (string * tree) → Prop :=
  | copying_nil : copying h hn todo [] [] [] []
  | copying_todo n t v x fts inp out xs :
      n ∈ todo → reify h t v = Some x → copying h hn todo fts inp out xs →
      copying h hn todo ((n, t) :: fts) ((n, v) :: inp) ((n, v) :: out) ((n, x) :: xs)
  | copying_done n t v w x fts inp out xs :
      n ∉ todo → reify hn t w = Some x → copying h hn todo fts inp out xs →
      copying h hn todo ((n, t) :: fts) ((n, v) :: inp) ((n, w) :: out) ((n, x) :: xs).

(** What the statements leave to the assignment at the start points nowhere. *)
Definition coversAll (names : list string) (fts : list (string * ty)) : bool :=
  forallb (λ '(n, t), bool_decide (n ∈ names) || plain t) fts.

Lemma copying_start h hn names fts inp xs :
  coversAll names fts = true → readFields (reify h) fts inp = Some xs →
  copying h hn names fts inp inp xs.
Proof.
  revert inp xs. induction fts as [|[n t] fts IH]; intros [|[m v] inp] xs; simpl; try done.
  { intros _ [= <-]. constructor. }
  intros [Hn Hc]%andb_true_iff. case_match eqn:Em; [|done]. apply String.eqb_eq in Em as ->. intros E.
  apply bind_Some in E as (x & Ex & E). apply bind_Some in E as (ys & Ey & [= <-]).
  destruct (decide (m ∈ names)); [constructor; auto|].
  apply orb_true_iff in Hn as [Hn%bool_decide_eq_true_1|Hn]; [done|].
  apply copying_done; [done|by apply (reify_plain h)|by apply IH].
Qed.

Lemma copying_end h hn fts inp out xs :
  copying h hn [] fts inp out xs → readFields (reify hn) fts out = Some xs.
Proof.
  induction 1 as [|n t v x fts inp out xs Hn|n t v w x fts inp out xs _ Hx _ IH]; [done|..].
  { by apply elem_of_nil in Hn. }
  by rw /= String.eqb_refl Hx /= IH.
Qed.

Lemma copying_other h hn hn' n todo fts inp out xs :
  n ∉ fts.*1 → hn ⊆ hn' → copying h hn (n :: todo) fts inp out xs → copying h hn' todo fts inp out xs.
Proof.
  intros Hn Hs. induction 1 as [|m t v x fts inp out xs Hm Hx _ IH|m t v w x fts inp out xs Hm Hx _ IH];
    [constructor|..]; apply not_elem_of_cons in Hn as [Hne Hn].
  - apply elem_of_cons in Hm as [->|Hm]; [done|]. constructor; auto.
  - apply not_elem_of_cons in Hm as [_ Hm]. apply copying_done; [done|by apply (reify_mono hn)|auto].
Qed.

(** One field is copied. *)
Lemma copying_step h hn n t todo fts inp out xs :
  NoDup fts.*1 → (n, t) ∈ fts → n ∉ todo → copying h hn (n :: todo) fts inp out xs →
  ∃ v x, fieldOf n inp = Some v ∧ fieldOf n out = Some v ∧ reify h t v = Some x ∧
    ∀ hn' w, hn ⊆ hn' → reify hn' t w = Some x → copying h hn' todo fts inp (setFieldOf n w out) xs.
Proof.
  intros Hnd Hin Hn.
  induction 1 as [|m t' v x fts inp out xs Hm Hx Hc IH|m t' v w x fts inp out xs Hm Hx Hc IH].
  { by apply elem_of_nil in Hin. }
  - apply NoDup_cons in Hnd as [Hm' Hnd].
    destruct (decide (n = m)) as [->|Hne].
    + apply elem_of_cons in Hin as [[= ->]|Hin]; [|by destruct Hm'; apply (list_elem_of_fmap_2 fst) in Hin].
      exists v, x. simpl. rw String.eqb_refl. split_and!; [done..|]. intros hn' w Hs Ew.
      apply copying_done; [done|done|by eapply copying_other].
    + apply elem_of_cons in Hin as [[= ? ?]|Hin]; [done|].
      destruct (IH Hnd Hin) as (v' & x' & Ei & Eo & Ex & H). exists v', x'. simpl.
      rw (proj2 (String.eqb_neq n m) Hne). split_and!; [done..|]. intros hn' w' Hs Ew.
      apply elem_of_cons in Hm as [->|Hm]; [done|]. apply copying_todo; auto.
  - apply NoDup_cons in Hnd as [Hm' Hnd]. apply not_elem_of_cons in Hm as [Hne Hm].
    apply elem_of_cons in Hin as [[= -> ->]|Hin]; [done|].
    destruct (IH Hnd Hin) as (v' & x' & Ei & Eo & Ex & H). exists v', x'. simpl.
    rw (proj2 (String.eqb_neq n m)); [done|]. split_and!; [done..|]. intros hn' w' Hs Ew.
    apply copying_done; [done|by apply (reify_mono hn)|auto].
Qed.

(** The statements copy the fields [cs]. *)
Lemma runFrom_deep h hn cs ss fts inp out xs :
  NoDup fts.*1 → NoDup cs.*1 → Forall (λ c, c ∈ fts) cs →
  Forall2 (λ c s, stmt_deep c.1 c.2 s) cs ss → copying h hn cs.*1 fts inp out xs →
  above h hn (runFrom ss (VStruct inp) (VStruct out)) (λ out' hn',
    reify hn' (TStruct fts) out' = Some (Node xs)).
Proof.
  intros Hnd Hcs Hin Hss. revert hn out. induction Hss as [|[n t] s cs ss Hs _ IH]; intros hn out Hc.
  { apply above_ret. by rw /= (copying_end _ _ _ _ _ _ Hc). }
  apply NoDup_cons in Hcs as [Hn Hcs]. inversion_clear Hin as [|? ? Hnt Hin'].
  destruct (copying_step _ _ _ _ _ _ _ _ _ Hnd Hnt Hn Hc) as (v & x & Ei & Eo & Ex & H).
  apply above_bind. eapply above_mono; [exact (Hs h hn _ _ _ _ Ei Eo Ex)|].
  intros out' hn' (Hsub & w & -> & Ew). apply IH; [done..|]. by apply H.
Qed.

Lemma body_deep cs ss fts :
  Forall2 (λ c s, stmt_deep c.1 c.2 s) cs ss → Forall (λ c, c ∈ fts) cs →
  bool_decide (NoDup fts.*1) && bool_decide (NoDup cs.*1) && coversAll cs.*1 fts = true →
  deep_copies (TStruct fts) (body ss).
Proof.
  intros Hss Hin [[Hnd%bool_decide_eq_true_1 Hcs%bool_decide_eq_true_1]%andb_true_iff Hc]%andb_true_iff.
  intros h v tr E. destruct v as [| | |inp| | |]; try done.
  simpl in E. apply fmap_Some in E as (xs & E & ->).
  eapply runFrom_deep; [done..|]. by apply copying_start.
Qed.

(** What a caller has of a copy: nothing that exists is changed, later writes
    outside the new memory are not seen in the copy, and later writes outside
    the old memory are not seen in the original. *)
Definition independent_copies (t : ty) (f : val → M heap val) : Prop :=
  ∀ h v tr, reify h t v = Some tr →
    ∃ w h', f v h = (Returns w, h') ∧ h ⊆ h' ∧ reify h' t w = Some tr ∧
      (∀ h'', (∀ l, h !! l = None → h'' !! l = h' !! l) → reify h'' t w = Some tr) ∧
      (∀ h'', (∀ l, is_Some (h !! l) → h'' !! l = h !! l) → reify h'' t v = Some tr).

Lemma deep_copies_independent t f : deep_copies t f → independent_copies t f.
Proof.
  intros Hf h v tr E. destruct (Hf h v tr E (map_disjoint_empty_r _)) as (w & hn & Ef & Hd & Ew).
  rw (right_id_L ∅ (∪)) in Ef.
  exists w, (h ∪ hn). split_and!; [done|apply map_union_subseteq_l|..].
  - apply (reify_mono hn); [by apply map_union_subseteq_r|done].
  - intros h'' H. apply (reify_mono hn); [|done]. apply map_subseteq_spec. intros l c El.
    pose proof (map_disjoint_Some_r _ _ _ _ Hd El) as Hl. by rw H // lookup_union_r.
  - intros h'' H. apply (reify_mono h); [|done]. apply map_subseteq_spec. intros l c El.
    rw H; [by eexists|done].
Qed.

(** DeepCopy of a type with a DeepCopyInto. *)
Lemma deepCopy_deep t f : deep_copies t f → deep_copies (TPtr t) (deepCopy t f).
Proof.
  intros Hf h v tr E. destruct v as [| | | |[l|]| |]; try done; [|by apply above_ret].
  destruct (reify_ptr _ _ _ _ E) as (v & x & El & Ev & ->).
  apply above_bind, above_alloc. intros p Hh Hp.
  apply above_bind. eapply above_load; [done|].
  apply above_bind. eapply deep_copies_call; [done..|]. intros w hx Hd Ew.
  apply map_disjoint_insert_l in Hd as [Hxp Hd].
  apply above_bind. eapply above_store; [by apply lookup_union_Some_l, lookup_insert_eq|].
  apply above_ret. rw /= lookup_insert_eq (reify_mono hx _ _ _ _ _ Ew) //.
  apply subseteq_store; [done|]. apply map_union_subseteq_r. by apply map_disjoint_insert_l.
Qed.

(** ** Automation *)

Create HintDb copies discriminated.
#[export] Hint Constants Opaque : copies.
#[export] Hint Resolve assigned_deep into_deep pointer_deep addressed_deep
  elements_deep entries_deep : copies.
#[export] Hint Extern 2 (plain _ = true) => reflexivity : copies.

Lemma stmts_cons n t s cs ss :
  stmt_deep n t s → Forall2 (λ c s, stmt_deep c.1 c.2 s) cs ss →
  Forall2 (λ c s, stmt_deep c.1 c.2 s) ((n, t) :: cs) (s :: ss).
Proof. intros. by constructor. Qed.

(** A field of a given name in a list of fields. *)
Ltac find_field := repeat first [apply list_elem_of_here | apply list_elem_of_further].

Ltac deep_stmts :=
  lazymatch goal with
  | |- Forall2 _ _ [] => apply Forall2_nil_2
  | _ => eapply stmts_cons; [first [by eauto with copies | apply assign_deep]|deep_stmts]
  end.

(** A function made of statements copies a type: each statement copies the
    field of its name, and no other field points anywhere.  The type of an
    assigned field is found with the field. *)
Ltac deep_body :=
  eapply body_deep;
  [ deep_stmts
  | repeat (apply Forall_cons; split; [find_field|]); apply Forall_nil_2
  | .. ]; vm_compute; reflexivity.
