(* ===== verification/Deepcopy.v ===== *)
(** api/v1beta1/zz_generated.deepcopy.go: the copies of the API types, over
    memory.  The other files treat a cluster as a value, as if every copy were
    one.  Here is why that is right: what DeepCopy returns shares no storage
    with what it was called on, so that no later step on the cluster changes
    the copy [before] that the deferred status update compares it with. *)

From S2P Require Import Prelude Memory Copying.

(** ** Code of other packages *)

(** Types of the Kubernetes packages that bring a DeepCopyInto (a Quantity: a
    DeepCopy) of their own.  A Time is copied by assignment; it counts as one
    of them. *)
Inductive Foreign :=
  | metav1_ObjectMeta | metav1_ListMeta | metav1_LabelSelector | metav1_Time | resource_Quantity
  | v1_Affinity | v1_Toleration | v1_ResourceRequirements | v1_ServiceSpec | v1_PodSpec
  | v1_PersistentVolumeClaimSpec | appsv1_StatefulSetUpdateStrategy.

Class Vendored := {
  layout : Foreign → ty;
  vendored : Foreign → val → M heap val
}.

Class VendoredLaws `{!Vendored} : Prop :=
  vendored_deep n : deep_copies (layout n) (vendored n).

(** Types of those packages that are copied by assignment: structs of strings. *)
Definition TypeMeta : ty := TStruct [("Kind", TString); ("APIVersion", TString)].
Definition LocalObjectReference : ty := TStruct [("Name", TString)].

(** ** The API types (rabbitmqcluster_types.go, rabbitmqcluster_status.go) *)

Section types.
Context `{!Vendored}.

Definition Plugin : ty := TString.

Definition EmbeddedLabelsAnnotations : ty :=
  TStruct [("Labels", TMap TString); ("Annotations", TMap TString)].

Definition EmbeddedObjectMeta : ty :=
  TStruct [("Name", TString); ("Namespace", TString); ("Labels", TMap TString);
    ("Annotations", TMap TString)].

Definition PersistentVolumeClaim : ty :=
  TStruct [("TypeMeta", TypeMeta); ("EmbeddedObjectMeta", EmbeddedObjectMeta);
    ("Spec", layout v1_PersistentVolumeClaimSpec)].

Definition PodTemplateSpec : ty :=
  TStruct [("EmbeddedObjectMeta", TPtr EmbeddedObjectMeta); ("Spec", TPtr (layout v1_PodSpec))].

Definition RabbitmqClusterCondition : ty :=
  TStruct [("Type", TString); ("Status", TString); ("LastTransitionTime", layout metav1_Time);
    ("Reason", TString); ("Message", TString)].

Definition RabbitmqClusterConfigurationSpec : ty :=
  TStruct [("AdvancedConfig", TString); ("EnvConfig", TString); ("AdditionalConfig", TString);
    ("ErlangInetConfig", TString); ("AdditionalPlugins", TSlice Plugin)].

Definition RabbitmqClusterSecretReference : ty :=
  TStruct [("Name", TString); ("Namespace", TString); ("Keys", TMap TString)].

Definition RabbitmqClusterServiceReference : ty :=
  TStruct [("Name", TString); ("Namespace", TString)].

Definition RabbitmqClusterDefaultUser : ty :=
  TStruct [("SecretReference", TPtr RabbitmqClusterSecretReference);
    ("ServiceReference", TPtr RabbitmqClusterServiceReference)].

Definition Service : ty :=
  TStruct [("Spec", TPtr (layout v1_ServiceSpec));
    ("EmbeddedLabelsAnnotations", TPtr EmbeddedLabelsAnnotations)].

Definition StatefulSetSpec : ty :=
  TStruct [("Replicas", TPtr TInt); ("Selector", TPtr (layout metav1_LabelSelector));
    ("Template", TPtr PodTemplateSpec); ("VolumeClaimTemplates", TSlice PersistentVolumeClaim);
    ("ServiceName", TString); ("PodManagementPolicy", TString);
    ("UpdateStrategy", TPtr (layout appsv1_StatefulSetUpdateStrategy));
    ("MinReadySeconds", TInt)].

Definition StatefulSet : ty :=
  TStruct [("Spec", TPtr StatefulSetSpec);
    ("EmbeddedLabelsAnnotations", TPtr EmbeddedLabelsAnnotations)].

Definition RabbitmqClusterOverrideSpec : ty :=
  TStruct [("Service", TPtr Service); ("StatefulSet", TPtr StatefulSet)].

Definition RabbitmqClusterPersistenceSpec : ty :=
  TStruct [("Storage", TPtr (layout resource_Quantity)); ("StorageClassName", TPtr TString)].

Definition RabbitmqClusterServiceSpec : ty :=
  TStruct [("Type", TString); ("Annotations", TMap TString)].

Definition TLSSpec : ty :=
  TStruct [("SecretName", TString); ("CaSecretName", TString); ("DisableNonTLSListeners", TBool)].

Definition VaultTLSSpec : ty :=
  TStruct [("PKIIssuerPath", TString); ("CommonName", TString); ("AltNames", TString);
    ("IpSans", TString); ("PKIRootPath", TString)].

Definition VaultSpec : ty :=
  TStruct [("Role", TString); ("Annotations", TMap TString); ("DefaultUserPath", TString);
    ("DefaultUserUpdaterImage", TPtr TString); ("TLS", VaultTLSSpec)].

Definition SecretBackend : ty :=
  TStruct [("Vault", TPtr VaultSpec); ("ExternalSecret", LocalObjectReference)].

Definition RabbitmqClusterSpec : ty :=
  TStruct [("Disable", TBool); ("Replicas", TPtr TInt); ("TLS", TLSSpec);
    ("Rabbitmq", RabbitmqClusterConfigurationSpec); ("Image", TString);
    ("ImagePullSecrets", TSlice LocalObjectReference); ("Affinity", TPtr (layout v1_Affinity));
    ("Tolerations", TSlice (layout v1_Toleration));
    ("Resources", TPtr (layout v1_ResourceRequirements));
    ("Service", RabbitmqClusterServiceSpec); ("Persistence", RabbitmqClusterPersistenceSpec);
    ("SecretBackend", SecretBackend); ("Override", RabbitmqClusterOverrideSpec);
    ("DelayStartSeconds", TPtr TInt); ("SkipPostDeploySteps", TBool);
    ("TerminationGracePeriodSeconds", TPtr TInt)].

Definition RabbitmqClusterStatus : ty :=
  TStruct [("Replicas", TInt); ("Conditions", TSlice RabbitmqClusterCondition);
    ("DefaultUser", TPtr RabbitmqClusterDefaultUser); ("Binding", TPtr LocalObjectReference);
    ("ObservedGeneration", TInt)].

Definition RabbitmqCluster : ty :=
  TStruct [("TypeMeta", TypeMeta); ("ObjectMeta", layout metav1_ObjectMeta);
    ("Spec", RabbitmqClusterSpec); ("Status", RabbitmqClusterStatus)].

Definition RabbitmqClusterList : ty :=
  TStruct [("TypeMeta", TypeMeta); ("ListMeta", layout metav1_ListMeta);
    ("Items", TSlice RabbitmqCluster)].

End types.

(** ** The functions *)

Section generated.
Context `{!Range, !Vendored}.

Definition EmbeddedLabelsAnnotations_DeepCopyInto : val → M heap val :=
  body
    [entries "Labels";
     entries "Annotations"].

Definition EmbeddedLabelsAnnotations_DeepCopy : val → M heap val :=
  deepCopy EmbeddedLabelsAnnotations EmbeddedLabelsAnnotations_DeepCopyInto.

Definition EmbeddedObjectMeta_DeepCopyInto : val → M heap val :=
  body
    [entries "Labels";
     entries "Annotations"].

Definition EmbeddedObjectMeta_DeepCopy : val → M heap val :=
  deepCopy EmbeddedObjectMeta EmbeddedObjectMeta_DeepCopyInto.

Definition PersistentVolumeClaim_DeepCopyInto : val → M heap val :=
  body
    [assign "TypeMeta";
     into "EmbeddedObjectMeta" EmbeddedObjectMeta_DeepCopyInto;
     into "Spec" (vendored v1_PersistentVolumeClaimSpec)].

Definition PersistentVolumeClaim_DeepCopy : val → M heap val :=
  deepCopy PersistentVolumeClaim PersistentVolumeClaim_DeepCopyInto.

Definition PodTemplateSpec_DeepCopyInto : val → M heap val :=
  body
    [pointer "EmbeddedObjectMeta" EmbeddedObjectMeta EmbeddedObjectMeta_DeepCopyInto;
     pointer "Spec" (layout v1_PodSpec) (vendored v1_PodSpec)].

Definition PodTemplateSpec_DeepCopy : val → M heap val :=
  deepCopy PodTemplateSpec PodTemplateSpec_DeepCopyInto.

Definition RabbitmqClusterCondition_DeepCopyInto : val → M heap val :=
  body [into "LastTransitionTime" (vendored metav1_Time)].

Definition RabbitmqClusterCondition_DeepCopy : val → M heap val :=
  deepCopy RabbitmqClusterCondition RabbitmqClusterCondition_DeepCopyInto.

Definition RabbitmqClusterConfigurationSpec_DeepCopyInto : val → M heap val :=
  body [elements "AdditionalPlugins" Plugin assigned].

Definition RabbitmqClusterConfigurationSpec_DeepCopy : val → M heap val :=
  deepCopy RabbitmqClusterConfigurationSpec RabbitmqClusterConfigurationSpec_DeepCopyInto.

Definition RabbitmqClusterSecretReference_DeepCopyInto : val → M heap val := body [entries "Keys"].

Definition RabbitmqClusterSecretReference_DeepCopy : val → M heap val :=
  deepCopy RabbitmqClusterSecretReference RabbitmqClusterSecretReference_DeepCopyInto.

Definition RabbitmqClusterServiceReference_DeepCopyInto : val → M heap val := body [].

Definition RabbitmqClusterServiceReference_DeepCopy : val → M heap val :=
  deepCopy RabbitmqClusterServiceReference RabbitmqClusterServiceReference_DeepCopyInto.

Definition RabbitmqClusterDefaultUser_DeepCopyInto : val → M heap val :=
  body
    [pointer "SecretReference" RabbitmqClusterSecretReference RabbitmqClusterSecretReference_DeepCopyInto;
     pointer "ServiceReference" RabbitmqClusterServiceReference assigned].

Definition RabbitmqClusterDefaultUser_DeepCopy : val → M heap val :=
  deepCopy RabbitmqClusterDefaultUser RabbitmqClusterDefaultUser_DeepCopyInto.

Definition Service_DeepCopyInto : val → M heap val :=
  body
    [pointer "Spec" (layout v1_ServiceSpec) (vendored v1_ServiceSpec);
     pointer "EmbeddedLabelsAnnotations" EmbeddedLabelsAnnotations EmbeddedLabelsAnnotations_DeepCopyInto].

Definition Service_DeepCopy : val → M heap val :=
  deepCopy Service Service_DeepCopyInto.

Definition StatefulSetSpec_DeepCopyInto : val → M heap val :=
  body
    [pointer "Replicas" TInt assigned;
     pointer "Selector" (layout metav1_LabelSelector) (vendored metav1_LabelSelector);
     pointer "Template" PodTemplateSpec PodTemplateSpec_DeepCopyInto;
     elements "VolumeClaimTemplates" PersistentVolumeClaim PersistentVolumeClaim_DeepCopyInto;
     pointer "UpdateStrategy" (layout appsv1_StatefulSetUpdateStrategy) (vendored appsv1_StatefulSetUpdateStrategy)].

Definition StatefulSetSpec_DeepCopy : val → M heap val :=
  deepCopy StatefulSetSpec StatefulSetSpec_DeepCopyInto.

Definition StatefulSet_DeepCopyInto : val → M heap val :=
  body
    [pointer "Spec" StatefulSetSpec StatefulSetSpec_DeepCopyInto;
     pointer "EmbeddedLabelsAnnotations" EmbeddedLabelsAnnotations EmbeddedLabelsAnnotations_DeepCopyInto].

Definition StatefulSet_DeepCopy : val → M heap val :=
  deepCopy StatefulSet StatefulSet_DeepCopyInto.

Definition RabbitmqClusterOverrideSpec_DeepCopyInto : val → M heap val :=
  body
    [pointer "Service" Service Service_DeepCopyInto;
     pointer "StatefulSet" StatefulSet StatefulSet_DeepCopyInto].

Definition RabbitmqClusterOverrideSpec_DeepCopy : val → M heap val :=
  deepCopy RabbitmqClusterOverrideSpec RabbitmqClusterOverrideSpec_DeepCopyInto.

Definition RabbitmqClusterPersistenceSpec_DeepCopyInto : val → M heap val :=
  body
    [addressed "Storage" (vendored resource_Quantity);
     pointer "StorageClassName" TString assigned].

Definition RabbitmqClusterPersistenceSpec_DeepCopy : val → M heap val :=
  deepCopy RabbitmqClusterPersistenceSpec RabbitmqClusterPersistenceSpec_DeepCopyInto.

Definition RabbitmqClusterServiceSpec_DeepCopyInto : val → M heap val := body [entries "Annotations"].

Definition RabbitmqClusterServiceSpec_DeepCopy : val → M heap val :=
  deepCopy RabbitmqClusterServiceSpec RabbitmqClusterServiceSpec_DeepCopyInto.

Definition TLSSpec_DeepCopyInto : val → M heap val := body [].

Definition TLSSpec_DeepCopy : val → M heap val :=
  deepCopy TLSSpec TLSSpec_DeepCopyInto.

Definition VaultTLSSpec_DeepCopyInto : val → M heap val := body [].

Definition VaultTLSSpec_DeepCopy : val → M heap val :=
  deepCopy VaultTLSSpec VaultTLSSpec_DeepCopyInto.

Definition VaultSpec_DeepCopyInto : val → M heap val :=
  body
    [entries "Annotations";
     pointer "DefaultUserUpdaterImage" TString assigned;
     assign "TLS"].

Definition VaultSpec_DeepCopy : val → M heap val :=
  deepCopy VaultSpec VaultSpec_DeepCopyInto.

Definition SecretBackend_DeepCopyInto : val → M heap val :=
  body
    [pointer "Vault" VaultSpec VaultSpec_DeepCopyInto;
     assign "ExternalSecret"].

Definition SecretBackend_DeepCopy : val → M heap val :=
  deepCopy SecretBackend SecretBackend_DeepCopyInto.

Definition RabbitmqClusterSpec_DeepCopyInto : val → M heap val :=
  body
    [pointer "Replicas" TInt assigned;
     assign "TLS";
     into "Rabbitmq" RabbitmqClusterConfigurationSpec_DeepCopyInto;
     elements "ImagePullSecrets" LocalObjectReference assigned;
     pointer "Affinity" (layout v1_Affinity) (vendored v1_Affinity);
     elements "Tolerations" (layout v1_Toleration) (vendored v1_Toleration);
     pointer "Resources" (layout v1_ResourceRequirements) (vendored v1_ResourceRequirements);
     into "Service" RabbitmqClusterServiceSpec_DeepCopyInto;
     into "Persistence" RabbitmqClusterPersistenceSpec_DeepCopyInto;
     into "SecretBackend" SecretBackend_DeepCopyInto;
     into "Override" RabbitmqClusterOverrideSpec_DeepCopyInto;
     pointer "DelayStartSeconds" TInt assigned;
     pointer "TerminationGracePeriodSeconds" TInt assigned].

Definition RabbitmqClusterSpec_DeepCopy : val → M heap val :=
  deepCopy RabbitmqClusterSpec RabbitmqClusterSpec_DeepCopyInto.

Definition RabbitmqClusterStatus_DeepCopyInto : val → M heap val :=
  body
    [elements "Conditions" RabbitmqClusterCondition RabbitmqClusterCondition_DeepCopyInto;
     pointer "DefaultUser" RabbitmqClusterDefaultUser RabbitmqClusterDefaultUser_DeepCopyInto;
     pointer "Binding" LocalObjectReference assigned].

Definition RabbitmqClusterStatus_DeepCopy : val → M heap val :=
  deepCopy RabbitmqClusterStatus RabbitmqClusterStatus_DeepCopyInto.

Definition RabbitmqCluster_DeepCopyInto : val → M heap val :=
  body
    [assign "TypeMeta";
     into "ObjectMeta" (vendored metav1_ObjectMeta);
     into "Spec" RabbitmqClusterSpec_DeepCopyInto;
     into "Status" RabbitmqClusterStatus_DeepCopyInto].

Definition RabbitmqCluster_DeepCopy : val → M heap val :=
  deepCopy RabbitmqCluster RabbitmqCluster_DeepCopyInto.

Definition RabbitmqCluster_DeepCopyObject : val → M heap (option val) :=
  deepCopyObject RabbitmqCluster_DeepCopy.

Definition RabbitmqClusterList_DeepCopyInto : val → M heap val :=
  body
    [assign "TypeMeta";
     into "ListMeta" (vendored metav1_ListMeta);
     elements "Items" RabbitmqCluster RabbitmqCluster_DeepCopyInto].

Definition RabbitmqClusterList_DeepCopy : val → M heap val :=
  deepCopy RabbitmqClusterList RabbitmqClusterList_DeepCopyInto.

Definition RabbitmqClusterList_DeepCopyObject : val → M heap (option val) :=
  deepCopyObject RabbitmqClusterList_DeepCopy.

(** All types with their DeepCopy. *)
Definition generated : list (ty * (val → M heap val)) :=
  [(EmbeddedLabelsAnnotations, EmbeddedLabelsAnnotations_DeepCopy);
   (EmbeddedObjectMeta, EmbeddedObjectMeta_DeepCopy);
   (PersistentVolumeClaim, PersistentVolumeClaim_DeepCopy);
   (PodTemplateSpec, PodTemplateSpec_DeepCopy);
   (RabbitmqClusterCondition, RabbitmqClusterCondition_DeepCopy);
   (RabbitmqClusterConfigurationSpec, RabbitmqClusterConfigurationSpec_DeepCopy);
   (RabbitmqClusterSecretReference, RabbitmqClusterSecretReference_DeepCopy);
   (RabbitmqClusterServiceReference, RabbitmqClusterServiceReference_DeepCopy);
   (RabbitmqClusterDefaultUser, RabbitmqClusterDefaultUser_DeepCopy);
   (Service, Service_DeepCopy);
   (StatefulSetSpec, StatefulSetSpec_DeepCopy);
   (StatefulSet, StatefulSet_DeepCopy);
   (RabbitmqClusterOverrideSpec, RabbitmqClusterOverrideSpec_DeepCopy);
   (RabbitmqClusterPersistenceSpec, RabbitmqClusterPersistenceSpec_DeepCopy);
   (RabbitmqClusterServiceSpec, RabbitmqClusterServiceSpec_DeepCopy);
   (TLSSpec, TLSSpec_DeepCopy);
   (VaultTLSSpec, VaultTLSSpec_DeepCopy);
   (VaultSpec, VaultSpec_DeepCopy);
   (SecretBackend, SecretBackend_DeepCopy);
   (RabbitmqClusterSpec, RabbitmqClusterSpec_DeepCopy);
   (RabbitmqClusterStatus, RabbitmqClusterStatus_DeepCopy);
   (RabbitmqCluster, RabbitmqCluster_DeepCopy);
   (RabbitmqClusterList, RabbitmqClusterList_DeepCopy)].
End generated.

(** ** Every function copies its type *)

Section theorems.
Context `{!Range, !Vendored, !VendoredLaws}.

#[local] Hint Resolve vendored_deep : copies.

Lemma EmbeddedLabelsAnnotations_deep : deep_copies EmbeddedLabelsAnnotations EmbeddedLabelsAnnotations_DeepCopyInto.
Proof. deep_body. Qed.
#[local] Hint Resolve EmbeddedLabelsAnnotations_deep : copies.

Lemma EmbeddedObjectMeta_deep : deep_copies EmbeddedObjectMeta EmbeddedObjectMeta_DeepCopyInto.
Proof. deep_body. Qed.
#[local] Hint Resolve EmbeddedObjectMeta_deep : copies.

Lemma PersistentVolumeClaim_deep : deep_copies PersistentVolumeClaim PersistentVolumeClaim_DeepCopyInto.
Proof. deep_body. Qed.
#[local] Hint Resolve PersistentVolumeClaim_deep : copies.

Lemma PodTemplateSpec_deep : deep_copies PodTemplateSpec PodTemplateSpec_DeepCopyInto.
Proof. deep_body. Qed.
#[local] Hint Resolve PodTemplateSpec_deep : copies.

Lemma RabbitmqClusterCondition_deep : deep_copies RabbitmqClusterCondition RabbitmqClusterCondition_DeepCopyInto.
Proof. deep_body. Qed.
#[local] Hint Resolve RabbitmqClusterCondition_deep : copies.

Lemma RabbitmqClusterConfigurationSpec_deep : deep_copies RabbitmqClusterConfigurationSpec RabbitmqClusterConfigurationSpec_DeepCopyInto.
Proof. deep_body. Qed.
#[local] Hint Resolve RabbitmqClusterConfigurationSpec_deep : copies.

Lemma RabbitmqClusterSecretReference_deep : deep_copies RabbitmqClusterSecretReference RabbitmqClusterSecretReference_DeepCopyInto.
Proof. deep_body. Qed.
#[local] Hint Resolve RabbitmqClusterSecretReference_deep : copies.

Lemma RabbitmqClusterServiceReference_deep : deep_copies RabbitmqClusterServiceReference RabbitmqClusterServiceReference_DeepCopyInto.
Proof. deep_body. Qed.
#[local] Hint Resolve RabbitmqClusterServiceReference_deep : copies.

Lemma RabbitmqClusterDefaultUser_deep : deep_copies RabbitmqClusterDefaultUser RabbitmqClusterDefaultUser_DeepCopyInto.
Proof. deep_body. Qed.
#[local] Hint Resolve RabbitmqClusterDefaultUser_deep : copies.

Lemma Service_deep : deep_copies Service Service_DeepCopyInto.
Proof. deep_body. Qed.
#[local] Hint Resolve Service_deep : copies.

Lemma StatefulSetSpec_deep : deep_copies StatefulSetSpec StatefulSetSpec_DeepCopyInto.
Proof. deep_body. Qed.
#[local] Hint Resolve StatefulSetSpec_deep : copies.

Lemma StatefulSet_deep : deep_copies StatefulSet StatefulSet_DeepCopyInto.
Proof. deep_body. Qed.
#[local] Hint Resolve StatefulSet_deep : copies.

Lemma RabbitmqClusterOverrideSpec_deep : deep_copies RabbitmqClusterOverrideSpec RabbitmqClusterOverrideSpec_DeepCopyInto.
Proof. deep_body. Qed.
#[local] Hint Resolve RabbitmqClusterOverrideSpec_deep : copies.

Lemma RabbitmqClusterPersistenceSpec_deep : deep_copies RabbitmqClusterPersistenceSpec RabbitmqClusterPersistenceSpec_DeepCopyInto.
Proof. deep_body. Qed.
#[local] Hint Resolve RabbitmqClusterPersistenceSpec_deep : copies.

Lemma RabbitmqClusterServiceSpec_deep : deep_copies RabbitmqClusterServiceSpec RabbitmqClusterServiceSpec_DeepCopyInto.
Proof. deep_body. Qed.
#[local] Hint Resolve RabbitmqClusterServiceSpec_deep : copies.

Lemma TLSSpec_deep : deep_copies TLSSpec TLSSpec_DeepCopyInto.
Proof. deep_body. Qed.
#[local] Hint Resolve TLSSpec_deep : copies.

Lemma VaultTLSSpec_deep : deep_copies VaultTLSSpec VaultTLSSpec_DeepCopyInto.
Proof. deep_body. Qed.
#[local] Hint Resolve VaultTLSSpec_deep : copies.

Lemma VaultSpec_deep : deep_copies VaultSpec VaultSpec_DeepCopyInto.
Proof. deep_body. Qed.
#[local] Hint Resolve VaultSpec_deep : copies.

Lemma SecretBackend_deep : deep_copies SecretBackend SecretBackend_DeepCopyInto.
Proof. deep_body. Qed.
#[local] Hint Resolve SecretBackend_deep : copies.

Lemma RabbitmqClusterSpec_deep : deep_copies RabbitmqClusterSpec RabbitmqClusterSpec_DeepCopyInto.
Proof. deep_body. Qed.
#[local] Hint Resolve RabbitmqClusterSpec_deep : copies.

Lemma RabbitmqClusterStatus_deep : deep_copies RabbitmqClusterStatus RabbitmqClusterStatus_DeepCopyInto.
Proof. deep_body. Qed.
#[local] Hint Resolve RabbitmqClusterStatus_deep : copies.

Lemma RabbitmqCluster_deep : deep_copies RabbitmqCluster RabbitmqCluster_DeepCopyInto.
Proof. deep_body. Qed.
#[local] Hint Resolve RabbitmqCluster_deep : copies.

Lemma RabbitmqClusterList_deep : deep_copies RabbitmqClusterList RabbitmqClusterList_DeepCopyInto.
Proof. deep_body. Qed.
#[local] Hint Resolve RabbitmqClusterList_deep : copies.

(** C8: What DeepCopy returns is independent of what it was called on, for every
    API type.  Where the argument can be read, it returns, it changes nothing of
    the memory there is, and the copy reads as the argument.  From then on the
    copy reads the same whatever is written to the locations that existed
    before, and the argument reads the same whatever is written to new ones.  Of
    the types of the Kubernetes packages this relies on the same. *)
Theorem generated_copies t (copy : val → M heap val) :
  (t, copy) ∈ generated → independent_copies (TPtr t) copy.
Proof.
  revert t copy. enough (Forall (λ p, deep_copies (TPtr p.1) p.2) generated) as Hall.
  { intros t copy Hin. eapply Forall_forall in Hall; [|exact Hin]. by apply deep_copies_independent. }
  repeat constructor; simpl; apply deepCopy_deep; eauto with copies.
Qed.

(** DeepCopyObject answers a nil interface for a nil pointer, never an interface
    that holds one. *)
Lemma DeepCopyObject_nil t (copy : val → M heap val) :
  independent_copies (TPtr t) copy →
  ∀ h v tr, reify h (TPtr t) v = Some tr →
    ∃ w h', deepCopyObject copy v h = (Returns w, h') ∧
      match tr with Nil => w = None | _ => ∃ p, w = Some (VPtr (Some p)) end.
Proof.
  intros Hc h v tr E. destruct (Hc _ _ _ E) as (w & h' & Ew & _ & Er & _).
  rw /deepCopyObject (M_bind_eq _ _ _ _ _ Ew).
  destruct w as [| | | |[p|]| |]; try done; [|exists None, h'; by injection Er as <-].
  exists (Some (VPtr (Some p))), h'. split; [done|].
  destruct (reify_ptr _ _ _ _ Er) as (? & ? & _ & _ & ->). eauto.
Qed.
End theorems.
