(* ===== verification/Aliasing.v ===== *)
(** Code that writes to a map or a slice it was given, over memory: the merges
    of internal/metadata and of the overrides, which update the map they are
    given, and the two places where append may write into an array that
    somebody else holds.  Each is shown to do what the functions on values in
    Metadata, Merge, Plugins and Builders do, and to write nothing else. *)

From S2P Require Import Prelude Memory.
From S2P Require Metadata Merge Plugins.

(** ** Maps *)

(** [for k, v := range m { if filterFn(k) { result[k] = v } }]. *)
Fixpoint storeFiltered (filterFn : string → bool) (result : loc) (kvs : list (string * val))
    : M heap unit :=
  match kvs with
  | [] => mret tt
  | (k, v) :: kvs =>
      _ ← (if filterFn k then storeMap result k v else mret tt);
      storeFiltered filterFn result kvs
  end.

(** The entries of a map; ranging over a nil map does nothing. *)
Definition entriesOf `{!Range} (m : val) : M heap (list (string * val)) :=
  match m with
  | VMap None => mret []
  | VMap (Some l) => m ← loadMap l; mret (range m)
  | _ => illTyped
  end.

Fixpoint mergeLoop `{!Range} (filterFn : string → bool) (result : loc) (maps : list val) : M heap unit :=
  match maps with
  | [] => mret tt
  | m :: maps =>
      kvs ← entriesOf m;
      _ ← storeFiltered filterFn result kvs;
      mergeLoop filterFn result maps
  end.

Definition mergeWithFilter `{!Range} (filterFn : string → bool) (base : val) (maps : list val)
    : M heap val :=
  empty ← alloc (CMap ∅);
  let result := match base with VMap (Some l) => l | _ => empty end in
  _ ← mergeLoop filterFn result maps;
  mret (VMap (Some result)).

Definition mergeMap `{!Range} (base override : val) : M heap val :=
  result ← (match base with VMap (Some l) => mret l | _ => alloc (CMap ∅) end);
  kvs ← entriesOf override;
  _ ← storeFiltered (λ _, true) result kvs;
  mret (VMap (Some result)).

(** ** Slices *)

(** [append(s, xs...)], with the growth policy of the run-time system: the
    capacity of a slice ends with its backing array. *)
Class Growth := grow : nat → nat → nat.

Definition overwrite {A} (i : nat) (xs ys : list A) : list A := take i ys ++ xs ++ drop (i + length xs) ys.

Definition loadArray (l : loc) : M heap (list val) := λ h,
  match h !! l with Some (CArray vs) => (Returns vs, h) | _ => (Panics "load", h) end.

Definition storeArray (l : loc) (vs : list val) : M heap unit := λ h,
  (Returns tt, <[l := CArray vs]> h).

Definition append `{!Growth} (s : val) (xs : list val) : M heap val :=
  match s with
  | VSlice None =>
      if bool_decide (xs = []) then mret s else
      p ← alloc (CArray (xs ++ replicate (grow 0 (length xs)) (VInt 0)));
      mret (VSlice (Some (p, 0, length xs)))
  | VSlice (Some (l, off, len)) =>
      vs ← loadArray l;
      if off + len + length xs <=? length vs then
        _ ← storeArray l (overwrite (off + len) xs vs);
        mret (VSlice (Some (l, off, len + length xs)))
      else
        p ← alloc (CArray (take len (drop off vs) ++ xs ++
                           replicate (grow len (length xs)) (VInt 0)));
        mret (VSlice (Some (p, 0, len + length xs)))
  | _ => illTyped
  end.

(** The elements of a slice; [s[i:j]]. *)
Definition elems (s : val) : M heap (list val) :=
  match s with
  | VSlice None => mret []
  | VSlice (Some (l, off, len)) =>
      vs ← loadArray l;
      match window off len vs with
      | Some vs => mret vs
      | None => panic "slice bounds out of range"
      end
  | _ => illTyped
  end.

Definition reslice (i j : nat) (s : val) : M heap val :=
  match s with
  | VSlice (Some (l, off, len)) =>
      if (i <=? j) && (j <=? len) then mret (VSlice (Some (l, off + i, j - i)))
      else panic "slice bounds out of range"
  | _ => panic "slice bounds out of range"
  end.

(** [append(r.requiredPlugins, r.additionalPlugins...)]. *)
Definition allPlugins `{!Growth} (requiredPlugins additionalPlugins : val) : M heap val :=
  xs ← elems additionalPlugins;
  append requiredPlugins xs.

(** [builders = append(builders[:3], builders[3+1:]...)]; the upper bound that
    is left out is the length. *)
Definition dropFourth `{!Growth} (builders : val) : M heap val :=
  all ← elems builders;
  front ← reslice 0 3 builders;
  back ← reslice (3 + 1) (length all) builders;
  xs ← elems back;
  append front xs.

(** ** The merges write one map, and do to it what the values say *)

(** The map that a value points to, as the other files have it. *)
Definition holds (h : heap) (v : val) (m : gomap string) : Prop :=
  match v, m with
  | VMap None, None => True
  | VMap (Some l), Some m => h !! l = Some (CMap (VString <$> m))
  | _, _ => False
  end.

Definition insertFiltered (f : string → bool) (m : gmap string val) (kvs : list (string * val))
    : gmap string val :=
  foldl (λ m '(k, v), if f k then <[k := v]> m else m) m kvs.

Lemma storeFiltered_spec f l kvs m h :
  h !! l = Some (CMap m) →
  storeFiltered f l kvs h =
  (Returns tt, <[l := CMap (insertFiltered f m kvs)]> h).
Proof.
  revert m h. induction kvs as [|[k v] kvs IH]; intros m h E; simpl; [by rw insert_id|].
  destruct (f k); [|by rw M_bind_ret; apply IH].
  rw (M_bind_eq _ _ _ tt (<[l := CMap (<[k := v]> m)]> h)); [by rw /storeMap E|].
  rw (IH (<[k := v]> m)); [apply lookup_insert_eq|]. by rw insert_insert_eq.
Qed.

Lemma insertFiltered_lookup f kvs m k :
  NoDup kvs.*1 →
  insertFiltered f m kvs !! k =
  match (list_to_map kvs : gmap string val) !! k with
  | Some v => if f k then Some v else m !! k
  | None => m !! k
  end.
Proof.
  revert m. induction kvs as [|[k' v] kvs IH]; intros m Hnd; simpl; [by rw lookup_empty|].
  apply NoDup_cons in Hnd as [Hk Hnd]. rw IH //.
  destruct (decide (k' = k)) as [->|Hne].
  - rw lookup_insert_eq (not_elem_of_list_to_map_1 _ _ Hk). destruct (f k); [by rw lookup_insert_eq|done].
  - rw lookup_insert_ne //. case_match; destruct (f k'); by rw ?lookup_insert_ne.
Qed.

(** One of the maps, whatever the order it is ranged over. *)
Lemma insertFiltered_range `{!Range} f (m r : gmap string string) :
  insertFiltered f (VString <$> r) (range (VString <$> m)) =
  VString <$> Metadata.copyFiltered f m r.
Proof.
  apply map_eq. intros k.
  assert (NoDup (range (VString <$> m)).*1) as Hnd by (rw range_perm; apply NoDup_fst_map_to_list).
  rw insertFiltered_lookup // (list_to_map_proper _ (map_to_list (VString <$> m))) //;
    [apply range_perm|].
  rw list_to_map_to_list !lookup_fmap Metadata.copyFiltered_lookup.
  destruct (m !! k); [by destruct (f k)|done].
Qed.

Lemma entriesOf_spec `{!Range} h v m :
  holds h v m → entriesOf v h = (Returns (if m then range (VString <$> gm m) else []), h).
Proof.
  destruct v as [| | | | | |[l|]], m as [m|]; try done. simpl. intros E.
  by rw (M_bind_eq _ _ _ (VString <$> m) h) // /loadMap E.
Qed.

(** What one step of the loop leaves. *)
Lemma storeFiltered_holds `{!Range} f l r v m h :
  h !! l = Some (CMap (VString <$> r)) → holds h v m →
  (kvs ← entriesOf v; storeFiltered f l kvs) h =
  (Returns tt, <[l := CMap (VString <$> Metadata.copyFiltered f (gm m) r)]> h).
Proof.
  intros E Em. rw (M_bind_eq _ _ _ _ _ (entriesOf_spec _ _ _ Em)) (storeFiltered_spec _ _ _ _ _ E).
  destruct m as [m|]; [by rw insertFiltered_range|]. simpl. by rw /Metadata.copyFiltered map_fold_empty.
Qed.

Lemma holds_elsewhere h l c v m : holds h v m → v ≠ VMap (Some l) → holds (<[l := c]> h) v m.
Proof.
  destruct v as [| | | | | |[l'|]], m as [m|]; try done. simpl. intros E Hne.
  rw lookup_insert_ne //. congruence.
Qed.

Lemma holds_all_elsewhere h l c maps ms :
  Forall2 (holds h) maps ms → VMap (Some l) ∉ maps → Forall2 (holds (<[l := c]> h)) maps ms.
Proof.
  induction 1 as [|v m maps ms Hv _ IH]; [constructor|]. intros [Hne Hl]%not_elem_of_cons.
  constructor; [|auto]. apply holds_elsewhere; [done|congruence].
Qed.

Lemma mergeLoop_spec `{!Range} f l r maps ms h :
  h !! l = Some (CMap (VString <$> r)) → Forall2 (holds h) maps ms → VMap (Some l) ∉ maps →
  mergeLoop f l maps h =
  (Returns tt, <[l := CMap (VString <$>
     foldl (λ result m, Metadata.copyFiltered f (gm m) result) r ms)]> h).
Proof.
  intros E Hms Hl. revert r h E Hms. revert ms.
  induction maps as [|v maps IH]; intros ms r h E Hms; inversion Hms as [|? m ? ms' Hm Hms']; subst.
  { simpl. by rw insert_id. }
  apply not_elem_of_cons in Hl as [Hv Hl]. simpl.
  pose proof (storeFiltered_holds f l r v m h E Hm) as Es.
  rw (M_bind_eq _ _ _ _ _ (entriesOf_spec _ _ _ Hm)) in Es.
  rw (M_bind_eq _ _ _ _ _ (entriesOf_spec _ _ _ Hm)) (M_bind_eq _ _ _ _ _ Es).
  rw (IH Hl ms' (Metadata.copyFiltered f (gm m) r)) ?insert_insert_eq //; [apply lookup_insert_eq|].
  by apply holds_all_elsewhere.
Qed.

(** C32: The merge of the labels and annotations updates the map it is given in
    place, and a new one if that is nil.  What it leaves there is what the
    function on values computes, provided that the map is not merged into
    itself; and it writes to no other map. *)
Theorem mergeWithFilter_in_place `{!Range} f base maps m ms h :
  holds h base m → Forall2 (holds h) maps ms → base = VMap None ∨ base ∉ maps →
  ∃ l h', mergeWithFilter f base maps h = (Returns (VMap (Some l)), h') ∧
    holds h' (VMap (Some l)) (Metadata.mergeWithFilter f m ms) ∧
    (base = VMap (Some l) ∨ base = VMap None ∧ h !! l = None) ∧
    ∀ l', is_Some (h !! l') → l' ≠ l → h' !! l' = h !! l'.
Proof.
  intros Hb Hms Hni. rw /mergeWithFilter. set (p := fresh (dom h)).
  assert (h !! p = None) as Hp by apply not_elem_of_dom, is_fresh.
  rw (M_bind_eq _ _ _ p (<[p := CMap ∅]> h)) //.
  assert (VMap (Some p) ∉ maps) as Hpm.
  { intros Hin. apply list_elem_of_lookup in Hin as [i Ei].
    destruct (Forall2_lookup_l _ _ _ _ _ Hms Ei) as ([m'|] & _ & Hm'); simpl in Hm'; congruence. }
  pose proof (holds_all_elsewhere h p (CMap ∅) _ _ Hms Hpm) as Hms'.
  destruct base as [| | | | | |[l|]]; destruct m as [m|]; try done.
  - destruct Hni as [|Hni]; [done|]. simpl in Hb.
    assert (p ≠ l) as Hpl by congruence.
    exists l. eexists. rw (M_bind_eq _ _ _ _ _ (mergeLoop_spec f l m maps ms _ _ Hms' Hni)).
    { by rw lookup_insert_ne. }
    split_and!; [done|by rw /= lookup_insert_eq|by left|].
    intros l' [c El'] Hne. rw !lookup_insert_ne //; congruence.
  - exists p. eexists. rw (M_bind_eq _ _ _ _ _ (mergeLoop_spec f p ∅ maps ms _ _ Hms' Hpm)).
    { by rw lookup_insert_eq fmap_empty. }
    split_and!; [done|by rw /= lookup_insert_eq|by right|].
    intros l' [c El'] Hne. rw !lookup_insert_ne //; congruence.
Qed.

(** The merge of an override does the same. *)
Lemma mergeMap_in_place `{!Range} base override m o h :
  holds h base m → holds h override o → base = VMap None ∨ base ≠ override →
  ∃ l h', mergeMap base override h = (Returns (VMap (Some l)), h') ∧
    holds h' (VMap (Some l)) (Merge.mergeMap m o) ∧
    (base = VMap (Some l) ∨ base = VMap None ∧ h !! l = None) ∧
    ∀ l', is_Some (h !! l') → l' ≠ l → h' !! l' = h !! l'.
Proof.
  intros Hb Ho Hne. rw /mergeMap.
  change (Merge.mergeMap m o) with (Some (Metadata.copyFiltered (λ _, true) (gm o) (gm m))).
  destruct base as [| | | | | |[l|]]; destruct m as [m|]; try done; simpl in Hb.
  - pose proof (storeFiltered_holds (λ _, true) l m _ _ _ Hb Ho) as Es.
    rw (M_bind_eq _ _ _ _ _ (entriesOf_spec _ _ _ Ho)) in Es.
    exists l. eexists. rw M_bind_ret (M_bind_eq _ _ _ _ _ (entriesOf_spec _ _ _ Ho)) (M_bind_eq _ _ _ _ _ Es).
    split_and!; [done|by rw /= lookup_insert_eq|by left|].
    intros l' _ Hl. by rw lookup_insert_ne.
  - set (p := fresh (dom h)). assert (h !! p = None) as Hp by apply not_elem_of_dom, is_fresh.
    assert (holds (<[p := CMap ∅]> h) override o) as Ho'.
    { apply holds_elsewhere; [done|]. intros ->. destruct o; simpl in Ho; congruence. }
    pose proof (storeFiltered_holds (λ _, true) p ∅ override o (<[p := CMap ∅]> h)) as Es.
    rw fmap_empty in Es. specialize (Es (lookup_insert_eq _ _ _) Ho').
    rw (M_bind_eq _ _ _ _ _ (entriesOf_spec _ _ _ Ho')) in Es.
    exists p. eexists. rw (M_bind_eq _ _ _ p (<[p := CMap ∅]> h)) //.
    rw (M_bind_eq _ _ _ _ _ (entriesOf_spec _ _ _ Ho')) (M_bind_eq _ _ _ _ _ Es).
    split_and!; [done|by rw /= lookup_insert_eq|by right|].
    intros l' [c El'] Hl. rw !lookup_insert_ne //; congruence.
Qed.

(** ** What append writes *)

(** The elements that a slice has. *)
Definition listed (h : heap) (s : val) (xs : list val) : Prop := elems s h = (Returns xs, h).

Lemma window_Some {A} off len (vs xs : list A) :
  window off len vs = Some xs ↔ off + len ≤ length vs ∧ xs = take len (drop off vs).
Proof. rw /window. case_decide; naive_solver. Qed.

Lemma listed_slice h l off len xs :
  listed h (VSlice (Some (l, off, len))) xs ↔
  ∃ vs, h !! l = Some (CArray vs) ∧ off + len ≤ length vs ∧ xs = take len (drop off vs).
Proof.
  rw /listed /= /mbind /M_bind /loadArray. setoid_rewrite <-window_Some.
  destruct (h !! l) as [[|vs|]|]; try by split; [|intros (? & ? & _)].
  destruct (window off len vs) eqn:Ew; split; try done.
  - intros [= ->]. eauto.
  - intros (vs' & [= <-] & Ew'). by rw Ew in Ew'; injection Ew' as ->.
  - intros (vs' & [= <-] & Ew'). by rw Ew in Ew'.
Qed.

Lemma loadArray_eq h l vs : h !! l = Some (CArray vs) → loadArray l h = (Returns vs, h).
Proof. intros E. by rw /loadArray E. Qed.

(** Appending in place. *)
Lemma append_in_place `{!Growth} h l off len vs xs :
  h !! l = Some (CArray vs) → off + len + length xs ≤ length vs →
  append (VSlice (Some (l, off, len))) xs h =
  (Returns (VSlice (Some (l, off, len + length xs))),
   <[l := CArray (overwrite (off + len) xs vs)]> h).
Proof.
  intros E Hl. rw /= (M_bind_eq _ _ _ _ _ (loadArray_eq _ _ _ E)). by rw (proj2 (Nat.leb_le _ _) Hl).
Qed.

(** What the slice has then. *)
Lemma window_overwrite {A} off len (xs vs : list A) :
  off + len + length xs ≤ length vs →
  take (len + length xs) (drop off (overwrite (off + len) xs vs)) = take len (drop off vs) ++ xs.
Proof.
  intros Hl. rw /overwrite.
  rw drop_app_le; [rw length_take; lia|]. rw -take_drop_commute take_app_ge; [rw length_take length_drop; lia|].
  f_equal. rw length_take length_drop.
  rw (_ : len + length xs - len `min` (length vs - off) = length xs); [lia|]. by rw take_app_length.
Qed.

(** The plugins that are always enabled are a literal in a package variable,
    with no capacity to spare: appending the others of a cluster to it leaves it
    alone. *)
Lemma allPlugins_keeps_required `{!Growth} h l required s additional :
  h !! l = Some (CArray required) → listed h s additional →
  ∃ w h', allPlugins (VSlice (Some (l, 0, length required))) s h = (Returns w, h') ∧
    listed h' w (required ++ additional) ∧ h ⊆ h'.
Proof.
  intros E Hs. rw /allPlugins (M_bind_eq _ _ _ _ _ Hs).
  destruct (decide (additional = [])) as [->|Hne].
  { rw (append_in_place _ _ _ _ _ _ E) /=; [lia|]. eexists _, _. split; [done|].
    assert (overwrite (length required) [] required = required) as ->.
    { rw /overwrite /= Nat.add_0_r. by rw take_drop. }
    rw insert_id //. split; [|done]. apply listed_slice. exists required.
    rw Nat.add_0_r drop_0 app_nil_r firstn_all. split_and!; [done|lia|done]. }
  rw /= (M_bind_eq _ _ _ _ _ (loadArray_eq _ _ _ E)).
  assert (length additional ≠ 0) as Hn by (by destruct additional).
  rw (proj2 (Nat.leb_gt _ _)); [lia|]. rw drop_0 firstn_all.
  set (c := CArray _). set (p := fresh (dom h)).
  assert (h !! p = None) as Hp by apply not_elem_of_dom, is_fresh.
  rw (M_bind_eq _ _ _ p (<[p := c]> h)) //. eexists _, _. split; [done|].
  split; [|by apply insert_subseteq]. apply listed_slice. eexists. rw lookup_insert_eq. split; [done|].
  rw app_assoc drop_0 -length_app take_app_length !length_app. split; [lia|done].
Qed.

(** Leaving out the fourth builder moves the others up in the array itself. *)
Lemma dropFourth_spec `{!Growth} h l off len builders :
  listed h (VSlice (Some (l, off, len))) builders → 3 < length builders →
  ∃ w h', dropFourth (VSlice (Some (l, off, len))) h = (Returns w, h') ∧
    listed h' w (take 3 builders ++ drop (3 + 1) builders) ∧
    ∀ l', l' ≠ l → h' !! l' = h !! l'.
Proof.
  intros Hs Hlen. pose proof (proj1 (listed_slice _ _ _ _ _) Hs) as (vs & E & Hb & ->).
  rw length_take length_drop in Hlen. rw /dropFourth (M_bind_eq _ _ _ _ _ Hs).
  rw length_take length_drop (_ : len `min` (length vs - off) = len); [lia|].
  rw /reslice (_ : ((0 <=? 3) && (3 <=? len)) = true);
    [apply andb_true_iff; split; [done|apply Nat.leb_le; lia]|].
  rw (_ : ((3 + 1 <=? len) && (len <=? len)) = true);
    [apply andb_true_iff; split; apply Nat.leb_le; lia|].
  rw !M_bind_ret. set (xs := take (len - (3 + 1)) (drop (off + (3 + 1)) vs)).
  assert (listed h (VSlice (Some (l, off + (3 + 1), len - (3 + 1)))) xs) as Hxs.
  { apply listed_slice. exists vs. split_and!; [done|lia|done]. }
  rw (M_bind_eq _ _ _ _ _ Hxs) Nat.add_0_r.
  assert (length xs = len - 4) as Hl by (rw /xs length_take length_drop; lia).
  rw (append_in_place _ _ _ _ _ _ E); [lia|]. eexists _, _. split; [done|]. split.
  - apply listed_slice. eexists. rw lookup_insert_eq. split; [done|].
    rw (_ : 3 - 0 = 3) //. split; [rw /overwrite !length_app length_take length_drop; lia|].
    rw window_overwrite; [lia|]. f_equal; [by rw take_take; f_equal; lia|].
    by rw /xs skipn_firstn_comm drop_drop.
  - intros l' Hl'. by rw lookup_insert_ne.
Qed.
