(* ===== verification/PodExecutor.v ===== *)
(** controllers/pod_executor.go: running a command in a container and
    collecting what it prints, with the parts of io, bufio and bytes that it is
    written with.  [Exec] is one way to provide the operation [kExec] that the
    other files have as a parameter. *)

From S2P Require Import Prelude GoStd V1beta1 Constant Kube ControllerUtils Cli.

(** ** Readers and writers (packages io, bytes and bufio) *)

(** What a reader will deliver: the results of its calls of Read, none of them
    empty, and then the end of the file or an error.  [rd_WriterTo] says whether
    it has a method WriteTo, which writes them one by one. *)
Record Reader := mkReader {
  rd_chunks : list string;
  rd_err : goerror;
  rd_WriterTo : bool
}.

(** A bufio.Writer on top of a bytes.Buffer: what it holds back, and what the
    buffer below has received. *)
Record Writer := mkWriter { bw_buf : string; bw_wr : string }.

Definition defaultBufSize : nat := 4096.

Definition NewWriter (buffer : string) : Writer := mkWriter "" buffer.

Definition Available (b : Writer) : nat := defaultBufSize - String.length (bw_buf b).

Definition Flush (b : Writer) : Writer := mkWriter "" (bw_wr b +:+ bw_buf b).

Definition cut (n : nat) (s : string) : string * string :=
  (String.substring 0 n s, String.substring n (String.length s - n) s).

(** [b.Write(p)]: what fits is held back; a full buffer is flushed first, and
    what is larger than the buffer goes through. *)
Definition Write (b : Writer) (p : string) : Writer :=
  if String.length p <=? Available b then mkWriter (bw_buf b +:+ p) (bw_wr b) else
  let '(b, p) :=
    if (bw_buf b =? "")%string then (b, p)
    else let '(p1, p2) := cut (Available b) p in
         (Flush (mkWriter (bw_buf b +:+ p1) (bw_wr b)), p2) in
  if String.length p <=? defaultBufSize then mkWriter p (bw_wr b)
  else mkWriter "" (bw_wr b +:+ p).

(** One read of [b.ReadFrom(r)].  A full buffer is flushed; with nothing held
    back the buffer below, which has a ReadFrom as well, reads itself. *)
Definition readChunk (b : Writer) (p : string) : Writer :=
  let b := if Available b =? 0 then Flush b else b in
  if (bw_buf b =? "")%string then mkWriter "" (bw_wr b +:+ p)
  else let '(p1, p2) := cut (Available b) p in
       let b := mkWriter (bw_buf b +:+ p1) (bw_wr b) in
       if (p2 =? "")%string then b else mkWriter "" (bw_wr (Flush b) +:+ p2).

(** [io.Copy(dst, src)]: a source with WriteTo writes itself; otherwise the
    destination reads. *)
Definition copyChunk (src : Reader) (dst : Writer) (p : string) : Writer :=
  if rd_WriterTo src then Write dst p else readChunk dst p.

(** ** The remote command (k8s.io/client-go/tools/remotecommand) *)

(** The request for the subresource exec of a pod. *)
Record Request := mkRequest {
  rq_Resource : string;
  rq_Name : string;
  rq_Namespace : string;
  rq_SubResource : string;
  rq_Container : string;
  rq_Command : list string;
  rq_Stdout : bool;
  rq_Stderr : bool;
  rq_Stdin : bool
}.

(** An open connection: the two streams, and what the error stream will say
    about the command once it has ended. *)
Record Session := mkSession {
  ses_Stdout : Reader;
  ses_Stderr : Reader;
  ses_status : goerror
}.

(** The network: making an executor for a request, and opening the connection.
    The two streams are copied by goroutines; [schedule] is the order in which
    they get to read. *)
Class Streamer (W : Type) := {
  NewSPDYExecutor : string → Request → Ext W goerror;
  connect : Request → Ext W (result Session);
  schedule : Session → list bool
}.

(** The two copies, as far as the schedule goes, and then, since both are waited
    for, to the end. *)
Fixpoint copies (out err : Reader) (sched : list bool) (os es : list string) (o e : Writer)
    : Writer * Writer :=
  match sched, os, es with
  | true :: sched, p :: os, _ => copies out err sched os es (copyChunk out o p) e
  | false :: sched, _, p :: es => copies out err sched os es o (copyChunk err e p)
  | _ :: sched, _, _ => copies out err sched os es o e
  | [], _, _ => (foldl (copyChunk out) o os, foldl (copyChunk err) e es)
  end.

Section exec.
Context {W : Type} `{!Streamer W}.

(** A failed copy is only logged; the error is that of the connection or of the
    command. *)
Definition StreamWithContext (request : Request) (stdout stderr : Writer)
    : Ext W (Writer * Writer * goerror) := λ w,
  match connect request w with
  | (inl err, w) => ((stdout, stderr, Some err), w)
  | (inr s, w) =>
      ((copies (ses_Stdout s) (ses_Stderr s) (schedule s) (rd_chunks (ses_Stdout s))
          (rd_chunks (ses_Stderr s)) stdout stderr, ses_status s), w)
  end.

Definition execRequest (namespace podName containerName : string) (command : list string) : Request :=
  mkRequest "pods" podName namespace "exec" containerName command true true false.

(** The writers are never flushed: the answer is what the buffers below have. *)
Definition Exec (namespace podName containerName : string) (command : list string)
    : Ext W (string * string * goerror) := λ w,
  let request := execRequest namespace podName containerName command in
  match NewSPDYExecutor "POST" request w with
  | (Some err, w) => (("", "", Some err), w)
  | (None, w) =>
      let '((stdOut, stdErr, err), w) := StreamWithContext request (NewWriter "") (NewWriter "") w in
      ((bw_wr stdOut, bw_wr stdErr, err), w)
  end.
End exec.

(** The services of the operator, with commands run by [Exec]. *)
Definition withPodExecutor {W} (K : Kube W) `{!Streamer W} : Kube W := {|
  kGet := kGet; kList := kList; kCreate := kCreate; kUpdate := kUpdate; kDelete := kDelete;
  kStatusUpdate := kStatusUpdate; kReaderGet := kReaderGet; csGet := csGet; csUpdate := csUpdate;
  csDeleteOrphan := csDeleteOrphan; kEvent := kEvent; kNow := kNow; kRandRead := kRandRead;
  kExec := Exec
|}.

(** ** What is collected *)

Definition concatAll (chunks : list string) : string := foldr String.append "" chunks.

(** Everything the stream delivers. *)
Definition received (r : Reader) : string := concatAll (rd_chunks r).

(** How a command ends. *)
Definition commandStatus {W} `{!Streamer W} (request : Request) (w : W) : goerror :=
  match NewSPDYExecutor "POST" request w with
  | (Some err, _) => Some err
  | (None, w) => match connect request w with (inl err, _) => Some err | (inr s, _) => ses_status s end
  end.

(** The streams of an SPDY connection have no WriteTo. *)
Class StreamLaws (W : Type) `{!Streamer W} : Prop :=
  plain_streams request w s w' :
    connect request w = (inr s, w') →
    rd_WriterTo (ses_Stdout s) = false ∧ rd_WriterTo (ses_Stderr s) = false.

(** A reader without WriteTo is read past an empty writer, into the buffer
    below. *)
Lemma copyChunk_through r x p :
  rd_WriterTo r = false → copyChunk r (mkWriter "" x) p = mkWriter "" (x +:+ p).
Proof. intros E. by rw /copyChunk E. Qed.

Lemma foldl_copyChunk r x ps :
  rd_WriterTo r = false →
  foldl (copyChunk r) (mkWriter "" x) ps = mkWriter "" (x +:+ concatAll ps).
Proof.
  intros E. revert x. induction ps as [|p ps IH]; intros x; simpl; [by rw string_app_nil_r|].
  by rw copyChunk_through // IH string_app_assoc.
Qed.

(** Whatever order the goroutines read in, both streams are collected. *)
Lemma copies_spec out err sched os es x y :
  rd_WriterTo out = false → rd_WriterTo err = false →
  copies out err sched os es (mkWriter "" x) (mkWriter "" y) =
  (mkWriter "" (x +:+ concatAll os), mkWriter "" (y +:+ concatAll es)).
Proof.
  intros Eo Ee. revert os es x y. induction sched as [|b sched IH]; intros os es x y; simpl.
  { by rw !foldl_copyChunk. }
  destruct b, os as [|p os], es as [|q es]; rw ?copyChunk_through // IH //= string_app_assoc //.
Qed.

(** C24: [Exec] answers all that the command prints on either stream, in the order
    of the stream and however the two are interleaved, together with the error
    of the command, although it never flushes its writers: nothing is ever held
    back in them.  Where no connection is made it answers the error and no
    output.  A stream that breaks off is not an error. *)
Theorem Exec_collects {W} `{!Streamer W, !StreamLaws W} namespace podName containerName command w :
  let request := execRequest namespace podName containerName command in
  Exec namespace podName containerName command w =
  match NewSPDYExecutor "POST" request w with
  | (Some err, w) => (("", "", Some err), w)
  | (None, w) =>
      match connect request w with
      | (inl err, w) => (("", "", Some err), w)
      | (inr s, w) => ((received (ses_Stdout s), received (ses_Stderr s), ses_status s), w)
      end
  end.
Proof.
  intros request. rw /Exec -/request /StreamWithContext.
  destruct (NewSPDYExecutor "POST" request w) as [[err|] w1]; [done|].
  destruct (connect request w1) as [[err|s] w2] eqn:E; [done|].
  destruct (plain_streams _ _ _ _ E) as [Eo Ee]. by rw copies_spec.
Qed.

Lemma Exec_status {W} `{!Streamer W} namespace pod container command w :
  (Exec namespace pod container command w).1.2 =
  commandStatus (execRequest namespace pod container command) w.
Proof.
  rw /Exec /commandStatus /StreamWithContext.
  destruct (NewSPDYExecutor _ _ w) as [[err|] w1]; [done|].
  destruct (connect _ w1) as [[err|s] w2]; [done|]. by destruct (copies _ _ _ _ _ _ _).
Qed.

Lemma execOrFail_answer {W} `{!Kube W} pod msg cmd s :
  (execOrFail pod msg cmd s).1 =
  Returns (WrapError (msg +:+ " " +:+ pod +:+ ": ") <$>
    (kExec (rmq_Namespace (op_rmq s)) pod ContainerNameRabbitMQ ["sh"; "-c"; cmd] (op_world s)).1.2).
Proof.
  destruct s as [r w]. rw /execOrFail /exec /event /ext /rmq /gets /mbind /M_bind /=.
  destruct (kExec _ _ _ _ w) as [[out [err|]] w1]; simpl; [|done].
  by destruct (kEvent r _ _ _ w1).
Qed.

(** A step that runs a command in a pod goes on exactly if there was a connection
    and the command succeeded, whatever it printed. *)
Lemma execOrFail_status {W} (K : Kube W) `{!Streamer W} pod msg cmd s :
  let request := execRequest (rmq_Namespace (op_rmq s)) pod ContainerNameRabbitMQ ["sh"; "-c"; cmd] in
  (execOrFail (Kube0 := withPodExecutor K) pod msg cmd s).1 =
  Returns (WrapError (msg +:+ " " +:+ pod +:+ ": ") <$> commandStatus request (op_world s)).
Proof. cbv zeta. rw (execOrFail_answer (Kube0 := withPodExecutor K)) -Exec_status. done. Qed.

(** With a WriteTo on the stream, output that fits in the buffer would be
    lost. *)
Lemma held_back r x y ps :
  rd_WriterTo r = true → String.length x + String.length (concatAll ps) ≤ defaultBufSize →
  foldl (copyChunk r) (mkWriter x y) ps = mkWriter (x +:+ concatAll ps) y.
Proof.
  intros E. revert x. induction ps as [|p ps IH]; intros x Hl; simpl in *; [by rw string_app_nil_r|].
  rw string_length_app in Hl. rw {2}/copyChunk E /Write /Available /=.
  rw (proj2 (Nat.leb_le _ _)); [lia|]. rw IH; [rw string_length_app; lia|]. by rw string_app_assoc.
Qed.
