(* ===== verification/Sim.v ===== *)
(** A small concrete world, in which the witnesses of the theorems run: the
    objects of an API server without versions, a clock that stands still, pods
    that run every command; and simple codecs in the place of the libraries. *)

From S2P Require Import Prelude GoStd K8s V1beta1 Metadata Kube Controllerutil Trace Steps Deletion.
From S2P Require Import Reconcile.
From Stdlib Require Import Ascii.

(** ** The world *)

Record Sim := mkSim { sim_objs : list Object; sim_now : Z }.

Definition notFound : error := StatusError StatusReasonNotFound "not found".
Definition alreadyExists : error := StatusError StatusReasonAlreadyExists "already exists".

(** The object of a kind in a package, if it is of that kind. *)
Definition unpack (k : Kind) (o : Object) : option (Obj k) :=
  match decide (projT1 o = k) with
  | left E => Some (eq_rect _ Obj (projT2 o) _ E)
  | right _ => None
  end.

Definition isKey (k : Kind) (key : NamespacedName) (o : Object) : bool :=
  match unpack k o with Some x => bool_decide (ObjectKeyFromObject x = key) | None => false end.

Definition simFind (k : Kind) (key : NamespacedName) (w : Sim) : result (Obj k) :=
  match List.find (isKey k key) (sim_objs w) ≫= unpack k with
  | Some x => inr x
  | None => inl notFound
  end.

Definition hasLabels (labels : gmap string string) (m : ObjectMeta) : bool :=
  forallb (λ kv, bool_decide (gm_lookup (om_Labels m) kv.1 = Some kv.2)) (map_to_list labels).

(** The object is what is found under its key. *)
Definition isFound {k} (w : Sim) (x : Obj k) : bool :=
  match simFind k (ObjectKeyFromObject x) w with inr y => bool_decide (y = x) | inl _ => false end.

Definition simList (k : Kind) (ns : option string) (labels : gmap string string) (w : Sim) : list (Obj k) :=
  remove_dups (List.filter (λ x, bool_decide (default (om_Namespace (meta x)) ns = om_Namespace (meta x)) &&
                    hasLabels labels (meta x) && isFound w x)
    (omap (unpack k) (sim_objs w))).

Definition simPut {k} (x : Obj k) (w : Sim) : Sim :=
  mkSim ((λ o, if isKey k (ObjectKeyFromObject x) o then existT k x else o) <$> sim_objs w) (sim_now w).

Definition simUpdate {k} (x : Obj k) : Ext Sim (result (Obj k)) := λ w,
  match simFind k (ObjectKeyFromObject x) w with
  | inl err => (inl err, w)
  | inr _ => (inr x, simPut x w)
  end.

Definition simCreate {k} (x : Obj k) : Ext Sim (result (Obj k)) := λ w,
  match simFind k (ObjectKeyFromObject x) w with
  | inl _ => (inr x, mkSim (sim_objs w ++ [existT k x]) (sim_now w))
  | inr _ => (inl alreadyExists, w)
  end.

Definition simDelete (k : Kind) (key : NamespacedName) : Ext Sim goerror := λ w,
  match simFind k key w with
  | inl err => (Some err, w)
  | inr _ => (None, mkSim (List.filter (λ o, negb (isKey k key o)) (sim_objs w)) (sim_now w))
  end.

Fixpoint repeatChar (n : nat) : string :=
  match n with O => "" | S n => String "a"%char (repeatChar n) end.

(** Only the status is taken from what is sent. *)
Definition simStatusUpdate (r : RabbitmqCluster) : Ext Sim (result RabbitmqCluster) := λ w,
  match simFind KRabbitmqCluster (ObjectKeyFromObject (k := KRabbitmqCluster) r) w with
  | inl err => (inl err, w)
  | inr stored =>
      if bool_decide (om_UID (rmq_ObjectMeta stored) = om_UID (rmq_ObjectMeta r)) then
        let r' := set_rmq_Status (rmq_Status r) stored in
        (inr r', simPut (k := KRabbitmqCluster) r' w)
      else (inl (StatusError StatusReasonConflict "precondition failed"), w)
  end.

(** The clock does not leave the years that timestamps can say. *)
Definition simNow (w : Sim) : Z := Z.max 0 (Z.min (sim_now w) (253402300799 * Second)).

#[export] Instance sim_kube : Kube Sim := {
  kGet k key w := (simFind k key w, w);
  kList k ns labels w := (inr (simList k ns labels w), w);
  kCreate k x := simCreate x;
  kUpdate k x := simUpdate x;
  kDelete k uid x := simDelete k (ObjectKeyFromObject x);
  kStatusUpdate r := simStatusUpdate r;
  kReaderGet k key w := (simFind k key w, w);
  csGet k key w := (simFind k key w, w);
  csUpdate k ns x := simUpdate x;
  csDeleteOrphan k key := simDelete k key;
  kEvent r ty reason msg w := (tt, w);
  kNow w := (simNow w, w);
  kRandRead n w := (inr (repeatChar n), w);
  kExec ns pod container command w := ((("", ""), None), w)
}.

#[export] Instance sim_get_law : GetLaw Sim.
Proof.
  intros k key w o w' E. injection E as E _. unfold simFind in E.
  destruct (List.find (isKey k key) (sim_objs w)) as [p|] eqn:Ef; simpl in E; [|done].
  destruct (unpack k p) as [x|] eqn:Eu; [|done]. injection E as <-.
  apply find_some in Ef as [_ Ef]. unfold isKey in Ef. rw Eu in Ef. by apply bool_decide_eq_true_1 in Ef.
Qed.

#[export] Instance sim_csGet_law : CsGetLaw Sim.
Proof. intros k key w o E. by apply (sim_get_law k key w o w); cbn in *; rw E. Qed.

(** ** The codecs *)

(** A file of keys and values; its text is not looked at again. *)
#[export] Instance sim_ini : Ini := {
  IniFile := list (string * string);
  iniLoad _ := inr [];
  iniEmpty := [];
  iniAppend _ f := inr f;
  iniNewKey k v f := inr (f ++ [(k, v)]);
  iniKeyStrings f := fst <$> f;
  iniDeleteKey k f := List.filter (λ kv, negb (kv.1 =? k)%string) f;
  iniWriteTo f := inr (String.concat "" ((λ kv, kv.1 +:+ " = " +:+ kv.2 +:+ newline) <$> f))
}.

Definition unsupported : error := New "not supported".

#[export] Instance sim_svc : Patchable ServiceSpec := {
  Marshal _ := inr "{}"; StrategicMergePatch a _ := inr a; Unmarshal _ := inl unsupported
}.
#[export] Instance sim_pod : Patchable PodSpec := {
  Marshal _ := inr "{}"; StrategicMergePatch a _ := inr a; Unmarshal _ := inl unsupported
}.

#[export] Instance sim_library : Library := {
  SemanticDeepEqual k a b := bool_decide (a = b);
  Title s := s;
  lib_ini := sim_ini;
  lib_svc := sim_svc;
  lib_pod := sim_pod
}.

(** ** A cluster *)

Definition simMeta (labels : gomap string) (finalizers : list string) : ObjectMeta :=
  mkObjectMeta "rabbit" "ns" "uid-1" "7" 3 None labels None finalizers [].

Definition simSpec (replicas : Z) : RabbitmqClusterSpec :=
  mkRabbitmqClusterSpec false (Some replicas) (mkTLSSpec "" "" false)
    (mkRabbitmqClusterConfigurationSpec "" "" "" "" ["rabbitmq_stream"]) "rabbitmq:3.13" None None []
    (Some (mkResourceRequirements (Some {[ResourceMemory := GiB 2]}) (Some {[ResourceMemory := GiB 2]})))
    (mkRabbitmqClusterServiceSpec "" None) (mkRabbitmqClusterPersistenceSpec (Some (GiB 10)) None)
    (mkSecretBackend None (mkLocalObjectReference "")) (mkRabbitmqClusterOverrideSpec None None)
    (Some 30%Z) false (Some 60%Z).

Definition simStatus : RabbitmqClusterStatus := mkRabbitmqClusterStatus 3 None None None 0.

(** A cluster in operation. *)
Definition simCluster (replicas : Z) : RabbitmqCluster :=
  mkRabbitmqCluster (simMeta None [deletionFinalizer]) (simSpec replicas) simStatus.

Definition simLabels : gomap string := Some (Metadata.LabelSelector "rabbit").

Definition simContainer : Container :=
  mkContainer "rabbitmq" "rabbitmq:3.13" [] [] None None []
    (mkResourceRequirements (Some {[ResourceMemory := GiB 2]}) (Some {[ResourceMemory := GiB 2]}))
    "" "" "" None None None.

(** A StatefulSet of the cluster, ready. *)
Definition simSts (name : string) : StatefulSet :=
  mkStatefulSet
    (mkObjectMeta name "ns" ("uid-" +:+ name) "1" 1 None simLabels None []
       [controllerRef (simMeta None [])])
    (mkStatefulSetSpec (Some 1%Z) (Some (mkLabelSelector simLabels "")) (mkPodTemplateSpec
       (newObjectMeta "" "" None None)
       (mkPodSpec [] [simContainer] [] None [] [] None "" None None None "")) [] "" "" (mkStatefulSetUpdateStrategy "" None) 0)
    (mkStatefulSetStatus 1 "rev" "rev").

Definition simObjects (stss : list string) : list Object :=
  (λ name, existT KStatefulSet (simSts name)) <$> stss.

Definition simWorld (objs : list Object) : Sim := mkSim objs (1700000000 * Second).

Definition simDefaults : Defaults := mkDefaults "rabbitmq:3.13.7-management" "updater:1" "" false.

(** The state of a reconciliation that has read a cluster, with an empty log. *)
Definition simState (r : RabbitmqCluster) (objs : list Object) {Call : Type} : Op (Sim * list Call) :=
  mkOp r (simWorld objs, []).

(** ** Rounds of reconciliation *)

(** The pods of a StatefulSet get ready, and a minute passes. *)
Definition podsReady (o : Object) : Object :=
  match unpack KStatefulSet o with
  | Some sts => existT KStatefulSet
      (mkStatefulSet (sts_ObjectMeta sts) (sts_Spec sts) (mkStatefulSetStatus 1 "rev" "rev"))
  | None => o
  end.

Definition kubelet (w : Sim) : Sim := mkSim (podsReady <$> sim_objs w) (sim_now w + 60 * Second).

(** A new cluster of one replica, nothing of which has been created. *)
Definition simNew : Op (Sim * list Call) :=
  let r := set_rmq_Status (set_rst_Replicas 1 simStatus) (simCluster 1) in
  let r := set_rmq_Spec (set_rs_Service (mkRabbitmqClusterServiceSpec "ClusterIP" None) (rmq_Spec r)) r in
  simState r [existT KRabbitmqCluster r].

(** The state of the next reconciliation, which reads the cluster again. *)
Definition nextRound (s : Op (Sim * list Call)) : Op (Sim * list Call) :=
  let w := (op_world (reconcileFound simDefaults s).2).1 in
  match simFind KRabbitmqCluster (mkNamespacedName "ns" "rabbit") w with
  | inr r => mkOp r (kubelet w, [])
  | inl _ => s
  end.

Definition simRound (n : nat) : Op (Sim * list Call) := Nat.iter n nextRound simNew.
