(* ===== verification/SimStore.v ===== *)
(** The simulated world keeps what it is sent: it satisfies the laws of the
    [Store] interface.  The children of a new cluster converge in it. *)

From S2P Require Import Prelude GoStd GoTime K8s V1beta1 Constant Metadata Merge Kube Controllerutil.
From S2P Require Import Builder ServerConf Builders Trace Result ControllerUtils Configurations Resources.
From S2P Require Import Timestamps Store Behaviour Tame Names Converge Reconcile Deletion Recorded Authority Cleanup Restarts Scaling Volumes Queue Clock Effects Sim.

(** ** Packages *)

#[export] Instance sim_store : Store Sim := λ w k key,
  List.find (isKey k key) (sim_objs w) ≫= unpack k.

Lemma unpack_pack {k} (x : Obj k) : unpack k (existT k x) = Some x.
Proof.
  unfold unpack. destruct (decide _) as [E|?]; [|done]. cbn in E. by rw (proof_irrel E eq_refl).
Qed.

Lemma unpack_Some k o (x : Obj k) : unpack k o = Some x → o = existT k x.
Proof.
  unfold unpack. destruct (decide _) as [E|]; [|done]. destruct o as [k' y]. cbn in *. subst k'. by intros [= ->].
Qed.

Lemma isKey_spec k key o : isKey k key o = true ↔ ∃ x : Obj k, o = existT k x ∧ ObjectKeyFromObject x = key.
Proof.
  unfold isKey. split.
  - destruct (unpack k o) as [x|] eqn:E; [|done]. intros Hk%bool_decide_eq_true_1.
    exists x. split; [by apply unpack_Some|done].
  - intros (x & -> & <-). rw unpack_pack. by apply bool_decide_eq_true_2.
Qed.

(** An object has one kind and one key. *)
Lemma isKey_inj k key k' key' o : isKey k key o = true → isKey k' key' o = true → (k', key') = (k, key).
Proof.
  intros (x & -> & <-)%isKey_spec (x' & Ho & <-)%isKey_spec. by simplify_eq.
Qed.

Lemma sim_contents_get k key w : simFind k key w =
  match contents w k key with Some x => inr x | None => inl notFound end.
Proof. done. Qed.

Lemma sim_contents_Some w k key (x : Obj k) :
  contents w k key = Some x → List.find (isKey k key) (sim_objs w) = Some (existT k x) ∧ ObjectKeyFromObject x = key.
Proof.
  unfold contents, sim_store. destruct (List.find _ _) as [o|] eqn:E; [|done]. cbn. intros ->%unpack_Some.
  split; [done|]. apply find_some in E as [_ (x' & Hx & Hk)%isKey_spec]. by simplify_eq.
Qed.

Lemma sim_contents_None w k key : contents w k key = None → List.find (isKey k key) (sim_objs w) = None.
Proof.
  unfold contents, sim_store. destruct (List.find _ _) as [o|] eqn:E; [|done]. cbn.
  apply find_some in E as [_ (x & -> & _)%isKey_spec]. by rw unpack_pack.
Qed.

(** ** Writes *)

Lemma find_put {k} (x : Obj k) k' key l :
  List.find (isKey k' key) ((λ o, if isKey k (ObjectKeyFromObject x) o then existT k x else o) <$> l) =
  (if decide ((k', key) = (k, ObjectKeyFromObject x))
   then (λ _, existT k x) <$> List.find (isKey k' key) l
   else List.find (isKey k' key) l).
Proof.
  assert (isKey k (ObjectKeyFromObject x) (existT k x) = true) as Hx by (apply isKey_spec; eauto).
  induction l as [|o l IH]; [by destruct (decide _)|]. cbn. destruct (isKey k (ObjectKeyFromObject x) o) eqn:Eo.
  - destruct (decide _) as [E|Hne].
    + injection E as -> ->. by rw Hx Eo.
    + destruct (isKey k' key (existT k x)) eqn:E1; [by apply (isKey_inj _ _ _ _ _ Hx) in E1|].
      destruct (isKey k' key o) eqn:E2; [by apply (isKey_inj _ _ _ _ _ Eo) in E2|done].
  - rw IH. destruct (isKey k' key o) eqn:E2; [|done]. destruct (decide _) as [E|]; [|done].
    injection E as -> ->. congruence.
Qed.

Lemma simPut_stored {k} (x : Obj k) w :
  is_Some (contents w k (ObjectKeyFromObject x)) → stored x w (simPut x w).
Proof.
  intros [y Hy]. apply sim_contents_Some in Hy as [Hy _]. unfold stored, contents, sim_store. cbn. split.
  - rw find_put decide_True // Hy /=. apply unpack_pack.
  - intros k' key Hne. by rw find_put decide_False.
Qed.

Lemma simAdd_stored {k} (x : Obj k) w t :
  contents w k (ObjectKeyFromObject x) = None → stored x w (mkSim (sim_objs w ++ [existT k x]) t).
Proof.
  intros Hn%sim_contents_None. unfold stored, contents, sim_store. cbn.
  assert (isKey k (ObjectKeyFromObject x) (existT k x) = true) as Hx by (apply isKey_spec; eauto).
  assert (∀ f (l : list Object), List.find f (l ++ [existT k x]) =
    match List.find f l with Some o => Some o | None => if f (existT k x) then Some (existT k x) else None end)
    as Happ by (intros f l; induction l as [|o l IH]; [done|]; cbn; by destruct (f o)).
  rw Happ Hn Hx. split; [apply unpack_pack|]. intros k' key Hne. rw Happ.
  destruct (List.find (isKey k' key) _); [done|].
  destruct (isKey k' key (existT k x)) eqn:E; [|done].
  destruct (Hne (isKey_inj _ _ _ _ _ Hx E)).
Qed.

Lemma sim_reads w k key : reads (contents w k key) (simFind k key w).
Proof.
  rw sim_contents_get. unfold reads. destruct (contents w k key); [done|]. by eexists.
Qed.

#[export] Instance sim_store_laws : StoreLaws Sim.
Proof.
  split; try done.
  - intros w k key o Ho. by apply sim_contents_Some in Ho as [_ ?].
  - intros k key w. split; [apply sim_reads|done].
  - intros k key w. split; [apply sim_reads|done].
  - intros k o w Ho. exists o, (mkSim (sim_objs w ++ [existT k o]) (sim_now w)).
    cbn [kCreate sim_kube]. rw /simCreate sim_contents_get Ho. split_and!; [done|apply served_refl|].
    by apply simAdd_stored.
  - intros k o w [y Hy]. exists o, (simPut o w). cbn [kUpdate sim_kube]. rw /simUpdate sim_contents_get Hy.
    split_and!; [done|apply served_refl|]. apply simPut_stored. by rw Hy.
  - intros n w. split; [done|]. exists (repeatChar n). split; [done|]. induction n as [|n IH]; [done|]. by rw /= IH.
Qed.

(** ** Lists and deletions *)

Lemma hasLabels_carries labels m : hasLabels labels m = true ↔ carries labels m.
Proof.
  unfold hasLabels. rw forallb_forall. split.
  - intros Hl key v Hk. assert (In (key, v) (map_to_list labels)) as Hin
      by by apply list_elem_of_In, elem_of_map_to_list.
    by apply (bool_decide_eq_true_1 _ (Hl _ Hin)).
  - intros Hc [key v] Hin%list_elem_of_In%elem_of_map_to_list. by apply bool_decide_eq_true_2, Hc.
Qed.

Lemma isFound_contents {k} w (x : Obj k) : isFound w x = true ↔ contents w k (ObjectKeyFromObject x) = Some x.
Proof.
  unfold isFound. rw sim_contents_get. destruct (contents w k _) as [y|]; [|by split].
  rw bool_decide_eq_true. split; [by intros ->|by intros [= ->]].
Qed.

Lemma simList_elem k ns labels w (o : Obj k) :
  o ∈ simList k ns labels w ↔
  contents w k (ObjectKeyFromObject o) = Some o ∧ carries labels (meta o) ∧ inNamespace ns (meta o).
Proof.
  unfold simList. rw elem_of_remove_dups list_elem_of_In filter_In !andb_true_iff isFound_contents hasLabels_carries.
  rw bool_decide_eq_true -list_elem_of_In list_elem_of_omap.
  assert (default (om_Namespace (meta o)) ns = om_Namespace (meta o) ↔ inNamespace ns (meta o)) as ->.
  { destruct ns as [n|]; cbn; [by split; intros ->|done]. }
  split; [tauto|]. intros (Hc & Hl & Hn). split; [|done]. exists (existT k o). split; [|apply unpack_pack].
  apply sim_contents_Some in Hc as [Hc _]. apply find_some in Hc as [Hin _]. by apply list_elem_of_In.
Qed.

#[export] Instance sim_server_laws : ServerLaws Sim.
Proof.
  split.
  - apply sim_get_law.
  - intros k key w o E. cbn in E. rw sim_contents_get in E. destruct (contents w k key) as [x|] eqn:Ec; [|done].
    injection E as <-. by apply sim_contents_Some in Ec as [_ ?].
  - intros k ns labels w os [= <-]. apply Forall_forall. by intros o (_ & Hl & Hns)%simList_elem.
  - intros k o o' w. cbn. unfold simCreate. destruct (simFind _ _ _); [|done]. by intros [= <-].
  - intros k o o' w. cbn. unfold simUpdate. destruct (simFind _ _ _); [done|]. by intros [= <-].
  - intros r r' w. cbn. unfold simStatusUpdate. rw sim_contents_get. destruct (contents w _ _) as [x|] eqn:Ec; [|done].
    case_bool_decide as Hu; [|done]. intros [= <-]. apply sim_contents_Some in Ec as [_ ?]. done.
Qed.

(** What is found after the objects of a key are taken away. *)
Lemma find_without k key k' key' l :
  List.find (isKey k' key') (List.filter (λ o, negb (isKey k key o)) l) =
  if decide ((k', key') = (k, key)) then None else List.find (isKey k' key') l.
Proof.
  induction l as [|o l IH]; [by destruct (decide _)|]. cbn. destruct (isKey k key o) eqn:Eo; cbn.
  - rw IH. destruct (decide _) as [|Hne]; [done|]. destruct (isKey k' key' o) eqn:E; [|done].
    by apply (isKey_inj _ _ _ _ _ Eo) in E.
  - destruct (isKey k' key' o) eqn:E; [|exact IH]. destruct (decide _) as [[= -> ->]|]; [congruence|done].
Qed.

#[export] Instance sim_removal_laws : RemovalLaws Sim.
Proof.
  split.
  - intros k ns labels w. split; [done|]. exists (simList k ns labels w).
    split_and!; [done|apply NoDup_remove_dups|apply simList_elem].
  - intros k o o' w Hc. exists (mkSim (List.filter (λ x, negb (isKey k (ObjectKeyFromObject o) x)) (sim_objs w)) (sim_now w)).
    cbn [kDelete sim_kube]. unfold simDelete. rw sim_contents_get Hc. split; [done|].
    unfold contents, sim_store. cbn [sim_objs]. split; [by rw find_without decide_True|].
    intros k' key Hne. by rw find_without decide_False.
Qed.

(** The update of a status fails, or the stored cluster gets the status. *)
Lemma simStatusUpdate_spec r w :
  (∃ err, simStatusUpdate r w = (inl err, w)) ∨
  ∃ r1, contents w KRabbitmqCluster (ObjectKeyFromObject (k := KRabbitmqCluster) r) = Some r1 ∧
    let r' := set_rmq_Status (rmq_Status r) r1 in simStatusUpdate r w = (inr r', simPut (k := KRabbitmqCluster) r' w) ∧
    ObjectKeyFromObject (k := KRabbitmqCluster) r' = ObjectKeyFromObject (k := KRabbitmqCluster) r ∧
    stored (k := KRabbitmqCluster) r' w (simPut (k := KRabbitmqCluster) r' w).
Proof.
  unfold simStatusUpdate. rw sim_contents_get. destruct (contents w _ _) as [r1|] eqn:Hc; [|left; by eexists].
  case_bool_decide; [|left; by eexists]. right. exists r1. split; [done|]. cbv zeta. split; [done|].
  apply sim_contents_Some in Hc as Hk. destruct Hk as [_ Hk]. split; [exact Hk|]. apply simPut_stored.
  change (ObjectKeyFromObject (k := KRabbitmqCluster) (set_rmq_Status (rmq_Status r) r1)) with
    (ObjectKeyFromObject (k := KRabbitmqCluster) r1). rw Hk Hc. by eexists.
Qed.

#[export] Instance sim_client_laws : ClientLaws Sim.
Proof.
  split; try done.
  - intros r r1 w Hc Hu. exists (om_ResourceVersion (rmq_ObjectMeta r1)).
    assert (revised (om_ResourceVersion (rmq_ObjectMeta r1)) (rmq_Status r) r1 = set_rmq_Status (rmq_Status r) r1) as ->
      by (by destruct r1 as [[] ? ?]).
    destruct (simStatusUpdate_spec r w) as [[err E]|(r2 & Hc2 & E & _ & Hst)].
    + unfold simStatusUpdate in E. rw sim_contents_get Hc bool_decide_eq_true_2 // in E.
    + rw Hc in Hc2. injection Hc2 as <-. by eexists.
  - intros k key w. split; [apply sim_reads|done].
Qed.

(** ** The clock *)

#[export] Instance sim_clock : Clock Sim := λ t w, (t ≤ simNow w)%Z.

#[export] Instance sim_clock_laws : ClockLaws Sim.
Proof.
  split.
  - intros t. unfold notBefore, sim_clock, simNow.
    split; intros; cbn; unfold simCreate, simUpdate, simStatusUpdate, simDelete; repeat case_match; done.
  - done.
  - intros w. cbn. unfold inRange, simNow. assert (0 < Second)%Z by done. lia.
Qed.

#[export] Instance sim_clientset_laws : ClientsetLaws Sim.
Proof.
  split.
  - intros k ns o w [y Hy] _. exists o, (simPut o w). cbn [csUpdate sim_kube]. rw /simUpdate sim_contents_get Hy.
    split_and!; [done|apply served_refl|]. apply simPut_stored. by rw Hy.
  - intros k key w [y Hy]. exists (mkSim (List.filter (λ x, negb (isKey k key x)) (sim_objs w)) (sim_now w)).
    cbn [csDeleteOrphan sim_kube]. unfold simDelete. rw sim_contents_get Hy. split; [done|].
    unfold contents, sim_store. cbn [sim_objs]. split; [by rw find_without decide_True|].
    intros k' key' Hne. by rw find_without decide_False.
Qed.

(** ** A new cluster *)

(** A cluster with its defaults. *)
Definition tidyCluster : RabbitmqCluster :=
  let r := simCluster 1 in
  let spec := rmq_Spec r in
  set_rmq_Spec (set_rs_Service (mkRabbitmqClusterServiceSpec "ClusterIP" None) spec) r.

Definition tidyConf : string * string :=
  Eval vm_compute in match renderConf tidyCluster 1 with inr p => p | inl _ => ("", "") end.

Lemma tidyCluster_Tidy : Tidy tidyCluster 1.
Proof. split; try done; by eexists. Qed.

Lemma tidyCluster_conf : renderConf tidyCluster 1 = inr (tidyConf.1, tidyConf.2).
Proof. vm_compute. reflexivity. Qed.

Lemma tidyCluster_readable : readable tidyConf.1.
Proof. right. eexists. eexists. split; reflexivity. Qed.

Lemma sim_equal_refl k (o : Obj k) : SemanticDeepEqual k o o = true.
Proof. by apply bool_decide_eq_true_2. Qed.

Lemma nothing_good : Forall (good tidyCluster (simWorld [])) (ResourceBuilders 1 tidyCluster).
Proof. apply Forall_forall. intros b _ o Hc. discriminate Hc. Qed.

Lemma nothing_unsettled :
  length (unsettled tidyCluster 1 tidyConf.1 tidyConf.2 (simWorld [])) = 10%nat.
Proof. vm_compute. reflexivity. Qed.

(** Ten rounds create the children of a new cluster, whatever else happens. *)
Lemma children_converge_witness :
  ∃ w, rounds tidyCluster 1 10 (simWorld []) w ∧
    Forall (λ b, is_Some (child tidyCluster b w)) (ResourceBuilders 1 tidyCluster).
Proof.
  destruct (children_converge tidyCluster 1 tidyConf.1 tidyConf.2 0 (simWorld []) (simWorld [])
    tidyCluster_Tidy tidyCluster_conf tidyCluster_readable sim_equal_refl nothing_good (rounds_none _ _ _))
    as (_ & _ & _ & _ & w & Hr & Hu).
  rw nothing_unsettled in Hr. exists w. split; [exact Hr|].
  destruct (children_converge tidyCluster 1 tidyConf.1 tidyConf.2 10 (simWorld []) w
    tidyCluster_Tidy tidyCluster_conf tidyCluster_readable sim_equal_refl nothing_good Hr)
    as (_ & _ & _ & Hall & _).
  eapply Forall_impl; [exact (Hall Hu)|]. intros b (o & Ho & _). by rw Ho.
Defined.

Lemma sim_equals_status : equalsStatus (H := sim_library).
Proof.
  intros st a b Hst. apply bool_decide_ext. split; [|by intros ->].
  destruct a as [ma sa ta], b as [mb sb tb]. cbn in Hst. subst tb. by intros [= -> ->].
Qed.

(** The first round writes the first child of a new cluster. *)
Lemma reconcileResources_refines_queue_witness :
  let s := (reconcileResources (mkOp tidyCluster (simWorld [], [] : list Call))).2 in
  ∃ b, unsettled tidyCluster 1 tidyConf.1 tidyConf.2 (simWorld []) =
    b :: unsettled tidyCluster 1 tidyConf.1 tidyConf.2 (op_world s).1.
Proof.
  cbv zeta. set (s := reconcileResources (mkOp tidyCluster (simWorld [], [] : list Call))).
  assert (∀ sts, ¬ ours tidyCluster (simWorld []) sts) as Hno by (intros sts [Hc _]; discriminate Hc).
  destruct (reconcileResources_refines_queue tidyCluster 1 tidyConf.1 tidyConf.2 (simWorld []) (op_world s.2).1
    ([] ++ [(true, s.1)]) tidyCluster_Tidy tidyCluster_conf tidyCluster_readable sim_equal_refl sim_equals_status nothing_good)
    as (answers & Ha & _ & (written & Hw & Hl) & _ & _).
  { apply (operates_round _ _ _ [] (simWorld []) true []).
    - constructor.
    - intros sts Hs. by apply Hno in Hs.
    - split; [intros _ sts Hs; by apply Hno in Hs|done].
    - apply surjective_pairing. }
  assert (s.1 = Returns Done) as Hs by (vm_compute; reflexivity). rw Hs in Ha.
  destruct answers as [|[b res] [|? ?]]; try discriminate Ha. injection Ha as <- <-.
  destruct written as [|b [|? ?]]; try discriminate Hl. exists b. exact Hw.
Defined.

(** ** Two smaller properties *)

(** A StatefulSet with the stamp of an instant. *)
Definition restartedSts (t : Z) : StatefulSet * option Z :=
  (set_templateAnnotations (Some {[stsRestartAnnotation := Format t]}) (simSts "rabbit-server-0"), Some t).

Lemma restartedSts_stamped t : inRange t → stamped (restartedSts t).
Proof. intros Ht. split; [|exact Ht]. cbn. by rw lookup_singleton_eq. Qed.

(** A StatefulSet restarted half a second after the configuration was updated
    is restarted again, one restarted a second later is not. *)
Lemma restartFirst_chronological_witness :
  restartFirst (W := Sim * list Call) (Format (1700000000 * Second))
    [(restartedSts (1700000001 * Second)).1; (restartedSts (1700000000 * Second + 500000000)).1] =
  restartStatefulSet (restartedSts (1700000000 * Second + 500000000)).1.
Proof.
  apply (restartFirst_chronological (1700000000 * Second)
    [restartedSts (1700000001 * Second); restartedSts (1700000000 * Second + 500000000)]).
  - split; [discriminate|reflexivity].
  - repeat (apply Forall_cons; split; [apply restartedSts_stamped; split; [discriminate|reflexivity]|]). done.
Defined.

(** The StatefulSets of the first two replicas have different names. *)
Lemma ResourceBuilders_targets_witness :
  builderTarget (simCluster 2) (StatefulSetBuilder 0) ≠ builderTarget (simCluster 2) (StatefulSetBuilder 1).
Proof.
  intros Ht. discriminate (ResourceBuilders_targets (simCluster 2) 2 (StatefulSetBuilder 0) (StatefulSetBuilder 1)
    ltac:(apply (bool_decide_unpack _); vm_compute; exact I)
    ltac:(apply (bool_decide_unpack _); vm_compute; exact I) Ht).
Defined.

(** The calls of the third reconciliation of a new cluster. *)
Lemma Reconcile_authority_witness :
  let '(_, (_, shown, calls)) :=
    Reconcile simDefaults (mkNamespacedName "ns" "rabbit") ((op_world (simRound 2)).1, [], []) in
  calls ≠ [] ∧ Forall (may (W := Sim * list Note * list Call) (op_rmq (simRound 2)) shown) calls.
Proof.
  pose proof (Reconcile_authority simDefaults (mkNamespacedName "ns" "rabbit") (op_world (simRound 2)).1 []) as H.
  assert ((kGet KRabbitmqCluster (mkNamespacedName "ns" "rabbit") (op_world (simRound 2)).1).1 =
    inr (op_rmq (simRound 2))) as Hg by (vm_compute; reflexivity).
  assert (length (Reconcile simDefaults (mkNamespacedName "ns" "rabbit")
    ((op_world (simRound 2)).1, [] : list Note, [] : list Call)).2.2 ≠ 0%nat) as Hn by (vm_compute; discriminate).
  rw Hg in H. destruct (Reconcile _ _ _) as [o [[w shown] log']]. destruct H as (calls & -> & _ & H).
  cbn [fst snd app] in *. split; [by destruct calls; [destruct Hn|]|exact H].
Defined.

(** ** A cluster that is being deleted *)

Definition deletedCluster : RabbitmqCluster :=
  mkRabbitmqCluster (mkObjectMeta "rabbit" "ns" "uid-1" "7" 3 (Some 5%Z) None None [deletionFinalizer] [])
    (simSpec 2) simStatus.

Definition simPod (name : string) : Pod :=
  mkPod (mkObjectMeta name "ns" ("uid-" +:+ name) "1" 1 None simLabels None [] []).

(** Two replicas with their pods. *)
Definition deletedWorld : Sim :=
  simWorld (existT KRabbitmqCluster deletedCluster ::
    simObjects ["rabbit-server-0"; "rabbit-server-1"] ++
    [existT KPod (simPod "rabbit-server-0-0"); existT KPod (simPod "rabbit-server-1-0")]).

Lemma simSts_deletable name : deletable deletedCluster (simSts name).
Proof.
  split; [by eexists|]. exists (Metadata.LabelSelector "rabbit"). eexists. split_and!; [done|done|discriminate].
Qed.

(** After one reconciliation the StatefulSets are gone and the pods marked. *)
Lemma reconcileDelete_cleans_up_witness :
  ∃ r' w' calls, reconcileDelete (mkOp deletedCluster (deletedWorld, [])) = (Returns Done, mkOp r' (w', calls)) ∧
    (∀ sts, contents w' KStatefulSet (stsKeyOf sts) = Some sts → ¬ listedFor deletedCluster sts) ∧
    markedAt w' (mkNamespacedName "ns" "rabbit-server-1-0").
Proof.
  destruct (reconcileDelete_cleans_up deletedCluster deletedWorld []) as (r' & w' & calls & E & Hgone & Hpods & _).
  - reflexivity.
  - apply list_elem_of_here.
  - eexists. reflexivity.
  - intros sts Hc _. apply sim_contents_Some in Hc as [Hc _]. apply find_some in Hc as [Hc _].
    assert (sts ∈ omap (unpack KStatefulSet) (sim_objs deletedWorld)) as Hin.
    { apply list_elem_of_omap. exists (existT KStatefulSet sts). split; [by apply list_elem_of_In|exact (unpack_pack (k := KStatefulSet) sts)]. }
    change (sts ∈ [simSts "rabbit-server-0"; simSts "rabbit-server-1"]) in Hin.
    apply elem_of_cons in Hin as [->|Hin%list_elem_of_singleton]; [|subst sts]; apply simSts_deletable.
  - exists r', w', calls. split; [exact E|]. split; [exact Hgone|].
    apply (Hpods (simSts "rabbit-server-0") (Metadata.LabelSelector "rabbit")) with (pod := simPod "rabbit-server-1-0").
    + reflexivity.
    + split; [reflexivity|]. by apply hasLabels_carries.
    + eexists. split_and!; [reflexivity|reflexivity|discriminate].
    + reflexivity.
    + by apply hasLabels_carries.
Defined.

(** ** A replica with a volume *)

Definition smallClaim (name : string) : PersistentVolumeClaim :=
  mkPersistentVolumeClaim (newObjectMeta name "ns" None None)
    (mkPersistentVolumeClaimSpec (Some {[ResourceStorage := 10 * 1024]}%Z) None [] "").

Definition volumeSts : StatefulSet :=
  let sts := simSts "rabbit-server-0" in
  let spec := sts_Spec sts in
  mkStatefulSet (sts_ObjectMeta sts)
    (mkStatefulSetSpec (stss_Replicas spec) (stss_Selector spec) (stss_Template spec) [smallClaim c_PVCName]
       (stss_ServiceName spec) (stss_PodManagementPolicy spec) (stss_UpdateStrategy spec) (stss_MinReadySeconds spec))
    (sts_Status sts).

Definition volumeWorld : Sim :=
  simWorld [existT KStatefulSet volumeSts; existT KPVC (smallClaim "persistence-rabbit-server-0-0")].

Definition volumeKey : NamespacedName := mkNamespacedName "ns" "rabbit-server-0".

(** The claim grows, and its StatefulSet makes way. *)
Lemma Scale_resizes_witness :
  ∃ w calls, Scale c_PVCName volumeKey (20 * 1024) (mkOp (simCluster 1) (volumeWorld, [])) =
      (Returns None, mkOp (simCluster 1) (w, calls)) ∧
    contents w KStatefulSet volumeKey = None ∧
    pvcRequest <$> contents w KPVC (mkNamespacedName "ns" "persistence-rabbit-server-0-0") = Some (20 * 1024)%Z.
Proof.
  destruct (Scale_resizes (simCluster 1) volumeKey volumeSts 1 (20 * 1024) volumeWorld [])
    as (w & calls & E & [Hclaims _ Hsts _] & _).
  - reflexivity.
  - reflexivity.
  - discriminate.
  - reflexivity.
  - repeat constructor. eexists. reflexivity.
  - exists w, calls. split; [exact E|]. split; [exact Hsts|].
    destruct (Hclaims 0%Z (smallClaim "persistence-rabbit-server-0-0")) as (p & Hp & Hmax);
      [split; [discriminate|reflexivity]|reflexivity|].
    rw Hp. cbn. f_equal. exact Hmax.
Defined.

(** ** A clock that stands still *)

(** The simulated world at one instant, whatever happens. *)
Definition Frozen : Type := Sim.
#[global] Typeclasses Opaque Frozen.
Definition frozenAt : Z := (1700000000 * Second)%Z.

#[export] Instance frozen_kube : Kube Frozen := {
  kGet := kGet (W := Sim); kList := kList (W := Sim); kCreate := kCreate (W := Sim);
  kUpdate := kUpdate (W := Sim); kDelete := kDelete (W := Sim); kStatusUpdate := kStatusUpdate (W := Sim);
  kReaderGet := kReaderGet (W := Sim); csGet := csGet (W := Sim); csUpdate := csUpdate (W := Sim);
  csDeleteOrphan := csDeleteOrphan (W := Sim); kEvent := kEvent (W := Sim); kRandRead := kRandRead (W := Sim);
  kExec := kExec (W := Sim);
  kNow w := (frozenAt, w)
}.

#[export] Instance frozen_store : Store Frozen := sim_store.

#[export] Instance frozen_store_laws : StoreLaws Frozen.
Proof.
  split; try done.
  - exact (@store_key Sim sim_kube sim_store sim_store_laws).
  - exact (@store_get Sim sim_kube sim_store sim_store_laws).
  - exact (@store_csGet Sim sim_kube sim_store sim_store_laws).
  - exact (@store_create Sim sim_kube sim_store sim_store_laws).
  - exact (@store_update Sim sim_kube sim_store sim_store_laws).
  - exact (@store_random Sim sim_kube sim_store sim_store_laws).
Qed.

#[export] Instance frozen_removal_laws : RemovalLaws Frozen.
Proof. split; [exact (@removal_list Sim sim_kube sim_store sim_removal_laws)|exact (@removal_delete Sim sim_kube sim_store sim_removal_laws)]. Qed.

(** *** A configuration that was updated a second ago *)

Definition updatedAt : Z := (1699999999 * Second)%Z.

Definition updatedConf : ConfigMap :=
  annotate (k := KConfigMap) serverConfAnnotation (Format updatedAt)
    (mkConfigMap (newObjectMeta "rabbit-server-conf" "ns" None None) None).

Definition updatedWorld : Frozen :=
  simWorld (existT KConfigMap updatedConf :: simObjects ["rabbit-server-0"; "rabbit-server-1"]).

Lemma updatedWorld_sts sts :
  contents updatedWorld KStatefulSet (stsKeyOf sts) = Some sts ↔
  sts = simSts "rabbit-server-0" ∨ sts = simSts "rabbit-server-1".
Proof.
  split; [|by intros [->| ->]]. intros Hc.
  apply (sim_contents_Some updatedWorld KStatefulSet) in Hc as [Hc _]. apply find_some in Hc as [Hc _].
  assert (sts ∈ omap (unpack KStatefulSet) (sim_objs updatedWorld)) as Hin.
  { apply list_elem_of_omap. exists (existT KStatefulSet sts).
    split; [by apply list_elem_of_In|exact (unpack_pack (k := KStatefulSet) sts)]. }
  change (sts ∈ [simSts "rabbit-server-0"; simSts "rabbit-server-1"]) in Hin.
  rw elem_of_cons list_elem_of_singleton in Hin. exact Hin.
Qed.

Lemma simSts_listed name : listedFor (simCluster 2) (simSts name).
Proof. split; [reflexivity|]. by apply hasLabels_carries. Qed.

Lemma simSts_stamp name : stamp (simSts name) None.
Proof. done. Qed.

Lemma updatedWorld_due :
  dueIn (simCluster 2) updatedAt updatedWorld [stsKeyOf (simSts "rabbit-server-0"); stsKeyOf (simSts "rabbit-server-1")].
Proof.
  split; [by apply (bool_decide_unpack _)|]. intros key. rw elem_of_cons list_elem_of_singleton. split.
  - intros [->| ->]; eexists; (split_and!; [|by exists None; split; [apply simSts_stamp|]|done]);
      (split; [reflexivity|apply simSts_listed]).
  - intros (sts & [Hin _] & _ & <-). apply updatedWorld_sts in Hin as [->| ->]; [by left|by right].
Qed.

(** The first reconciliation restarts one of the two, and one is left. *)
Lemma restarts_terminate_witness :
  ∃ w c due', restartStatefulSetIfNeeded (mkOp (simCluster 2) (updatedWorld, [])) =
    (Returns Done, mkOp (simCluster 2) (w, c)) ∧ length c = 2%nat ∧
    dueIn (simCluster 2) updatedAt w due' ∧ length due' = 1%nat.
Proof.
  destruct (restarts_terminate (simCluster 2) updatedAt 0 updatedWorld updatedWorld
    [stsKeyOf (simSts "rabbit-server-0"); stsKeyOf (simSts "rabbit-server-1")]) as (due' & Hd & Hlen & Hround).
  - split; [discriminate|reflexivity].
  - intros w. split; [split; [discriminate|reflexivity]|reflexivity].
  - exists updatedConf. split; [reflexivity|]. vm_compute. reflexivity.
  - intros sts [Hin _]. exists None. apply updatedWorld_sts in Hin as [->| ->]; apply simSts_stamp.
  - exact updatedWorld_due.
  - constructor.
  - destruct (Hround []) as (w & c & E & HQ). destruct due' as [|key due']; [discriminate Hlen|].
    destruct HQ as (Hc & due2 & Hd2 & Hl2). exists w, c, due2. split; [exact E|]. split; [exact Hc|]. split; [exact Hd2|].
    cbn in Hlen, Hl2. lia.
Defined.
