(* ===== verification/Selecting.v ===== *)
(** A simulated server whose cache holds only the objects with the label: an
    override takes the client service out of the operator's sight. *)

From S2P Require Import Prelude GoStd K8s V1beta1 Constant Metadata Kube Controllerutil Services Builders Trace Result.
From Stdlib Require Import Eqdep_dec.
From S2P Require Import ControllerUtils Configurations Resources Store Steps Deletion Reconcile Authority Setup Hidden Sim SimStore.

(** ** The world *)

Record Selected := mkSelected { sel_sim : Sim }.

Definition onSim {A} (f : Ext Sim A) : Ext Selected A := λ w,
  let '(a, server) := f (sel_sim w) in (a, mkSelected server).

Definition isShown {k} (o : Obj k) : bool := hasLabels (cacheSelector k) (meta o).

Definition selectedGet (k : Kind) (key : NamespacedName) : Ext Selected (result (Obj k)) := λ w,
  (match simFind k key (sel_sim w) with
   | inl err => inl err
   | inr o => if isShown o then inr o else inl notFound
   end, w).

#[export] Instance selected_kube : Kube Selected := {
  kGet k key := selectedGet k key;
  kList k ns labels w := (inr (List.filter isShown (simList k ns labels (sel_sim w))), w);
  kCreate k x := onSim (simCreate x);
  kUpdate k x := onSim (simUpdate x);
  kDelete k uid x := onSim (simDelete k (ObjectKeyFromObject x));
  kStatusUpdate r := onSim (simStatusUpdate r);
  kReaderGet k key w := (simFind k key (sel_sim w), w);
  csGet k key w := (simFind k key (sel_sim w), w);
  csUpdate k ns x := onSim (simUpdate x);
  csDeleteOrphan k key := onSim (simDelete k key);
  kEvent r ty reason msg w := (tt, w);
  kNow w := (simNow (sel_sim w), w);
  kRandRead n w := (inr (repeatChar n), w);
  kExec ns pod container command w := ((("", ""), None), w)
}.

#[export] Instance selected_store : Store Selected := λ w, contents (sel_sim w).

#[export] Instance selected_laws : FilteredLaws Selected.
Proof.
  split.
  - intros k key w. split; [done|]. cbn. unfold selectedGet. cbn [fst]. rw sim_contents_get.
    change (contents w k key) with (contents (sel_sim w) k key).
    destruct (contents (sel_sim w) k key) as [o|]; [|by exists notFound].
    pose proof (hasLabels_carries (cacheSelector k) (meta o)) as Hs. fold (isShown o) in Hs. fold (shown o) in Hs.
    destruct (isShown o); [left; split; [by apply Hs|done]|].
    right. split; [intros H; by apply Hs in H|]. by exists notFound.
  - intros k o w [x Hx]. change (contents (sel_sim w) k (ObjectKeyFromObject o) = Some x) in Hx.
    cbn. unfold onSim, simCreate. rw sim_contents_get Hx. split; [done|]. by exists alreadyExists.
  - done.
Qed.

(** ** A cluster that relabels its service *)

Definition withOverride (o : RabbitmqClusterOverrideSpec) (s : RabbitmqClusterSpec) : RabbitmqClusterSpec :=
  mkRabbitmqClusterSpec (rs_Disable s) (rs_Replicas s) (rs_TLS s) (rs_Rabbitmq s) (rs_Image s) (rs_ImagePullSecrets s)
    (rs_Affinity s) (rs_Tolerations s) (rs_Resources s) (rs_Service s) (rs_Persistence s) (rs_SecretBackend s) o
    (rs_DelayStartSeconds s) (rs_SkipPostDeploySteps s) (rs_TerminationGracePeriodSeconds s).

Definition relabelling : RabbitmqCluster :=
  let r := set_rmq_Status (set_rst_Replicas 1 simStatus) (simCluster 1) in
  set_rmq_Spec (withOverride (mkRabbitmqClusterOverrideSpec
    (Some (mkServiceOverride None (Some (mkEmbeddedLabelsAnnotations (Some {[LabelPartOf := "mine"]}) None)))) None)
    (rmq_Spec r)) r.

Definition selectedReq : NamespacedName := mkNamespacedName "ns" "rabbit".

(** The rounds of the new cluster. *)
Definition selectedRounds (n : nat) : outcome (CtrlResult * goerror) * Selected :=
  Nat.iter n (λ a, Reconcile simDefaults selectedReq a.2)
    (Panics "", mkSelected (simWorld [existT KRabbitmqCluster relabelling])).

(** The third round creates the service. *)
Definition hidingWorld : Selected := Eval vm_compute in (selectedRounds 3).2.

Definition hidingCluster : RabbitmqCluster := Eval vm_compute in
  match simFind KRabbitmqCluster selectedReq (sel_sim hidingWorld) with inr r => r | inl _ => relabelling end.

Definition hiddenService : Service := Eval vm_compute in
  match simFind KService selectedReq (sel_sim hidingWorld) with
  | inr svc => svc
  | inl _ => Service_Build relabelling
  end.

Lemma relabels : ¬ leaves hidingCluster ServiceBuilder "app.kubernetes.io/part-of" "rabbitmq".
Proof. intros H. by specialize (H "mine" eq_refl). Qed.

Lemma hiddenService_stored : contents hidingWorld KService selectedReq = Some hiddenService.
Proof. apply (bool_decide_unpack _). vm_compute. exact I. Qed.

Lemma hiddenService_labels : om_Labels (svc_ObjectMeta hiddenService) = childLabels hidingCluster ServiceBuilder.
Proof. apply (bool_decide_unpack _). vm_compute. exact I. Qed.

(** The fourth round and all after it. *)
Lemma hidden_service_stuck_witness :
  ∃ err s', reconcileBuilders [ServiceBuilder; ErlangCookieBuilder] (mkOp hidingCluster hidingWorld) =
    (Returns (ErrorResult err), s') ∧ sameStore hidingWorld (op_world s').
Proof.
  apply (hidden_service_stuck hiddenService (mkOp hidingCluster hidingWorld) [ErlangCookieBuilder]).
  - exact relabels.
  - exact hiddenService_stored.
  - exact hiddenService_labels.
  - vm_compute. reflexivity.
Defined.

(** The update of the client service as the third round makes it. *)
Definition relabelled : outcome (result Object * ResourceBuilder) * Op Selected :=
  Update ServiceBuilder (existT KService (Service_Build hidingCluster)) (mkOp hidingCluster hidingWorld).

Definition relabelledService : Service := Eval vm_compute in
  match relabelled.1 with
  | Returns (inr (existT KService svc), _) => svc
  | _ => Service_Build hidingCluster
  end.

Lemma relabelled_eq : relabelled = (Returns (inr (existT KService relabelledService), ServiceBuilder), relabelled.2).
Proof. vm_compute. reflexivity. Qed.

(** Its result is out of sight, but carries the label of the cluster. *)
Lemma children_shown_witness :
  ¬ shown (k := KService) relabelledService ∧ carries (LabelSelector "rabbit") (svc_ObjectMeta relabelledService).
Proof.
  destruct (children_shown ServiceBuilder (Service_Build hidingCluster) (mkOp hidingCluster hidingWorld)
    (existT KService relabelledService) ServiceBuilder relabelled.2 relabelled_eq)
    as (x & Hx & Hs & Hl).
  apply (inj_pair2_eq_dec Kind Kind_eq_dec) in Hx. subst x.
  split.
  - intros H. exact (relabels (proj1 Hs H)).
  - refine (proj2 Hl _). intros v Hv. vm_compute in Hv. discriminate Hv.
Defined.
