(* ===== verification/Rested.v ===== *)
(** A new cluster comes to rest in the simulated world: the history of its
    reconciliations, to which the theorem of file Eventually applies. *)

From S2P Require Import Prelude GoStd GoTime K8s V1beta1 Constant Metadata Kube Builder ServerConf Builders Trace Result Status.
From S2P Require Import ControllerUtils Configurations Resources Steps Deletion Timestamps Store Behaviour Tame Names Converge.
From S2P Require Import Reconcile Authority Cleanup Restarts Queue Clock Effects Replicas Progress Eventually Sim SimStore.

(** ** The pods get ready *)

Definition readyStatus : StatefulSetStatus := mkStatefulSetStatus 1 "rev" "rev".

Lemma podsReady_sts (sts : StatefulSet) :
  podsReady (existT KStatefulSet sts) = existT KStatefulSet (withStatus readyStatus sts).
Proof. unfold podsReady. by rw (unpack_pack (k := KStatefulSet)). Qed.

Lemma podsReady_other o : projT1 o ≠ KStatefulSet → podsReady o = o.
Proof. intros Hk. unfold podsReady, unpack. by destruct (decide _). Qed.

Lemma podsReady_isKey k key o : isKey k key (podsReady o) = isKey k key o.
Proof.
  destruct (decide (projT1 o = KStatefulSet)) as [E|E]; [|by rw podsReady_other].
  destruct o as [k' x]. cbn in E. subst k'. rw podsReady_sts. unfold isKey.
  destruct (decide (KStatefulSet = k)) as [<-|Hne]; [by rw !(unpack_pack (k := KStatefulSet))|].
  unfold unpack. by destruct (decide _).
Qed.

Lemma kubelet_find k key w :
  List.find (isKey k key) (sim_objs (kubelet w)) = podsReady <$> List.find (isKey k key) (sim_objs w).
Proof.
  cbn. induction (sim_objs w) as [|o l IH]; [done|]. cbn. rw podsReady_isKey. by destruct (isKey k key o).
Qed.

Lemma kubelet_sts key w :
  contents (kubelet w) KStatefulSet key = withStatus readyStatus <$> contents w KStatefulSet key.
Proof.
  unfold contents, sim_store. rw kubelet_find. destruct (List.find _ _) as [o|] eqn:E; [|done].
  apply find_some in E as [_ (x & -> & _)%isKey_spec]. cbn. rw podsReady_sts. by rw !(unpack_pack (k := KStatefulSet)).
Qed.

Lemma kubelet_other k key w : k ≠ KStatefulSet → contents (kubelet w) k key = contents w k key.
Proof.
  intros Hk. unfold contents, sim_store. rw kubelet_find. destruct (List.find _ _) as [o|] eqn:E; [|done].
  apply find_some in E as [_ (x & -> & _)%isKey_spec]. cbn. by rw podsReady_other.
Qed.

(** ** The cluster *)

Definition restCluster : RabbitmqCluster := set_rmq_Status (set_rst_Replicas 1 simStatus) tidyCluster.

Lemma restCluster_Standing : Standing simDefaults restCluster 1 tidyConf.1 tidyConf.2.
Proof.
  split.
  - destruct tidyCluster_Tidy. by split.
  - exact tidyCluster_conf.
  - exact tidyCluster_readable.
  - split; [reflexivity|]. split; [apply (bool_decide_unpack _); vm_compute; exact I|]. split; [discriminate|reflexivity].
  - reflexivity.
  - reflexivity.
  - done.
  - discriminate.
Qed.

Lemma sim_equals : equalsObjects.
Proof. split; [exact sim_equal_refl|exact sim_equals_status]. Qed.

Definition newWorld : Sim := simWorld [existT KRabbitmqCluster restCluster].

Lemma newWorld_child b : child restCluster b newWorld = None.
Proof. by destruct b. Qed.

Lemma newWorld_Kids : Kids restCluster 1 tidyConf.1 tidyConf.2 newWorld.
Proof.
  split.
  - apply Forall_forall. intros b _ o Hc. by rw newWorld_child in Hc.
  - intros b o _ Hc. by rw newWorld_child in Hc.
  - intros b o _ Hc. by rw newWorld_child in Hc.
  - intros b o _ Hc. by rw newWorld_child in Hc.
  - intros sts [Hc _]. discriminate Hc.
Qed.

Lemma newWorld_holds : holds restCluster (rmq_Status restCluster) newWorld.
Proof. exists "7". vm_compute. reflexivity. Qed.

(** ** Calm worlds *)

Definition isAged (seconds : Z) (mark : option string) (c : Z) : bool :=
  match mark ≫= Parse with Some t => (t + seconds * Second <=? c)%Z | None => true end.

Definition stsIsReady (o : Object) : bool :=
  match unpack KStatefulSet o with
  | Some sts => bool_decide (stst_CurrentRevision (sts_Status sts) = stst_UpdateRevision (sts_Status sts)) &&
      bool_decide (stss_Replicas (sts_Spec sts) = Some (stst_ReadyReplicas (sts_Status sts)))
  | None => true
  end.

Definition isCalm (w : Sim) : bool :=
  forallb stsIsReady (sim_objs w) && isAged 1 (confMark restCluster w) (simNow w) &&
  isAged 2 (pluginsMark restCluster w) (simNow w).

Lemma isAged_agedBy seconds mark c : isAged seconds mark c = true → agedBy seconds mark c.
Proof. unfold isAged. intros Ha v t -> Hp. cbn in Ha. rw Hp in Ha. by apply Z.leb_le. Qed.

Lemma isCalm_calm w : isCalm w = true → calm restCluster w (simNow w).
Proof.
  unfold isCalm. rw !andb_true_iff forallb_forall. intros [[Hready Hconf] Hplug]. split.
  - done.
  - intros sts [Hc _]. apply sim_contents_Some in Hc as [Hc _]. apply find_some in Hc as [Hin _].
    specialize (Hready _ Hin). unfold stsIsReady in Hready. rw (unpack_pack (k := KStatefulSet)) in Hready.
    by apply andb_true_iff in Hready as [H1%bool_decide_eq_true H2%bool_decide_eq_true].
  - discriminate.
  - exact (Z.le_refl _).
  - by apply isAged_agedBy.
  - by apply isAged_agedBy.
Qed.

(** A StatefulSet of the cluster is not ready. *)
Definition isUnready (w : Sim) (o : Object) : bool :=
  match unpack KStatefulSet o with
  | Some sts => negb (stsIsReady o) && bool_decide (listedFor restCluster sts) && isFound w sts
  | None => false
  end.

Definition isWaiting (w : Sim) : bool := existsb (isUnready w) (sim_objs w).

Lemma isWaiting_waiting w : isWaiting w = true → waiting restCluster 1 w.
Proof.
  unfold isWaiting. rw existsb_exists. intros (o & _ & Ho). unfold isUnready in Ho.
  destruct (unpack KStatefulSet o) as [sts|] eqn:Eo; [|done]. apply unpack_Some in Eo as ->.
  rw !andb_true_iff negb_true_iff bool_decide_eq_true isFound_contents in Ho. destruct Ho as [[Hr Hl] Hc]. split.
  - intros Hall. unfold stsIsReady in Hr. rw (unpack_pack (k := KStatefulSet)) in Hr.
    destruct (Hall sts (conj Hc Hl)) as [H1 H2]. by rw H1 H2 !bool_decide_eq_true_2 in Hr.
  - discriminate.
  - right. by left.
Qed.

Lemma kubelet_evolves r n op user w : Kids r n op user w → evolves r n w (kubelet w).
Proof.
  intros HK. split.
  - apply Forall_forall. intros b _. destruct b; try by apply kubelet_other. exists readyStatus. apply kubelet_sts.
  - intros sts [Hc Hl]. rw kubelet_sts in Hc. destruct (contents w KStatefulSet _) as [x|] eqn:Ex; [|done].
    injection Hc as <-. apply (kids_only _ _ _ _ _ HK x). by split.
  - unfold hasEndpoints. by rw kubelet_other.
Qed.

(** ** The history *)

Abbreviation call w := (Reconcile (W := Sim * list Call) simDefaults (clusterKey restCluster) (w, [])).

Definition isFinal (out : outcome (CtrlResult * goerror)) : bool :=
  match out with Returns (a, None) => negb (res_Requeue a) | _ => false end.

(** A minute passes. *)
Definition tick (w : Sim) : Sim := mkSim (sim_objs w) (sim_now w + 60 * Second).

(** So many reconciliations that were not the last one: those of calm worlds,
    after which a minute passes, those that find a StatefulSet not ready, after
    which its pods get ready, and where they lead. *)
Fixpoint runs (m : nat) (w : Sim) : option (nat * nat * Sim) :=
  match m with
  | O => Some (0%nat, 0%nat, w)
  | S m =>
      let x := call w in
      if isCalm w then
        if isFinal x.1 then None else '(k, j, w) ← runs m (tick x.2.1); Some (S k, j, w)
      else if isWaiting w then '(k, j, w) ← runs m (kubelet x.2.1); Some (k, S j, w)
      else None
  end.

Lemma history_Kids k j w :
  history simDefaults restCluster 1 k j newWorld w → Kids restCluster 1 tidyConf.1 tidyConf.2 w.
Proof.
  intros Hh. by destruct (history_invariant simDefaults restCluster 1 tidyConf.1 tidyConf.2 restCluster_Standing
    sim_equals k j newWorld w (rmq_Status restCluster) newWorld_Kids newWorld_holds ltac:(done) Hh) as (st' & _ & ? & _).
Qed.

Lemma runs_history m : ∀ k0 j0 k j w w', runs m w = Some (k, j, w') → history simDefaults restCluster 1 k0 j0 newWorld w →
  history simDefaults restCluster 1 (k + k0) (j + j0) newWorld w'.
Proof.
  induction m as [|m IH]; intros k0 j0 k j w w'; cbn [runs]; [by intros [= <- <- <-]|]. cbv zeta.
  destruct (isCalm w) eqn:Ec; [destruct (isFinal _) eqn:Ef; [done|]|destruct (isWaiting w) eqn:Ew; [|done]].
  - destruct (runs m _) as [[[k1 j1] w1]|] eqn:Er; [|done]. intros [= <- <- <-] Hh.
    assert (history simDefaults restCluster 1 (S k0) j0 newWorld (call w).2.1) as Hh1.
    { eapply history_call; [exact Hh|by apply isCalm_calm|apply surjective_pairing|]. intros E. by rw E in Ef. }
    rw plus_Sn_m -Nat.add_succ_r. apply (IH _ _ _ _ _ _ Er). eapply history_others; [exact Hh1| |by intros st Hst].
    apply (restSame_evolves restCluster 1 tidyConf.1 tidyConf.2); [by eapply history_Kids|done].
  - destruct (runs m _) as [[[k1 j1] w1]|] eqn:Er; [|done]. intros [= <- <- <-] Hh.
    assert (history simDefaults restCluster 1 k0 (S j0) newWorld (call w).2.1) as Hh1.
    { eapply history_waiting; [exact Hh|by apply isWaiting_waiting|apply surjective_pairing]. }
    rw plus_Sn_m -Nat.add_succ_r. apply (IH _ _ _ _ _ _ Er).
    eapply history_others; [exact Hh1|by eapply kubelet_evolves, history_Kids|]. intros st [v Hv]. exists v.
    by rw kubelet_other.
Qed.

Definition restWorld : Sim := Eval vm_compute in
  match runs 14 newWorld with Some (_, _, w) => w | None => newWorld end.

Lemma restWorld_history : history simDefaults restCluster 1 13 1 newWorld restWorld.
Proof.
  apply (runs_history 14 0 0 13 1 newWorld restWorld); [vm_compute; reflexivity|constructor].
Qed.

Lemma restWorld_final : (call restWorld).1 = Returns finalAnswer.
Proof. vm_compute. reflexivity. Qed.

Lemma restWorld_calm : isCalm restWorld = true.
Proof. vm_compute. reflexivity. Qed.

(** Thirteen reconciliations of a new cluster that find it calm ask to be
    repeated, one finds the new StatefulSet not ready, the next one is the last
    and leaves nothing to be done. *)
Lemma Reconcile_converges_witness :
  (13 ≤ potential restCluster 1 tidyConf.1 tidyConf.2 newWorld (rmq_Status restCluster) + 1)%nat ∧
  ∃ w st, call restWorld = (Returns finalAnswer, w) ∧ holds restCluster st w.1 ∧
    quiescent restCluster 1 tidyConf.1 tidyConf.2 w.1 st.
Proof.
  destruct (Reconcile_converges simDefaults restCluster 1 tidyConf.1 tidyConf.2 13 1 newWorld restWorld
    (rmq_Status restCluster) restCluster_Standing sim_equals newWorld_Kids newWorld_holds
    (proj1 (Z.leb_le 1 1) eq_refl) restWorld_history) as (st & _ & HP & _ & Hcall & _).
  split; [etrans; [apply Nat.le_add_r|exact HP]|].
  destruct (Hcall (simNow restWorld) [] (isCalm_calm restWorld restWorld_calm)) as (a & w & calls & st' & E & Hh & HQ).
  pose proof restWorld_final as Hf. rw E in Hf. injection Hf as ->. exists (w, [] ++ calls), st'.
  split; [exact E|]. split; [exact Hh|]. destruct HQ as [[HQ _]|(_ & _ & _ & HQ & _)]; [discriminate HQ|exact HQ].
Defined.
