(* ===== verification/Rolling.v ===== *)
(** Two replicas that get another image in the simulated world, and nobody to
    report: the world to which the theorem of file Unreported applies. *)

From S2P Require Import Prelude GoStd K8s V1beta1 Constant Metadata Kube Controllerutil Builder Services Overrides ServerConf Sts Builders Trace Result Status.
From S2P Require Import ControllerUtils Resources Store Behaviour Tame Names Converge Deletion Cleanup Queue Unreported Sim SimStore Rested.

(** ** The cluster before and after *)

Definition twoReplicas : RabbitmqCluster :=
  let r := simCluster 2 in
  set_rmq_Spec (set_rs_Service (mkRabbitmqClusterServiceSpec "ClusterIP" None) (rmq_Spec r)) r.

Definition newerImage : RabbitmqCluster := set_rmq_Spec (set_rs_Image "rabbitmq:4.0" (rmq_Spec twoReplicas)) twoReplicas.

Definition twoConf : string * string :=
  Eval vm_compute in match renderConf newerImage 2 with inr p => p | inl _ => ("", "") end.

Lemma newerImage_Tidy : Tidy newerImage 2.
Proof. split; try done; by eexists. Qed.

Lemma newerImage_conf : renderConf newerImage 2 = inr (twoConf.1, twoConf.2).
Proof. vm_compute. reflexivity. Qed.

Lemma newerImage_readable : readable twoConf.1.
Proof. right. eexists. eexists. split; reflexivity. Qed.

(** The children of the cluster before the change, all ready. *)
Definition twoWorld : Sim := Eval vm_compute in
  Nat.iter 14 (λ w, kubelet (op_world (reconcileResources (mkOp twoReplicas (w, [] : list Call))).2).1) (simWorld []).

(** ** What the theorem asks for *)

Definition controlled (m : ObjectMeta) : bool :=
  bool_decide (om_Namespace (rmq_ObjectMeta newerImage) = om_Namespace m) &&
  match GetControllerOf m with
  | Some e => referSameObject e (controllerRef (rmq_ObjectMeta newerImage))
  | None => true
  end.

Definition fits (b : ResourceBuilder) : Obj (builderKind b) → bool :=
  match b with
  | HeadlessServiceBuilder | ServiceBuilder => λ s, bool_decide (portsDistinct s)
  | DefaultUserSecretBuilder => λ s, bool_decide (is_Some (sec_Data s))
  | StatefulSetBuilder _ => λ s, bool_decide (specDistinct (sts_Spec s)) &&
      bool_decide (Scaling.templateCapacity c_PVCName (stss_VolumeClaimTemplates (sts_Spec s)) = storage newerImage)
  | ServerConfigMapBuilder _ => λ _, false
  | _ => λ _, true
  end.

Lemma fits_okOf b o : fits b o = true → okOf newerImage b o.
Proof.
  destruct b; cbn [fits okOf]; try done; try by intros ?%bool_decide_eq_true.
  by intros [?%bool_decide_eq_true ?%bool_decide_eq_true]%andb_true_iff.
Qed.

Definition isGood (b : ResourceBuilder) : bool :=
  match child newerImage b twoWorld with Some o => controlled (meta o) && fits b o | None => true end.

Lemma controlled_controllable m : controlled m = true → controllable newerImage m.
Proof.
  unfold controlled. rw andb_true_iff bool_decide_eq_true. intros [Hns He]. split; [by right|].
  intros e E. by rw E in He.
Qed.

Lemma isGood_good b : isGood b = true → good newerImage twoWorld b.
Proof.
  unfold isGood. intros Hb o Ho. rw Ho andb_true_iff in Hb. destruct Hb as [Hc Hf].
  split; [by apply controlled_controllable|by apply fits_okOf].
Qed.

(** The text of the operator's part of the configuration. *)
Definition twoText : string := Eval vm_compute in
  match child newerImage (ServerConfigMapBuilder true) twoWorld with
  | Some cm => gm_get (cm_Data cm) fileNameRabbitmqConfdDefault
  | None => ""
  end.

Lemma twoText_readable : readable twoText.
Proof. right. eexists. eexists. split; vm_compute; reflexivity. Qed.

Lemma serverConf_good : good newerImage twoWorld (ServerConfigMapBuilder true).
Proof.
  intros o Ho.
  assert ((λ cm : ConfigMap, (controlled (cm_ObjectMeta cm), gm_get (cm_Data cm) fileNameRabbitmqConfdDefault)) <$>
    child newerImage (ServerConfigMapBuilder true) twoWorld = Some (true, twoText)) as E by (vm_compute; reflexivity).
  rw Ho in E. injection E as Hc Ht. split; [by apply controlled_controllable|].
  cbn [okOf]. unfold comparable. cbn [builderKind] in *. rw Ht. exact twoText_readable.
Qed.

Lemma twoWorld_good : Forall (good newerImage twoWorld) (ResourceBuilders 2 newerImage).
Proof.
  apply Forall_forall. intros b Hb. destruct (decide (b = ServerConfigMapBuilder true)) as [->|Hne]; [exact serverConf_good|].
  assert (forallb (λ b, bool_decide (b = ServerConfigMapBuilder true) || isGood b) (ResourceBuilders 2 newerImage) = true)
    as Hall by (vm_compute; reflexivity).
  rw forallb_forall in Hall. apply list_elem_of_In, Hall, orb_true_iff in Hb as [?%bool_decide_eq_true|?]; [done|].
  by apply isGood_good.
Qed.

(** All StatefulSets report that they are ready. *)
Lemma twoWorld_ready : allReadyIn newerImage twoWorld.
Proof.
  assert (forallb stsIsReady (sim_objs twoWorld) = true) as Hall by (vm_compute; reflexivity).
  rw forallb_forall in Hall. intros sts [Hc _]. apply sim_contents_Some in Hc as [Hc _]. apply find_some in Hc as [Hin _].
  specialize (Hall _ Hin). unfold stsIsReady in Hall. rw (unpack_pack (k := KStatefulSet)) in Hall.
  by apply andb_true_iff in Hall as [H1%bool_decide_eq_true H2%bool_decide_eq_true].
Qed.

(** Both have to be written. *)
Abbreviation queueOf w := (unsettled newerImage 2 twoConf.1 twoConf.2 w).

Lemma twoWorld_queue : queueOf twoWorld = [StatefulSetBuilder 0; StatefulSetBuilder 1].
Proof. vm_compute. reflexivity. Qed.

Definition isReported (b : ResourceBuilder) : bool :=
  match b with
  | StatefulSetBuilder i => match child newerImage (StatefulSetBuilder i) twoWorld with
      | Some sts => bool_decide (stst_CurrentRevision (sts_Status sts) = stst_UpdateRevision (sts_Status sts)) &&
          bool_decide (stst_ReadyReplicas (sts_Status sts) = desiredReplicas newerImage)
      | None => false
      end
  | _ => false
  end.

Lemma twoWorld_rollsOut : rollsOut newerImage 2 twoConf.1 twoConf.2 twoWorld.
Proof.
  unfold rollsOut. rw twoWorld_queue. apply Forall_forall. intros b Hb.
  assert (isReported b = true) as Hr.
  { apply list_elem_of_In in Hb as [<-|[<-|[]]]; vm_compute; reflexivity. }
  destruct b; try done. unfold isReported in Hr. destruct (child _ _ _) as [sts|]; [|done].
  exists sts. split; [done|]. by apply andb_true_iff in Hr as [H1%bool_decide_eq_true H2%bool_decide_eq_true].
Qed.

(** Two reconciliations of the children, one right after the other, write both
    StatefulSets; the status of none changes. *)
Lemma unreported_rollout_witness :
  ∃ w, inSuccession newerImage 2 twoWorld w ∧ allReadyIn newerImage w ∧ sameReports twoWorld w ∧
  ∀ i, i = 0%Z ∨ i = 1%Z → child newerImage (StatefulSetBuilder i) w ≠ child newerImage (StatefulSetBuilder i) twoWorld.
Proof.
  destruct (unreported_rollout newerImage 2 twoConf.1 twoConf.2 twoWorld 2 newerImage_Tidy newerImage_conf
    newerImage_readable sim_equal_refl twoWorld_good twoWorld_ready twoWorld_rollsOut) as (w & Hin & _ & Hr & Hs & Hch).
  - rw twoWorld_queue. exact (le_n 2).
  - exists w. split; [exact Hin|]. split; [exact Hr|]. split; [exact Hs|]. intros i Hi. apply Hch.
    + rw ResourceBuilders_eq !elem_of_app. right. right. right. apply StatefulSetBuilder_elem. lia.
    + rw twoWorld_queue. apply list_elem_of_In. destruct Hi as [-> | ->]; [left|right; left]; reflexivity.
Defined.
