(* ===== verification/Rolled.v ===== *)
(** Rolling a change out in the simulated world: one reconciliation disturbs one
    StatefulSet. *)

From S2P Require Import Prelude GoStd K8s V1beta1 Metadata Kube Controllerutil Trace Status Store.
From S2P Require Import Deletion Reconcile Authority Quiet Rollout Sim SimStore.

(** ** The laws *)

Lemma sim_truthful k key (w : Sim) : truthful (contents w k key) (simFind k key w).
Proof. rw sim_contents_get. by destruct (contents w k key). Qed.

Lemma sim_update_writes k (o : Obj k) (w : Sim) : writes o w (simUpdate o w).
Proof.
  unfold simUpdate. rw sim_contents_get. destruct (contents w k (ObjectKeyFromObject o)) as [y|] eqn:E.
  - destruct (simPut_stored o w) as [Hs Ho]; [by rw E|]. split; [exact Ho|]. split; [apply served_refl|exact Hs].
  - split; [done|]. by left.
Qed.

Lemma sim_create_writes k (o : Obj k) (w : Sim) : writes o w (simCreate o w).
Proof.
  unfold simCreate. rw sim_contents_get. destruct (contents w k (ObjectKeyFromObject o)) as [y|] eqn:E.
  - split; [done|]. by left.
  - destruct (simAdd_stored o w (sim_now w) E) as [Hs Ho]. split; [exact Ho|]. split; [apply served_refl|exact Hs].
Qed.

#[export] Instance sim_frame_laws : FrameLaws Sim.
Proof.
  split; try done.
  - intros k key w. split; [apply sim_truthful|done].
  - intros k key w. split; [apply sim_truthful|done].
  - intros w k key o Ho. by apply sim_contents_Some in Ho as [_ ?].
  - intros k ns labels w. split; [done|]. intros os [= <-] o. apply simList_elem.
  - apply sim_create_writes.
  - apply sim_update_writes.
  - intros k ns. apply sim_update_writes.
  - intros k key w. cbn. unfold simDelete. destruct (simFind k key w); [by auto|]. cbn. split.
    + intros k' key' Hne. unfold contents, sim_store. cbn. by rw find_without decide_False.
    + right. unfold contents, sim_store. cbn. by rw find_without decide_True.
  - intros k uid o w k' key' Hne. cbn. unfold simDelete. destruct (simFind k _ w); [done|].
    unfold contents, sim_store. cbn. by rw find_without decide_False.
  - intros r w. cbn. destruct (simStatusUpdate_spec r w) as [[err ->]|(r1 & _ & -> & Hk & _ & Ho)]; [done|]. split.
    + intros k key Hne. apply Ho. congruence.
    + by intros r' [= <-].
Qed.

(** ** Two replicas *)

Definition rolledReq : NamespacedName := mkNamespacedName "ns" "rabbit".

Definition rolledStart : Sim :=
  simWorld [existT KRabbitmqCluster (set_rmq_Status (set_rst_Replicas 2 simStatus) (simCluster 2))].

(** The twentieth round: everything exists and is ready. *)
Definition rolledWorld : Sim := Eval vm_compute in
  Nat.iter 20 (λ w, kubelet (Reconcile simDefaults rolledReq w).2) rolledStart.

(** The cluster then gets another image. *)
Definition withImage (image : string) (r : RabbitmqCluster) : RabbitmqCluster :=
  set_rmq_Spec (set_rs_Image image (rmq_Spec r)) r.

Definition newImage : RabbitmqCluster := Eval vm_compute in
  match simFind KRabbitmqCluster rolledReq rolledWorld with
  | inr r => withImage "rabbitmq:4.0" r
  | inl _ => simCluster 2
  end.

Definition changedWorld : Sim := Eval vm_compute in simPut (k := KRabbitmqCluster) newImage rolledWorld.

(** The world after one reconciliation. *)
Definition reconciled (w : Sim) : Sim := (Reconcile simDefaults rolledReq w).2.

Definition firstKey : NamespacedName := mkNamespacedName "ns" "rabbit-server-0".

Definition specsDiffer (w w' : Sim) (key : NamespacedName) : bool :=
  match contents w KStatefulSet key, contents w' KStatefulSet key with
  | Some sts, Some sts' => negb (bool_decide (sts_Spec sts = sts_Spec sts'))
  | _, _ => false
  end.

Lemma specsDiffer_disturbed w w' key : specsDiffer w w' key = true → disturbed w w' key.
Proof.
  unfold specsDiffer, disturbed. destruct (contents w KStatefulSet key) as [sts|]; [|done].
  destruct (contents w' KStatefulSet key) as [sts'|]; [|done]. intros Hd. exists sts'. split; [done|]. cbn.
  intros [= E]. by rw bool_decide_eq_true_2 in Hd.
Qed.

Lemma newImage_kept : deletionIsZero newImage = true.
Proof. vm_compute. reflexivity. Qed.

Lemma reconciled_found :
  op_world (reconcileFound simDefaults (mkOp newImage changedWorld)).2 = reconciled changedWorld.
Proof.
  assert (simFind KRabbitmqCluster rolledReq changedWorld = inr newImage) as Hf.
  { apply (bool_decide_unpack _). vm_compute. exact I. }
  unfold reconciled, Reconcile. cbn [kGet sim_kube]. rw Hf. by destruct (reconcileFound _ _).
Qed.

(** The StatefulSet that the first reconciliation changes is the only one that
    is disturbed. *)
Lemma rollout_serial_witness :
  disturbed changedWorld (reconciled changedWorld) firstKey ∧
  ∀ key, disturbed changedWorld (reconciled changedWorld) key → key = firstKey.
Proof.
  assert (disturbed changedWorld (reconciled changedWorld) firstKey) as Hd.
  { apply specsDiffer_disturbed. vm_compute. reflexivity. }
  split; [exact Hd|]. intros key Hk.
  pose proof (rollout_operator newImage simDefaults changedWorld (λ _, False) newImage _ _
    (rollout_start newImage simDefaults changedWorld) (conj eq_refl eq_refl) newImage_kept (λ _ Hf, False_ind _ Hf)
    (surjective_pairing (reconcileFound simDefaults (mkOp newImage changedWorld)))) as Hr.
  rw reconciled_found in Hr. exact (rollout_serial newImage simDefaults _ _ Hr firstKey key (or_intror Hd) (or_intror Hk)).
Defined.
