(* ===== verification/Lagging.v ===== *)
(** A simulated server with versions, read through a cache that lags behind:
    it satisfies the laws of a shared server, and the operator finds its
    creations and updates refused in it. *)

From S2P Require Import Prelude GoStd K8s V1beta1 Constant Metadata Kube Controllerutil Secrets Trace Result Steps Store.
From S2P Require Import Deletion Reconcile Authority Effects Quiet Credentials Sim SimStore Rolled.

(** ** The world *)

(** The server, what the cache has of it, and the number of the next version. *)
Record Lag := mkLag { lag_server : Sim; lag_cache : Sim; lag_next : nat }.

Definition version (n : nat) : string := repeatChar n.

Lemma version_inj n m : version n = version m → n = m.
Proof. revert m. induction n as [|n IH]; intros [|m]; try done. intros [= E]. f_equal. by apply IH. Qed.

Definition versionOf {k} (o : Obj k) : string := om_ResourceVersion (meta o).
Definition stamp {k} (n : nat) (o : Obj k) : Obj k := set_meta (withVersion (version n) (meta o)) o.

#[export] Instance lag_store : Store Lag := λ w, contents (lag_server w).

Lemma lag_contents (w : Lag) k key : contents w k key = contents (lag_server w) k key.
Proof. done. Qed.

(** The Secret has a version that was given, and is the stored one if it is
    that version that is stored. *)
Definition known (w : Lag) (s : Secret) : bool :=
  existsb (λ n, bool_decide (om_ResourceVersion (sec_ObjectMeta s) = version n)) (seq 0 (lag_next w)) &&
  match contents (lag_server w) KSecret (ObjectKeyFromObject (k := KSecret) s) with
  | Some cur => bool_decide (om_ResourceVersion (sec_ObjectMeta cur) ≠ om_ResourceVersion (sec_ObjectMeta s)) ||
                bool_decide (cur = s)
  | None => true
  end.

#[export] Instance lag_seen : Seen Lag := λ w s, known w s = true.

Definition invalidCache : error := New "the cache is invalid".

Definition onServer {A} (f : Ext Sim A) : Ext Lag A := λ w,
  let '(a, server) := f (lag_server w) in (a, mkLag server (lag_cache w) (lag_next w)).

(** The cache does not answer what was never stored. *)
Definition lagGet (k : Kind) : NamespacedName → Ext Lag (result (Obj k)) := λ key w,
  (match simFind k key (lag_cache w) with
   | inl err => inl err
   | inr o => if match k return Obj k → bool with KSecret => λ s, known w s | _ => λ _, true end o
              then inr o else inl invalidCache
   end, w).

Definition lagCreate {k} (o : Obj k) : Ext Lag (result (Obj k)) := λ w,
  let '(a, server) := simCreate (stamp (lag_next w) o) (lag_server w) in
  (a, mkLag server (lag_cache w) (S (lag_next w))).

(** An update that is not based on the stored version is refused. *)
Definition lagUpdate {k} (o : Obj k) : Ext Lag (result (Obj k)) := λ w,
  match simFind k (ObjectKeyFromObject o) (lag_server w) with
  | inl err => (inl err, w)
  | inr cur =>
      if bool_decide (versionOf cur = versionOf o) then
        let o := stamp (lag_next w) o in
        (inr o, mkLag (simPut o (lag_server w)) (lag_cache w) (S (lag_next w)))
      else (inl (StatusError StatusReasonConflict "the object has been modified"), w)
  end.

#[export] Instance lag_kube : Kube Lag := {
  kGet k key := lagGet k key;
  kList k ns labels w := (inr (simList k ns labels (lag_cache w)), w);
  kCreate k x := lagCreate x;
  kUpdate k x := lagUpdate x;
  kDelete k uid x := onServer (simDelete k (ObjectKeyFromObject x));
  kStatusUpdate r := onServer (simStatusUpdate r);
  kReaderGet k key w := (simFind k key (lag_server w), w);
  csGet k key w := (simFind k key (lag_server w), w);
  csUpdate k ns x := lagUpdate x;
  csDeleteOrphan k key := onServer (simDelete k key);
  kEvent r ty reason msg w := (tt, w);
  kNow w := (simNow (lag_server w), w);
  kRandRead n w := (inr (repeatChar n), w);
  kExec ns pod container command w := ((("", ""), None), w)
}.

(** ** The laws *)

Lemma known_spec w s : known w s = true ↔
  (∃ n, (n < lag_next w)%nat ∧ om_ResourceVersion (sec_ObjectMeta s) = version n) ∧
  ∀ cur, contents (lag_server w) KSecret (ObjectKeyFromObject (k := KSecret) s) = Some cur →
    om_ResourceVersion (sec_ObjectMeta cur) = om_ResourceVersion (sec_ObjectMeta s) → cur = s.
Proof.
  unfold known. rw andb_true_iff existsb_exists. split; intros [H1 H2]; split.
  - destruct H1 as (n & Hn & E%bool_decide_eq_true_1). exists n. split; [|exact E]. apply in_seq in Hn. lia.
  - intros cur Hc Hv. rw Hc orb_true_iff !bool_decide_eq_true in H2. by destruct H2.
  - destruct H1 as (n & Hn & E). exists n. split; [apply in_seq; lia|by apply bool_decide_eq_true_2].
  - destruct (contents _ _ _) as [cur|]; [|done]. rw orb_true_iff !bool_decide_eq_true.
    destruct (decide (om_ResourceVersion (sec_ObjectMeta cur) = om_ResourceVersion (sec_ObjectMeta s))) as [E|]; [|by left].
    right. by apply H2.
Qed.

Lemma versionOf_stamp {k} n (o : Obj k) : versionOf (stamp n o) = version n.
Proof. unfold versionOf, stamp. by rw meta_set_meta. Qed.

Lemma stamp_key {k} n (o : Obj k) : ObjectKeyFromObject (stamp n o) = ObjectKeyFromObject o.
Proof. unfold ObjectKeyFromObject, stamp. by rw meta_set_meta. Qed.

Lemma stamp_served {k} n (o : Obj k) : served o (stamp n o).
Proof. by exists (withVersion (version n) (meta o)). Qed.

(** The Secrets stay, but for one with a new version. *)
Lemma lag_moves (w w' : Lag) :
  (lag_next w ≤ lag_next w')%nat →
  (∀ key s', contents w' KSecret key = Some s' →
     contents w KSecret key = Some s' ∨ om_ResourceVersion (sec_ObjectMeta s') = version (lag_next w)) →
  ∀ s, seen w s → seen w' s.
Proof.
  intros Hn Hc s. unfold seen, lag_seen. rw !known_spec. intros [(n & Hlt & Hv) Hcur]. split.
  - exists n. split; [lia|done].
  - intros cur Hs E. destruct (Hc _ _ Hs) as [Hold|Hnew]; [by apply Hcur|].
    rw Hnew Hv in E. apply version_inj in E. lia.
Qed.

Lemma lag_same (w w' : Lag) :
  (lag_next w ≤ lag_next w')%nat → (∀ key, contents w' KSecret key = contents w KSecret key) → moves w w'.
Proof.
  intros Hn Hc. split; [intros key s Hs; exists s; by rw Hc|]. apply lag_moves; [exact Hn|].
  intros key s' Hs. left. by rw -Hc.
Qed.

(** A write of an object of another kind. *)
Lemma lag_other {k} (o : Obj k) (w w' : Lag) :
  k ≠ KSecret → (lag_next w ≤ lag_next w')%nat → stored o (lag_server w) (lag_server w') → moves w w'.
Proof.
  intros Hk Hn [_ Ho]. apply lag_same; [exact Hn|]. intros key. unfold contents, lag_store. apply Ho. congruence.
Qed.

Lemma lagCreate_cases {k} (o : Obj k) (w : Lag) : let w' := (lagCreate o w).2 in
  (lag_next w ≤ lag_next w')%nat ∧
  (lag_server w' = lag_server w ∨
   contents w k (ObjectKeyFromObject o) = None ∧ stored (stamp (lag_next w) o) (lag_server w) (lag_server w')).
Proof.
  unfold lagCreate, simCreate. rw stamp_key sim_contents_get.
  destruct (contents (lag_server w) k (ObjectKeyFromObject o)) eqn:Hc; cbn; (split; [lia|]); [by left|].
  right. split; [exact Hc|]. apply simAdd_stored. by rw stamp_key.
Qed.

Lemma lagUpdate_cases {k} (o : Obj k) (w : Lag) : let w' := (lagUpdate o w).2 in
  w' = w ∨ (lag_next w ≤ lag_next w')%nat ∧ ∃ cur, contents w k (ObjectKeyFromObject o) = Some cur ∧
    versionOf cur = versionOf o ∧ stored (stamp (lag_next w) o) (lag_server w) (lag_server w').
Proof.
  unfold lagUpdate. rw sim_contents_get.
  destruct (contents (lag_server w) k (ObjectKeyFromObject o)) as [cur|] eqn:Hc; [|by left].
  case_bool_decide as Hv; [|by left]. right. split; [cbn; lia|]. exists cur. split_and!; [exact Hc|exact Hv|].
  apply simPut_stored. rw stamp_key Hc. by eexists.
Qed.

Lemma lagUpdate_key {k} (o o' : Obj k) (w : Lag) : (lagUpdate o w).1 = inr o' → ObjectKeyFromObject o' = ObjectKeyFromObject o.
Proof.
  unfold lagUpdate. destruct (simFind _ _ _); [done|]. case_bool_decide; [|done]. intros [= <-]. apply stamp_key.
Qed.

Lemma lag_deletes k key (w : Lag) : k ≠ KSecret → moves w (onServer (simDelete k key) w).2.
Proof.
  intros Hk. unfold onServer, simDelete. destruct (simFind k key (lag_server w)); apply lag_same; try done.
  intros key'. unfold contents, lag_store, contents, sim_store. cbn. rw find_without decide_False //. congruence.
Qed.

Lemma lag_silent {A} (f : Ext Lag A) (w : Lag) : silent KSecret A f → moves w (f w).2.
Proof.
  intros [k key|k ns labels|k key|k key| | | | |k o Hk|k o Hk|x _|k uid o Hk|k ns o Hk|k key Hk]; try done.
  - destruct (lagCreate_cases o w) as [Hn [E|[_ Hs]]]; [|by eapply lag_other].
    apply lag_same; [exact Hn|]. intros key. unfold contents, lag_store. by rw E.
  - destruct (lagUpdate_cases o w) as [E|(Hn & cur & _ & _ & Hs)]; [by rw E|]. by eapply lag_other.
  - cbn. unfold onServer. destruct (simStatusUpdate_spec x (lag_server w)) as [[err ->]|(r1 & _ & -> & _ & Hs)];
      [by apply lag_same|]. by eapply (lag_other (k := KRabbitmqCluster)).
  - exact (lag_deletes k _ w Hk).
  - destruct (lagUpdate_cases o w) as [E|(Hn & cur & _ & _ & Hs)]; [by rw E|]. by eapply lag_other.
  - exact (lag_deletes k _ w Hk).
Qed.

Lemma lag_create (o : Secret) (w : Lag) : moves w (kCreate KSecret o w).2.
Proof.
  destruct (lagCreate_cases (k := KSecret) o w) as [Hn [E|[Hc [Hat Ho]]]].
  { apply lag_same; [exact Hn|]. intros key. unfold contents, lag_store. by rw E. }
  rw stamp_key in Hat Ho. split.
  - intros key s Hs. exists s. split; [|done]. rw lag_contents Ho //. congruence.
  - apply lag_moves; [exact Hn|]. intros key s' Hs. rw lag_contents in Hs.
    destruct (decide (key = ObjectKeyFromObject (k := KSecret) o)) as [->|Hne]; [|left; rw lag_contents -Ho //; congruence].
    right. rw Hat in Hs. injection Hs as <-. exact (versionOf_stamp (k := KSecret) _ o).
Qed.

Lemma lag_update (s : Secret) (w : Lag) : let w' := (kUpdate KSecret s w).2 in
  moves w w' ∨ ∃ w1 w2 cur s', moves w w1 ∧ contents w1 KSecret (ObjectKeyFromObject (k := KSecret) s) = Some cur ∧
    om_ResourceVersion (sec_ObjectMeta cur) = om_ResourceVersion (sec_ObjectMeta s) ∧
    served (k := KSecret) s s' ∧ placed s' w1 w2 ∧ moves w2 w'.
Proof.
  destruct (lagUpdate_cases (k := KSecret) s w) as [E|(Hn & cur & Hc & Hv & Hat & Ho)]; [left; by rw E|]. right.
  exists w, (kUpdate KSecret s w).2, cur, (stamp (k := KSecret) (lag_next w) s).
  split_and!; [done|exact Hc|exact Hv|apply stamp_served| |done]. rw stamp_key in Hat Ho.
  unfold placed. rw (stamp_key (k := KSecret)). split_and!; [exact Hat| |].
  - intros key Hne. apply Ho. congruence.
  - apply lag_moves; [exact Hn|]. intros key s' Hs. rw lag_contents in Hs.
    destruct (decide (key = ObjectKeyFromObject (k := KSecret) s)) as [->|Hne]; [|left; rw lag_contents -Ho //; congruence].
    right. rw Hat in Hs. injection Hs as <-. exact (versionOf_stamp (k := KSecret) _ s).
Qed.

Lemma lagGet_inv k key (w : Lag) o : (lagGet k key w).1 = inr o →
  ObjectKeyFromObject o = key ∧ match k return Obj k → Prop with KSecret => λ s, known w s = true | _ => λ _, True end o.
Proof.
  unfold lagGet. cbn [fst]. destruct (simFind k key (lag_cache w)) as [err|x] eqn:E; [done|].
  destruct (match k return Obj k → bool with KSecret => _ | _ => _ end x) eqn:Eb; [|done]. intros [= <-].
  split; [exact (sim_get_law k key (lag_cache w) x _ (f_equal (λ a, (a, lag_cache w)) E))|]. by destruct k.
Qed.

#[export] Instance lag_shared_laws : SharedLaws Lag.
Proof.
  split.
  - intros k key w o w' E. by apply (lagGet_inv k key w o (f_equal fst E)).
  - intros x y w [E|E]; [exact (lagUpdate_key (k := KRabbitmqCluster) x y w E)|]. cbn in E. unfold onServer in E.
    destruct (simStatusUpdate_spec x (lag_server w)) as [[err Es]|(r1 & _ & Es & Hk & _)]; rw Es in E; [done|].
    injection E as <-. exact Hk.
  - intros key w s E. exact (proj2 (lagGet_inv KSecret key w s E)).
  - intros w s cur Hs Hc Hv. unfold seen, lag_seen in Hs. apply known_spec in Hs as [_ Hs]. by apply Hs.
  - apply @lag_silent.
  - apply lag_create.
  - apply lag_update.
Qed.

(** ** Refused writes *)

Definition cookieKey : NamespacedName := mkNamespacedName "ns" "rabbit-erlang-cookie".
Definition userKey : NamespacedName := mkNamespacedName "ns" "rabbit-default-user".

(** A change of the data of a Secret. *)
Definition withData (key : NamespacedName) (f : gmap string string → gmap string string) (n : nat) (w : Sim) : Sim :=
  match simFind KSecret key w with
  | inr s => simPut (k := KSecret) (stamp (k := KSecret) n (set_sec_Data (f <$> sec_Data s) s)) w
  | inl _ => w
  end.

(** The cluster runs with a cookie of which the cache has not yet heard. *)
Definition forgetful : Lag :=
  mkLag (withData cookieKey (<[fileNameErlangCookie := "chosen"]>) 0 rolledWorld)
    (simDelete KSecret cookieKey rolledWorld).2 1.

(** Somebody has deleted a port from the user's Secret, and then rotated the
    password, of which the cache knows nothing. *)
Definition rotated : Lag :=
  let w := withData userKey (delete "port") 0 rolledWorld in
  mkLag (withData userKey (<["password" := "rotated"]>) 1 w) w 2.

(** The same when the cache has caught up. *)
Definition informed : Lag := mkLag (lag_server rotated) (lag_server rotated) 2.

Definition reconciledLag (w : Lag) : outcome (CtrlResult * goerror) * Lag := Reconcile simDefaults rolledReq w.

Definition dataAt (w : Lag) (key : NamespacedName) (field : string) : option string :=
  contents w KSecret key ≫= λ s, gm_lookup (sec_Data s) field.

(** The reason of the error of a reconciliation. *)
Definition refusal (a : outcome (CtrlResult * goerror)) : option error :=
  match a with Returns (_, err) => err | Panics _ => None end.

Lemma kept_data (w w' : Lag) key field v :
  kept w w' → field ∉ connectionKeys → dataAt w key field = Some v → dataAt w' key field = Some v.
Proof.
  intros Hk Hf. unfold dataAt. destruct (contents w KSecret key) as [s|] eqn:Hc; [|done].
  destruct (Hk key s Hc) as (s' & -> & _ & Hd). cbn. by rw Hd.
Qed.

Lemma not_connection field : bool_decide (field ∉ connectionKeys) = true → field ∉ connectionKeys.
Proof. by intros ?%bool_decide_eq_true_1. Qed.

(** The operator does not find the cookie and may not create another one; it may
    not write the old password; and it restores the port beside the new one. *)
Lemma Reconcile_keeps_credentials_witness :
  (refusal (reconciledLag forgetful).1 = Some alreadyExists ∧
   dataAt (reconciledLag forgetful).2 cookieKey fileNameErlangCookie = Some "chosen") ∧
  ((∃ msg, refusal (reconciledLag rotated).1 = Some (StatusError StatusReasonConflict msg)) ∧
   dataAt (reconciledLag rotated).2 userKey "password" = Some "rotated") ∧
  (refusal (reconciledLag informed).1 = None ∧
   dataAt informed userKey "port" = None ∧ dataAt (reconciledLag informed).2 userKey "port" = Some "5672" ∧
   dataAt (reconciledLag informed).2 userKey "password" = Some "rotated").
Proof.
  split_and!.
  - vm_compute. reflexivity.
  - eapply kept_data; [exact (Reconcile_keeps_credentials simDefaults rolledReq forgetful)| |];
      [apply not_connection|]; vm_compute; reflexivity.
  - eexists. vm_compute. reflexivity.
  - eapply kept_data; [exact (Reconcile_keeps_credentials simDefaults rolledReq rotated)| |];
      [apply not_connection|]; vm_compute; reflexivity.
  - vm_compute. reflexivity.
  - vm_compute. reflexivity.
  - vm_compute. reflexivity.
  - eapply kept_data; [exact (Reconcile_keeps_credentials simDefaults rolledReq informed)| |];
      [apply not_connection|]; vm_compute; reflexivity.
Defined.
