(* ===== verification/Witnesses.v ===== *)
(** For each property with hypotheses a concrete case in which they hold. *)

From S2P Require Import Prelude GoStd GoTime K8s V1beta1 Constant Metadata Kube Controllerutil.
From S2P Require Import Builder Builders Trace Result Status Merge Plugins Services Secrets Rbac.
From S2P Require Import ServerConf Sts ControllerUtils Configurations Resources Steps Deletion Cli.
From S2P Require Import Reconcile Overridden Main Sim.

(** ** The operator's steps *)

Definition oneReady : Op (Sim * list Call) := simState (simCluster 1) (simObjects ["rabbit-server-0"]).

Definition scaledDown : Op (Sim * list Call) :=
  simState (simCluster 1) (simObjects ["rabbit-server-0"; "rabbit-server-1"; "rabbit-server-2"]).

Definition pausedCluster : RabbitmqCluster :=
  mkRabbitmqCluster (simMeta (Some {[pauseReconciliationLabel := "true"]}) [deletionFinalizer])
    (simSpec 1) simStatus.

Lemma oneReady_listed : listed oneReady = inr [simSts "rabbit-server-0"].
Proof. reflexivity. Defined.

(** The first reconciliation creates one object. *)
Lemma reconcileResources_one_child_witness :
  ∃ t, Forall (λ c, succeeded c = true → target c = Some t) (log (reconcileResources oneReady).2).
Proof.
  destruct (reconcileResources_one_child oneReady 1 eq_refl) as (calls & Hl & _ & H).
  rw oneReady_listed in H.
  destruct H as (_ & H & _). rw Hl. exact H.
Defined.

Lemma reconcileFound_scale_down_witness :
  (reconcileFound simDefaults scaledDown).1 = Panics "index out of range".
Proof.
  destruct (reconcileFound_scale_down simDefaults scaledDown
    [simSts "rabbit-server-0"; simSts "rabbit-server-1"; simSts "rabbit-server-2"] 1) as (calls & _ & Hout & _).
  - split; [reflexivity|]. split; [apply (bool_decide_unpack _); vm_compute; exact I|].
    split; [discriminate|reflexivity].
  - reflexivity.
  - reflexivity.
  - cbn. lia.
  - intros w err E. cbn in E. unfold simFind in E.
    destruct (List.find _ _ ≫= _); [discriminate|]. injection E as <-. reflexivity.
  - exact Hout.
Defined.

Lemma reconcileFound_paused_witness :
  (reconcileFound simDefaults (simState pausedCluster [] : Op (Sim * list Call))).1 =
    Returns (mkCtrlResult true (30 * Second), None).
Proof.
  destruct (reconcileFound_paused simDefaults (simState pausedCluster [] : Op (Sim * list Call)))
    as (calls & _ & Hout & _).
  - reflexivity.
  - apply (bool_decide_unpack _); vm_compute; exact I.
  - reflexivity.
  - exact Hout.
Defined.

Lemma CreateOrUpdate_spec_witness :
  let o : Object := existT KConfigMap (mkConfigMap (newObjectMeta "rabbit-plugins-conf" "ns" None None) None) in
  (length (log (CreateOrUpdate RabbitmqPluginsConfigMapBuilder o oneReady).2) ≤ 1)%nat.
Proof.
  intros o. destruct (CreateOrUpdate_spec RabbitmqPluginsConfigMapBuilder o oneReady)
    as (calls & Hl & _ & _ & Hn & _). rw Hl. exact Hn.
Defined.


(** One replica, and a server configuration that was just updated. *)
Definition confMap : ConfigMap :=
  annotate (k := KConfigMap) serverConfAnnotation "2023-11-14T00:00:00Z"
    (mkConfigMap (newObjectMeta "rabbit-server-conf" "ns" None None) None).

Definition confUpdated : Op (Sim * list Call) :=
  simState (simCluster 1) (existT KConfigMap confMap :: simObjects ["rabbit-server-0"]).

Lemma restartStatefulSetIfNeeded_spec_witness :
  ∃ ty reason msg, last (log (restartStatefulSetIfNeeded confUpdated).2) = Some (Event ty reason msg).
Proof.
  assert (configMapServer confUpdated = (Returns (inr confMap), confUpdated)) as E1 by (vm_compute; reflexivity).
  assert (gm_lookup (annotations (k := KConfigMap) confMap) serverConfAnnotation =
          Some "2023-11-14T00:00:00Z") as E2 by (vm_compute; reflexivity).
  assert (listed confUpdated = inr [simSts "rabbit-server-0"]) as E3 by (vm_compute; reflexivity).
  assert (find (outdated "2023-11-14T00:00:00Z") [simSts "rabbit-server-0"] = Some (simSts "rabbit-server-0"))
    as E4 by (vm_compute; reflexivity).
  destruct (restartStatefulSetIfNeeded_spec confUpdated) as (calls & Hl & _ & H). rw Hl.
  rw E1 E2 E3 in H. unfold restartOutcome in H. rw E4 in H.
  destruct H as (updates & err & w' & sts & _ & _ & H). change (log confUpdated) with ([] : list Call).
  destruct err as [err|]; destruct H as (_ & _ & ->); do 3 eexists; apply last_snoc.
Defined.

Lemma reconcileStatus_spec_witness :
  rst_Replicas (statusOf 1 (op_rmq oneReady)) = 3%Z ∧
  (∃ n, log (reconcileStatus oneReady).2 =
     replicate n (StatusUpdated (set_rmq_Status (statusOf 1 (op_rmq oneReady)) (op_rmq oneReady)))).
Proof.
  destruct (reconcileStatus_spec oneReady 1 eq_refl) as (Hr & _ & _ & calls & Hl & H).
  split; [exact Hr|]. destruct (bool_decide _).
  - exists O. rw Hl. exact (proj1 (proj2 H)).
  - destruct H as (n & _ & H & _). exists n. rw Hl. exact H.
Defined.

Lemma updateAnnotation_spec_witness :
  (length (log (updateAnnotation KStatefulSet "ns" "rabbit-server-0" stsCreateAnnotation "now" oneReady).2) ≤ 5)%nat.
Proof.
  destruct (updateAnnotation_spec KStatefulSet "ns" "rabbit-server-0" stsCreateAnnotation "now" oneReady)
    as (calls & Hl & _ & H & _). rw Hl. exact H.
Defined.

(** After a first round for the status, ten for the objects, two more for the
    status and one for the commands, a new cluster is as it should be: nothing
    is called and nothing asks for another reconciliation. *)
Lemma rounds_converge :
  (reconcileFound simDefaults (simRound 14)).1 = Returns (mkCtrlResult false 0, None) ∧
  log (reconcileFound simDefaults (simRound 14)).2 = [].
Proof. by vm_compute. Qed.

Lemma steps_answer_witness :
  rst_ObservedGeneration (rmq_Status (op_rmq (steps simDefaults (simRound 14)).2)) = 3%Z.
Proof.
  destruct (steps simDefaults (simRound 14)) as [o s'] eqn:E.
  assert ((steps simDefaults (simRound 14)).1 = Returns (mkCtrlResult false 0, None)) as Ho
    by (vm_compute; reflexivity).
  assert (om_Generation (rmq_ObjectMeta (op_rmq (steps simDefaults (simRound 14)).2)) = 3%Z) as Hg
    by (vm_compute; reflexivity).
  rw E in Ho Hg |- *. cbn [fst snd] in Ho, Hg |- *. subst o.
  destruct (steps_answer simDefaults (simRound 14) s' _ E) as [[Hc|Hc]|[Hc _]].
  - discriminate.
  - destruct (Hc eq_refl).
  - rw Hc. exact Hg.
Defined.

(** ** The generated objects *)

Definition simCM (name : string) : ConfigMap := mkConfigMap (newObjectMeta name "ns" None None) None.

(** In place of [f = ok x], the value of a call that succeeds. *)
Ltac succeeds f x E :=
  destruct f as [[? | x] | ?] eqn:E; [vm_compute in E; discriminate E | | vm_compute in E; discriminate E].

Lemma StatefulSet_Update_spec_witness :
  match StatefulSet_Update (simCluster 1) (simSts "rabbit-server-0") with
  | Returns (inr sts) => stss_Replicas (sts_Spec sts) = Some 1%Z ∧ sts_Status sts = mkStatefulSetStatus 1 "rev" "rev"
  | _ => False
  end.
Proof.
  succeeds (StatefulSet_Update (simCluster 1) (simSts "rabbit-server-0")) sts E.
  destruct (StatefulSet_Update_spec (simCluster 1) (simSts "rabbit-server-0") sts) as (_ & Hr & _ & Hs & _).
  - reflexivity.
  - repeat split; apply (bool_decide_unpack _); vm_compute; exact I.
  - exact E.
  - exact (conj Hr Hs).
Defined.

Lemma mounts_have_volumes_witness :
  Forall (λ m, vm_Name m ∈ vol_Name <$> nextVolumes (simCluster 1) true)
    (sl (ctr_VolumeMounts (containerSetup (simCluster 1)))).
Proof.
  destruct (mounts_have_volumes (simCluster 1) true "" (containerSetup (simCluster 1))) as [_ H].
  - right. left. reflexivity.
  - apply Forall_forall. intros m Hm. destruct (H m Hm) as [Hv|[Hf _]]; [exact Hv|discriminate Hf].
Defined.

Definition twoVolumes : list Volume := [mkVolume "a" VSEmptyDir; mkVolume "b" VSEmptyDir].
Definition otherVolumes : list Volume :=
  [mkVolume "b" (VSSecret "s" None); mkVolume "c" VSEmptyDir].

Lemma merge_refines_upsert_witness :
  NoDup (mkey <$> twoVolumes) ∧ mergeSpec twoVolumes otherVolumes = Returns
    [mkVolume "a" VSEmptyDir; mkVolume "b" (VSSecret "s" None); mkVolume "c" VSEmptyDir].
Proof.
  assert (NoDup (mkey <$> twoVolumes)) as Hc by (apply (bool_decide_unpack _); vm_compute; exact I).
  split; [exact Hc|]. rw -(merge_refines_upsert twoVolumes otherVolumes Hc). reflexivity.
Defined.

Lemma merge_correct_witness :
  ∃ r, merge twoVolumes otherVolumes = Returns r ∧
       findKey "a" r = Some (mkVolume "a" VSEmptyDir).
Proof.
  destruct (merge twoVolumes otherVolumes) as [r|] eqn:E; [|discriminate E].
  exists r. split; [reflexivity|].
  destruct (merge_correct twoVolumes otherVolumes r) as (_ & _ & _ & H).
  - apply (bool_decide_unpack _); vm_compute; exact I.
  - apply (bool_decide_unpack _); vm_compute; exact I.
  - exact E.
  - exact (H "a").
Defined.

Lemma sortEnvVar_operator_order_witness :
  ∃ l', sortEnvVar (patchedEnv [mkEnvVar "FIRST" "1" None] (mkEnvVar "K8S_SERVICE_NAME" "" None)
          (mkEnvVar "MY_POD_NAME" "" None) (mkEnvVar "MY_POD_NAMESPACE" "" None) []) = Returns l' ∧
    ev_Name <$> l' = ["FIRST"; "MY_POD_NAMESPACE"; "K8S_SERVICE_NAME"; "MY_POD_NAME"].
Proof.
  destruct (sortEnvVar_operator_order [mkEnvVar "FIRST" "1" None] []
    (mkEnvVar "K8S_SERVICE_NAME" "" None) (mkEnvVar "MY_POD_NAME" "" None)
    (mkEnvVar "MY_POD_NAMESPACE" "" None)) as (l' & Hl & H).
  - repeat constructor. apply (bool_decide_unpack _); vm_compute; exact I.
  - constructor.
  - reflexivity.
  - reflexivity.
  - reflexivity.
  - exists l'. split; [exact Hl|]. cbn in H. rw H. reflexivity.
Defined.

Lemma ServerConfigMap_Update_data_witness :
  match ServerConfigMap_Update (simCluster 3) true (simCM "rabbit-server-conf") with
  | Returns (inr (cm, _)) => gm_lookup (cm_Data cm) fileNameRabbitmqConfEnv = None
  | _ => False
  end.
Proof.
  succeeds (ServerConfigMap_Update (simCluster 3) true (simCM "rabbit-server-conf")) p E. destruct p as [cm flag].
  destruct (ServerConfigMap_Update_data (simCluster 3) true (simCM "rabbit-server-conf") cm flag E)
    as (_ & _ & H & _).
  apply (H fileNameRabbitmqConfEnv ""). right. left.
Defined.

Lemma RabbitmqPluginsConfigMap_Update_spec_witness :
  match RabbitmqPluginsConfigMap_Update (simCluster 3) (simCM "rabbit-plugins-conf") with
  | Returns (inr cm) => gm_lookup (cm_Data cm) fileNameRabbitmqPlugins = Some
      "[rabbitmq_peer_discovery_k8s,rabbitmq_prometheus,rabbitmq_management,rabbitmq_stream]."
  | _ => False
  end.
Proof.
  succeeds (RabbitmqPluginsConfigMap_Update (simCluster 3) (simCM "rabbit-plugins-conf")) cm E.
  destruct (RabbitmqPluginsConfigMap_Update_spec (simCluster 3) (simCM "rabbit-plugins-conf") cm E) as (_ & H & _).
  exact H.
Defined.

Definition simService (ports : list ServicePort) : Service :=
  mkService (newObjectMeta "rabbit" "ns" None None)
    (mkServiceSpec ports None "" "" "" false "").

Definition stalePort : ServicePort := mkServicePort "stale" "TCP" None 1 (IntPort 1) 30000.

(** A port that the operator does not generate stays; its node port goes. *)
Lemma Service_Update_spec_witness :
  match (Service_Update (simService [stalePort]) (simCluster 3)).1 with
  | Returns (inr s) => svcs_Type (svc_Spec s) = "ClusterIP" ∧
      (∀ p, p ∈ svcs_Ports (svc_Spec s) → sp_NodePort p = 0%Z)
  | _ => False
  end.
Proof.
  destruct (Service_Update_spec (simCluster 3) (simService [stalePort])) as (r & Hr & H).
  { apply (bool_decide_unpack _); vm_compute; exact I. }
  assert (match (Service_Update (simService [stalePort]) (simCluster 3)).1 with Returns (inr _) => True | _ => False end)
    as Hok by (vm_compute; exact I).
  rw Hr in Hok |- *. cbn [fst] in Hok |- *. destruct r as [e|s]; [destruct Hok|].
  destruct (H s eq_refl eq_refl) as (_ & Ht & _ & _ & _ & ports & _ & _ & Hp).
  split; [exact Ht|]. exact (Hp eq_refl).
Defined.

Lemma HeadlessService_Update_spec_witness :
  match HeadlessService_Update (simCluster 3) (simService [stalePort]) with
  | Returns (inr s) => svcs_ClusterIP (svc_Spec s) = "None" ∧ HeadlessService_Update (simCluster 3) s = ok s
  | _ => False
  end.
Proof.
  succeeds (HeadlessService_Update (simCluster 3) (simService [stalePort])) s E.
  destruct (HeadlessService_Update_spec (simCluster 3) (simService [stalePort]) s) as (_ & _ & Hc & _ & _ & _ & Hi).
  - apply (bool_decide_unpack _); vm_compute; exact I.
  - exact E.
  - exact (conj Hc Hi).
Defined.

Lemma Build_spec_witness :
  match Build (StatefulSetBuilder 0) oneReady with
  | (Returns (inr o), s') => projT1 o = KStatefulSet ∧ op_rmq s' = op_rmq oneReady
  | _ => False
  end.
Proof.
  destruct (Build (StatefulSetBuilder 0) oneReady) as [[[err|o]|msg] s'] eqn:E;
    [vm_compute in E; discriminate E| |vm_compute in E; discriminate E].
  destruct (Build_spec (StatefulSetBuilder 0) oneReady o s' E) as (Hk & Hr & _).
  exact (conj Hk Hr).
Defined.

Lemma Rbac_grants_witness :
  match RoleBinding_Update (simCluster 3) (RoleBinding_Build (simCluster 3)) with
  | Returns (inr rb) => rref_Name (rb_RoleRef rb) = "rabbit-peer-discovery"
  | _ => False
  end.
Proof.
  succeeds (RoleBinding_Update (simCluster 3) (RoleBinding_Build (simCluster 3))) rb E.
  destruct (Role_Update (simCluster 3) (Role_Build (simCluster 3))) as [[? | r] | ?] eqn:Er; [discriminate Er| |discriminate Er].
  destruct (ServiceAccount_Update (simCluster 3) (ServiceAccount_Build (simCluster 3))) as [[? | sa] | ?] eqn:Es;
    [discriminate Es| |discriminate Es].
  exact (proj1 (Rbac_grants (simCluster 3) _ r _ rb _ sa Er E Es)).
Defined.

Lemma removeHeadroom_spec_witness :
  removeHeadroom 5368709120 = 4294967296%Z ∧ (0 < removeHeadroom 1)%Z.
Proof.
  split.
  - rw (proj1 (removeHeadroom_spec 5368709120 5368709120 ltac:(lia))). reflexivity.
  - destruct (removeHeadroom_spec 1 1 ltac:(lia)) as (_ & _ & _ & _ & H). apply H. lia.
Defined.

(** ** The status, the commands and the clock *)

Definition oldStatus : RabbitmqClusterStatus :=
  set_rst_Conditions (Some [mkRabbitmqClusterCondition AllReplicasReady ConditionFalse (Some 5%Z) "" ""]) simStatus.

(** The replica has become ready, and the time is still the old one. *)
Lemma SetConditions_transition_time_witness :
  match SetConditions 100 [RStatefulSet (Some (simSts "rabbit-server-0"))] oldStatus with
  | Returns st => ∀ c, c ∈ sl (rst_Conditions st) → cond_Type c = AllReplicasReady →
                  cond_LastTransitionTime c = Some 5%Z
  | _ => False
  end.
Proof.
  destruct (SetConditions 100 [RStatefulSet (Some (simSts "rabbit-server-0"))] oldStatus) as [st|?] eqn:E;
    [|discriminate E].
  destruct (SetConditions_transition_time 100 [RStatefulSet (Some (simSts "rabbit-server-0"))] oldStatus st E)
    as (_ & H & _).
  intros c Hc Ht. rw (H c Hc); rw Ht; [discriminate|reflexivity].
Defined.

(** Flagged in the middle of a second. *)
Lemma pluginsConfigUpdatedRecently_window_witness :
  let cm := annotate (k := KConfigMap) pluginsUpdateAnnotation
              (Format (1700000000 * Second + 500000000)) (simCM "rabbit-plugins-conf") in
  pluginsConfigUpdatedRecently (1700000001 * Second) cm = true ∧
  pluginsConfigUpdatedRecently (1700000003 * Second) cm = false.
Proof.
  assert (inRange (1700000000 * Second + 500000000)) as Ht by (unfold inRange, Second; lia).
  split.
  - apply (pluginsConfigUpdatedRecently_window _ _ (1700000001 * Second) Ht). unfold Second. lia.
  - apply (pluginsConfigUpdatedRecently_window _ _ (1700000003 * Second) Ht). unfold Second. lia.
Defined.

(** ** The override of the claims *)

(** Volumes of 10Gi by the spec and of 20Gi by the override. *)
Definition overrideCluster : RabbitmqCluster :=
  let spec := simSpec 1 in
  let claim := mkPersistentVolumeClaimOverride (mkEmbeddedObjectMeta "persistence" "" None None)
    (mkPersistentVolumeClaimSpec (Some {[ResourceStorage := GiB 20]}) None ["ReadWriteOnce"] "") in
  mkRabbitmqCluster (simMeta None [deletionFinalizer])
    (mkRabbitmqClusterSpec (rs_Disable spec) (rs_Replicas spec) (rs_TLS spec) (rs_Rabbitmq spec) (rs_Image spec)
       (rs_ImagePullSecrets spec) (rs_Affinity spec) (rs_Tolerations spec) (rs_Resources spec) (rs_Service spec)
       (rs_Persistence spec) (rs_SecretBackend spec)
       (mkRabbitmqClusterOverrideSpec None (Some (mkStatefulSetOverride
          (Some (mkStatefulSetSpecOverride None None None [claim] "" "" None 0)) None)))
       (rs_TerminationGracePeriodSeconds spec) (rs_SkipPostDeploySteps spec) (rs_DelayStartSeconds spec))
    simStatus.

Definition overriddenSts : StatefulSet :=
  Eval vm_compute in match StatefulSet_Update overrideCluster (simSts "rabbit-server-0") with
                     | Returns (inr sts) => sts
                     | _ => simSts ""
                     end.

Lemma overridden_claims_stuck_witness :
  (reconcileBuilder (StatefulSetBuilder 0)
     (simState overrideCluster [existT KStatefulSet overriddenSts] : Op (Sim * list Call))).1 =
  Returns (ErrorResult (New "shrinking persistent volumes is not supported")).
Proof.
  destruct (overridden_claims_stuck overrideCluster 0 (GiB 10) (simSts "rabbit-server-0") overriddenSts
    (New "shrinking persistent volumes is not supported")
    (simState overrideCluster [existT KStatefulSet overriddenSts] : Op (Sim * list Call)))
    as (calls & _ & H & _); [reflexivity|discriminate|discriminate| | |reflexivity| |exact H].
  - vm_compute. reflexivity.
  - vm_compute. reflexivity.
  - vm_compute. reflexivity.
Defined.
