(* ===== verification/Converged.v ===== *)
(** A cluster that the simulated reconciliations have brought to rest: it
    satisfies the conditions of [reconcileFound_settled]. *)

From S2P Require Import Prelude GoStd K8s V1beta1 Constant Metadata Kube Controllerutil.
From S2P Require Import Builder Secrets Sts Builders Trace Result Status Scaling.
From S2P Require Import ControllerUtils Configurations Resources Steps Deletion Cli Reconcile Settled Sim.

(** ** Definitions *)

(** The fourteenth round. *)
Definition convergedState : Op (Sim * list Call) := Eval vm_compute in simRound 14.
Definition convergedCluster : RabbitmqCluster := Eval vm_compute in op_rmq convergedState.
Definition convergedWorld : Sim := Eval vm_compute in (op_world convergedState).1.
Definition convergedSts : list StatefulSet :=
  Eval vm_compute in simList KStatefulSet (Some "ns") (Metadata.LabelSelector "rabbit") convergedWorld.

(** What a builder finds and leaves as it is. *)
Definition simExisting (b : ResourceBuilder) : option (Obj (builderKind b)) :=
  match simFind (builderKind b) (builderTarget convergedCluster b).2 convergedWorld with
  | inr o => Some o
  | inl _ => None
  end.

Lemma sim_undisturbed w0 : Undisturbed (λ w : Sim, w = w0).
Proof.
  split; try (by intros; subst). intros n w ->. split; [done|]. eexists. split; [done|].
  induction n as [|n IH]; [done|]. by rw /= IH.
Qed.


(** Every builder finds its object and leaves it as it is, whatever else the
    world holds. *)
Definition leavesAsItIs (b : ResourceBuilder) : Prop :=
  match simExisting b with
  | None => False
  | Some existing => ∀ tw : Sim * list Call,
      match Update b (existT (builderKind b) existing) (mkOp convergedCluster tw) with
      | (Returns (inr o, _), s) => (o, s) = (existT (builderKind b) existing, mkOp convergedCluster tw)
      | _ => False
      end
  end.

Lemma sim_updates : Forall leavesAsItIs (ResourceBuilders 1 convergedCluster).
Proof.
  change (ResourceBuilders 1 convergedCluster) with
    [HeadlessServiceBuilder; ServiceBuilder; ErlangCookieBuilder; DefaultUserSecretBuilder;
     RabbitmqPluginsConfigMapBuilder; ServerConfigMapBuilder true; ServiceAccountBuilder;
     RoleBuilder; RoleBindingBuilder; StatefulSetBuilder 0].
  repeat (apply Forall_cons; split); [..|done]; vm_compute; reflexivity.
Qed.


Definition firstIndex (b : ResourceBuilder) : Prop :=
  match b with StatefulSetBuilder i => i = 0%Z | _ => True end.

Lemma sim_indices : Forall firstIndex (ResourceBuilders 1 convergedCluster).
Proof. repeat constructor. Qed.

Lemma sim_upToDate b : leavesAsItIs b → firstIndex b → upToDate convergedCluster convergedWorld b.
Proof.
  unfold firstIndex. intros Hl Hi. split.
  - clear Hl. destruct b; try exact I.
    + intros username password. unfold generateDefaultUserConf. cbn. by eexists.
    + subst Index. eexists _, _. split; [vm_compute; reflexivity|]. split; vm_compute; reflexivity.
  - clear Hi. unfold leavesAsItIs, simExisting in Hl.
    destruct (simFind _ _ _) as [err|existing] eqn:E; [destruct Hl|].
    exists existing. split; [exact E|]. split; [|by apply (bool_decide_eq_true_2 (existing = existing))].
    intros [r tw] Hr. simpl in Hr. subst r. specialize (Hl tw). 
    destruct (Update b _ _) as [[[[err|o] b']|] s0]; [destruct Hl| |destruct Hl].
    exists b'. by injection Hl as -> ->.
Qed.

Lemma sim_Settled : Settled convergedCluster convergedWorld simDefaults convergedSts.
Proof.
  split.
  - split; [reflexivity|]. split; [apply (bool_decide_unpack _); vm_compute; exact I|].
    split; [discriminate|reflexivity].
  - reflexivity.
  - vm_compute. reflexivity.
  - reflexivity.
  - eexists. split; [vm_compute; reflexivity|]. intros now. vm_compute. reflexivity.
  - split; discriminate.
  - discriminate.
  - change (Z.of_nat (length convergedSts)) with 1%Z. eapply Forall_impl.
    + apply Forall_and. split; [exact sim_updates|exact sim_indices].
    + intros b [Hl Hi]. by apply sim_upToDate.
  - vm_compute. exact I.
  - vm_compute. reflexivity.
  - split; [|split].
    + eexists. split; [vm_compute; reflexivity|reflexivity].
    + repeat constructor.
    + reflexivity.
  - reflexivity.
  - intros now. vm_compute. reflexivity.
Qed.

(** Another reconciliation of the converged cluster calls nothing. *)
Lemma reconcileFound_settled_witness :
  log (reconcileFound simDefaults convergedState).2 = [].
Proof.
  destruct (reconcileFound_settled (λ w, w = convergedWorld) (sim_undisturbed convergedWorld) simDefaults
    convergedCluster convergedWorld convergedSts eq_refl sim_Settled) as (calls & Hl & _ & Hc & _).
  change convergedState with (mkOp convergedCluster (convergedWorld, [] : list Call)).
  rw Hl Hc. reflexivity.
Defined.
