(* ===== verification/Copied.v ===== *)
(** Cases in which the theorems of Deepcopy, PodExecutor and Aliasing apply: a
    cluster in memory, with copies for the types of other packages that are
    made of the same statements; a connection with two streams; two maps. *)

From S2P Require Import Prelude GoStd Memory Copying Deepcopy PodExecutor.
From S2P Require Metadata Aliasing.

#[local] Existing Instance sorted_range.

(** ** A cluster in memory *)

(** A few fields for some of the types of other packages. *)
Definition zoneTy : ty := TStruct [("Zone", TString)].

#[local] Instance smallLayouts : Vendored := {|
  layout n := match n with
    | metav1_ObjectMeta => TStruct [("Name", TString); ("Labels", TMap TString)]
    | v1_Affinity => TStruct [("NodeAffinity", TPtr zoneTy)]
    | v1_ResourceRequirements => TStruct [("Limits", TMap TString)]
    | v1_PodSpec => TStruct [("Volumes", TSlice zoneTy)]
    | _ => zoneTy
    end;
  vendored n := match n with
    | metav1_ObjectMeta => body [entries "Labels"]
    | v1_Affinity => body [pointer "NodeAffinity" zoneTy assigned]
    | v1_ResourceRequirements => body [entries "Limits"]
    | v1_PodSpec => body [elements "Volumes" zoneTy assigned]
    | _ => assigned
    end
|}.

#[local] Instance smallLayouts_laws : VendoredLaws.
Proof.
  intros n. destruct n; try (by apply assigned_deep); simpl; deep_body.
Qed.

Definition setIn (n : string) (x v : val) : val :=
  match v with VStruct fields => VStruct (setFieldOf n x fields) | _ => v end.

(** A cluster with a name, a label, three replicas and an affinity. *)
Definition heap0 : heap :=
  {[ 1%positive := CVar
       (setIn "ObjectMeta"
          (setIn "Labels" (VMap (Some 3%positive)) (setIn "Name" (VString "foo") (zero (layout metav1_ObjectMeta))))
          (setIn "Spec"
             (setIn "Replicas" (VPtr (Some 2%positive))
                (setIn "Affinity" (VPtr (Some 4%positive)) (zero RabbitmqClusterSpec)))
             (zero RabbitmqCluster)));
     2%positive := CVar (VInt 3);
     3%positive := CMap {[ "app" := VString "foo" ]};
     4%positive := CVar (VStruct [("NodeAffinity", VPtr (Some 5%positive))]);
     5%positive := CVar (VStruct [("Zone", VString "a")]) ]}.

Definition ref0 : val := VPtr (Some 1%positive).
Definition tree0 : tree := default Nil (reify heap0 (TPtr RabbitmqCluster) ref0).

Lemma generated_copies_witness :
  (RabbitmqCluster, RabbitmqCluster_DeepCopy) ∈ generated ∧
  reify heap0 (TPtr RabbitmqCluster) ref0 = Some tree0 ∧
  ∃ w h', RabbitmqCluster_DeepCopy ref0 heap0 = (Returns w, h') ∧ heap0 ⊆ h' ∧
    reify h' (TPtr RabbitmqCluster) w = Some tree0 ∧
    (∀ h'', (∀ l, heap0 !! l = None → h'' !! l = h' !! l) →
      reify h'' (TPtr RabbitmqCluster) w = Some tree0) ∧
    (∀ h'', (∀ l, is_Some (heap0 !! l) → h'' !! l = heap0 !! l) →
      reify h'' (TPtr RabbitmqCluster) ref0 = Some tree0).
Proof.
  assert ((RabbitmqCluster, RabbitmqCluster_DeepCopy) ∈ generated) as Hin by (rw /generated; find_field).
  assert (reify heap0 (TPtr RabbitmqCluster) ref0 = Some tree0) as Er by (vm_compute; reflexivity).
  split; [exact Hin|]. split; [exact Er|].
  exact (generated_copies RabbitmqCluster RabbitmqCluster_DeepCopy Hin heap0 ref0 tree0 Er).
Defined.

(** Scaling the original down is not seen in the copy. *)
Example copy_stays :
  let '(o, h) := RabbitmqCluster_DeepCopy ref0 heap0 in
  match o with
  | Returns w => reify (<[2%positive := CVar (VInt 1)]> h) (TPtr RabbitmqCluster) w = Some tree0
  | Panics _ => False
  end.
Proof. vm_compute. reflexivity. Qed.

(** ** A connection *)

Definition session0 : Session :=
  mkSession (mkReader ["Setting plugins"; " done"] None false) (mkReader ["warning"] None false)
    (Some (New "exit code 1")).

#[local] Instance oneSession : Streamer unit := {|
  NewSPDYExecutor _ _ w := (None, w);
  connect _ w := (inr session0, w);
  schedule _ := [true; false; false; true]
|}.

#[local] Instance oneSession_laws : StreamLaws unit.
Proof. intros request w s w' [= <- <-]. split; reflexivity. Qed.

Lemma Exec_collects_witness :
  Exec "ns" "foo-server-0-0" "rabbitmq" ["true"] tt =
  (("Setting plugins done", "warning", Some (New "exit code 1")), tt).
Proof. exact (Exec_collects "ns" "foo-server-0-0" "rabbitmq" ["true"] tt). Defined.

(** ** Two maps *)

Definition maps0 : heap :=
  {[ 1%positive := CMap (VString <$> {[ "a" := "1" ]});
     2%positive := CMap (VString <$> {[ "a" := "2"; "x.kubernetes.io/y" := "3" ]}) ]}.

Lemma mergeWithFilter_in_place_witness :
  ∃ l h',
    Aliasing.mergeWithFilter Metadata.isNotKubernetesAnnotation (VMap (Some 1%positive))
      [VMap (Some 2%positive)] maps0 = (Returns (VMap (Some l)), h') ∧
    Aliasing.holds h' (VMap (Some l))
      (Metadata.mergeWithFilter Metadata.isNotKubernetesAnnotation (Some {[ "a" := "1" ]})
         [Some {[ "a" := "2"; "x.kubernetes.io/y" := "3" ]}]) ∧
    (VMap (Some 1%positive) = VMap (Some l) ∨
     VMap (Some 1%positive) = VMap None ∧ maps0 !! l = None) ∧
    ∀ l', is_Some (maps0 !! l') → l' ≠ l → h' !! l' = maps0 !! l'.
Proof.
  apply Aliasing.mergeWithFilter_in_place.
  - vm_compute. reflexivity.
  - constructor; [vm_compute; reflexivity|constructor].
  - right. set_solver.
Defined.
